(** * Namespace diagnostic engine of openzeppelin-vscode

    A shallow embedding of [server/src/diagnostics.ts] and
    [server/src/helpers/slang.ts].  Source text is taken to be ASCII, so that a
    UTF-16 offset is a character count of a Rocq [string]. *)

From Stdlib Require Import String Ascii List Bool Arith PeanoNat Lia.
Import ListNotations.
Open Scope string_scope.
Open Scope list_scope.

Set Implicit Arguments.
Set Warnings "-register-all".

(** ** Strings as JavaScript uses them *)

Module Js.

(** The ASCII part of the regular expression class [\s]. *)
Definition isWhitespace (c : ascii) : bool :=
  let n := nat_of_ascii c in
  Nat.eqb n 9 || Nat.eqb n 10 || Nat.eqb n 11 || Nat.eqb n 12 || Nat.eqb n 13
  || Nat.eqb n 32.

(** Line terminators, which the regular expression [.] does not match. *)
Definition isLineTerminator (c : ascii) : bool :=
  let n := nat_of_ascii c in Nat.eqb n 10 || Nat.eqb n 13.

Fixpoint startsWith (p s : string) : bool :=
  match p, s with
  | EmptyString, _ => true
  | String a p', String b s' => Ascii.eqb a b && startsWith p' s'
  | String _ _, EmptyString => false
  end.

(** [s.includes(sub)] *)
Fixpoint includes (s sub : string) : bool :=
  startsWith sub s ||
  match s with
  | EmptyString => false
  | String _ s' => includes s' sub
  end.

Fixpoint rev_string (s : string) : string :=
  match s with
  | EmptyString => EmptyString
  | String c s' => rev_string s' ++ String c EmptyString
  end.

(** [/suffix$/.test(s)] for a literal [suffix] *)
Definition endsWith (suffix s : string) : bool :=
  startsWith (rev_string suffix) (rev_string s).

Fixpoint trimStart (s : string) : string :=
  match s with
  | EmptyString => EmptyString
  | String c s' => if isWhitespace c then trimStart s' else s
  end.

(** [s.trim()] *)
Definition trim (s : string) : string :=
  rev_string (trimStart (rev_string (trimStart s))).

Fixpoint split_ws (s tok : string) (prevWs : bool) : list string :=
  match s with
  | EmptyString => [tok]
  | String c r =>
      if isWhitespace c
      then (if prevWs then split_ws r EmptyString true else tok :: split_ws r EmptyString true)
      else split_ws r (tok ++ String c EmptyString) false
  end.

(** [s.split(/\s+/)]: the pieces between maximal runs of white space, with an
    empty piece at an end where the text starts or ends with white space. *)
Definition splitWhitespace (s : string) : list string := split_ws s EmptyString false.

(** [arr.includes(x)] on an array of strings *)
Definition arrayIncludes (arr : list string) (x : string) : bool :=
  existsb (String.eqb x) arr.

(** The longest prefix of non white space characters, and what follows it. *)
Fixpoint spanNonWs (s : string) : string * string :=
  match s with
  | EmptyString => (EmptyString, EmptyString)
  | String c r =>
      if isWhitespace c then (EmptyString, s)
      else let (a, b) := spanNonWs r in (String c a, b)
  end.

Fixpoint dropSpaces (s : string) : string :=
  match s with
  | String " " r => dropSpaces r
  | _ => s
  end.

(** Strip a literal prefix. *)
Fixpoint stripPrefix (p s : string) : option string :=
  match p, s with
  | EmptyString, _ => Some s
  | String a p', String b s' => if Ascii.eqb a b then stripPrefix p' s' else None
  | String _ _, EmptyString => None
  end.

End Js.

(** ** The concrete syntax tree of the parsing library *)

Module TerminalKind.
Inductive t : Set :=
| EndOfLine
| MultiLineComment
| MultiLineNatSpecComment
| SingleLineComment
| SingleLineNatSpecComment
| Whitespace
| Identifier
| ImmutableKeyword
| ConstantKeyword
| PublicKeyword
| Other (name : string).

Definition eq_dec (a b : t) : {a = b} + {a <> b}.
Proof. decide equality. apply string_dec. Defined.

Definition eqb (a b : t) : bool := if eq_dec a b then true else false.
End TerminalKind.

Module NonterminalKind.
Inductive t : Set :=
| SourceUnit
| ContractDefinition
| FunctionDefinition
| StateVariableDefinition
| StateVariableDefinitionValue
| Expression
| StructDefinition
| VersionExpressionSet
| Other (name : string).

Definition eq_dec (a b : t) : {a = b} + {a <> b}.
Proof. decide equality. apply string_dec. Defined.

Definition eqb (a b : t) : bool := if eq_dec a b then true else false.
End NonterminalKind.

(** The labels of the edges from a nonterminal to its children: the field
    names of the typed syntax classes. *)
Module EdgeLabel.
Inductive t : Set :=
| LeadingTrivia
| TrailingTrivia
| Item
| Separator
| Variant
| Name
| TypeName
| Inheritance
| Types
| Parameters
| Attributes
| Value
| Members
| Unlabeled.

Definition eq_dec (a b : t) : {a = b} + {a <> b}.
Proof. decide equality. Defined.

Definition eqb (a b : t) : bool := if eq_dec a b then true else false.
End EdgeLabel.

Inductive Node : Set :=
| TerminalNode (kind : TerminalKind.t) (text : string)
| NonterminalNode (kind : NonterminalKind.t) (children : list (EdgeLabel.t * Node)).

Definition Edge : Set := (EdgeLabel.t * Node)%type.

Definition isTerminalNode (n : Node) : bool :=
  match n with TerminalNode _ _ => true | NonterminalNode _ _ => false end.

Definition isNonterminalNode (n : Node) : bool := negb (isTerminalNode n).

Definition hasNonterminalKind (k : NonterminalKind.t) (n : Node) : bool :=
  match n with
  | NonterminalNode k' _ => NonterminalKind.eqb k' k
  | TerminalNode _ _ => false
  end.

Definition hasTerminalKind (k : TerminalKind.t) (n : Node) : bool :=
  match n with
  | TerminalNode k' _ => TerminalKind.eqb k' k
  | NonterminalNode _ _ => false
  end.

(** [node.children()] *)
Definition children (n : Node) : list Node :=
  match n with
  | TerminalNode _ _ => []
  | NonterminalNode _ cs => map snd cs
  end.

(** [node.unparse()]: the text of the terminals of the subtree, in order. *)
Fixpoint unparse (n : Node) : string :=
  match n with
  | TerminalNode _ t => t
  | NonterminalNode _ cs =>
      (fix go (l : list (EdgeLabel.t * Node)) : string :=
         match l with
         | [] => EmptyString
         | (_, c) :: r => (unparse c ++ go r)%string
         end) cs
  end.

(** The nodes of a subtree in document order, the root first. *)
Fixpoint preorder (n : Node) : list Node :=
  n :: match n with
       | TerminalNode _ _ => []
       | NonterminalNode _ cs =>
           (fix go (l : list (EdgeLabel.t * Node)) : list Node :=
              match l with
              | [] => []
              | (_, c) :: r => preorder c ++ go r
              end) cs
       end.

(** The length of the text a node itself contributes: a terminal's text. *)
Definition ownLength (n : Node) : nat :=
  match n with
  | TerminalNode _ t => String.length t
  | NonterminalNode _ _ => 0
  end.

Fixpoint sumOwnLength (l : list Node) : nat :=
  match l with
  | [] => 0
  | n :: r => ownLength n + sumOwnLength r
  end.

(** ** Text ranges and documents *)

Record TextRange : Set := { range_start : nat; range_end : nat }.

Record Position : Set := { line : nat; character : nat }.

Record Range : Set := { start : Position; end_ : Position }.

(** The editor's document: its text and its offset-to-position map. *)
Record TextDocument : Type := {
  getText : string;
  positionAt : nat -> Position
}.

(** ** Tree cursors

    A cursor is a position in the document-order walk of the subtree it was
    created on.  [spawn] starts a new walk rooted at the current node; a copy
    of the record is a [clone].  A walk that runs off either end of its
    subtree is completed: the cursor is back on its root and no longer moves. *)

Record Cursor : Set := {
  cur_root : Node;
  cur_offset : nat;
  cur_index : nat;
  cur_completed : bool
}.

Definition nodes (c : Cursor) : list Node := preorder (cur_root c).

(** [cursor.node()] *)
Definition node (c : Cursor) : Node := nth (cur_index c) (nodes c) (cur_root c).

Definition startOffset (c : Cursor) : nat :=
  cur_offset c + sumOwnLength (firstn (cur_index c) (nodes c)).

(** [cursor.textRange], in UTF-16 units *)
Definition textRange (c : Cursor) : TextRange :=
  {| range_start := startOffset c;
     range_end := startOffset c + String.length (unparse (node c)) |}.

(** [parseOutput.createTreeCursor()] *)
Definition createTreeCursor (tree : Node) : Cursor :=
  {| cur_root := tree; cur_offset := 0; cur_index := 0; cur_completed := false |}.

(** [cursor.spawn()] *)
Definition spawn (c : Cursor) : Cursor :=
  {| cur_root := node c; cur_offset := startOffset c; cur_index := 0;
     cur_completed := false |}.

(** [cursor.clone()] *)
Definition clone (c : Cursor) : Cursor := c.

Definition moveTo (c : Cursor) (i : nat) : Cursor :=
  {| cur_root := cur_root c; cur_offset := cur_offset c; cur_index := i;
     cur_completed := cur_completed c |}.

Definition complete (c : Cursor) : Cursor :=
  {| cur_root := cur_root c; cur_offset := cur_offset c; cur_index := 0;
     cur_completed := true |}.

(** [cursor.goToPrevious()] *)
Definition goToPrevious (c : Cursor) : bool * Cursor :=
  if cur_completed c then (false, c)
  else match cur_index c with
       | 0 => (false, complete c)
       | S i => (true, moveTo c i)
       end.

(** The first index at or after [i] whose node satisfies [p], walking [l]. *)
Fixpoint findFrom (p : Node -> bool) (l : list Node) (i : nat) : option nat :=
  match l with
  | [] => None
  | n :: r => if p n then Some i else findFrom p r (S i)
  end.

(** Repeated [cursor.goToNext()] until the node satisfies [p]. *)
Definition goToNextMatching (p : Node -> bool) (c : Cursor) : bool * Cursor :=
  if cur_completed c then (false, c)
  else match findFrom p (skipn (S (cur_index c)) (nodes c)) (S (cur_index c)) with
       | Some j => (true, moveTo c j)
       | None => (false, complete c)
       end.

(** [cursor.goToNextTerminal()] *)
Definition goToNextTerminal : Cursor -> bool * Cursor :=
  goToNextMatching isTerminalNode.

(** [cursor.goToNextTerminalWithKind(kind)] *)
Definition goToNextTerminalWithKind (k : TerminalKind.t) : Cursor -> bool * Cursor :=
  goToNextMatching (hasTerminalKind k).

(** [cursor.goToNextNonterminalWithKind(kind)] *)
Definition goToNextNonterminalWithKind (k : NonterminalKind.t) : Cursor -> bool * Cursor :=
  goToNextMatching (hasNonterminalKind k).

(** ** helpers/slang.ts *)

Definition isTriviaKind (kind : TerminalKind.t) : bool :=
  TerminalKind.eqb kind TerminalKind.EndOfLine ||
  TerminalKind.eqb kind TerminalKind.MultiLineComment ||
  TerminalKind.eqb kind TerminalKind.MultiLineNatSpecComment ||
  TerminalKind.eqb kind TerminalKind.SingleLineComment ||
  TerminalKind.eqb kind TerminalKind.SingleLineNatSpecComment ||
  TerminalKind.eqb kind TerminalKind.Whitespace.

Definition isTrivia (n : Node) : bool :=
  match n with
  | TerminalNode kind _ => isTriviaKind kind
  | NonterminalNode _ _ => false
  end.

(** The loops of this file move a cursor forward or backward through a finite
    walk, so the number of nodes of the walk bounds their iterations. *)
Definition walkLength (c : Cursor) : nat := List.length (nodes c).

Fixpoint goToLastTerminal_loop (fuel : nat) (c : Cursor) : Cursor :=
  match fuel with
  | 0 => c
  | S fuel' =>
      if negb (fst (goToNextTerminal (clone c))) then c
      else let (moved, c') := goToNextTerminal c in
           if moved then goToLastTerminal_loop fuel' c' else c'
  end.

Definition goToLastTerminal (c : Cursor) : Cursor :=
  goToLastTerminal_loop (walkLength c) c.

Fixpoint goToFirstNonTrivia_loop (fuel : nat) (c : Cursor) : bool * Cursor :=
  match fuel with
  | 0 => (false, c)
  | S fuel' =>
      if negb (fst (goToNextTerminal (clone c))) then (false, c)
      else let (moved, c') := goToNextTerminal c in
           if moved && isTrivia (node c') then goToFirstNonTrivia_loop fuel' c'
           else (true, c')
  end.

Definition goToFirstNonTrivia (c : Cursor) : bool * Cursor :=
  goToFirstNonTrivia_loop (walkLength c) c.

Fixpoint goToPreviousTerminalWithKinds_loop (fuel : nat) (c : Cursor)
    (kinds : list TerminalKind.t) : bool * Cursor :=
  match fuel with
  | 0 => (false, c)
  | S fuel' =>
      let (moved, c') := goToPrevious c in
      if moved then
        match node c' with
        | TerminalNode kind _ =>
            if existsb (TerminalKind.eqb kind) kinds then (true, c')
            else goToPreviousTerminalWithKinds_loop fuel' c' kinds
        | NonterminalNode _ _ => goToPreviousTerminalWithKinds_loop fuel' c' kinds
        end
      else (false, c')
  end.

Definition goToPreviousTerminalWithKinds (c : Cursor) (kinds : list TerminalKind.t)
    : bool * Cursor :=
  goToPreviousTerminalWithKinds_loop (S (cur_index c)) c kinds.

(** ** Exceptions, and the state the engine writes to *)

Inductive Result (A : Type) : Type :=
| Val (a : A)
| Throw.
Arguments Val {A} a.
Arguments Throw {A}.

Definition bindR {A B : Type} (r : Result A) (k : A -> Result B) : Result B :=
  match r with
  | Val a => k a
  | Throw => Throw
  end.

(** [assert(cond)] of node:assert *)
Definition assertR (cond : bool) : Result unit := if cond then Val tt else Throw.

Module DiagnosticSeverity.
Inductive t : Set := Error | Warning | Information | Hint.
End DiagnosticSeverity.

(** [PublicGetter] of namespace.ts *)
Record PublicGetter : Set := { typeName : string }.

Record NamespaceableVariable : Set := {
  var_content : string;
  var_name : string;
  var_range : Range;
  var_publicGetter : option PublicGetter
}.

(** [NamespaceableContract] of server.ts *)
Record NamespaceableContract : Set := {
  name : string;
  variables : list NamespaceableVariable
}.

(** The [data] argument of [addDiagnostic]: nothing, a replacement text, or
    the contract record. *)
Inductive DiagnosticData : Set :=
| NoData
| Replacement (replacement : string)
| ContractData (contract : NamespaceableContract).

Record Diagnostic : Set := {
  diag_range : Range;
  diag_message : string;
  diag_details : string;
  diag_severity : DiagnosticSeverity.t;
  diag_code : string;
  diag_data : DiagnosticData
}.

(** The caller's [diagnostics] array and the console, both only appended to. *)
Record State : Set := {
  diagnostics : list Diagnostic;
  console : list string
}.

Definition M (A : Type) : Type := State -> Result A * State.

Definition ret {A : Type} (a : A) : M A := fun st => (Val a, st).

Definition bind {A B : Type} (m : M A) (k : A -> M B) : M B :=
  fun st =>
    match m st with
    | (Val a, st') => k a st'
    | (Throw, st') => (Throw, st')
    end.

Declare Scope engine_scope.
Delimit Scope engine_scope with engine.
Notation "x <- m ;; k" := (bind m (fun x => k))
  (at level 61, m at next level, right associativity) : engine_scope.
Notation "m ;;; k" := (bind m (fun _ => k))
  (at level 61, right associativity) : engine_scope.
Open Scope engine_scope.

(** An exception-only computation run inside the engine. *)
Definition liftR {A : Type} (r : Result A) : M A := fun st => (r, st).

Definition assertM (cond : bool) : M unit := liftR (assertR cond).

(** [console.log(line)] and [console.error(line)] *)
Definition console_log (line : string) : M unit :=
  fun st => (Val tt, {| diagnostics := diagnostics st; console := console st ++ [line] |}).

(** Modelled from the spec: [addDiagnostic] of server.ts, which is not among
    the sources.  The diagnostic sink accepts a range, message, explanation,
    severity, code and quick-fix payload, and accumulates the record. *)
Definition addDiagnostic (textDocument : TextDocument) (range : Range)
    (message details : string) (severity : DiagnosticSeverity.t) (code : string)
    (data : DiagnosticData) : M unit :=
  fun st =>
    (Val tt,
     {| diagnostics := diagnostics st ++
          [{| diag_range := range; diag_message := message; diag_details := details;
              diag_severity := severity; diag_code := code; diag_data := data |}];
        console := console st |}).

Fixpoint foldM {A B : Type} (f : A -> B -> M A) (l : list B) (a : A) : M A :=
  match l with
  | [] => ret a
  | x :: r => a' <- f a x ;; foldM f r a'
  end.

(** ** The typed syntax classes, as far as the engine reads them *)

Module Ast.

Definition field (l : EdgeLabel.t) (n : Node) : option Node :=
  match n with
  | TerminalNode _ _ => None
  | NonterminalNode _ cs =>
      option_map snd (find (fun e : Edge => EdgeLabel.eqb (fst e) l) cs)
  end.

(** A field the grammar requires; reading it on a malformed node throws. *)
Definition required (l : EdgeLabel.t) (n : Node) : Result Node :=
  match field l n with
  | Some c => Val c
  | None => Throw
  end.

Definition text (n : Node) : Result string :=
  match n with
  | TerminalNode _ t => Val t
  | NonterminalNode _ _ => Throw
  end.

(** [list.items] of a repeated or separated list node *)
Definition items (n : Node) : list Node :=
  match n with
  | TerminalNode _ _ => []
  | NonterminalNode _ cs =>
      map snd (filter (fun e : Edge => EdgeLabel.eqb (fst e) EdgeLabel.Item) cs)
  end.

(** The constructor of a typed class checks the kind of the node it wraps. *)
Definition assertKind (k : NonterminalKind.t) (n : Node) : Result unit :=
  assertR (hasNonterminalKind k n).

(** [arr.some(f)], stopping at the first hit *)
Fixpoint some {A : Type} (f : A -> Result bool) (l : list A) : Result bool :=
  match l with
  | [] => Val false
  | x :: r => bindR (f x) (fun b => if b then Val true else some f r)
  end.

Fixpoint mapR {A B : Type} (f : A -> Result B) (l : list A) : Result (list B) :=
  match l with
  | [] => Val []
  | x :: r => bindR (f x) (fun y => bindR (mapR f r) (fun ys => Val (y :: ys)))
  end.

End Ast.

(** ** helpers/slang.ts, continued *)

Record TriviaTextWithRange : Set := {
  text : string;
  trivia_textRange : TextRange;
  kind : TerminalKind.t
}.

(** Gets the last trivia matching any of the given kinds from the leading
    trivia nodes starting from the cursor. *)
Definition getLastPrecedingTriviaWithKinds (c : Cursor) (kinds : list TerminalKind.t)
    : Result (option TriviaTextWithRange) :=
  bindR (assertR (forallb isTriviaKind kinds)) (fun _ =>
  let triviaCursor := spawn c in
  let (found, triviaCursor1) := goToFirstNonTrivia triviaCursor in
  if found then
    let (found', triviaCursor2) := goToPreviousTerminalWithKinds triviaCursor1 kinds in
    if found' then
      match node triviaCursor2 with
      | TerminalNode k t =>
          Val (Some {| text := t; trivia_textRange := textRange triviaCursor2; kind := k |})
      | NonterminalNode _ _ => Throw
      end
    else Val None
  else Val None).

(** Gets the NatSpec comment within the leading trivia nodes starting from
    the cursor. *)
Definition getNatSpec (c : Cursor) : Result (option TriviaTextWithRange) :=
  getLastPrecedingTriviaWithKinds c
    [TerminalKind.MultiLineNatSpecComment; TerminalKind.SingleLineNatSpecComment].

Fixpoint skipLeadingTrivia_loop (fuel : nat) (c : Cursor) : Cursor :=
  match fuel with
  | 0 => c
  | S fuel' =>
      let (moved, c') := goToNextTerminal c in
      if moved && isTrivia (node c') then skipLeadingTrivia_loop fuel' c' else c'
  end.

Fixpoint lastNonTriviaEnd_loop (fuel : nat) (c : Cursor) (end0 : nat) : nat :=
  match fuel with
  | 0 => end0
  | S fuel' =>
      let (moved, c') := goToPrevious c in
      if moved then
        if isTerminalNode (node c') && negb (isTrivia (node c'))
        then range_end (textRange c')
        else lastNonTriviaEnd_loop fuel' c' end0
      else end0
  end.

(** Gets the range of the cursor, trimming whitespace, comments and NatSpec
    from the start and end. *)
Definition getTrimmedRange (c : Cursor) : Result TextRange :=
  let childCursor := spawn c in
  let end0 := range_end (textRange childCursor) in
  bindR (assertR (isNonterminalNode (node childCursor))) (fun _ =>
  let childCursor1 := skipLeadingTrivia_loop (walkLength childCursor) childCursor in
  let start1 := range_start (textRange childCursor1) in
  let childCursor2 := goToLastTerminal childCursor1 in
  Val {| range_start := start1;
         range_end := lastNonTriviaEnd_loop (S (cur_index childCursor2)) childCursor2 end0 |}).

Definition slangToVSCodeRange (doc : TextDocument) (slangRange : TextRange) : Range :=
  {| start := positionAt doc (range_start slangRange);
     end_ := positionAt doc (range_end slangRange) |}.

(** ** Collaborators outside these two files *)

(** A compiler version, as the semver library compares it. *)
Record Version : Set := { major : nat; minor : nat; patch : nat }.

(** [parse_output.ParseOutput] *)
Record ParseOutput : Set := { isValid : bool; tree : Node }.

(** What the engine is given by the parsing library, the semver library and
    the modules namespace.ts, settings.ts and solidityVersion.ts. *)
Record Collaborators : Type := {
  (** [new Language(version).parse(kind, text)] *)
  language_parse : Version -> NonterminalKind.t -> string -> ParseOutput;
  (** [Language.supportedVersions()], oldest first *)
  supportedVersions : list Version;
  (** [new Range(range).test(version)]; false for a range that does not parse *)
  range_test : string -> Version -> bool;
  inferSolidityVersion : TextDocument -> Version;
  getNamespacePrefix : TextDocument -> string;
  getNamespaceId : string -> string -> string;
  calculateERC7201StorageLocation : string -> string
}.

Module semver.

Definition compare (a b : Version) : comparison :=
  match Nat.compare (major a) (major b) with
  | Eq => match Nat.compare (minor a) (minor b) with
          | Eq => Nat.compare (patch a) (patch b)
          | o => o
          end
  | o => o
  end.

Definition maxSatisfying_step (test : Version -> bool) (max : option Version)
    (v : Version) : option Version :=
  if test v then
    match max with
    | None => Some v
    | Some m => match compare m v with Lt => Some v | _ => max end
    end
  else max.

(** [semver.maxSatisfying(versions, range)] *)
Definition maxSatisfying (env : Collaborators) (versions : list Version)
    (range : string) : option Version :=
  fold_left (maxSatisfying_step (range_test env range)) versions None.

End semver.

Definition collectVersionExpression (env : Collaborators)
    (possibleHighestVersions : list Version) (versionExpression : Node)
    : M (list Version) :=
  assertM (isNonterminalNode versionExpression) ;;;
  let version := Js.trim (unparse versionExpression) in
  match semver.maxSatisfying env (supportedVersions env) version with
  | Some maxSatisfying => ret (possibleHighestVersions ++ [maxSatisfying])
  | None =>
      console_log ("Could not find max satisfying version for range:" ++ version)%string ;;;
      ret possibleHighestVersions
  end.

Definition collectVersionExpressionSet (env : Collaborators)
    (possibleHighestVersions : list Version) (versionExpressionSet : Node)
    : M (list Version) :=
  foldM (collectVersionExpression env) (children versionExpressionSet)
    possibleHighestVersions.

(** The matches of the query [[VersionExpressionSet]] from a cursor. *)
Definition queryVersionExpressionSets (c : Cursor) : list Node :=
  filter (hasNonterminalKind NonterminalKind.VersionExpressionSet) (nodes c).

Definition getHighestSupportedPragmaVersion (env : Collaborators)
    (textDocument : TextDocument) : M (option Version) :=
  let allSolidityVersions := supportedVersions env in
  match rev allSolidityVersions with
  | [] => liftR Throw
  | newest :: _ =>
      let parseOutput :=
        language_parse env newest NonterminalKind.SourceUnit (getText textDocument) in
      let cursor := createTreeCursor (tree parseOutput) in
      possibleHighestVersions <-
        foldM (collectVersionExpressionSet env) (queryVersionExpressionSets cursor) [] ;;
      ret (semver.maxSatisfying env possibleHighestVersions "*")
  end.

(** ** The regular expressions of diagnostics.ts

    Each matcher finds the leftmost match and returns its capture group, as
    [String.prototype.match] does for a pattern without the global flag. *)

Module Regex.

(** Try [f] at every suffix of the text, leftmost first. *)
Fixpoint scan {A : Type} (f : string -> option A) (s : string) : option A :=
  match f s with
  | Some r => Some r
  | None => match s with
            | EmptyString => None
            | String _ r => scan f r
            end
  end.

Definition dquote : string := String (ascii_of_nat 34) EmptyString.

Definition annotationTag : string := "@custom:storage-location erc7201:".

(** [/@custom:storage-location erc7201:(\S+)/] *)
Definition singleLineAnnotation_at (s : string) : option string :=
  match Js.stripPrefix annotationTag s with
  | Some rest =>
      match fst (Js.spanNonWs rest) with
      | EmptyString => None
      | id => Some id
      end
  | None => None
  end.

Definition matchSingleLineAnnotation : string -> option string :=
  scan singleLineAnnotation_at.

(** The longest run of non white space characters at the head of [s] that is
    followed by white space or by the comment closer. *)
Fixpoint captureBeforeLookahead (s : string) : option string :=
  match s with
  | EmptyString => None
  | String c r =>
      if Js.isWhitespace c then Some EmptyString
      else match captureBeforeLookahead r with
           | Some p => Some (String c p)
           | None => if Js.startsWith "*/" s then Some EmptyString else None
           end
  end.

(** [/@custom:storage-location erc7201:(\S+)(?=\s|\*\/)/] *)
Definition multiLineAnnotation_at (s : string) : option string :=
  match Js.stripPrefix annotationTag s with
  | Some rest =>
      match captureBeforeLookahead rest with
      | Some EmptyString => None
      | r => r
      end
  | None => None
  end.

Definition matchMultiLineAnnotation : string -> option string :=
  scan multiLineAnnotation_at.

Definition formulaHead : string :=
  ("keccak256(abi.encode(uint256(keccak256(" ++ dquote)%string.

Definition optBind {A B : Type} (o : option A) (k : A -> option B) : option B :=
  match o with Some a => k a | None => None end.

(** What follows the captured id: the closing of the inner hash, [- 1], the
    mask, with any number of spaces around the two operators. *)
Definition formulaTail (s : string) : bool :=
  match
    optBind (Js.stripPrefix (dquote ++ "))")%string s) (fun s1 =>
    optBind (Js.stripPrefix "-" (Js.dropSpaces s1)) (fun s2 =>
    optBind (Js.stripPrefix "1))" (Js.dropSpaces s2)) (fun s3 =>
    optBind (Js.stripPrefix "&" (Js.dropSpaces s3)) (fun s4 =>
    Js.stripPrefix "~bytes32(uint256(0xff))" (Js.dropSpaces s4)))))
  with
  | Some _ => true
  | None => false
  end.

(** The greedy capture group: the longest text on the line after which the
    rest of the pattern matches. *)
Fixpoint captureFormulaId (s : string) : option string :=
  match s with
  | EmptyString => None
  | String c r =>
      match (if Js.isLineTerminator c then None else captureFormulaId r) with
      | Some p => Some (String c p)
      | None => if formulaTail s then Some EmptyString else None
      end
  end.

Definition formula_at (s : string) : option string :=
  optBind (Js.stripPrefix formulaHead s) captureFormulaId.

(** The pattern of the ERC-7201 formula comment, capturing the namespace id. *)
Definition matchFormula : string -> option string := scan formula_at.

(** [/_STORAGE_LOCATION$/] or [/StorageLocation$/] *)
Definition isStorageLocationName (s : string) : bool :=
  Js.endsWith "_STORAGE_LOCATION" s || Js.endsWith "StorageLocation" s.

End Regex.

(** ** diagnostics.ts *)

Definition VARIABLE_CAN_BE_NAMESPACED : string := "VariableCanBeNamespaced".
Definition CONTRACT_CAN_BE_NAMESPACED : string := "ContractCanBeNamespaced".
Definition NAMESPACE_ID_MISMATCH : string := "NamespaceIdMismatch".
Definition NAMESPACE_ID_MISMATCH_HASH_COMMENT : string := "NamespaceIdMismatchHashComment".
Definition NAMESPACE_HASH_MISMATCH : string := "NamespaceHashMismatch".
Definition NAMESPACE_STANDALONE_HASH_MISMATCH : string := "NamespaceStandaloneHashMismatch".
Definition VARIABLE_HAS_INITIAL_VALUE : string := "VariableHasInitialValue".
Definition MULTIPLE_NAMESPACES : string := "MultipleNamespaces".
Definition DUPLICATE_NAMESPACE_ID : string := "DuplicateNamespaceId".

(** The loop [while (cursor.goToNextNonterminalWithKind(kind)) { body }] over
    a cursor [c] and the variables [a] the body updates.  The body is handed
    the cursor on the node found and returns it where it left it. *)
Fixpoint whileNext {A : Type} (fuel : nat) (k : NonterminalKind.t)
    (body : Cursor -> A -> M (Cursor * A)) (c : Cursor) (a : A) : M A :=
  match fuel with
  | 0 => ret a
  | S fuel' =>
      let (found, c') := goToNextNonterminalWithKind k c in
      if found then
        r <- body c' a ;;
        whileNext fuel' k body (fst r) (snd r)
      else ret a
  end.

(** [contractDef.name.text] *)
Definition contractName (contractDef : Node) : Result string :=
  bindR (Ast.required EdgeLabel.Name contractDef) Ast.text.

Definition getExpectedNamespaceId (env : Collaborators) (namespacePrefix : string)
    (contractDef : Node) : Result string :=
  bindR (contractName contractDef) (fun n => Val (getNamespaceId env namespacePrefix n)).

(** [contractDef.inheritance?.types.items.some(type =>
      type.typeName.items.some(item => item.text === base))];
    [None] is [undefined], for a contract without an inheritance list. *)
Definition inheritsFrom (base : string) (contractDef : Node) : Result (option bool) :=
  match Ast.field EdgeLabel.Inheritance contractDef with
  | None => Val None
  | Some inheritance =>
      bindR (Ast.required EdgeLabel.Types inheritance) (fun types =>
      bindR (Ast.some
               (fun type =>
                  bindR (Ast.required EdgeLabel.TypeName type) (fun typeName =>
                  Ast.some (fun item => bindR (Ast.text item) (fun t => Val (String.eqb t base)))
                           (Ast.items typeName)))
               (Ast.items types))
            (fun b => Val (Some b)))
  end.

Definition truthy (o : option bool) : bool :=
  match o with Some b => b | None => false end.

(** The test on one function definition of [inferUpgradeable]: named
    [_authorizeUpgrade], one parameter, whose type unparses to [address]. *)
Definition isAuthorizeUpgrade (functionDefNode : Node) : Result bool :=
  bindR (Ast.assertKind NonterminalKind.FunctionDefinition functionDefNode) (fun _ =>
  bindR (Ast.required EdgeLabel.Name functionDefNode) (fun functionName =>
  bindR (Ast.required EdgeLabel.Variant functionName) (fun variant =>
  bindR (Ast.text variant) (fun functionName =>
  if String.eqb functionName "_authorizeUpgrade" then
    bindR (Ast.required EdgeLabel.Parameters functionDefNode) (fun declaration =>
    bindR (Ast.required EdgeLabel.Parameters declaration) (fun parameters =>
    match Ast.items parameters with
    | [parameter] =>
        bindR (Ast.required EdgeLabel.TypeName parameter) (fun typeName =>
        Val (String.eqb (unparse typeName) "address"))
    | _ => Val false
    end))
  else Val false)))).

Fixpoint inferUpgradeable_functions (fuel : nat) (functionCursor : Cursor) : Result bool :=
  match fuel with
  | 0 => Val false
  | S fuel' =>
      let (found, functionCursor') :=
        goToNextNonterminalWithKind NonterminalKind.FunctionDefinition functionCursor in
      if found then
        bindR (assertR (isNonterminalNode (node functionCursor'))) (fun _ =>
        bindR (isAuthorizeUpgrade (node functionCursor')) (fun hit =>
        if hit then Val true else inferUpgradeable_functions fuel' functionCursor'))
      else Val false
  end.

Definition hasUpgradesAnnotation (natSpec : option TriviaTextWithRange) : bool :=
  match natSpec with
  | None => false
  | Some n =>
      let natSpecTokens := Js.splitWhitespace (text n) in
      Js.arrayIncludes natSpecTokens "@custom:oz-upgrades"
      || Js.arrayIncludes natSpecTokens "@custom:oz-upgrades-from"
  end.

(** Infers whether a contract looks like an upgradeable contract, based on any
    of the following: it inherits [Initializable] or [UUPSUpgradeable]; it has
    an [_authorizeUpgrade(address)] function; it has the NatSpec annotation
    [@custom:oz-upgrades] or [@custom:oz-upgrades-from]. *)
Definition inferUpgradeable (cursor : Cursor) (contractDef : Node) : Result bool :=
  bindR (inheritsFrom "Initializable" contractDef) (fun hasInitializable =>
  bindR (inheritsFrom "UUPSUpgradeable" contractDef) (fun hasUUPSUpgradeable =>
  if truthy hasInitializable || truthy hasUUPSUpgradeable then Val true
  else
    let functionCursor := spawn cursor in
    bindR (inferUpgradeable_functions (walkLength functionCursor) functionCursor)
      (fun authorizes =>
    if authorizes then Val true
    else
      bindR (getNatSpec cursor) (fun natSpec =>
      if hasUpgradesAnnotation natSpec then Val true else Val false)))).

Definition validateNamespaceableContract (cursor : Cursor) (textDocument : TextDocument)
    (namespaceableContract : NamespaceableContract) : M unit :=
  if Nat.ltb 0 (List.length (variables namespaceableContract)) then
    let contractChildCursor := spawn cursor in
    let contractChildCursor' :=
      snd (goToNextTerminalWithKind TerminalKind.Identifier contractChildCursor) in
    let identifierStart := range_start (textRange contractChildCursor') in
    let contractDefEnd := range_end (textRange cursor) in
    addDiagnostic textDocument
      (slangToVSCodeRange textDocument
         {| range_start := identifierStart; range_end := contractDefEnd |})
      "Contract can be namespaced."
      "If this contract is an upgradeable contract, consider moving its variables to namespaced storage."
      DiagnosticSeverity.Hint
      CONTRACT_CAN_BE_NAMESPACED
      (ContractData namespaceableContract)
  else ret tt.

(** The fields of a [StateVariableDefinition] the engine reads. *)
Record StateVariable : Set := {
  sv_attributes : list Node;
  sv_typeName : Node;
  sv_name : string;
  sv_value : option Node
}.

(** [new StateVariableDefinition(node)] and its fields; an attribute is kept
    as its [variant] node. *)
Definition stateVariableDefinition (n : Node) : Result StateVariable :=
  bindR (Ast.assertKind NonterminalKind.StateVariableDefinition n) (fun _ =>
  bindR (Ast.required EdgeLabel.TypeName n) (fun typeName =>
  bindR (Ast.required EdgeLabel.Attributes n) (fun attributes =>
  bindR (Ast.mapR (Ast.required EdgeLabel.Variant) (Ast.items attributes)) (fun variants =>
  bindR (Ast.required EdgeLabel.Name n) (fun nameNode =>
  bindR (Ast.text nameNode) (fun nameText =>
  Val {| sv_attributes := variants; sv_typeName := typeName; sv_name := nameText;
         sv_value := Ast.field EdgeLabel.Value n |})))))).

Definition isImmutableOrConstant (variant : Node) : bool :=
  match variant with
  | TerminalNode k _ =>
      TerminalKind.eqb k TerminalKind.ImmutableKeyword
      || TerminalKind.eqb k TerminalKind.ConstantKeyword
  | NonterminalNode _ _ => false
  end.

(** The local variables the attribute loop of the variable classifier writes. *)
Record AttributeScan : Set := {
  ignoreVariable : bool;
  replacement : string;
  getter : option PublicGetter
}.

Definition scanAttribute (stateVar : StateVariable) (acc : AttributeScan)
    (variant : Node) : M AttributeScan :=
  if isImmutableOrConstant variant then
    ret {| ignoreVariable := true; replacement := replacement acc; getter := getter acc |}
  else
    let replacement' :=
      (unparse (sv_typeName stateVar) ++ " " ++ sv_name stateVar ++ ";")%string in
    console_log ("Replacing variable with: " ++ replacement')%string ;;;
    ret {| ignoreVariable := ignoreVariable acc;
           replacement := replacement';
           getter := if hasTerminalKind TerminalKind.PublicKeyword variant
                     then Some {| typeName := unparse (sv_typeName stateVar) |}
                     else getter acc |}.

(** One round of the loop of [validateNamespaceableVariables], with the
    cursor on a state variable definition. *)
Definition classifyVariable (env : Collaborators) (textDocument : TextDocument)
    (skipDiagnostic : bool) (childCursor : Cursor)
    (namespaceableContract : NamespaceableContract)
    : M (Cursor * NamespaceableContract) :=
  let cursorNode := node childCursor in
  assertM (isNonterminalNode cursorNode) ;;;
  trimmedRange <- liftR (getTrimmedRange childCursor) ;;
  let variableText := Js.trim (unparse cursorNode) in
  let language := inferSolidityVersion env textDocument in
  let parseVar :=
    language_parse env language NonterminalKind.StateVariableDefinition variableText in
  stateVar <- liftR (stateVariableDefinition (tree parseVar)) ;;
  scan <- foldM (scanAttribute stateVar) (sv_attributes stateVar)
            {| ignoreVariable := false; replacement := variableText; getter := None |} ;;
  if ignoreVariable scan then
    console_log ("Ignoring immutable or constant variable: " ++ variableText)%string ;;;
    ret (childCursor, namespaceableContract)
  else
    match sv_value stateVar with
    | Some _ =>
        (if negb skipDiagnostic then
           addDiagnostic textDocument (slangToVSCodeRange textDocument trimmedRange)
             "Variable has initial value"
             "If this contract is an upgradeable contract, consider moving this variable to namespaced storage and setting it in an initializer."
             DiagnosticSeverity.Warning
             VARIABLE_HAS_INITIAL_VALUE
             NoData
         else ret tt) ;;;
        ret (childCursor, namespaceableContract)
    | None =>
        (if negb skipDiagnostic then
           addDiagnostic textDocument (slangToVSCodeRange textDocument trimmedRange)
             "Variable can be namespaced."
             "If this contract is an upgradeable contract, consider moving this variable to namespaced storage."
             DiagnosticSeverity.Information
             VARIABLE_CAN_BE_NAMESPACED
             NoData
         else ret tt) ;;;
        ret (childCursor,
             {| name := name namespaceableContract;
                variables := variables namespaceableContract ++
                  [{| var_content := replacement scan;
                      var_name := sv_name stateVar;
                      var_range := slangToVSCodeRange textDocument trimmedRange;
                      var_publicGetter := getter scan |}] |})
    end.

Definition validateNamespaceableVariables (env : Collaborators) (cursor : Cursor)
    (textDocument : TextDocument) (namespaceableContract : NamespaceableContract)
    (skipDiagnostic : bool) : M NamespaceableContract :=
  let childCursor := spawn cursor in
  whileNext (walkLength childCursor) NonterminalKind.StateVariableDefinition
    (classifyVariable env textDocument skipDiagnostic) childCursor namespaceableContract.

(** The text of the formula comment for a namespace id. *)
Definition formulaComment (namespaceId : string) : string :=
  ("// keccak256(abi.encode(uint256(keccak256(" ++ Regex.dquote ++ namespaceId
   ++ Regex.dquote ++ ")) - 1)) & ~bytes32(uint256(0xff))")%string.

(** The first half of a round of [validateNamespaceCommentAndHash]: the check
    of the comment before the variable.  Returns [expectedHashFromComment] and
    [commentHasUnexpectedNamespace]. *)
Definition checkFormulaComment (env : Collaborators) (expectedNamespaceId : string)
    (textDocument : TextDocument) (comment : option TriviaTextWithRange)
    : M (option string * bool) :=
  match comment with
  | None => ret (None, false)
  | Some comment =>
      match Regex.matchFormula (text comment) with
      | None => ret (None, false)
      | Some id =>
          commentHasUnexpectedNamespace <-
            (if negb (String.eqb id expectedNamespaceId) then
               addDiagnostic textDocument
                 (slangToVSCodeRange textDocument (trivia_textRange comment))
                 "Comment does not match namespace id"
                 ("Expected namespace id `" ++ expectedNamespaceId ++ "`")%string
                 DiagnosticSeverity.Warning
                 NAMESPACE_ID_MISMATCH_HASH_COMMENT
                 (Replacement (formulaComment expectedNamespaceId)) ;;;
               ret true
             else ret false) ;;
          ret (Some (calculateERC7201StorageLocation env id), commentHasUnexpectedNamespace)
      end
  end.

Definition differsFrom (expectedHashFromNamespace : string)
    (expectedHashFromComment : option string) : bool :=
  match expectedHashFromComment with
  | None => true
  | Some h => negb (String.eqb expectedHashFromNamespace h)
  end.

(** The second half: the checks of the constant, with the cursor moved to the
    expression that follows. *)
Definition checkStorageLocationConstant (env : Collaborators) (expectedNamespaceId : string)
    (textDocument : TextDocument) (expectedHashFromComment : option string)
    (commentHasUnexpectedNamespace : bool) (spawnedCursor : Cursor) : M unit :=
  match node spawnedCursor with
  | TerminalNode _ _ => ret tt
  | NonterminalNode _ _ as constantNode =>
      let text := unparse constantNode in
      let expectedHashFromNamespace :=
        calculateERC7201StorageLocation env expectedNamespaceId in
      match expectedHashFromComment with
      | Some hashFromComment =>
          if negb (Js.includes text hashFromComment) then
            trimmed <- liftR (getTrimmedRange spawnedCursor) ;;
            addDiagnostic textDocument (slangToVSCodeRange textDocument trimmed)
              "ERC7201 storage location hash does not match comment"
              "Hash does not match formula in comment"
              DiagnosticSeverity.Warning
              NAMESPACE_HASH_MISMATCH
              (Replacement hashFromComment)
          else ret tt
      | None => ret tt
      end ;;;
      if negb commentHasUnexpectedNamespace
         && differsFrom expectedHashFromNamespace expectedHashFromComment
         && negb (Js.includes text expectedHashFromNamespace)
      then
        trimmed <- liftR (getTrimmedRange spawnedCursor) ;;
        addDiagnostic textDocument (slangToVSCodeRange textDocument trimmed)
          "ERC7201 storage location hash does not match expected namespace id"
          ("Expected hash to be based on `" ++ expectedNamespaceId ++ "`")%string
          DiagnosticSeverity.Warning
          NAMESPACE_STANDALONE_HASH_MISMATCH
          (Replacement expectedHashFromNamespace)
      else ret tt
  end.

(** One round of the loop of [validateNamespaceCommentAndHash], with the
    cursor on a state variable definition. *)
Definition checkCommentAndHash (env : Collaborators) (expectedNamespaceId : string)
    (textDocument : TextDocument) (spawnedCursor : Cursor) (_ : unit)
    : M (Cursor * unit) :=
  comment <- liftR (getLastPrecedingTriviaWithKinds spawnedCursor
                      [TerminalKind.SingleLineComment; TerminalKind.MultiLineComment]) ;;
  fromComment <- checkFormulaComment env expectedNamespaceId textDocument comment ;;
  let stateVarDefNode := node spawnedCursor in
  assertM (isNonterminalNode stateVarDefNode) ;;;
  stateVariable <- liftR (stateVariableDefinition stateVarDefNode) ;;
  if Regex.isStorageLocationName (sv_name stateVariable) then
    let spawnedCursor1 :=
      snd (goToNextNonterminalWithKind NonterminalKind.StateVariableDefinitionValue
             spawnedCursor) in
    let spawnedCursor2 :=
      snd (goToNextNonterminalWithKind NonterminalKind.Expression spawnedCursor1) in
    checkStorageLocationConstant env expectedNamespaceId textDocument
      (fst fromComment) (snd fromComment) spawnedCursor2 ;;;
    ret (spawnedCursor2, tt)
  else ret (spawnedCursor, tt).

Definition validateNamespaceCommentAndHash (env : Collaborators)
    (expectedNamespaceId : string) (cursor : Cursor) (textDocument : TextDocument)
    : M unit :=
  let spawnedCursor := spawn cursor in
  whileNext (walkLength spawnedCursor) NonterminalKind.StateVariableDefinition
    (checkCommentAndHash env expectedNamespaceId textDocument) spawnedCursor tt.

Record NamespaceIdAndRange : Set := {
  namespaceId : string;
  textRange_ : TextRange
}.

(** One round of the loop of [validateNamespaceStructAnnotation], with the
    cursor on a struct definition. *)
Definition checkStructAnnotation (env : Collaborators) (textDocument : TextDocument)
    (contractDef : Node) (structCursor : Cursor)
    (foundNamespaceIds : list NamespaceIdAndRange)
    : M (Cursor * list NamespaceIdAndRange) :=
  assertM (isNonterminalNode (node structCursor)) ;;;
  natSpec <- liftR (getNatSpec structCursor) ;;
  match natSpec with
  | None => ret (structCursor, foundNamespaceIds)
  | Some natSpec =>
      assertM (TerminalKind.eqb (kind natSpec) TerminalKind.SingleLineNatSpecComment
               || TerminalKind.eqb (kind natSpec) TerminalKind.MultiLineNatSpecComment) ;;;
      let regex :=
        if TerminalKind.eqb (kind natSpec) TerminalKind.SingleLineNatSpecComment
        then Regex.matchSingleLineAnnotation
        else Regex.matchMultiLineAnnotation in
      match regex (text natSpec) with
      | None => ret (structCursor, foundNamespaceIds)
      | Some id =>
          console_log ("Found erc7201 storage location annotation with id: " ++ id)%string ;;;
          let foundNamespaceIds' :=
            foundNamespaceIds ++
            [{| namespaceId := id; textRange_ := trivia_textRange natSpec |}] in
          let namespacePrefix := getNamespacePrefix env textDocument in
          expectedNamespaceId <-
            liftR (getExpectedNamespaceId env namespacePrefix contractDef) ;;
          (if negb (String.eqb id expectedNamespaceId) then
             contractNameText <- liftR (contractName contractDef) ;;
             addDiagnostic textDocument
               (slangToVSCodeRange textDocument (trivia_textRange natSpec))
               "Namespace id does not match contract name"
               ("Namepace id does not match prefix `" ++ namespacePrefix
                ++ "` and contract name `" ++ contractNameText ++ "`")%string
               DiagnosticSeverity.Information
               NAMESPACE_ID_MISMATCH
               (Replacement ("/// @custom:storage-location erc7201:" ++ expectedNamespaceId)%string)
           else ret tt) ;;;
          ret (structCursor, foundNamespaceIds')
      end
  end.

(** [self.findIndex(t => t.namespaceId === id)]; [None] is [-1]. *)
Fixpoint findIndex (id : string) (self : list NamespaceIdAndRange) (i : nat) : option nat :=
  match self with
  | [] => None
  | t :: r => if String.eqb (namespaceId t) id then Some i else findIndex id r (S i)
  end.

Definition differsFromIndex (o : option nat) (index : nat) : bool :=
  match o with
  | Some j => negb (Nat.eqb j index)
  | None => true
  end.

(** [l.filter((value, index, self) => pred value index)] *)
Fixpoint filterIndexed {A : Type} (pred : A -> nat -> bool) (l : list A) (index : nat)
    : list A :=
  match l with
  | [] => []
  | value :: r =>
      if pred value index then value :: filterIndexed pred r (S index)
      else filterIndexed pred r (S index)
  end.

(** [foundNamespaceIds.filter((value, index, self) =>
      self.findIndex(t => t.namespaceId === value.namespaceId) !== index)] *)
Definition duplicateNamespaceIds (foundNamespaceIds : list NamespaceIdAndRange)
    : list NamespaceIdAndRange :=
  filterIndexed
    (fun value index =>
       differsFromIndex (findIndex (namespaceId value) foundNamespaceIds 0) index)
    foundNamespaceIds 0.

Definition reportDuplicate (textDocument : TextDocument) (_ : unit)
    (namespaceId : NamespaceIdAndRange) : M unit :=
  addDiagnostic textDocument (slangToVSCodeRange textDocument (textRange_ namespaceId))
    "Duplicate namespaces"
    "Namespace ids must be unique"
    DiagnosticSeverity.Error
    DUPLICATE_NAMESPACE_ID
    NoData.

Definition reportMultiple (textDocument : TextDocument) (_ : unit)
    (namespaceId : NamespaceIdAndRange) : M unit :=
  addDiagnostic textDocument (slangToVSCodeRange textDocument (textRange_ namespaceId))
    "Multiple namespaces"
    "Only one namespace per contract is recommended"
    DiagnosticSeverity.Warning
    MULTIPLE_NAMESPACES
    NoData.

(** What [validateNamespaceStructAnnotation] does after its loop. *)
Definition reportNamespaceCount (textDocument : TextDocument)
    (foundNamespaceIds : list NamespaceIdAndRange) : M unit :=
  if Nat.ltb 1 (List.length foundNamespaceIds) then
    let duplicates := duplicateNamespaceIds foundNamespaceIds in
    if Nat.ltb 0 (List.length duplicates) then
      foldM (reportDuplicate textDocument) duplicates tt
    else
      foldM (reportMultiple textDocument) foundNamespaceIds tt
  else ret tt.

Definition singleNamespace (foundNamespaceIds : list NamespaceIdAndRange)
    : option NamespaceIdAndRange :=
  match foundNamespaceIds with
  | [only] => Some only
  | _ => None
  end.

(** The loop of [validateNamespaceStructAnnotation] over the struct
    definitions of the contract, which fills [foundNamespaceIds]. *)
Definition collectNamespaceIds (env : Collaborators) (cursor : Cursor)
    (textDocument : TextDocument) (contractDef : Node)
    : M (list NamespaceIdAndRange) :=
  let structCursor := spawn cursor in
  whileNext (walkLength structCursor) NonterminalKind.StructDefinition
    (checkStructAnnotation env textDocument contractDef) structCursor [].

(** Generates a diagnostic if a struct's namespace id does not match the
    expected namespace id for the contract, if multiple namespaces are defined
    in the same contract, or if multiple namespaces have the same id.  Returns
    the namespace used in the struct annotation, if exactly one was found. *)
Definition validateNamespaceStructAnnotation (env : Collaborators) (cursor : Cursor)
    (textDocument : TextDocument) (contractDef : Node)
    : M (option NamespaceIdAndRange) :=
  foundNamespaceIds <- collectNamespaceIds env cursor textDocument contractDef ;;
  reportNamespaceCount textDocument foundNamespaceIds ;;;
  ret (singleNamespace foundNamespaceIds).

(** What [validateNamespaces] does for a contract inferred upgradeable: the
    annotation validator and, when it returns a namespace, the hash validator. *)
Definition validateNamespace (env : Collaborators) (cursor : Cursor)
    (textDocument : TextDocument) (contractDef : Node) : M unit :=
  foundSingleNamespace <-
    validateNamespaceStructAnnotation env cursor textDocument contractDef ;;
  match foundSingleNamespace with
  | Some found =>
      validateNamespaceCommentAndHash env (namespaceId found) cursor textDocument
  | None => ret tt
  end.

(** One round of the loop of [validateNamespaces], with the cursor on a
    contract definition. *)
Definition validateContract (env : Collaborators) (language : Version)
    (textDocument : TextDocument) (cursor : Cursor) (_ : unit) : M (Cursor * unit) :=
  let cursorNode := node cursor in
  assertM (isNonterminalNode cursorNode) ;;;
  liftR (Ast.assertKind NonterminalKind.ContractDefinition cursorNode) ;;;
  let contractDef := cursorNode in
  let parseContract :=
    language_parse env language NonterminalKind.ContractDefinition (unparse cursorNode) in
  if negb (isValid parseContract) then
    console_log "Contract has errors" ;;;
    ret (cursor, tt)
  else
    contractNameText <- liftR (contractName contractDef) ;;
    console_log ("Parsing contract: " ++ contractNameText)%string ;;;
    let namespaceableContract := {| name := contractNameText; variables := [] |} in
    inferredUpgradeable <- liftR (inferUpgradeable cursor contractDef) ;;
    (if inferredUpgradeable
     then validateNamespace env cursor textDocument contractDef
     else ret tt) ;;;
    namespaceableContract' <-
      validateNamespaceableVariables env cursor textDocument namespaceableContract
        (negb inferredUpgradeable) ;;
    validateNamespaceableContract cursor textDocument namespaceableContract' ;;;
    ret (cursor, tt).

Definition validateNamespaces (env : Collaborators) (parseOutput : ParseOutput)
    (language : Version) (textDocument : TextDocument) : M unit :=
  let cursor := createTreeCursor (tree parseOutput) in
  whileNext (walkLength cursor) NonterminalKind.ContractDefinition
    (validateContract env language textDocument) cursor tt.

(** ** Sample documents

    Small trees of the shape the parsing library builds: the trivia before a
    token sits in the innermost node that holds the token. *)

Module Sample.

Definition newline : string := String (ascii_of_nat 10) EmptyString.

Definition token (kindName text : string) : Node :=
  TerminalNode (TerminalKind.Other kindName) text.

Definition space : Edge :=
  (EdgeLabel.LeadingTrivia, TerminalNode TerminalKind.Whitespace " ").

Definition endOfLine : Edge :=
  (EdgeLabel.TrailingTrivia, TerminalNode TerminalKind.EndOfLine newline).

Definition lineComment (text : string) : list Edge :=
  [(EdgeLabel.LeadingTrivia, TerminalNode TerminalKind.SingleLineComment text);
   (EdgeLabel.LeadingTrivia, TerminalNode TerminalKind.EndOfLine newline)].

Definition natSpecLine (text : string) : list Edge :=
  [(EdgeLabel.LeadingTrivia, TerminalNode TerminalKind.SingleLineNatSpecComment text);
   (EdgeLabel.LeadingTrivia, TerminalNode TerminalKind.EndOfLine newline)].

Definition elementaryType (leading : list Edge) (text : string) : Node :=
  NonterminalNode (NonterminalKind.Other "TypeName")
    [(EdgeLabel.Variant,
      NonterminalNode (NonterminalKind.Other "ElementaryType")
        (leading ++ [(EdgeLabel.Variant, token "Keyword" text)]))].

Definition attribute (variant : Node) : Edge :=
  (EdgeLabel.Item,
   NonterminalNode (NonterminalKind.Other "StateVariableAttribute")
     [space; (EdgeLabel.Variant, variant)]).

Definition initializer (literal : string) : Edge :=
  (EdgeLabel.Value,
   NonterminalNode NonterminalKind.StateVariableDefinitionValue
     [space; (EdgeLabel.Unlabeled, token "Equal" "=");
      (EdgeLabel.Value,
       NonterminalNode NonterminalKind.Expression
         [space; (EdgeLabel.Variant, token "HexLiteral" literal)])]).

(** [<leading trivia> <type> <attributes> <name> [= <literal>];] *)
Definition stateVariable (leading : list Edge) (typeText : string)
    (attributes : list Node) (nameText : string) (literal : option string) : Node :=
  NonterminalNode NonterminalKind.StateVariableDefinition
    ([(EdgeLabel.TypeName, elementaryType leading typeText);
      (EdgeLabel.Attributes,
       NonterminalNode (NonterminalKind.Other "StateVariableAttributes")
         (map attribute attributes));
      space;
      (EdgeLabel.Name, TerminalNode TerminalKind.Identifier nameText)]
     ++ match literal with Some l => [initializer l] | None => [] end
     ++ [(EdgeLabel.Unlabeled, token "Semicolon" ";"); endOfLine]).

(** [<NatSpec line> struct <name> { }] *)
Definition annotatedStruct (natSpec nameText : string) : Node :=
  NonterminalNode NonterminalKind.StructDefinition
    (natSpecLine natSpec ++
     [(EdgeLabel.Unlabeled, token "StructKeyword" "struct"); space;
      (EdgeLabel.Name, TerminalNode TerminalKind.Identifier nameText); space;
      (EdgeLabel.Unlabeled, token "OpenBrace" "{");
      (EdgeLabel.Members, NonterminalNode (NonterminalKind.Other "StructMembers") []);
      (EdgeLabel.Unlabeled, token "CloseBrace" "}"); endOfLine]).

Definition inheritance (bases : list string) : list Edge :=
  match bases with
  | [] => []
  | _ =>
      [(EdgeLabel.Inheritance,
        NonterminalNode (NonterminalKind.Other "InheritanceSpecifier")
          [space; (EdgeLabel.Unlabeled, token "IsKeyword" "is");
           (EdgeLabel.Types,
            NonterminalNode (NonterminalKind.Other "InheritanceTypes")
              (map (fun base =>
                      (EdgeLabel.Item,
                       NonterminalNode (NonterminalKind.Other "InheritanceType")
                         [(EdgeLabel.TypeName,
                           NonterminalNode (NonterminalKind.Other "IdentifierPath")
                             [space;
                              (EdgeLabel.Item,
                               TerminalNode TerminalKind.Identifier base)])]))
                   bases))])]
  end.

(** [contract <name> [is <bases>] { <members> }] *)
Definition contract (nameText : string) (bases : list string) (members : list Node) : Node :=
  NonterminalNode NonterminalKind.ContractDefinition
    ([(EdgeLabel.Unlabeled, token "ContractKeyword" "contract"); space;
      (EdgeLabel.Name, TerminalNode TerminalKind.Identifier nameText)]
     ++ inheritance bases
     ++ [space; (EdgeLabel.Unlabeled, token "OpenBrace" "{"); endOfLine;
         (EdgeLabel.Members,
          NonterminalNode (NonterminalKind.Other "ContractMembers")
            (map (fun m => (EdgeLabel.Item, m)) members));
         (EdgeLabel.Unlabeled, token "CloseBrace" "}"); endOfLine]).

Definition sourceUnit (members : list Node) : Node :=
  NonterminalNode NonterminalKind.SourceUnit
    [(EdgeLabel.Members,
      NonterminalNode (NonterminalKind.Other "SourceUnitMembers")
        (map (fun m => (EdgeLabel.Item, m)) members))].

Definition v (a b c : nat) : Version := {| major := a; minor := b; patch := c |}.

(** A parser given by a table from trimmed text to its tree and validity; a
    text that is not listed does not parse. *)
Fixpoint lookup (table : list (string * ParseOutput)) (text : string) : option ParseOutput :=
  match table with
  | [] => None
  | (t, o) :: r => if String.eqb t text then Some o else lookup r text
  end.

Definition tableParse (table : list (string * ParseOutput))
    (_ : Version) (kind : NonterminalKind.t) (text : string) : ParseOutput :=
  match lookup table (Js.trim text) with
  | Some o => o
  | None => {| isValid := false; tree := NonterminalNode kind [] |}
  end.

(** A contract and its state variables parse to themselves. *)
Definition parsesAs (valid : bool) (n : Node) : string * ParseOutput :=
  (Js.trim (unparse n), {| isValid := valid; tree := n |}).

Definition ranges : list (string * (Version -> bool)) :=
  [("*", fun _ => true);
   ("^0.8.20", fun x => Nat.eqb (major x) 0 && Nat.eqb (minor x) 8 && Nat.leb 20 (patch x));
   (">=0.8.0", fun x => Nat.ltb 0 (major x) || Nat.leb 8 (minor x));
   ("<0.8.22", fun x => Nat.eqb (major x) 0 &&
                        (Nat.ltb (minor x) 8 || (Nat.eqb (minor x) 8 && Nat.ltb (patch x) 22)))].

Fixpoint testRange (table : list (string * (Version -> bool))) (range : string)
    (x : Version) : bool :=
  match table with
  | [] => false
  | (r, f) :: rest => if String.eqb r range then f x else testRange rest range x
  end.

Definition collaborators (table : list (string * ParseOutput)) : Collaborators :=
  {| language_parse := tableParse table;
     supportedVersions := [v 0 8 19; v 0 8 20; v 0 8 21; v 0 8 22; v 0 8 23];
     range_test := testRange ranges;
     inferSolidityVersion := fun _ => v 0 8 23;
     getNamespacePrefix := fun _ => "example";
     getNamespaceId := fun prefix contractName => (prefix ++ "." ++ contractName)%string;
     calculateERC7201StorageLocation := fun id => ("0x" ++ id)%string |}.

Definition document (text : string) : TextDocument :=
  {| getText := text; positionAt := fun offset => {| line := 0; character := offset |} |}.

(** The cursor of the engine's loop on the first contract of a tree. *)
Definition firstContract (tree : Node) : Cursor :=
  snd (goToNextNonterminalWithKind NonterminalKind.ContractDefinition
         (createTreeCursor tree)).

(** The cursor of a validator's loop on the first definition of a kind inside
    the node [c] is on. *)
Definition firstInside (k : NonterminalKind.t) (c : Cursor) : Cursor :=
  snd (goToNextNonterminalWithKind k (spawn c)).

Definition constantKeyword : Node := TerminalNode TerminalKind.ConstantKeyword "constant".
Definition immutableKeyword : Node := TerminalNode TerminalKind.ImmutableKeyword "immutable".
Definition publicKeyword : Node := TerminalNode TerminalKind.PublicKeyword "public".
Definition privateKeyword : Node := token "PrivateKeyword" "private".

(** A storage location constant under a formula comment for another id, with
    a literal that is neither hash:
    [// keccak256(... keccak256("example.other") ...) ...]
    [bytes32 private constant MAIN_STORAGE_LOCATION = 0x00;] *)
Definition foreignLocation : Node :=
  stateVariable (lineComment (formulaComment "example.other") ++ [space])
    "bytes32" [privateKeyword; constantKeyword] "MAIN_STORAGE_LOCATION" (Some "0x00").

(** [uint256 public total;] under the same formula comment *)
Definition commentedTotal : Node :=
  stateVariable (lineComment (formulaComment "example.other") ++ [space])
    "uint256" [publicKeyword] "total" None.

Definition mainStorage : Node :=
  annotatedStruct "/// @custom:storage-location erc7201:example.Vault" "MainStorage".

(** [contract Vault is Initializable { struct MainStorage {} <member> }] *)
Definition vault (member : Node) : Node :=
  contract "Vault" ["Initializable"] [mainStorage; member].

Definition vaultEnv (member : Node) : Collaborators :=
  collaborators [parsesAs true (vault member); parsesAs true member].

Definition vaultDocument (member : Node) : TextDocument :=
  document (unparse (sourceUnit [vault member])).

Definition vaultCursor (member : Node) : Cursor :=
  firstContract (sourceUnit [vault member]).

(** Two structs annotated with the same namespace id. *)
Definition twins (id : string) : Node :=
  contract "Vault" ["Initializable"]
    [annotatedStruct ("/// @custom:storage-location erc7201:" ++ id)%string "First";
     annotatedStruct ("/// @custom:storage-location erc7201:" ++ id)%string "Second"].

Definition twinsEnv (id : string) : Collaborators :=
  collaborators [parsesAs true (twins id)].

Definition twinsDocument (id : string) : TextDocument :=
  document (unparse (sourceUnit [twins id])).

Definition twinsCursor (id : string) : Cursor :=
  firstContract (sourceUnit [twins id]).

(** [address] or [address payable] as the type of a parameter, after the
    trivia [leading] *)
Definition addressTypeAfter (leading : list Edge) (payable : bool) : Node :=
  NonterminalNode (NonterminalKind.Other "TypeName")
    [(EdgeLabel.Variant,
      NonterminalNode (NonterminalKind.Other "ElementaryType")
        [(EdgeLabel.Variant,
          NonterminalNode (NonterminalKind.Other "AddressType")
            (leading
             ++ (EdgeLabel.Unlabeled, token "AddressKeyword" "address")
             :: if payable
                then [space; (EdgeLabel.Unlabeled, token "PayableKeyword" "payable")]
                else []))])].

Definition addressType : bool -> Node := addressTypeAfter [].

(** [function <name>(<type> <parameter>, ...) internal {}] *)
Definition functionDefinition (nameText : string) (parameters : list (Node * string))
    : Node :=
  NonterminalNode NonterminalKind.FunctionDefinition
    [space; (EdgeLabel.Unlabeled, token "FunctionKeyword" "function");
     (EdgeLabel.Name,
      NonterminalNode (NonterminalKind.Other "FunctionName")
        [space; (EdgeLabel.Variant, TerminalNode TerminalKind.Identifier nameText)]);
     (EdgeLabel.Parameters,
      NonterminalNode (NonterminalKind.Other "ParametersDeclaration")
        [(EdgeLabel.Unlabeled, token "OpenParen" "(");
         (EdgeLabel.Parameters,
          NonterminalNode (NonterminalKind.Other "Parameters")
            (map (fun p : Node * string =>
                    (EdgeLabel.Item,
                     NonterminalNode (NonterminalKind.Other "Parameter")
                       [(EdgeLabel.TypeName, fst p); space;
                        (EdgeLabel.Name, TerminalNode TerminalKind.Identifier (snd p))]))
                 parameters));
         (EdgeLabel.Unlabeled, token "CloseParen" ")")]);
     (EdgeLabel.Attributes,
      NonterminalNode (NonterminalKind.Other "FunctionAttributes")
        [(EdgeLabel.Item,
          NonterminalNode (NonterminalKind.Other "FunctionAttribute")
            [space; (EdgeLabel.Variant, token "InternalKeyword" "internal")])]);
     space; (EdgeLabel.Unlabeled, token "Block" "{}"); endOfLine].

(** [contract Proxy { function _authorizeUpgrade(<type> next) internal {} }] *)
Definition proxy (payable : bool) : Node :=
  contract "Proxy" [] [functionDefinition "_authorizeUpgrade" [(addressType payable, "next")]].

Definition proxyCursor (payable : bool) : Cursor :=
  firstContract (sourceUnit [proxy payable]).

(** The same contract with the parameter on a line of its own:
    [function _authorizeUpgrade(] and, indented, [address next] *)
Definition indentedProxy : Node :=
  contract "Proxy" []
    [functionDefinition "_authorizeUpgrade"
       [(addressTypeAfter [(EdgeLabel.LeadingTrivia,
                            TerminalNode TerminalKind.EndOfLine newline); space] false,
         "next")]].

Definition indentedProxyCursor : Cursor := firstContract (sourceUnit [indentedProxy]).

(** [contract Plain { struct MainStorage {} uint256 public total;
    uint256 constant LIMIT = 0x05; }], with the struct annotated for another
    contract: nothing marks it as upgradeable. *)
Definition plainTotal : Node := stateVariable [space] "uint256" [publicKeyword] "total" None.

Definition plainLimit : Node :=
  stateVariable [space] "uint256" [constantKeyword] "LIMIT" (Some "0x05").

Definition plain : Node :=
  contract "Plain" [] [mainStorage; plainTotal; plainLimit].

Definition plainEnv : Collaborators :=
  collaborators [parsesAs true plain; parsesAs true plainTotal; parsesAs true plainLimit].

Definition plainDocument : TextDocument := document (unparse (sourceUnit [plain])).

Definition plainCursor : Cursor := firstContract (sourceUnit [plain]).

(** [contract Broken is Initializable { uint256 public total; }] followed by
    [Plain]; the first contract does not parse in isolation. *)
Definition broken : Node := contract "Broken" ["Initializable"] [plainTotal].

Definition brokenThenPlain : Node := sourceUnit [broken; plain].

Definition brokenEnv : Collaborators :=
  collaborators [parsesAs false broken; parsesAs true plain; parsesAs true plainTotal;
                 parsesAs true plainLimit].

Definition brokenCursor : Cursor := firstContract brokenThenPlain.

(** [contract Ledger is Initializable { uint256 public total;
    uint256 constant LIMIT = 0x05; }] with a parser for which the isolated
    parse of [total] is not valid: one that still returns the tree it
    recovered, and one that returns an empty tree. *)
Definition ledger : Node := contract "Ledger" ["Initializable"] [plainTotal; plainLimit].

Definition recoveringEnv : Collaborators :=
  collaborators [parsesAs true ledger; parsesAs false plainTotal; parsesAs true plainLimit].

Definition failingEnv : Collaborators :=
  collaborators [parsesAs true ledger; parsesAs true plainLimit].

Definition ledgerDocument : TextDocument := document (unparse (sourceUnit [ledger])).

Definition ledgerCursor : Cursor := firstContract (sourceUnit [ledger]).

(** [pragma solidity <expressions>;] as the parser files the constraint: one
    expression set per alternative, each a list of version expressions. *)
Definition versionExpression (leading : list Edge) (text : string) : Node :=
  NonterminalNode (NonterminalKind.Other "VersionExpression")
    (leading ++ [(EdgeLabel.Variant, token "VersionLiteral" text)]).

Definition versionExpressionSet (expressions : list Node) : Node :=
  NonterminalNode NonterminalKind.VersionExpressionSet
    (map (fun e => (EdgeLabel.Item, e)) expressions).

Definition pragma (sets : list Node) : Node :=
  NonterminalNode (NonterminalKind.Other "PragmaDirective")
    ([(EdgeLabel.Unlabeled, token "PragmaKeyword" "pragma"); space;
      (EdgeLabel.Unlabeled, token "SolidityKeyword" "solidity")]
     ++ map (fun s => (EdgeLabel.Item, s)) sets
     ++ [(EdgeLabel.Unlabeled, token "Semicolon" ";"); endOfLine]).

(** [pragma solidity >=0.8.0 <0.8.22;] and [pragma solidity ^0.9.0;] *)
Definition boundedPragma : Node :=
  sourceUnit [pragma [versionExpressionSet [versionExpression [space] ">=0.8.0";
                                            versionExpression [space] "<0.8.22"]];
              pragma [versionExpressionSet [versionExpression [space] "^0.9.0"]]].

Definition pragmaEnv : Collaborators := collaborators [parsesAs true boundedPragma].

Definition pragmaDocument : TextDocument := document (unparse boundedPragma).

End Sample.

(** ** What a computation writes *)

Definition emptyState : State := {| diagnostics := []; console := [] |}.

Definition extend (st : State) (ds : list Diagnostic) (ls : list string) : State :=
  {| diagnostics := diagnostics st ++ ds; console := console st ++ ls |}.

(** [m] returns [r] after appending the diagnostics [ds] and the console lines
    [ls], whatever was reported before. *)
Definition writes {A : Type} (m : M A) (r : Result A) (ds : list Diagnostic)
    (ls : list string) : Prop :=
  forall st, m st = (r, extend st ds ls).

Definition resultOf {A : Type} (m : M A) : Result A := fst (m emptyState).

Definition diagnosticsOf {A : Type} (m : M A) : list Diagnostic :=
  diagnostics (snd (m emptyState)).

Definition consoleOf {A : Type} (m : M A) : list string :=
  console (snd (m emptyState)).

Definition codes (ds : list Diagnostic) : list string := map diag_code ds.

Definition withCode (code : string) (ds : list Diagnostic) : list Diagnostic :=
  filter (fun d => String.eqb (diag_code d) code) ds.

(** ** The nodes a loop visits *)

Fixpoint indicesFrom (p : Node -> bool) (l : list Node) (i : nat) : list nat :=
  match l with
  | [] => []
  | n :: r => if p n then i :: indicesFrom p r (S i) else indicesFrom p r (S i)
  end.

(** The cursor positions after [c], in document order, whose node satisfies
    [p]. *)
Definition nextMatches (p : Node -> bool) (c : Cursor) : list Cursor :=
  map (moveTo c) (indicesFrom p (skipn (S (cur_index c)) (nodes c)) (S (cur_index c))).

(** The nonterminals of kind [k] inside the node a cursor is on. *)
Definition definitionsIn (k : NonterminalKind.t) (c : Cursor) : list Cursor :=
  nextMatches (hasNonterminalKind k) (spawn c).

(** A loop body run for its effect on the loop variables. *)
Definition round {A : Type} (body : Cursor -> A -> M (Cursor * A)) (a : A) (c : Cursor)
    : M A :=
  r <- body c a ;; ret (snd r).

(** [m] is such a computation, and every diagnostic it appends satisfies [P]. *)
Definition Emits {A : Type} (P : Diagnostic -> Prop) (m : M A) : Prop :=
  exists r ds ls, writes m r ds ls /\ Forall P ds.

(** The diagnostics that carry one of the given codes. *)
Definition hasCodeIn (cs : list string) (d : Diagnostic) : Prop := In (diag_code d) cs.

(** ** Scenarios of the hash validator *)

(** Where a round of the hash validator leaves its cursor for a storage
    location constant: on the next expression after the next initializer. *)
Definition initializerCursor (c : Cursor) : Cursor :=
  snd (goToNextNonterminalWithKind NonterminalKind.Expression
         (snd (goToNextNonterminalWithKind NonterminalKind.StateVariableDefinitionValue c))).

(** The plain comment before the variable under [c] is a formula for [id]. *)
Definition formulaCommentFor (c : Cursor) (comment : TriviaTextWithRange) (id : string)
    : Prop :=
  getLastPrecedingTriviaWithKinds c
    [TerminalKind.SingleLineComment; TerminalKind.MultiLineComment] = Val (Some comment)
  /\ Regex.matchFormula (text comment) = Some id.

(** The variable under [c] is named as a storage location and the expression
    the validator reads for it has the text [literal]. *)
Definition storageLocationConstant (c : Cursor) (literal : string) : Prop :=
  exists sv, stateVariableDefinition (node c) = Val sv
             /\ Regex.isStorageLocationName (sv_name sv) = true
             /\ isNonterminalNode (node (initializerCursor c)) = true
             /\ unparse (node (initializerCursor c)) = literal.

(** A storage location constant under a formula comment for an id other than
    the expected one, whose literal contains neither hash. *)
Definition foreignFormulaScenario (env : Collaborators) (expected : string) (c : Cursor)
    : Prop :=
  exists comment id literal,
    formulaCommentFor c comment id /\ id <> expected
    /\ storageLocationConstant c literal
    /\ Js.includes literal (calculateERC7201StorageLocation env id) = false
    /\ Js.includes literal (calculateERC7201StorageLocation env expected) = false.

(** What the check of the comment before a variable reports: a warning at a
    formula comment whose id is not the expected one, nothing otherwise. *)
Definition formulaCommentWarnings (expected : string) (doc : TextDocument)
    (comment : option TriviaTextWithRange) : list Diagnostic :=
  match comment with
  | None => []
  | Some comment =>
      match Regex.matchFormula (text comment) with
      | None => []
      | Some id =>
          if String.eqb id expected then []
          else [{| diag_range := slangToVSCodeRange doc (trivia_textRange comment);
                   diag_message := "Comment does not match namespace id";
                   diag_details := ("Expected namespace id `" ++ expected ++ "`")%string;
                   diag_severity := DiagnosticSeverity.Warning;
                   diag_code := NAMESPACE_ID_MISMATCH_HASH_COMMENT;
                   diag_data := Replacement (formulaComment expected) |}]
      end
  end.

(** ** What the annotation validator reports *)

Definition namespaceIdMismatch (doc : TextDocument) (namespacePrefix contractNameText
    expected : string) (found : NamespaceIdAndRange) : Diagnostic :=
  {| diag_range := slangToVSCodeRange doc (textRange_ found);
     diag_message := "Namespace id does not match contract name";
     diag_details := ("Namepace id does not match prefix `" ++ namespacePrefix
                      ++ "` and contract name `" ++ contractNameText ++ "`")%string;
     diag_severity := DiagnosticSeverity.Information;
     diag_code := NAMESPACE_ID_MISMATCH;
     diag_data := Replacement ("/// @custom:storage-location erc7201:" ++ expected)%string |}.

(** One NamespaceIdMismatch for every annotation found whose id is not the
    expected id of the contract. *)
Definition namespaceIdMismatches (env : Collaborators) (doc : TextDocument)
    (contractDef : Node) (found : list NamespaceIdAndRange) : list Diagnostic :=
  match contractName contractDef with
  | Val contractNameText =>
      let namespacePrefix := getNamespacePrefix env doc in
      let expected := getNamespaceId env namespacePrefix contractNameText in
      map (namespaceIdMismatch doc namespacePrefix contractNameText expected)
          (filter (fun f => negb (String.eqb (namespaceId f) expected)) found)
  | Throw => []
  end.

Definition duplicateNamespace (doc : TextDocument) (found : NamespaceIdAndRange)
    : Diagnostic :=
  {| diag_range := slangToVSCodeRange doc (textRange_ found);
     diag_message := "Duplicate namespaces";
     diag_details := "Namespace ids must be unique";
     diag_severity := DiagnosticSeverity.Error;
     diag_code := DUPLICATE_NAMESPACE_ID;
     diag_data := NoData |}.

(** ** The signature the upgradeability classifier looks for *)

(** A function definition named exactly [_authorizeUpgrade], with exactly one
    parameter, whose declared type reads exactly [address] when its node is
    read with [read]. *)
Definition authorizeUpgradeWith (read : Node -> string) (functionDef : Node) : Prop :=
  exists functionName variant declaration parameters parameter typeName,
    Ast.required EdgeLabel.Name functionDef = Val functionName
    /\ Ast.required EdgeLabel.Variant functionName = Val variant
    /\ Ast.text variant = Val "_authorizeUpgrade"
    /\ Ast.required EdgeLabel.Parameters functionDef = Val declaration
    /\ Ast.required EdgeLabel.Parameters declaration = Val parameters
    /\ Ast.items parameters = [parameter]
    /\ Ast.required EdgeLabel.TypeName parameter = Val typeName
    /\ read typeName = "address".

(** The signature as the code tests it: the text compared with [address] is
    [typeName.cst.unparse()], the raw text of the type node, with whatever
    trivia the node holds before the keyword. *)
Definition rawAddressSignature : Node -> Prop := authorizeUpgradeWith unparse.

(** The normalized text of a node: its text without the white space around
    it, as the variable classifier takes the text of a state variable. *)
Definition normalizedText (n : Node) : string := Js.trim (unparse n).

(** The signature in the words of the specification: the declared type's
    normalized text is exactly [address]. *)
Definition addressSignature : Node -> Prop := authorizeUpgradeWith normalizedText.

(** The function definitions of the contract under [cursor] can be read. *)
Definition functionsReadable (cursor : Cursor) : Prop :=
  forall f, In f (definitionsIn NonterminalKind.FunctionDefinition cursor) ->
            exists hit, isAuthorizeUpgrade (node f) = Val hit.

(** The contract under [cursor] meets neither the inheritance heuristic nor
    the documentation comment heuristic. *)
Definition onlySignatureCanDecide (cursor : Cursor) (contractDef : Node) : Prop :=
  exists hasInitializable hasUUPSUpgradeable natSpec,
    inheritsFrom "Initializable" contractDef = Val hasInitializable
    /\ truthy hasInitializable = false
    /\ inheritsFrom "UUPSUpgradeable" contractDef = Val hasUUPSUpgradeable
    /\ truthy hasUUPSUpgradeable = false
    /\ getNatSpec cursor = Val natSpec
    /\ hasUpgradesAnnotation natSpec = false.

(** ** The variable classifier, variable by variable *)

(** The parse of a state variable in isolation, as the classifier asks for it. *)
Definition reparseVariable (env : Collaborators) (doc : TextDocument) (cur : Cursor)
    : ParseOutput :=
  language_parse env (inferSolidityVersion env doc) NonterminalKind.StateVariableDefinition
    (Js.trim (unparse (node cur))).

(** The attribute list holds [immutable] or [constant]. *)
Definition isExcluded (sv : StateVariable) : bool :=
  existsb isImmutableOrConstant (sv_attributes sv).

Definition hasInitializer (sv : StateVariable) : bool :=
  match sv_value sv with Some _ => true | None => false end.

(** No [immutable] or [constant] attribute and no initializer. *)
Definition isNamespaceable (sv : StateVariable) : bool :=
  negb (isExcluded sv) && negb (hasInitializer sv).

(** The state variable definitions under [cursor] re-parse to trees the typed
    classes can read. *)
Definition variablesReadable (env : Collaborators) (doc : TextDocument) (cursor : Cursor)
    : Prop :=
  forall cur, In cur (definitionsIn NonterminalKind.StateVariableDefinition cursor) ->
              exists sv, stateVariableDefinition (tree (reparseVariable env doc cur)) = Val sv.

Definition variableHasInitialValue (doc : TextDocument) (trimmedRange : TextRange)
    : Diagnostic :=
  {| diag_range := slangToVSCodeRange doc trimmedRange;
     diag_message := "Variable has initial value";
     diag_details := "If this contract is an upgradeable contract, consider moving this variable to namespaced storage and setting it in an initializer.";
     diag_severity := DiagnosticSeverity.Warning;
     diag_code := VARIABLE_HAS_INITIAL_VALUE;
     diag_data := NoData |}.

Definition variableCanBeNamespaced (doc : TextDocument) (trimmedRange : TextRange)
    : Diagnostic :=
  {| diag_range := slangToVSCodeRange doc trimmedRange;
     diag_message := "Variable can be namespaced.";
     diag_details := "If this contract is an upgradeable contract, consider moving this variable to namespaced storage.";
     diag_severity := DiagnosticSeverity.Information;
     diag_code := VARIABLE_CAN_BE_NAMESPACED;
     diag_data := NoData |}.

Definition contractCanBeNamespaced (doc : TextDocument) (cursor : Cursor)
    (namespaceableContract : NamespaceableContract) : Diagnostic :=
  {| diag_range :=
       slangToVSCodeRange doc
         {| range_start :=
              range_start
                (textRange (snd (goToNextTerminalWithKind TerminalKind.Identifier
                                   (spawn cursor))));
            range_end := range_end (textRange cursor) |};
     diag_message := "Contract can be namespaced.";
     diag_details := "If this contract is an upgradeable contract, consider moving its variables to namespaced storage.";
     diag_severity := DiagnosticSeverity.Hint;
     diag_code := CONTRACT_CAN_BE_NAMESPACED;
     diag_data := ContractData namespaceableContract |}.

(** The codes of the annotation validator and of the hash validator. *)
Definition namespaceCodes : list string :=
  [NAMESPACE_ID_MISMATCH; DUPLICATE_NAMESPACE_ID; MULTIPLE_NAMESPACES;
   NAMESPACE_ID_MISMATCH_HASH_COMMENT; NAMESPACE_HASH_MISMATCH;
   NAMESPACE_STANDALONE_HASH_MISMATCH].


(** The end of a round of [validateNamespaces]: the variable classifier and
    the hint for the contract. *)
Definition classifyAndHint (env : Collaborators) (doc : TextDocument) (cursor : Cursor)
    (contractNameText : string) (skipDiagnostic : bool) : M (Cursor * unit) :=
  namespaceableContract <-
    validateNamespaceableVariables env cursor doc
      {| name := contractNameText; variables := [] |} skipDiagnostic ;;
  validateNamespaceableContract cursor doc namespaceableContract ;;;
  ret (cursor, tt).

(** The state after the line the engine logs for a contract that parses. *)
Definition afterParsingLine (contractNameText : string) (st : State) : State :=
  extend st [] [("Parsing contract: " ++ contractNameText)%string].

(** The contract definitions of a parsed document, in document order. *)
Definition contractCursors (parseOutput : ParseOutput) : list Cursor :=
  nextMatches (hasNonterminalKind NonterminalKind.ContractDefinition)
    (createTreeCursor (tree parseOutput)).

(** ** The version inference helper, in the words of its description *)

(** [a] is not above [b] in semver order. *)
Definition versionLe (a b : Version) : Prop := semver.compare a b <> Gt.

(** [o] is the maximum of [l]: a member no member is above, or nothing when
    [l] is empty. *)
Definition isMaximumOf (l : list Version) (o : option Version) : Prop :=
  match o with
  | None => l = []
  | Some m => In m l /\ forall x, In x l -> versionLe x m
  end.

(** [o] is the maximum entry, among all supported compiler versions, that
    satisfies the constraint [range]. *)
Definition isMaxSatisfying (env : Collaborators) (range : string) (o : option Version)
    : Prop :=
  isMaximumOf (filter (range_test env range) (supportedVersions env)) o.

(** The version expressions of the document: the children of the expression
    sets the query finds, in document order. *)
Definition versionExpressionNodes (env : Collaborators) (newest : Version)
    (doc : TextDocument) : list Node :=
  flat_map children
    (queryVersionExpressionSets
       (createTreeCursor
          (tree (language_parse env newest NonterminalKind.SourceUnit (getText doc))))).

(** The text of a version expression as it is handed to the semver library. *)
Definition constraintText (versionExpression : Node) : string :=
  Js.trim (unparse versionExpression).

(** The per-expression maxima, for the expressions that have one. *)
Definition maximaOf (env : Collaborators) (expressions : list Node) : list Version :=
  flat_map
    (fun e =>
       match semver.maxSatisfying env (supportedVersions env) (constraintText e) with
       | Some m => [m]
       | None => []
       end)
    expressions.

(** ** Fuel *)

(** A body that leaves the cursor of its loop on the same walk, not before
    the node it was handed. *)
Definition Advancing {A : Type} (body : Cursor -> A -> M (Cursor * A)) : Prop :=
  forall c a st r st',
    body c a st = (Val r, st') ->
    cur_root (fst r) = cur_root c /\
    cur_offset (fst r) = cur_offset c /\
    (cur_completed (fst r) = true \/ cur_index c <= cur_index (fst r)).

(** The fuel [fuel] covers what is left of the walk after the cursor. *)
Definition covers (fuel : nat) (c : Cursor) : Prop :=
  cur_completed c = true \/ walkLength c - cur_index c <= fuel.

(** The state variable definitions of the contract under [cursor], as they
    stand in the document, can be read by the typed classes. *)
Definition definitionsReadable (cursor : Cursor) : Prop :=
  forall cur, In cur (definitionsIn NonterminalKind.StateVariableDefinition cursor) ->
              exists sv, stateVariableDefinition (node cur) = Val sv.

(** [range] is the trimmed range of one of the state variables [curs] whose
    attribute list holds neither [immutable] nor [constant]. *)
Definition admittedVariable (env : Collaborators) (doc : TextDocument)
    (curs : list Cursor) (range : Range) : Prop :=
  exists cur sv trimmed,
    In cur curs
    /\ stateVariableDefinition (tree (reparseVariable env doc cur)) = Val sv
    /\ isExcluded sv = false
    /\ getTrimmedRange cur = Val trimmed
    /\ range = slangToVSCodeRange doc trimmed.

(** The plain comment the hash validator finds before the variable under
    [cur], if any. *)
Definition precedingComment (cur : Cursor) : option TriviaTextWithRange :=
  match getLastPrecedingTriviaWithKinds cur
          [TerminalKind.SingleLineComment; TerminalKind.MultiLineComment] with
  | Val comment => comment
  | Throw => None
  end.

(** No state variable of the contract under [cursor] is named as a storage
    location. *)
Definition noStorageLocation (cursor : Cursor) : Prop :=
  forall cur, In cur (definitionsIn NonterminalKind.StateVariableDefinition cursor) ->
    exists sv, stateVariableDefinition (node cur) = Val sv
               /\ Regex.isStorageLocationName (sv_name sv) = false.

(** The annotations whose id occurred before: every occurrence of an id after
    its first, given the ids [seen] so far. *)
Fixpoint laterOccurrences (seen : list string) (l : list NamespaceIdAndRange)
    : list NamespaceIdAndRange :=
  match l with
  | [] => []
  | x :: r =>
      (if existsb (fun s => String.eqb s (namespaceId x)) seen then [x] else [])
      ++ laterOccurrences (seen ++ [namespaceId x]) r
  end.

(** ** Tokens and trivia along a walk *)

(** A terminal that is not trivia. *)
Definition isToken (n : Node) : bool := isTerminalNode n && negb (isTrivia n).

(** A terminal whose kind is one of [kinds]. *)
Definition hasKindIn (kinds : list TerminalKind.t) (n : Node) : bool :=
  match n with
  | TerminalNode kind _ => existsb (TerminalKind.eqb kind) kinds
  | NonterminalNode _ _ => false
  end.

(** The first place after [k] of a walk whose node satisfies [p]. *)
Definition nextMatch (p : Node -> bool) (l : list Node) (k : nat) : option nat :=
  findFrom p (skipn (S k) l) (S k).

(** The last place before [k] of a walk whose node satisfies [p]. *)
Fixpoint lastBefore (p : Node -> bool) (l : list Node) (k : nat) : option nat :=
  match k with
  | 0 => None
  | S k' =>
      match nth_error l k' with
      | Some n => if p n then Some k' else lastBefore p l k'
      | None => lastBefore p l k'
      end
  end.

(** The walk of the node a cursor is on: the node first, then what is inside
    it, in document order. *)
Definition inside (c : Cursor) : list Node := nodes (spawn c).

(** Where the node at place [i] inside the node under [c] starts and ends. *)
Definition startAt (c : Cursor) (i : nat) : nat := startOffset (moveTo (spawn c) i).

Definition endAt (c : Cursor) (i : nat) : nat := range_end (textRange (moveTo (spawn c) i)).

(** No node at a place satisfying [where_] inside the node under [c] passes [p]. *)
Definition noneAt (p : Node -> bool) (c : Cursor) (where_ : nat -> Prop) : Prop :=
  forall m n, where_ m -> nth_error (inside c) m = Some n -> p n = false.

(** Place [i] holds the first node inside the node under [c] that passes [p]. *)
Definition firstAt (p : Node -> bool) (c : Cursor) (i : nat) : Prop :=
  (exists n, nth_error (inside c) i = Some n /\ p n = true)
  /\ noneAt p c (fun m => m < i).

(** Place [j] holds the last node inside the node under [c] that passes [p]. *)
Definition lastAt (p : Node -> bool) (c : Cursor) (j : nat) : Prop :=
  (exists n, nth_error (inside c) j = Some n /\ p n = true)
  /\ noneAt p c (fun m => j < m).

(** Place [j'] holds the last node before place [j] inside the node under [c]
    that passes [p]. *)
Definition precedingAt (p : Node -> bool) (c : Cursor) (j j' : nat) : Prop :=
  j' < j
  /\ (exists n, nth_error (inside c) j' = Some n /\ p n = true)
  /\ noneAt p c (fun m => j' < m < j).

(** ** What the variable classifier lists and reports *)

(** An attribute other than [immutable] and [constant]. *)
Definition isKeptAttribute (variant : Node) : bool := negb (isImmutableOrConstant variant).

(** [<type> <name>;]: the variable recreated without any attributes. *)
Definition withoutAttributes (sv : StateVariable) : string :=
  (unparse (sv_typeName sv) ++ " " ++ sv_name sv ++ ";")%string.

(** The text listed for a variable: its own text when it has no attribute
    besides [immutable] and [constant], the variable recreated without
    attributes when it has one. *)
Definition listedContent (variableText : string) (sv : StateVariable) : string :=
  if existsb isKeptAttribute (sv_attributes sv) then withoutAttributes sv else variableText.

(** A getter of the variable's type, for a variable that was [public]. *)
Definition listedGetter (sv : StateVariable) : option PublicGetter :=
  if existsb (hasTerminalKind TerminalKind.PublicKeyword) (sv_attributes sv)
  then Some {| typeName := unparse (sv_typeName sv) |}
  else None.

Definition listedVariable (doc : TextDocument) (cur : Cursor) (trimmedRange : TextRange)
    (sv : StateVariable) : NamespaceableVariable :=
  {| var_content := listedContent (Js.trim (unparse (node cur))) sv;
     var_name := sv_name sv;
     var_range := slangToVSCodeRange doc trimmedRange;
     var_publicGetter := listedGetter sv |}.

(** The diagnostic of a state variable: none for [immutable] and [constant]
    variables, VariableHasInitialValue for one with an initializer,
    VariableCanBeNamespaced for any other. *)
Definition variableReport (doc : TextDocument) (trimmedRange : TextRange)
    (sv : StateVariable) : list Diagnostic :=
  if isExcluded sv then []
  else if hasInitializer sv then [variableHasInitialValue doc trimmedRange]
  else [variableCanBeNamespaced doc trimmedRange].

(** What the state variable under [cur] adds to the diagnostics and to the
    variables of its contract. *)
Definition classified (env : Collaborators) (doc : TextDocument) (cur : Cursor)
    : list Diagnostic * list NamespaceableVariable :=
  match getTrimmedRange cur, stateVariableDefinition (tree (reparseVariable env doc cur)) with
  | Val trimmedRange, Val sv =>
      (variableReport doc trimmedRange sv,
       if isNamespaceable sv then [listedVariable doc cur trimmedRange sv] else [])
  | _, _ => ([], [])
  end.

(** ** What the annotation validator collects and reports *)

(** The pattern applied to a NatSpec comment, by its kind. *)
Definition annotationPattern (natSpec : TriviaTextWithRange) : string -> option string :=
  if TerminalKind.eqb (kind natSpec) TerminalKind.SingleLineNatSpecComment
  then Regex.matchSingleLineAnnotation
  else Regex.matchMultiLineAnnotation.

(** The namespace annotation of the struct under [cur]: the id its NatSpec
    comment holds, with the range of the comment. *)
Definition structAnnotation (cur : Cursor) : list NamespaceIdAndRange :=
  match getNatSpec cur with
  | Val (Some natSpec) =>
      match annotationPattern natSpec (text natSpec) with
      | Some id => [{| namespaceId := id; textRange_ := trivia_textRange natSpec |}]
      | None => []
      end
  | _ => []
  end.

(** The annotations of the structs inside the contract under [cursor], in
    document order. *)
Definition structAnnotations (cursor : Cursor) : list NamespaceIdAndRange :=
  flat_map structAnnotation (definitionsIn NonterminalKind.StructDefinition cursor).

Definition annotationLine (found : NamespaceIdAndRange) : string :=
  ("Found erc7201 storage location annotation with id: " ++ namespaceId found)%string.

Definition multipleNamespaces (doc : TextDocument) (found : NamespaceIdAndRange)
    : Diagnostic :=
  {| diag_range := slangToVSCodeRange doc (textRange_ found);
     diag_message := "Multiple namespaces";
     diag_details := "Only one namespace per contract is recommended";
     diag_severity := DiagnosticSeverity.Warning;
     diag_code := MULTIPLE_NAMESPACES;
     diag_data := NoData |}.

(** What the annotation validator reports on the number of annotations. *)
Definition countReport (doc : TextDocument) (found : list NamespaceIdAndRange)
    : list Diagnostic :=
  if Nat.ltb 1 (List.length found) then
    match duplicateNamespaceIds found with
    | [] => map (multipleNamespaces doc) found
    | duplicates => map (duplicateNamespace doc) duplicates
    end
  else [].

(** ** What the hash validator reports at an initializer *)

(** The namespace id of the formula comment before the variable under [c]. *)
Definition commentFormulaId (c : Cursor) : option string :=
  match precedingComment c with
  | Some comment => Regex.matchFormula (text comment)
  | None => None
  end.

Definition hashMismatch (doc : TextDocument) (trimmedRange : TextRange) (hash : string)
    : Diagnostic :=
  {| diag_range := slangToVSCodeRange doc trimmedRange;
     diag_message := "ERC7201 storage location hash does not match comment";
     diag_details := "Hash does not match formula in comment";
     diag_severity := DiagnosticSeverity.Warning;
     diag_code := NAMESPACE_HASH_MISMATCH;
     diag_data := Replacement hash |}.

Definition standaloneHashMismatch (doc : TextDocument) (trimmedRange : TextRange)
    (expectedNamespaceId hash : string) : Diagnostic :=
  {| diag_range := slangToVSCodeRange doc trimmedRange;
     diag_message := "ERC7201 storage location hash does not match expected namespace id";
     diag_details := ("Expected hash to be based on `" ++ expectedNamespaceId ++ "`")%string;
     diag_severity := DiagnosticSeverity.Warning;
     diag_code := NAMESPACE_STANDALONE_HASH_MISMATCH;
     diag_data := Replacement hash |}.

(** ** Texts without certain characters *)

Fixpoint allChars (p : ascii -> bool) (s : string) : bool :=
  match s with
  | EmptyString => true
  | String c r => p c && allChars p r
  end.

(** A text that stays on one line. *)
Definition onOneLine (s : string) : bool := allChars (fun c => negb (Js.isLineTerminator c)) s.

(** A text that is one word. *)
Definition isWord (s : string) : bool :=
  negb (String.eqb s EmptyString) && allChars (fun c => negb (Js.isWhitespace c)) s.

(** The NatSpec line the quick fix of NamespaceIdMismatch writes. *)
Definition annotationComment (namespaceId : string) : string :=
  ("/// @custom:storage-location erc7201:" ++ namespaceId)%string.

(** ** The diagnostics the engine can report *)

Inductive DataShape : Set := WithoutData | WithReplacement | WithContract.

Definition dataShape (data : DiagnosticData) : DataShape :=
  match data with
  | NoData => WithoutData
  | Replacement _ => WithReplacement
  | ContractData _ => WithContract
  end.

(** The codes of the engine, each with its severity and the shape of its
    quick-fix payload. *)
Definition catalogue : list (string * DiagnosticSeverity.t * DataShape) :=
  [(VARIABLE_CAN_BE_NAMESPACED, DiagnosticSeverity.Information, WithoutData);
   (CONTRACT_CAN_BE_NAMESPACED, DiagnosticSeverity.Hint, WithContract);
   (NAMESPACE_ID_MISMATCH, DiagnosticSeverity.Information, WithReplacement);
   (NAMESPACE_ID_MISMATCH_HASH_COMMENT, DiagnosticSeverity.Warning, WithReplacement);
   (NAMESPACE_HASH_MISMATCH, DiagnosticSeverity.Warning, WithReplacement);
   (NAMESPACE_STANDALONE_HASH_MISMATCH, DiagnosticSeverity.Warning, WithReplacement);
   (VARIABLE_HAS_INITIAL_VALUE, DiagnosticSeverity.Warning, WithoutData);
   (MULTIPLE_NAMESPACES, DiagnosticSeverity.Warning, WithoutData);
   (DUPLICATE_NAMESPACE_ID, DiagnosticSeverity.Error, WithoutData)].

Definition catalogued (d : Diagnostic) : Prop :=
  In (diag_code d, diag_severity d, dataShape (diag_data d)) catalogue.

(** ** The heuristics of the upgradeability classifier *)

(** Some identifier in the path of some type of the inheritance list of the
    contract reads exactly [base]: the last identifier of the path or an
    earlier one, so that [Initializable.Inner] and [Lib.Initializable] both
    name [Initializable]. *)
Definition inheritanceNames (base : string) (contractDef : Node) : Prop :=
  exists inheritance types type typeName item,
    Ast.field EdgeLabel.Inheritance contractDef = Some inheritance
    /\ Ast.required EdgeLabel.Types inheritance = Val types
    /\ In type (Ast.items types)
    /\ Ast.required EdgeLabel.TypeName type = Val typeName
    /\ In item (Ast.items typeName)
    /\ Ast.text item = Val base.

(** The NatSpec comment of the contract under [cursor] holds [tag] as one of
    the pieces between its white space. *)
Definition natSpecTag (cursor : Cursor) (tag : string) : Prop :=
  exists natSpec,
    getNatSpec cursor = Val (Some natSpec)
    /\ In tag (Js.splitWhitespace (text natSpec)).

(** The inheritance list of the contract, if any, can be read. *)
Definition inheritanceReadable (contractDef : Node) : Prop :=
  exists hasInitializable hasUUPSUpgradeable,
    inheritsFrom "Initializable" contractDef = Val hasInitializable
    /\ inheritsFrom "UUPSUpgradeable" contractDef = Val hasUUPSUpgradeable.

(** ** Further sample documents *)

Module Cases.

(** [contract Vault is Initializable { struct First {} struct Second {} }],
    the structs annotated with the ids [first] and [second]. *)
Definition siblings (first second : string) : Node :=
  Sample.contract "Vault" ["Initializable"]
    [Sample.annotatedStruct ("/// @custom:storage-location erc7201:" ++ first)%string "First";
     Sample.annotatedStruct ("/// @custom:storage-location erc7201:" ++ second)%string "Second"].

Definition siblingsEnv (first second : string) : Collaborators :=
  Sample.collaborators [Sample.parsesAs true (siblings first second)].

Definition siblingsDocument (first second : string) : TextDocument :=
  Sample.document (unparse (Sample.sourceUnit [siblings first second])).

Definition siblingsCursor (first second : string) : Cursor :=
  Sample.firstContract (Sample.sourceUnit [siblings first second]).

(** [bytes32 private constant MAIN_STORAGE_LOCATION = 0x00;] with no comment
    before it *)
Definition bareLocation : Node :=
  Sample.stateVariable [Sample.space] "bytes32"
    [Sample.privateKeyword; Sample.constantKeyword] "MAIN_STORAGE_LOCATION" (Some "0x00").

(** A contract under a NatSpec line: [<natSpec>] and, on the next line,
    [contract <name> { }] *)
Definition documented (natSpec nameText : string) : Node :=
  match Sample.contract nameText [] [] with
  | NonterminalNode kind children =>
      NonterminalNode kind (Sample.natSpecLine natSpec ++ children)
  | terminal => terminal
  end.

Definition documentedCursor (natSpec nameText : string) : Cursor :=
  Sample.firstContract (Sample.sourceUnit [documented natSpec nameText]).

End Cases.

(** ** The scan of the hash validator *)

(** The loop [while (cursor.goToNextNonterminalWithKind(kind)) { body }] when
    the body leaves the cursor on [next c] after a round on [c]: the nodes
    the rounds are run on, in order. *)
Fixpoint visited (k : NonterminalKind.t) (next : Cursor -> Cursor) (fuel : nat)
    (c : Cursor) : list Cursor :=
  match fuel with
  | 0 => []
  | S fuel' =>
      let (found, c') := goToNextNonterminalWithKind k c in
      if found then c' :: visited k next fuel' (next c') else []
  end.

(** Where a round of the hash validator leaves its cursor: on the expression
    it went to for a variable named as a storage location, on the variable
    itself otherwise. *)
Definition afterHashRound (c : Cursor) : Cursor :=
  match stateVariableDefinition (node c) with
  | Val sv => if Regex.isStorageLocationName (sv_name sv) then initializerCursor c else c
  | Throw => c
  end.

(** The state variable definitions the hash validator runs a round on.  The
    search for the next variable starts where the last round left the cursor,
    so a variable that lies before that place is passed over. *)
Definition hashScan (cursor : Cursor) : list Cursor :=
  visited NonterminalKind.StateVariableDefinition afterHashRound
    (walkLength (spawn cursor)) (spawn cursor).

(** What the round of the hash validator on [cur] reports. *)
Definition hashRoundWarnings (env : Collaborators) (expected : string) (doc : TextDocument)
    (cur : Cursor) : list Diagnostic :=
  diagnosticsOf (checkCommentAndHash env expected doc cur tt).

(** No round on a variable before [c] moves the cursor to [c] or beyond. *)
Definition reachedByScan (cursor c : Cursor) : Prop :=
  forall cur, In cur (definitionsIn NonterminalKind.StateVariableDefinition cursor) ->
    cur_index cur < cur_index c ->
    cur_completed (afterHashRound cur) = false
    /\ cur_index (afterHashRound cur) < cur_index c.

(** ** A run of the engine, contract by contract *)

(** What the round of the engine on the contract under [cur] reports and
    logs, and the rounds on the contracts [curs], one after the other. *)
Definition contractReport (env : Collaborators) (language : Version) (doc : TextDocument)
    (cur : Cursor) : list Diagnostic :=
  diagnosticsOf (validateContract env language doc cur tt).

Definition contractLog (env : Collaborators) (language : Version) (doc : TextDocument)
    (cur : Cursor) : list string :=
  consoleOf (validateContract env language doc cur tt).

Definition contractRounds (env : Collaborators) (language : Version) (doc : TextDocument)
    (curs : list Cursor) : M unit :=
  foldM (round (validateContract env language doc)) curs tt.

(** The rounds on the contracts [curs] return: none throws. *)
Definition roundsReturn (env : Collaborators) (language : Version) (doc : TextDocument)
    (curs : list Cursor) : Prop :=
  forall cur, In cur curs ->
    resultOf (validateContract env language doc cur tt) = Val (cur, tt).

(** ** Sample contracts with several state variables *)

Module Layouts.

(** [bytes32 private OLD_STORAGE_LOCATION;], named as a storage location and
    without an initializer *)
Definition oldLocation : Node :=
  Sample.stateVariable [Sample.space] "bytes32" [Sample.privateKeyword]
    "OLD_STORAGE_LOCATION" None.

(** [contract Vault is Initializable { struct MainStorage {} <members> }] *)
Definition vaultOf (members : list Node) : Node :=
  Sample.contract "Vault" ["Initializable"] (Sample.mainStorage :: members).

Definition vaultOfEnv (members : list Node) : Collaborators :=
  Sample.collaborators
    (Sample.parsesAs true (vaultOf members) :: map (Sample.parsesAs true) members).

Definition vaultOfDocument (members : list Node) : TextDocument :=
  Sample.document (unparse (Sample.sourceUnit [vaultOf members])).

Definition vaultOfCursor (members : list Node) : Cursor :=
  Sample.firstContract (Sample.sourceUnit [vaultOf members]).

(** [contract A is Initializable.Inner { }]: the base is [Inner], a member of
    [Initializable]; the path of the inherited type holds both identifiers. *)
Definition dottedBase : Node :=
  NonterminalNode NonterminalKind.ContractDefinition
    [(EdgeLabel.Unlabeled, Sample.token "ContractKeyword" "contract"); Sample.space;
     (EdgeLabel.Name, TerminalNode TerminalKind.Identifier "A");
     (EdgeLabel.Inheritance,
      NonterminalNode (NonterminalKind.Other "InheritanceSpecifier")
        [Sample.space; (EdgeLabel.Unlabeled, Sample.token "IsKeyword" "is");
         (EdgeLabel.Types,
          NonterminalNode (NonterminalKind.Other "InheritanceTypes")
            [(EdgeLabel.Item,
              NonterminalNode (NonterminalKind.Other "InheritanceType")
                [(EdgeLabel.TypeName,
                  NonterminalNode (NonterminalKind.Other "IdentifierPath")
                    [Sample.space;
                     (EdgeLabel.Item, TerminalNode TerminalKind.Identifier "Initializable");
                     (EdgeLabel.Separator, Sample.token "Period" ".");
                     (EdgeLabel.Item, TerminalNode TerminalKind.Identifier "Inner")])])])]);
     Sample.space; (EdgeLabel.Unlabeled, Sample.token "OpenBrace" "{"); Sample.endOfLine;
     (EdgeLabel.Members, NonterminalNode (NonterminalKind.Other "ContractMembers") []);
     (EdgeLabel.Unlabeled, Sample.token "CloseBrace" "}"); Sample.endOfLine].

Definition dottedBaseCursor : Cursor := Sample.firstContract (Sample.sourceUnit [dottedBase]).

(** [contract Tally is Initializable { uint256 public count; }] followed by
    [Plain], with a parser that returns an empty tree for the text of
    [count]. *)
Definition count : Node :=
  Sample.stateVariable [Sample.space] "uint256" [Sample.publicKeyword] "count" None.

Definition tally : Node := Sample.contract "Tally" ["Initializable"] [count].

Definition tallyThenPlain : Node := Sample.sourceUnit [tally; Sample.plain].

Definition tallyEnv : Collaborators :=
  Sample.collaborators
    [Sample.parsesAs true tally; Sample.parsesAs true Sample.plain;
     Sample.parsesAs true Sample.plainTotal; Sample.parsesAs true Sample.plainLimit].

(** [Broken], which does not parse in isolation, followed by [Vault] with the
    variable [total] under its formula comment. *)
Definition brokenThenVault : Node :=
  Sample.sourceUnit [Sample.broken; Sample.vault Sample.commentedTotal].

End Layouts.

(** * Properties *)

(** ** The matchers on sample texts *)

Example matchFormula_sample :
  Regex.matchFormula
    ("// keccak256(abi.encode(uint256(keccak256(" ++ Regex.dquote ++ "example.main"
     ++ Regex.dquote ++ ")) - 1)) & ~bytes32(uint256(0xff))")%string
  = Some "example.main".
Proof. reflexivity. Qed.

Example matchMultiLine_sample :
  Regex.matchMultiLineAnnotation "/** @custom:storage-location erc7201:a.b*/" = Some "a.b"
  /\ Regex.matchSingleLineAnnotation "/// @custom:storage-location erc7201:a.b c" = Some "a.b"
  /\ Regex.matchSingleLineAnnotation "/// @custom:storage-location erc7201:" = None
  /\ Js.splitWhitespace " a  b " = [EmptyString; "a"; "b"; EmptyString]
  /\ Js.trim "  x y " = "x y"
  /\ Regex.isStorageLocationName "MAIN_STORAGE_LOCATION" = true
  /\ Regex.isStorageLocationName "MainStorageLocation2" = false.
Proof. repeat split; reflexivity. Qed.

(** ** Cursors and loops *)

Lemma nodes_moveTo (c : Cursor) (i : nat) : nodes (moveTo c i) = nodes c.
Proof. reflexivity. Qed.

Lemma moveTo_moveTo (c : Cursor) (i j : nat) : moveTo (moveTo c i) j = moveTo c j.
Proof. reflexivity. Qed.

Lemma preorder_nonempty (n : Node) : 0 < List.length (preorder n).
Proof. destruct n; simpl; lia. Qed.

Lemma findFrom_head (p : Node -> bool) (l : list Node) (i : nat) :
  findFrom p l i = hd_error (indicesFrom p l i).
Proof.
  revert i. induction l as [|n r IH]; intro i; simpl; [reflexivity|].
  destruct (p n); [reflexivity | apply IH].
Qed.

Lemma indicesFrom_step (p : Node -> bool) (l : list Node) (i j : nat) :
  findFrom p l i = Some j ->
  exists d, j = i + d /\
            indicesFrom p l i = j :: indicesFrom p (skipn (S d) l) (S j).
Proof.
  revert i. induction l as [|n r IH]; intro i; simpl; [discriminate|].
  destruct (p n) eqn:Hp.
  - intros [= <-]. exists 0. split; [lia | reflexivity].
  - intro H. destruct (IH _ H) as [d [-> Hd]].
    exists (S d). split; [lia|]. rewrite Hd. reflexivity.
Qed.

Lemma indicesFrom_length (p : Node -> bool) (l : list Node) (i : nat) :
  List.length (indicesFrom p l i) <= List.length l.
Proof.
  revert i. induction l as [|n r IH]; intro i; simpl; [lia|].
  destruct (p n); simpl; specialize (IH (S i)); lia.
Qed.

Lemma indicesFrom_sound (p : Node -> bool) (l : list Node) (i j : nat) :
  In j (indicesFrom p l i) ->
  i <= j /\ exists n, nth_error l (j - i) = Some n /\ p n = true.
Proof.
  revert i. induction l as [|n r IH]; intro i; simpl; [tauto|].
  destruct (p n) eqn:Hp.
  - intros [<- | H].
    + split; [lia|]. rewrite Nat.sub_diag. exists n. auto.
    + destruct (IH _ H) as [Hle [m [Hn Hm]]]. split; [lia|].
      exists m. split; [|assumption].
      replace (j - i) with (S (j - S i)) by lia. assumption.
  - intro H. destruct (IH _ H) as [Hle [m [Hn Hm]]]. split; [lia|].
    exists m. split; [|assumption].
    replace (j - i) with (S (j - S i)) by lia. assumption.
Qed.

(** A cursor a loop visits is on a node that passed the loop's test. *)
Lemma nextMatches_node (p : Node -> bool) (c cur : Cursor) :
  In cur (nextMatches p c) -> p (node cur) = true.
Proof.
  unfold nextMatches. rewrite in_map_iff. intros [j [<- Hj]].
  apply indicesFrom_sound in Hj. destruct Hj as [Hle [n [Hn Hp]]].
  unfold node. rewrite nodes_moveTo. simpl.
  rewrite nth_error_skipn in Hn.
  replace (S (cur_index c) + (j - S (cur_index c))) with j in Hn by lia.
  rewrite (nth_error_nth _ _ _ Hn). assumption.
Qed.

Lemma nextMatches_length (p : Node -> bool) (c : Cursor) :
  List.length (nextMatches p c) < walkLength c.
Proof.
  unfold nextMatches, walkLength. rewrite length_map.
  pose proof (indicesFrom_length p (skipn (S (cur_index c)) (nodes c)) (S (cur_index c))).
  rewrite length_skipn in H.
  pose proof (preorder_nonempty (cur_root c)). unfold nodes in *. lia.
Qed.

Lemma foldM_cons {A B : Type} (f : A -> B -> M A) (x : B) (r : list B) (a : A) (st : State) :
  foldM f (x :: r) a st =
  match f a x st with
  | (Val a', st') => foldM f r a' st'
  | (Throw, st') => (Throw, st')
  end.
Proof. reflexivity. Qed.

(** A loop whose body leaves the cursor where it found it, on the nodes the
    loop can reach, runs its body once on every matching node after the
    cursor, in document order. *)
Lemma whileNext_stationary_on {A : Type} (k : NonterminalKind.t)
    (body : Cursor -> A -> M (Cursor * A)) :
  forall fuel c a st,
    cur_completed c = false ->
    List.length (nextMatches (hasNonterminalKind k) c) < fuel ->
    (forall cur, In cur (nextMatches (hasNonterminalKind k) c) ->
       forall a st r st', body cur a st = (Val r, st') -> fst r = cur) ->
    whileNext fuel k body c a st
    = foldM (round body) (nextMatches (hasNonterminalKind k) c) a st.
Proof.
  induction fuel as [|fuel IH]; intros c a st Hc Hlen Hstay; [lia|].
  cbn [whileNext]. unfold goToNextNonterminalWithKind, goToNextMatching. rewrite Hc.
  unfold nextMatches in *.
  destruct (findFrom (hasNonterminalKind k) (skipn (S (cur_index c)) (nodes c))
              (S (cur_index c))) as [j|] eqn:Hfind.
  - destruct (indicesFrom_step _ _ _ Hfind) as [d [Hj Hstep]].
    rewrite Hstep in *. cbn [map]. rewrite foldM_cons.
    rewrite skipn_skipn in *.
    replace (S d + S (cur_index c)) with (S j) in * by lia.
    unfold round at 1, bind.
    destruct (body (moveTo c j) a st) as [[r|] st'] eqn:Hbody; [|reflexivity].
    cbn [ret fst snd]. rewrite (Hstay _ (or_introl eq_refl) _ _ _ _ Hbody).
    rewrite IH; [reflexivity | exact Hc | |].
    + rewrite nodes_moveTo. cbn [cur_index moveTo].
      rewrite length_map in *. cbn [List.length] in Hlen. lia.
    + rewrite nodes_moveTo. cbn [cur_index moveTo]. intros cur Hcur.
      apply Hstay. right. exact Hcur.
  - rewrite findFrom_head in Hfind.
    destruct (indicesFrom (hasNonterminalKind k) (skipn (S (cur_index c)) (nodes c))
                (S (cur_index c))); [reflexivity | discriminate].
Qed.

Lemma whileNext_stationary {A : Type} (k : NonterminalKind.t)
    (body : Cursor -> A -> M (Cursor * A)) :
  (forall cur a st r st', body cur a st = (Val r, st') -> fst r = cur) ->
  forall fuel c a st,
    cur_completed c = false ->
    List.length (nextMatches (hasNonterminalKind k) c) < fuel ->
    whileNext fuel k body c a st
    = foldM (round body) (nextMatches (hasNonterminalKind k) c) a st.
Proof.
  intros Hstay fuel c a st Hc Hlen. apply whileNext_stationary_on; [assumption..|].
  intros cur _. apply Hstay.
Qed.

Lemma whileNext_definitions {A : Type} (k : NonterminalKind.t)
    (body : Cursor -> A -> M (Cursor * A)) (c : Cursor) (a : A) (st : State) :
  (forall cur a st r st', body cur a st = (Val r, st') -> fst r = cur) ->
  whileNext (walkLength (spawn c)) k body (spawn c) a st
  = foldM (round body) (definitionsIn k c) a st.
Proof.
  intro Hstay. apply whileNext_stationary; [assumption | reflexivity |].
  apply nextMatches_length.
Qed.

(** ** Computations only append *)

Lemma extend_nil (st : State) : extend st [] [] = st.
Proof. destruct st. unfold extend. simpl. rewrite !app_nil_r. reflexivity. Qed.

Lemma extend_extend (st : State) (ds ds' : list Diagnostic) (ls ls' : list string) :
  extend (extend st ds ls) ds' ls' = extend st (ds ++ ds') (ls ++ ls').
Proof. unfold extend. simpl. rewrite !app_assoc. reflexivity. Qed.

Lemma writes_ret {A : Type} (a : A) : writes (ret a) (Val a) [] [].
Proof. intro st. unfold ret. rewrite extend_nil. reflexivity. Qed.

Lemma writes_liftR {A : Type} (r : Result A) : writes (liftR r) r [] [].
Proof. intro st. unfold liftR. rewrite extend_nil. reflexivity. Qed.

Lemma writes_log (l : string) : writes (console_log l) (Val tt) [] [l].
Proof.
  intro st. unfold console_log, extend. simpl. rewrite app_nil_r. reflexivity.
Qed.

Lemma writes_addDiagnostic (doc : TextDocument) (range : Range) (message details : string)
    (severity : DiagnosticSeverity.t) (code : string) (data : DiagnosticData) :
  writes (addDiagnostic doc range message details severity code data) (Val tt)
    [{| diag_range := range; diag_message := message; diag_details := details;
        diag_severity := severity; diag_code := code; diag_data := data |}] [].
Proof.
  intro st. unfold addDiagnostic, extend. simpl. rewrite app_nil_r. reflexivity.
Qed.

Lemma writes_bind {A B : Type} (m : M A) (k : A -> M B) (a : A) (r : Result B)
    (ds ds' : list Diagnostic) (ls ls' : list string) :
  writes m (Val a) ds ls -> writes (k a) r ds' ls' ->
  writes (bind m k) r (ds ++ ds') (ls ++ ls').
Proof.
  intros Hm Hk st. unfold bind. rewrite Hm, Hk, extend_extend. reflexivity.
Qed.

Lemma writes_bind_throw {A B : Type} (m : M A) (k : A -> M B)
    (ds : list Diagnostic) (ls : list string) :
  writes m Throw ds ls -> writes (bind m k) Throw ds ls.
Proof. intros Hm st. unfold bind. rewrite Hm. reflexivity. Qed.

Lemma writes_observed {A : Type} (m : M A) (r : Result A) (ds : list Diagnostic)
    (ls : list string) :
  writes m r ds ls -> resultOf m = r /\ diagnosticsOf m = ds /\ consoleOf m = ls.
Proof.
  intro H. unfold resultOf, diagnosticsOf, consoleOf. rewrite (H emptyState).
  repeat split; reflexivity.
Qed.

Lemma Emits_ret {A : Type} (P : Diagnostic -> Prop) (a : A) : Emits P (ret a).
Proof. exists (Val a), [], []. split; [apply writes_ret | constructor]. Qed.

Lemma Emits_liftR {A : Type} (P : Diagnostic -> Prop) (r : Result A) : Emits P (liftR r).
Proof. exists r, [], []. split; [apply writes_liftR | constructor]. Qed.

Lemma Emits_log (P : Diagnostic -> Prop) (l : string) : Emits P (console_log l).
Proof. exists (Val tt), [], [l]. split; [apply writes_log | constructor]. Qed.

Lemma Emits_addDiagnostic (P : Diagnostic -> Prop) (doc : TextDocument) (range : Range)
    (message details : string) (severity : DiagnosticSeverity.t) (code : string)
    (data : DiagnosticData) :
  P {| diag_range := range; diag_message := message; diag_details := details;
       diag_severity := severity; diag_code := code; diag_data := data |} ->
  Emits P (addDiagnostic doc range message details severity code data).
Proof.
  intro HP. eexists (Val tt), [_], []. split; [apply writes_addDiagnostic|].
  constructor; [exact HP | constructor].
Qed.

Lemma Emits_bind {A B : Type} (P : Diagnostic -> Prop) (m : M A) (k : A -> M B) :
  Emits P m -> (forall a, Emits P (k a)) -> Emits P (bind m k).
Proof.
  intros [r [ds [ls [Hm HP]]]] Hk. destruct r as [a|].
  - destruct (Hk a) as [r' [ds' [ls' [Hk' HP']]]].
    exists r', (ds ++ ds'), (ls ++ ls'). split.
    + eapply writes_bind; eassumption.
    + apply Forall_app. split; assumption.
  - exists Throw, ds, ls. split; [apply writes_bind_throw|]; assumption.
Qed.

Lemma Emits_foldM {A B : Type} (P : Diagnostic -> Prop) (f : A -> B -> M A) (l : list B) :
  (forall a x, Emits P (f a x)) -> forall a, Emits P (foldM f l a).
Proof.
  intro Hf. induction l as [|x r IH]; intro a; simpl.
  - apply Emits_ret.
  - apply Emits_bind; [apply Hf | exact IH].
Qed.

Lemma Emits_whileNext {A : Type} (P : Diagnostic -> Prop) (k : NonterminalKind.t)
    (body : Cursor -> A -> M (Cursor * A)) :
  (forall c a, Emits P (body c a)) ->
  forall fuel c a, Emits P (whileNext fuel k body c a).
Proof.
  intro Hbody. induction fuel as [|fuel IH]; intros c a; cbn [whileNext].
  - apply Emits_ret.
  - destruct (goToNextNonterminalWithKind k c) as [[|] c'].
    + apply Emits_bind; [apply Hbody | intro r; apply IH].
    + apply Emits_ret.
Qed.

Lemma Emits_weaken {A : Type} (P Q : Diagnostic -> Prop) (m : M A) :
  (forall d, P d -> Q d) -> Emits P m -> Emits Q m.
Proof.
  intros HPQ [r [ds [ls [Hm HP]]]]. exists r, ds, ls. split; [assumption|].
  eapply Forall_impl; eassumption.
Qed.

(** What a computation appends does not depend on what was there before. *)
Lemma Emits_run {A : Type} (P : Diagnostic -> Prop) (m : M A) :
  Emits P m ->
  writes m (resultOf m) (diagnosticsOf m) (consoleOf m) /\ Forall P (diagnosticsOf m).
Proof.
  intros [r [ds [ls [Hm HP]]]].
  destruct (writes_observed Hm) as [-> [-> ->]]. split; assumption.
Qed.

Lemma writes_unique {A : Type} (m : M A) (r r' : Result A) (ds ds' : list Diagnostic)
    (ls ls' : list string) :
  writes m r ds ls -> writes m r' ds' ls' -> r = r' /\ ds = ds' /\ ls = ls'.
Proof.
  intros H H'. destruct (writes_observed H) as [<- [<- <-]].
  destruct (writes_observed H') as [<- [<- <-]]. repeat split; reflexivity.
Qed.

Lemma writes_round {A : Type} (body : Cursor -> A -> M (Cursor * A)) (a a' : A)
    (c c' : Cursor) (ds : list Diagnostic) (ls : list string) :
  writes (body c a) (Val (c', a')) ds ls -> writes (round body a c) (Val a') ds ls.
Proof.
  intros H st. unfold round, bind, ret. rewrite H. reflexivity.
Qed.

Ltac emits_step :=
  match goal with
  | |- Emits _ (bind _ _) => apply Emits_bind; [| intro]
  | |- Emits _ (ret _) => apply Emits_ret
  | |- Emits _ (liftR _) => apply Emits_liftR
  | |- Emits _ (assertM _) => apply Emits_liftR
  | |- Emits _ (console_log _) => apply Emits_log
  | |- Emits _ (addDiagnostic _ _ _ _ _ _ _) =>
      apply Emits_addDiagnostic; simpl; auto 12
  | |- Emits _ (foldM _ _ _) => apply Emits_foldM; intros
  | |- Emits _ (whileNext _ _ _ _ _) => apply Emits_whileNext; intros
  | |- Emits _ (match ?x with _ => _ end) => destruct x
  end.

Ltac emits := repeat emits_step.

(** ** The codes each validator reports *)

Lemma Emits_validateNamespaceableContract (c : Cursor) (doc : TextDocument)
    (nc : NamespaceableContract) :
  Emits (hasCodeIn [CONTRACT_CAN_BE_NAMESPACED]) (validateNamespaceableContract c doc nc).
Proof. unfold validateNamespaceableContract, hasCodeIn. emits. Qed.

Lemma Emits_scanAttribute (P : Diagnostic -> Prop) (sv : StateVariable)
    (acc : AttributeScan) (variant : Node) :
  Emits P (scanAttribute sv acc variant).
Proof. unfold scanAttribute. emits. Qed.

Lemma Emits_classifyVariable (env : Collaborators) (doc : TextDocument) (skip : bool)
    (c : Cursor) (nc : NamespaceableContract) :
  Emits (fun d => skip = false /\
                  hasCodeIn [VARIABLE_HAS_INITIAL_VALUE; VARIABLE_CAN_BE_NAMESPACED] d)
    (classifyVariable env doc skip c nc).
Proof.
  unfold classifyVariable, hasCodeIn. destruct skip; cbn [negb].
  all: emits; try apply Emits_scanAttribute; emits.
Qed.

Lemma Emits_validateNamespaceableVariables (env : Collaborators) (c : Cursor)
    (doc : TextDocument) (nc : NamespaceableContract) (skip : bool) :
  Emits (fun d => skip = false /\
                  hasCodeIn [VARIABLE_HAS_INITIAL_VALUE; VARIABLE_CAN_BE_NAMESPACED] d)
    (validateNamespaceableVariables env c doc nc skip).
Proof.
  unfold validateNamespaceableVariables. apply Emits_whileNext.
  intros. apply Emits_classifyVariable.
Qed.

Lemma Emits_checkCommentAndHash (env : Collaborators) (expected : string)
    (doc : TextDocument) (c : Cursor) (u : unit) :
  Emits (hasCodeIn [NAMESPACE_ID_MISMATCH_HASH_COMMENT; NAMESPACE_HASH_MISMATCH;
                    NAMESPACE_STANDALONE_HASH_MISMATCH])
    (checkCommentAndHash env expected doc c u).
Proof.
  unfold checkCommentAndHash, checkFormulaComment, checkStorageLocationConstant, hasCodeIn.
  emits.
Qed.

Lemma Emits_validateNamespaceCommentAndHash (env : Collaborators) (expected : string)
    (c : Cursor) (doc : TextDocument) :
  Emits (hasCodeIn [NAMESPACE_ID_MISMATCH_HASH_COMMENT; NAMESPACE_HASH_MISMATCH;
                    NAMESPACE_STANDALONE_HASH_MISMATCH])
    (validateNamespaceCommentAndHash env expected c doc).
Proof.
  unfold validateNamespaceCommentAndHash. apply Emits_whileNext.
  intros. apply Emits_checkCommentAndHash.
Qed.

Lemma Emits_checkStructAnnotation (env : Collaborators) (doc : TextDocument)
    (contractDef : Node) (c : Cursor) (found : list NamespaceIdAndRange) :
  Emits (hasCodeIn [NAMESPACE_ID_MISMATCH]) (checkStructAnnotation env doc contractDef c found).
Proof. unfold checkStructAnnotation, hasCodeIn. emits. Qed.

Lemma Emits_reportNamespaceCount (doc : TextDocument) (found : list NamespaceIdAndRange) :
  Emits (hasCodeIn [DUPLICATE_NAMESPACE_ID; MULTIPLE_NAMESPACES])
    (reportNamespaceCount doc found).
Proof.
  unfold reportNamespaceCount, reportDuplicate, reportMultiple, hasCodeIn. emits.
Qed.

Lemma Emits_validateNamespaceStructAnnotation (env : Collaborators) (c : Cursor)
    (doc : TextDocument) (contractDef : Node) :
  Emits (hasCodeIn [NAMESPACE_ID_MISMATCH; DUPLICATE_NAMESPACE_ID; MULTIPLE_NAMESPACES])
    (validateNamespaceStructAnnotation env c doc contractDef).
Proof.
  unfold validateNamespaceStructAnnotation.
  apply Emits_bind.
  - apply Emits_whileNext. intros.
    eapply Emits_weaken; [|apply Emits_checkStructAnnotation].
    unfold hasCodeIn. simpl. tauto.
  - intro found. apply Emits_bind; [|intro; apply Emits_ret].
    eapply Emits_weaken; [|apply Emits_reportNamespaceCount].
    unfold hasCodeIn. simpl. tauto.
Qed.

(** ** Ranges and trivia *)

Lemma node_spawn (c : Cursor) : node (spawn c) = node c.
Proof.
  unfold node at 1. unfold nodes. cbn [spawn cur_root cur_index].
  destruct (node c); reflexivity.
Qed.

Lemma getTrimmedRange_defined (c : Cursor) :
  isNonterminalNode (node c) = true -> exists r, getTrimmedRange c = Val r.
Proof.
  intro H. unfold getTrimmedRange. rewrite node_spawn, H. simpl. eauto.
Qed.

Lemma stateVariableDefinition_nonterminal (n : Node) (sv : StateVariable) :
  stateVariableDefinition n = Val sv ->
  hasNonterminalKind NonterminalKind.StateVariableDefinition n = true.
Proof.
  unfold stateVariableDefinition, Ast.assertKind.
  destruct (hasNonterminalKind _ n); [reflexivity | discriminate].
Qed.

Lemma hasNonterminalKind_nonterminal (k : NonterminalKind.t) (n : Node) :
  hasNonterminalKind k n = true -> isNonterminalNode n = true.
Proof. destruct n; [discriminate | reflexivity]. Qed.

Lemma goToPreviousTerminalWithKinds_found (fuel : nat) (c c' : Cursor)
    (kinds : list TerminalKind.t) :
  goToPreviousTerminalWithKinds_loop fuel c kinds = (true, c') ->
  exists k t, node c' = TerminalNode k t /\ existsb (TerminalKind.eqb k) kinds = true.
Proof.
  revert c. induction fuel as [|fuel IH]; intro c; cbn [goToPreviousTerminalWithKinds_loop];
    [discriminate|].
  destruct (goToPrevious c) as [[|] c1]; [|discriminate].
  destruct (node c1) as [k t|k cs] eqn:Hnode; [|apply IH].
  destruct (existsb (TerminalKind.eqb k) kinds) eqn:Hk; [|apply IH].
  intros [= <-]. exists k, t. split; assumption.
Qed.

(** The search for a preceding trivia of trivia kinds does not throw, and what
    it finds has one of the kinds asked for. *)
Lemma getLastPrecedingTriviaWithKinds_defined (c : Cursor) (kinds : list TerminalKind.t) :
  forallb isTriviaKind kinds = true ->
  exists o, getLastPrecedingTriviaWithKinds c kinds = Val o /\
            forall t, o = Some t -> existsb (TerminalKind.eqb (kind t)) kinds = true.
Proof.
  intro Hkinds. unfold getLastPrecedingTriviaWithKinds. rewrite Hkinds. cbn [assertR bindR].
  destruct (goToFirstNonTrivia (spawn c)) as [[|] c1].
  2:{ exists None. split; [reflexivity | discriminate]. }
  unfold goToPreviousTerminalWithKinds.
  destruct (goToPreviousTerminalWithKinds_loop (S (cur_index c1)) c1 kinds)
    as [[|] c2] eqn:Hloop.
  2:{ exists None. split; [reflexivity | discriminate]. }
  destruct (goToPreviousTerminalWithKinds_found _ _ _ Hloop) as [k [t [Hnode Hk]]].
  rewrite Hnode. eexists. split; [reflexivity|]. intros x [= <-]. exact Hk.
Qed.

(** ** The loops have fuel to spare *)

Lemma findFrom_bounds (p : Node -> bool) (l : list Node) (i j : nat) :
  findFrom p l i = Some j -> i <= j < i + List.length l.
Proof.
  revert i. induction l as [|n r IH]; intro i; cbn [findFrom List.length]; [discriminate|].
  destruct (p n).
  - intros [= <-]. lia.
  - intro H. apply IH in H. lia.
Qed.

Lemma goToNextMatching_cases (p : Node -> bool) (c : Cursor) :
  (fst (goToNextMatching p c) = false /\
   (cur_completed c = true \/ snd (goToNextMatching p c) = complete c))
  \/ (fst (goToNextMatching p c) = true /\ cur_completed c = false /\
      exists j, snd (goToNextMatching p c) = moveTo c j
                /\ cur_index c < j < walkLength c).
Proof.
  unfold goToNextMatching. destruct (cur_completed c) eqn:Hc.
  - left. split; [reflexivity | left; reflexivity].
  - destruct (findFrom p (skipn (S (cur_index c)) (nodes c)) (S (cur_index c)))
      as [j|] eqn:Hfind.
    + right. split; [reflexivity|]. split; [reflexivity|]. exists j.
      split; [reflexivity|]. apply findFrom_bounds in Hfind.
      rewrite length_skipn in Hfind. unfold walkLength. lia.
    + left. split; [reflexivity | right; reflexivity].
Qed.

(** With an advancing body, any fuel of at least the number of nodes left in
    the walk gives the same run of the loop. *)
Lemma whileNext_fuel {A : Type} (k : NonterminalKind.t)
    (body : Cursor -> A -> M (Cursor * A)) :
  Advancing body ->
  forall fuel1 fuel2 c a st,
    (cur_completed c = true \/ walkLength c - cur_index c <= fuel1) ->
    (cur_completed c = true \/ walkLength c - cur_index c <= fuel2) ->
    whileNext fuel1 k body c a st = whileNext fuel2 k body c a st.
Proof.
  intro Hadv.
  assert (Hstop : forall fuel c a st,
            (cur_completed c = true \/ walkLength c - cur_index c <= 0) ->
            whileNext fuel k body c a st = ret a st).
  { intros [|fuel] c a st Hc; [reflexivity|]. cbn [whileNext].
    unfold goToNextNonterminalWithKind.
    destruct (goToNextMatching_cases (hasNonterminalKind k) c)
      as [[Hf _]|[_ [Hnc [j [_ Hj]]]]].
    - destruct (goToNextMatching (hasNonterminalKind k) c) as [found c'].
      cbn [fst] in Hf. subst found. reflexivity.
    - destruct Hc as [Hc|Hc]; [congruence | lia]. }
  induction fuel1 as [|fuel1 IH]; intros fuel2 c a st H1 H2.
  - rewrite (Hstop fuel2 c a st H1). reflexivity.
  - destruct fuel2 as [|fuel2]; [rewrite (Hstop (S fuel1) c a st H2); reflexivity|].
    cbn [whileNext]. unfold goToNextNonterminalWithKind.
    destruct (goToNextMatching_cases (hasNonterminalKind k) c)
      as [[Hf _]|[Hf [Hnc [j [Hsnd Hj]]]]];
      destruct (goToNextMatching (hasNonterminalKind k) c) as [found c'];
      cbn [fst snd] in *; subst found; [reflexivity|]. subst c'.
    unfold bind. destruct (body (moveTo c j) a st) as [[r|] st'] eqn:Hbody; [|reflexivity].
    destruct (Hadv _ _ _ _ _ Hbody) as [Hroot [_ Hpos]]. cbn [moveTo cur_root cur_index] in *.
    assert (Hlen : walkLength (fst r) = walkLength c).
    { unfold walkLength, nodes. rewrite Hroot. reflexivity. }
    apply IH; (destruct Hpos as [Hdone|Hpos]; [left; exact Hdone|]);
      right; rewrite Hlen.
    + destruct H1 as [H1|H1]; [congruence | lia].
    + destruct H2 as [H2|H2]; [congruence | lia].
Qed.

Lemma goToNextMatching_advances (p : Node -> bool) (c : Cursor) :
  cur_root (snd (goToNextMatching p c)) = cur_root c /\
  cur_offset (snd (goToNextMatching p c)) = cur_offset c /\
  (cur_completed (snd (goToNextMatching p c)) = true
   \/ cur_index c <= cur_index (snd (goToNextMatching p c))).
Proof.
  destruct (goToNextMatching_cases p c) as [[_ [Hc|Hc]]|[_ [_ [j [Hj Hlt]]]]].
  - unfold goToNextMatching. rewrite Hc. cbn [snd].
    split; [reflexivity | split; [reflexivity | left; exact Hc]].
  - rewrite Hc. split; [reflexivity | split; [reflexivity | left; reflexivity]].
  - rewrite Hj. split; [reflexivity | split; [reflexivity | right; cbn; lia]].
Qed.

Lemma checkCommentAndHash_advancing (env : Collaborators) (expected : string)
    (doc : TextDocument) :
  Advancing (checkCommentAndHash env expected doc).
Proof.
  intros c [] st r st'. unfold checkCommentAndHash.
  unfold bind, assertM, liftR, assertR, ret.
  destruct (getLastPrecedingTriviaWithKinds c _) as [comment|]; [|discriminate].
  destruct (checkFormulaComment env expected doc comment st) as [[fromComment|] st1];
    [|discriminate].
  destruct (isNonterminalNode (node c)); [|discriminate].
  destruct (stateVariableDefinition (node c)) as [sv|]; [|discriminate].
  destruct (Regex.isStorageLocationName (sv_name sv)).
  - destruct (checkStorageLocationConstant _ _ _ _ _ _ _) as [[?|] st2]; [|discriminate].
    intros [= <- _]. cbn [fst].
    unfold goToNextNonterminalWithKind.
    set (c1 := snd (goToNextMatching
                      (hasNonterminalKind NonterminalKind.StateVariableDefinitionValue) c)).
    destruct (goToNextMatching_advances
                (hasNonterminalKind NonterminalKind.StateVariableDefinitionValue) c)
      as [Hr1 [Ho1 Hp1]].
    destruct (goToNextMatching_advances
                (hasNonterminalKind NonterminalKind.Expression) c1) as [Hr2 [Ho2 Hp2]].
    fold c1 in Hr1, Ho1, Hp1. split; [congruence|]. split; [congruence|].
    destruct Hp2 as [Hp2|Hp2]; [left; exact Hp2|].
    destruct Hp1 as [Hp1|Hp1]; [|right; lia].
    left. unfold goToNextMatching. rewrite Hp1. exact Hp1.
  - intros [= <- _]. split; [reflexivity | split; [reflexivity | right; cbn; lia]].
Qed.

(** The loop of the hash validator never runs out of fuel: more fuel than the
    number of nodes of the contract changes nothing. *)
Lemma validateNamespaceCommentAndHash_fuel (env : Collaborators) (expected : string)
    (cursor : Cursor) (doc : TextDocument) (extra : nat) (st : State) :
  whileNext (walkLength (spawn cursor) + extra) NonterminalKind.StateVariableDefinition
    (checkCommentAndHash env expected doc) (spawn cursor) tt st
  = validateNamespaceCommentAndHash env expected cursor doc st.
Proof.
  unfold validateNamespaceCommentAndHash.
  apply whileNext_fuel; [apply checkCommentAndHash_advancing | |]; right; lia.
Qed.

Lemma goToNextTerminal_stop (c : Cursor) :
  covers 0 c -> fst (goToNextTerminal c) = false.
Proof.
  intro Hc. unfold goToNextTerminal, covers in *.
  destruct (goToNextMatching_cases isTerminalNode c) as [[Hf _]|[_ [Hnc [j [_ Hj]]]]];
    [exact Hf|].
  destruct Hc as [Hc|Hc]; [congruence | lia].
Qed.

Lemma goToNextTerminal_covers (fuel : nat) (c : Cursor) :
  covers (S fuel) c -> fst (goToNextTerminal c) = true ->
  covers fuel (snd (goToNextTerminal c)).
Proof.
  unfold goToNextTerminal, covers. intros Hc Hmoved.
  destruct (goToNextMatching_cases isTerminalNode c) as [[Hf _]|[_ [Hnc [j [Hsnd Hj]]]]];
    [congruence|].
  rewrite Hsnd. right. unfold walkLength, nodes in *. cbn [moveTo cur_root cur_index].
  destruct Hc as [Hc|Hc]; [congruence | lia].
Qed.

(** [goToLastTerminal] has fuel to spare. *)
Lemma goToLastTerminal_fuel (fuel1 fuel2 : nat) (c : Cursor) :
  covers fuel1 c -> covers fuel2 c ->
  goToLastTerminal_loop fuel1 c = goToLastTerminal_loop fuel2 c.
Proof.
  assert (Hstop : forall fuel c, covers 0 c -> goToLastTerminal_loop fuel c = c).
  { intros [|fuel] x Hx; [reflexivity|]. cbn [goToLastTerminal_loop]. unfold clone.
    rewrite (goToNextTerminal_stop Hx). reflexivity. }
  revert fuel2 c. induction fuel1 as [|fuel1 IH]; intros fuel2 c H1 H2.
  - rewrite (Hstop fuel2 c H1). reflexivity.
  - destruct fuel2 as [|fuel2]; [rewrite (Hstop (S fuel1) c H2); reflexivity|].
    cbn [goToLastTerminal_loop]. unfold clone.
    pose proof (@goToNextTerminal_covers fuel1 c H1) as Hc1.
    pose proof (@goToNextTerminal_covers fuel2 c H2) as Hc2.
    destruct (goToNextTerminal c) as [[|] c']; cbn [fst snd negb] in *; [|reflexivity].
    apply IH; auto.
Qed.

(** [goToFirstNonTrivia] has fuel to spare. *)
Lemma goToFirstNonTrivia_fuel (fuel1 fuel2 : nat) (c : Cursor) :
  covers fuel1 c -> covers fuel2 c ->
  goToFirstNonTrivia_loop fuel1 c = goToFirstNonTrivia_loop fuel2 c.
Proof.
  assert (Hstop : forall fuel c, covers 0 c -> goToFirstNonTrivia_loop fuel c = (false, c)).
  { intros [|fuel] x Hx; [reflexivity|]. cbn [goToFirstNonTrivia_loop]. unfold clone.
    rewrite (goToNextTerminal_stop Hx). reflexivity. }
  revert fuel2 c. induction fuel1 as [|fuel1 IH]; intros fuel2 c H1 H2.
  - rewrite (Hstop fuel2 c H1). reflexivity.
  - destruct fuel2 as [|fuel2]; [rewrite (Hstop (S fuel1) c H2); reflexivity|].
    cbn [goToFirstNonTrivia_loop]. unfold clone.
    pose proof (@goToNextTerminal_covers fuel1 c H1) as Hc1.
    pose proof (@goToNextTerminal_covers fuel2 c H2) as Hc2.
    destruct (goToNextTerminal c) as [[|] c']; cbn [fst snd negb andb] in *; [|reflexivity].
    destruct (isTrivia (node c')); [|reflexivity].
    apply IH; auto.
Qed.

(** The skipping of leading trivia in [getTrimmedRange] has fuel to spare. *)
Lemma skipLeadingTrivia_fuel (fuel1 fuel2 : nat) (c : Cursor) :
  cur_index c < walkLength c ->
  covers fuel1 c -> covers fuel2 c ->
  skipLeadingTrivia_loop fuel1 c = skipLeadingTrivia_loop fuel2 c.
Proof.
  assert (Hstop : forall fuel c, cur_index c < walkLength c -> covers 0 c ->
            skipLeadingTrivia_loop fuel c = c).
  { intros [|fuel] x Hv Hx; [reflexivity|]. cbn [skipLeadingTrivia_loop].
    destruct Hx as [Hx|Hx]; [|lia].
    unfold goToNextTerminal, goToNextMatching. rewrite Hx. reflexivity. }
  revert fuel2 c. induction fuel1 as [|fuel1 IH]; intros fuel2 c Hv H1 H2.
  - rewrite (Hstop fuel2 c Hv H1). reflexivity.
  - destruct fuel2 as [|fuel2]; [rewrite (Hstop (S fuel1) c Hv H2); reflexivity|].
    cbn [skipLeadingTrivia_loop]. unfold goToNextTerminal.
    destruct (goToNextMatching_cases isTerminalNode c)
      as [[Hf _]|[Hf [Hnc [j [Hsnd Hj]]]]];
      destruct (goToNextMatching isTerminalNode c) as [moved c'];
      cbn [fst snd] in *; subst moved; [reflexivity|]. subst c'.
    cbn [andb]. destruct (isTrivia (node (moveTo c j))); [|reflexivity].
    unfold covers in *. apply IH.
    + unfold walkLength, nodes in *. cbn [moveTo cur_root cur_index]. lia.
    + right. unfold walkLength, nodes in *. cbn [moveTo cur_root cur_index].
      destruct H1 as [H1|H1]; [congruence | lia].
    + right. unfold walkLength, nodes in *. cbn [moveTo cur_root cur_index].
      destruct H2 as [H2|H2]; [congruence | lia].
Qed.

(** [goToPreviousTerminalWithKinds] has fuel to spare. *)
Lemma goToPreviousTerminalWithKinds_fuel (fuel : nat) (c : Cursor)
    (kinds : list TerminalKind.t) :
  cur_index c < fuel ->
  goToPreviousTerminalWithKinds_loop fuel c kinds = goToPreviousTerminalWithKinds c kinds.
Proof.
  unfold goToPreviousTerminalWithKinds.
  revert c. induction fuel as [|fuel IH]; intros c Hlt; [lia|].
  cbn [goToPreviousTerminalWithKinds_loop]. unfold goToPrevious.
  destruct (cur_completed c) eqn:Hc; [reflexivity|].
  destruct (cur_index c) as [|i] eqn:Hi; [reflexivity|].
  assert (Hrest : goToPreviousTerminalWithKinds_loop fuel (moveTo c i) kinds
                  = goToPreviousTerminalWithKinds_loop (S i) (moveTo c i) kinds).
  { apply (IH (moveTo c i)). cbn. lia. }
  rewrite Hrest. reflexivity.
Qed.

(** The search for the last terminal that is not trivia in [getTrimmedRange]
    has fuel to spare. *)
Lemma lastNonTriviaEnd_fuel (fuel : nat) (c : Cursor) (end0 : nat) :
  cur_index c < fuel ->
  lastNonTriviaEnd_loop fuel c end0 = lastNonTriviaEnd_loop (S (cur_index c)) c end0.
Proof.
  revert c. induction fuel as [|fuel IH]; intros c Hlt; [lia|].
  cbn [lastNonTriviaEnd_loop]. unfold goToPrevious.
  destruct (cur_completed c) eqn:Hc; [reflexivity|].
  destruct (cur_index c) as [|i] eqn:Hi; [reflexivity|].
  assert (Hrest : lastNonTriviaEnd_loop fuel (moveTo c i) end0
                  = lastNonTriviaEnd_loop (S i) (moveTo c i) end0).
  { apply (IH (moveTo c i)). cbn. lia. }
  rewrite Hrest. reflexivity.
Qed.

Lemma covers_walkLength (c : Cursor) (extra : nat) : covers (walkLength c + extra) c.
Proof. right. lia. Qed.

(** The helpers of helpers/slang.ts are run with enough fuel: more changes
    nothing. *)
Lemma helpers_fuel (c : Cursor) (kinds : list TerminalKind.t) (extra : nat) :
  goToLastTerminal_loop (walkLength c + extra) c = goToLastTerminal c
  /\ goToFirstNonTrivia_loop (walkLength c + extra) c = goToFirstNonTrivia c
  /\ goToPreviousTerminalWithKinds_loop (S (cur_index c) + extra) c kinds
     = goToPreviousTerminalWithKinds c kinds
  /\ skipLeadingTrivia_loop (walkLength (spawn c) + extra) (spawn c)
     = skipLeadingTrivia_loop (walkLength (spawn c)) (spawn c).
Proof.
  pose proof (covers_walkLength c extra) as H1.
  pose proof (covers_walkLength c 0) as H0. rewrite Nat.add_0_r in H0.
  split; [|split; [|split]].
  - apply goToLastTerminal_fuel; assumption.
  - apply goToFirstNonTrivia_fuel; assumption.
  - apply goToPreviousTerminalWithKinds_fuel. lia.
  - apply skipLeadingTrivia_fuel.
    + cbn [spawn cur_index]. apply preorder_nonempty.
    + apply covers_walkLength.
    + pose proof (covers_walkLength (spawn c) 0) as H. rewrite Nat.add_0_r in H. exact H.
Qed.

(** ** The hash validator *)

Lemma writes_checkFormulaComment (env : Collaborators) (expected : string)
    (doc : TextDocument) (comment : option TriviaTextWithRange) :
  exists r, writes (checkFormulaComment env expected doc comment) (Val r)
              (formulaCommentWarnings expected doc comment) [].
Proof.
  unfold checkFormulaComment, formulaCommentWarnings.
  destruct comment as [cm|]; [|eexists; apply writes_ret].
  destruct (Regex.matchFormula (text cm)) as [id|]; [|eexists; apply writes_ret].
  destruct (String.eqb id expected); cbn [negb].
  - eexists. change (@nil Diagnostic) with (@nil Diagnostic ++ []).
    change (@nil string) with (@nil string ++ []).
    eapply writes_bind; apply writes_ret.
  - eexists. intro st. unfold bind, addDiagnostic, ret, extend. simpl.
    rewrite app_nil_r. reflexivity.
Qed.

Lemma precedingComment_defined (c : Cursor) :
  getLastPrecedingTriviaWithKinds c
    [TerminalKind.SingleLineComment; TerminalKind.MultiLineComment]
  = Val (precedingComment c).
Proof.
  unfold precedingComment.
  destruct (@getLastPrecedingTriviaWithKinds_defined c
              [TerminalKind.SingleLineComment; TerminalKind.MultiLineComment] eq_refl)
    as [o [Ho _]].
  rewrite Ho. reflexivity.
Qed.

(** A round of the hash validator on a variable that is not named as a
    storage location reports what the check of the comment reports. *)
Lemma checkCommentAndHash_other_name (env : Collaborators) (expected : string)
    (doc : TextDocument) (c : Cursor) (sv : StateVariable) :
  stateVariableDefinition (node c) = Val sv ->
  Regex.isStorageLocationName (sv_name sv) = false ->
  writes (checkCommentAndHash env expected doc c tt) (Val (c, tt))
    (formulaCommentWarnings expected doc (precedingComment c)) [].
Proof.
  intros Hsv Hname.
  pose proof (hasNonterminalKind_nonterminal _ _
                (stateVariableDefinition_nonterminal _ Hsv)) as Hnode.
  destruct (writes_checkFormulaComment env expected doc (precedingComment c))
    as [r Hcheck].
  intro st. unfold checkCommentAndHash.
  unfold bind at 1. unfold liftR at 1. rewrite precedingComment_defined.
  unfold bind at 1. rewrite Hcheck.
  unfold bind, assertM, liftR, assertR, ret. rewrite Hnode, Hsv, Hname.
  reflexivity.
Qed.

Lemma foldM_rounds_write (body : Cursor -> unit -> M (Cursor * unit))
    (report : Cursor -> list Diagnostic) (curs : list Cursor) :
  (forall cur, In cur curs -> writes (body cur tt) (Val (cur, tt)) (report cur) []) ->
  writes (foldM (round body) curs tt) (Val tt) (flat_map report curs) [].
Proof.
  induction curs as [|cur rest IH]; intro Hall.
  - apply writes_ret.
  - cbn [foldM flat_map]. change (@nil string) with (@nil string ++ []).
    eapply writes_bind.
    + eapply writes_round. apply Hall. left. reflexivity.
    + apply IH. intros c Hc. apply Hall. right. exact Hc.
Qed.

(** C6, as the code has it: the check of the formula comment is made in every
    round of the hash validator, before the name of the variable is looked at.
    For a state variable whose name does not end in [_STORAGE_LOCATION] or
    [StorageLocation], the round reports what the comment check reports, a
    NamespaceIdMismatchHashComment warning at a formula comment whose id is not
    the expected one, and nothing else; it leaves the cursor on the variable.
    Only the two checks of the initializer depend on the name.  So for a
    contract none of whose state variables is named as a storage location,
    the hash validator returns having reported, variable by variable in
    document order, the warnings of their comments. *)
Theorem C6_comment_checked_for_any_name (env : Collaborators) (expected : string)
    (doc : TextDocument) :
  (forall c sv,
     stateVariableDefinition (node c) = Val sv ->
     Regex.isStorageLocationName (sv_name sv) = false ->
     writes (checkCommentAndHash env expected doc c tt) (Val (c, tt))
       (formulaCommentWarnings expected doc (precedingComment c)) [])
  /\ (forall cursor,
        noStorageLocation cursor ->
        writes (validateNamespaceCommentAndHash env expected cursor doc) (Val tt)
          (flat_map (fun cur => formulaCommentWarnings expected doc (precedingComment cur))
             (definitionsIn NonterminalKind.StateVariableDefinition cursor)) []).
Proof.
  split.
  - intros c sv. apply checkCommentAndHash_other_name.
  - intros cursor Hnone.
    assert (Hround : forall cur,
              In cur (definitionsIn NonterminalKind.StateVariableDefinition cursor) ->
              writes (checkCommentAndHash env expected doc cur tt) (Val (cur, tt))
                (formulaCommentWarnings expected doc (precedingComment cur)) []).
    { intros cur Hcur. destruct (Hnone cur Hcur) as [sv [Hsv Hname]].
      exact (@checkCommentAndHash_other_name env expected doc cur sv Hsv Hname). }
    intro st. unfold validateNamespaceCommentAndHash.
    rewrite whileNext_stationary_on.
    + apply (@foldM_rounds_write (checkCommentAndHash env expected doc)
               (fun cur => formulaCommentWarnings expected doc (precedingComment cur))
               _ Hround).
    + reflexivity.
    + apply nextMatches_length.
    + intros cur Hcur [] st0 r st1 Hbody. rewrite (Hround cur Hcur st0) in Hbody.
      injection Hbody as <- _. reflexivity.
Qed.

Lemma C6_comment_checked_for_any_name_witness :
  let env := Sample.vaultEnv Sample.commentedTotal in
  let doc := Sample.vaultDocument Sample.commentedTotal in
  let cursor := Sample.vaultCursor Sample.commentedTotal in
  let c := Sample.firstInside NonterminalKind.StateVariableDefinition cursor in
  exists sv,
    stateVariableDefinition (node c) = Val sv /\
    Regex.isStorageLocationName (sv_name sv) = false /\
    noStorageLocation cursor /\
    codes (diagnosticsOf (checkCommentAndHash env "example.Vault" doc c tt))
    = [NAMESPACE_ID_MISMATCH_HASH_COMMENT] /\
    codes (diagnosticsOf (validateNamespaceCommentAndHash env "example.Vault" cursor doc))
    = [NAMESPACE_ID_MISMATCH_HASH_COMMENT].
Proof.
  cbv zeta. eexists.
  match goal with
  | |- ?A /\ ?B /\ ?C /\ _ =>
      assert (HA : A) by (vm_compute; reflexivity);
      assert (HB : B) by (vm_compute; reflexivity);
      assert (HC : C)
  end.
  { intros cur Hcur. vm_compute in Hcur. destruct Hcur as [<-|[]].
    eexists. split; vm_compute; reflexivity. }
  repeat (split; [assumption|]).
  destruct (C6_comment_checked_for_any_name
              (Sample.vaultEnv Sample.commentedTotal) "example.Vault"
              (Sample.vaultDocument Sample.commentedTotal)) as [Hround Hloop].
  split.
  - destruct (writes_observed (Hround _ _ HA HB)) as [_ [Hds _]].
    rewrite Hds. vm_compute. reflexivity.
  - destruct (writes_observed (Hloop _ HC)) as [_ [Hds _]].
    rewrite Hds. vm_compute. reflexivity.
Defined.

(** C6 as the spec states it fails: the sample variable [total] is not named
    as a storage location, and the formula comment before it, for an id other
    than the expected one, is reported all the same. *)
Lemma C6_counterexample :
  let env := Sample.vaultEnv Sample.commentedTotal in
  let doc := Sample.vaultDocument Sample.commentedTotal in
  let contract := Sample.vaultCursor Sample.commentedTotal in
  let c := Sample.firstInside NonterminalKind.StateVariableDefinition contract in
  (exists sv comment,
     stateVariableDefinition (node c) = Val sv /\
     sv_name sv = "total" /\
     Regex.isStorageLocationName (sv_name sv) = false /\
     formulaCommentFor c comment "example.other" /\
     exists d,
       In d (diagnosticsOf (validateNamespaceCommentAndHash env "example.Vault" contract doc))
       /\ diag_code d = NAMESPACE_ID_MISMATCH_HASH_COMMENT
       /\ diag_range d = slangToVSCodeRange doc (trivia_textRange comment)).
Proof.
  cbv zeta. eexists. eexists.
  split; [vm_compute; reflexivity|].
  split; [vm_compute; reflexivity|].
  split; [vm_compute; reflexivity|].
  split; [split; vm_compute; reflexivity|].
  eexists. split; [vm_compute; left; reflexivity|].
  split; vm_compute; reflexivity.
Qed.

(** ** The annotation validator *)

Lemma whileNext_invariant {A : Type} (I : A -> State -> Prop) (k : NonterminalKind.t)
    (body : Cursor -> A -> M (Cursor * A)) :
  (forall c a st r st', I a st -> body c a st = (Val r, st') -> I (snd r) st') ->
  forall fuel c a st r st',
    I a st -> whileNext fuel k body c a st = (Val r, st') -> I r st'.
Proof.
  intro Hbody. induction fuel as [|fuel IH]; intros c a st r st' HI; cbn [whileNext].
  - unfold ret. intros [= <- <-]. assumption.
  - destruct (goToNextNonterminalWithKind k c) as [[|] c'].
    + unfold bind. destruct (body c' a st) as [[r1|] st1] eqn:Hb; [|discriminate].
      intro Hrest. eapply IH; [|exact Hrest]. eapply Hbody; eassumption.
    + unfold ret. intros [= <- <-]. assumption.
Qed.

Lemma namespaceIdMismatches_nil (env : Collaborators) (doc : TextDocument)
    (contractDef : Node) :
  namespaceIdMismatches env doc contractDef [] = [].
Proof. unfold namespaceIdMismatches. destruct (contractName contractDef); reflexivity. Qed.

(** A round on a struct appends the mismatch of the annotation it finds. *)
Lemma checkStructAnnotation_step (env : Collaborators) (doc : TextDocument)
    (contractDef : Node) (d0 : list Diagnostic) (c : Cursor)
    (found : list NamespaceIdAndRange) (st : State)
    (r : Cursor * list NamespaceIdAndRange) (st' : State) :
  diagnostics st = d0 ++ namespaceIdMismatches env doc contractDef found ->
  checkStructAnnotation env doc contractDef c found st = (Val r, st') ->
  diagnostics st' = d0 ++ namespaceIdMismatches env doc contractDef (snd r).
Proof.
  intros Hinv. unfold checkStructAnnotation.
  unfold bind, assertM, liftR, assertR, ret.
  destruct (isNonterminalNode (node c)); [|discriminate].
  destruct (getNatSpec c) as [[natSpec|]|]; [| |discriminate].
  2:{ intros [= <- <-]. assumption. }
  destruct (TerminalKind.eqb (kind natSpec) TerminalKind.SingleLineNatSpecComment
            || TerminalKind.eqb (kind natSpec) TerminalKind.MultiLineNatSpecComment);
    [|discriminate].
  destruct ((if TerminalKind.eqb (kind natSpec) TerminalKind.SingleLineNatSpecComment
             then Regex.matchSingleLineAnnotation
             else Regex.matchMultiLineAnnotation) (text natSpec)) as [id|].
  2:{ intros [= <- <-]. assumption. }
  unfold console_log, getExpectedNamespaceId, bindR, namespaceIdMismatches in *.
  destruct (contractName contractDef) as [cname|]; [|discriminate].
  cbn [diagnostics console].
  destruct (String.eqb id (getNamespaceId env (getNamespacePrefix env doc) cname)) eqn:Hid;
    cbn [negb].
  - intros [= <- <-]. cbn [snd diagnostics].
    rewrite filter_app, map_app. cbn [filter namespaceId]. rewrite Hid. cbn [negb map].
    rewrite app_nil_r. assumption.
  - unfold addDiagnostic. intros [= <- <-]. cbn [snd diagnostics].
    rewrite filter_app, map_app. cbn [filter namespaceId]. rewrite Hid. cbn [negb map].
    rewrite Hinv, <- app_assoc. reflexivity.
Qed.

(** The loop over the structs reports exactly the mismatches of the
    annotations it collects. *)
Lemma collectNamespaceIds_reports (env : Collaborators) (c : Cursor) (doc : TextDocument)
    (contractDef : Node) (st : State) (found : list NamespaceIdAndRange) (st' : State) :
  collectNamespaceIds env c doc contractDef st = (Val found, st') ->
  diagnostics st' = diagnostics st ++ namespaceIdMismatches env doc contractDef found.
Proof.
  unfold collectNamespaceIds. intro Hloop.
  eapply (whileNext_invariant
            (fun found st' => diagnostics st' =
               diagnostics st ++ namespaceIdMismatches env doc contractDef found));
    [| |exact Hloop].
  - intros. eapply checkStructAnnotation_step; eassumption.
  - rewrite namespaceIdMismatches_nil, app_nil_r. reflexivity.
Qed.

Lemma withCode_app (code : string) (a b : list Diagnostic) :
  withCode code (a ++ b) = withCode code a ++ withCode code b.
Proof. apply filter_app. Qed.

Lemma codes_namespaceIdMismatches (env : Collaborators) (doc : TextDocument)
    (contractDef : Node) (found : list NamespaceIdAndRange) (code : string) :
  In code (codes (namespaceIdMismatches env doc contractDef found)) ->
  code = NAMESPACE_ID_MISMATCH.
Proof.
  unfold namespaceIdMismatches, codes.
  destruct (contractName contractDef); [|intros []].
  rewrite map_map. cbn [namespaceIdMismatch diag_code].
  rewrite in_map_iff. intros [x [<- _]]. reflexivity.
Qed.

Lemma codes_duplicateNamespace (doc : TextDocument) (l : list NamespaceIdAndRange)
    (code : string) :
  In code (codes (map (duplicateNamespace doc) l)) -> code = DUPLICATE_NAMESPACE_ID.
Proof.
  unfold codes. rewrite map_map. cbn [duplicateNamespace diag_code].
  rewrite in_map_iff. intros [x [<- _]]. reflexivity.
Qed.

Lemma withCode_absent (code : string) (ds : list Diagnostic) :
  ~ In code (codes ds) -> withCode code ds = [].
Proof.
  induction ds as [|d r IH]; [reflexivity|]. cbn [codes map In withCode filter].
  intro H. destruct (String.eqb (diag_code d) code) eqn:E.
  - apply String.eqb_eq in E. exfalso. apply H. left. exact E.
  - apply IH. intro Hr. apply H. right. exact Hr.
Qed.

Lemma foldM_reportDuplicate (doc : TextDocument) (l : list NamespaceIdAndRange) (st : State) :
  foldM (reportDuplicate doc) l tt st
  = (Val tt, extend st (map (duplicateNamespace doc) l) []).
Proof.
  revert st. induction l as [|x r IH]; intro st.
  - simpl. unfold ret. rewrite extend_nil. reflexivity.
  - rewrite foldM_cons. unfold reportDuplicate at 1, addDiagnostic.
    rewrite IH. unfold extend. cbn [diagnostics console map duplicateNamespace].
    rewrite <- app_assoc. reflexivity.
Qed.

Lemma duplicateNamespaceIds_two (a b : NamespaceIdAndRange) :
  namespaceId a = namespaceId b -> duplicateNamespaceIds [a; b] = [b].
Proof.
  intro H. unfold duplicateNamespaceIds. cbn. rewrite String.eqb_refl. cbn.
  rewrite H, String.eqb_refl. reflexivity.
Qed.

Lemma duplicates_need_two (found : list NamespaceIdAndRange) :
  duplicateNamespaceIds found <> [] -> Nat.ltb 1 (List.length found) = true.
Proof.
  destruct found as [|a [|b r]]; [intro H; exfalso; apply H; reflexivity | | reflexivity].
  intro H. exfalso. apply H. unfold duplicateNamespaceIds. cbn.
  rewrite String.eqb_refl. reflexivity.
Qed.

Lemma foldM_reportMultiple (doc : TextDocument) (l : list NamespaceIdAndRange) (st : State) :
  fst (foldM (reportMultiple doc) l tt st) = Val tt.
Proof.
  revert st. induction l as [|x r IH]; intro st; [reflexivity|].
  rewrite foldM_cons. unfold reportMultiple at 1, addDiagnostic. apply IH.
Qed.

Lemma reportNamespaceCount_returns (doc : TextDocument) (found : list NamespaceIdAndRange)
    (st : State) :
  fst (reportNamespaceCount doc found st) = Val tt.
Proof.
  unfold reportNamespaceCount.
  destruct (Nat.ltb 1 (List.length found)); [|reflexivity].
  destruct (Nat.ltb 0 (List.length (duplicateNamespaceIds found))).
  - rewrite foldM_reportDuplicate. reflexivity.
  - apply foldM_reportMultiple.
Qed.

Lemma findIndex_prefix (id : string) (prefix rest : list NamespaceIdAndRange) (i : nat) :
  findIndex id (prefix ++ rest) i
  = match findIndex id prefix i with
    | Some j => Some j
    | None => findIndex id rest (i + List.length prefix)
    end.
Proof.
  revert i. induction prefix as [|t r IH]; intro i; cbn [app findIndex List.length].
  - rewrite Nat.add_0_r. reflexivity.
  - destruct (String.eqb (namespaceId t) id); [reflexivity|].
    rewrite IH. replace (S i + List.length r) with (i + S (List.length r)) by lia.
    reflexivity.
Qed.

Lemma findIndex_seen (id : string) (prefix : list NamespaceIdAndRange) (i : nat) :
  match findIndex id prefix i with
  | Some j => i <= j < i + List.length prefix
              /\ existsb (fun s => String.eqb s id) (map namespaceId prefix) = true
  | None => existsb (fun s => String.eqb s id) (map namespaceId prefix) = false
  end.
Proof.
  revert i. induction prefix as [|t r IH]; intro i; cbn [findIndex map existsb List.length].
  - reflexivity.
  - destruct (String.eqb (namespaceId t) id).
    + split; [lia | reflexivity].
    + specialize (IH (S i)). destruct (findIndex id r (S i)).
      * destruct IH as [Hb He]. split; [lia | exact He].
      * exact IH.
Qed.

(** The filter of the annotation validator keeps the occurrences of an id
    after its first. *)
Lemma duplicateNamespaceIds_later (found : list NamespaceIdAndRange) :
  duplicateNamespaceIds found = laterOccurrences [] found.
Proof.
  unfold duplicateNamespaceIds.
  assert (H : forall l prefix,
            filterIndexed
              (fun value index =>
                 differsFromIndex (findIndex (namespaceId value) (prefix ++ l) 0) index)
              l (List.length prefix)
            = laterOccurrences (map namespaceId prefix) l).
  { induction l as [|x r IH]; intro prefix; [reflexivity|].
    cbn [filterIndexed laterOccurrences].
    pose proof (IH (prefix ++ [x])) as IH'.
    rewrite <- app_assoc, length_app, map_app in IH'. cbn [app List.length map] in IH'.
    replace (List.length prefix + 1) with (S (List.length prefix)) in IH' by lia.
    rewrite IH'. rewrite findIndex_prefix.
    pose proof (findIndex_seen (namespaceId x) prefix 0) as Hseen.
    destruct (findIndex (namespaceId x) prefix 0) as [j|].
    - destruct Hseen as [Hj He]. rewrite He. cbn [differsFromIndex].
      destruct (Nat.eqb_spec j (List.length prefix)); [lia|]. reflexivity.
    - rewrite Hseen. cbn [findIndex]. rewrite String.eqb_refl. cbn [differsFromIndex].
      rewrite Nat.eqb_refl. reflexivity. }
  exact (H found []).
Qed.

(** C2, as the code has it: when the structs of a contract carry exactly two
    namespace annotations and both have the same id, the annotation validator
    returns nothing and reports, besides the NamespaceIdMismatch of each
    annotation whose id is not the expected one, exactly one DuplicateNamespaceId
    error, at the range of the second annotation.  The first occurrence of an
    id is not a duplicate of anything before it and is not reported. *)
Theorem C2_duplicate_reported_at_second (env : Collaborators) (c : Cursor)
    (doc : TextDocument) (contractDef : Node) (st st1 : State)
    (a b : NamespaceIdAndRange) :
  collectNamespaceIds env c doc contractDef st = (Val [a; b], st1) ->
  namespaceId a = namespaceId b ->
  let reported :=
    namespaceIdMismatches env doc contractDef [a; b] ++ [duplicateNamespace doc b] in
  validateNamespaceStructAnnotation env c doc contractDef st
  = (Val None, {| diagnostics := diagnostics st ++ reported; console := console st1 |})
  /\ withCode DUPLICATE_NAMESPACE_ID reported = [duplicateNamespace doc b].
Proof.
  intros Hloop Hid reported. split.
  - unfold validateNamespaceStructAnnotation, bind. rewrite Hloop.
    unfold reportNamespaceCount. rewrite (duplicateNamespaceIds_two _ _ Hid).
    cbn [List.length Nat.ltb Nat.leb]. rewrite foldM_reportDuplicate.
    unfold ret, extend. cbn [singleNamespace map].
    rewrite (collectNamespaceIds_reports _ _ _ _ _ Hloop), <- app_assoc, app_nil_r.
    reflexivity.
  - unfold reported. rewrite withCode_app, withCode_absent.
    + cbn. reflexivity.
    + intro H. apply codes_namespaceIdMismatches in H. discriminate.
Qed.

Lemma C2_duplicate_reported_at_second_witness :
  let env := Sample.twinsEnv "example.Vault" in
  let doc := Sample.twinsDocument "example.Vault" in
  let c := Sample.twinsCursor "example.Vault" in
  exists a b st1,
    collectNamespaceIds env c doc (node c) emptyState = (Val [a; b], st1) /\
    namespaceId a = namespaceId b /\
    validateNamespaceStructAnnotation env c doc (node c) emptyState
    = (Val None,
       {| diagnostics := diagnostics emptyState ++
            (namespaceIdMismatches env doc (node c) [a; b] ++ [duplicateNamespace doc b]);
          console := console st1 |}).
Proof.
  cbv zeta. eexists. eexists. eexists.
  match goal with
  | |- ?A /\ ?B /\ _ =>
      assert (HA : A) by (vm_compute; reflexivity);
      assert (HB : B) by (vm_compute; reflexivity)
  end.
  repeat (split; [assumption|]).
  exact (proj1 (C2_duplicate_reported_at_second _ _ _ _ _ HA HB)).
Defined.

(** C2 as the spec states it fails: on the sample contract with two structs
    annotated [erc7201:example.Vault], no DuplicateNamespaceId is reported at
    the range of the first annotation. *)
Lemma C2_counterexample :
  let env := Sample.twinsEnv "example.Vault" in
  let doc := Sample.twinsDocument "example.Vault" in
  let c := Sample.twinsCursor "example.Vault" in
  exists a b,
    resultOf (collectNamespaceIds env c doc (node c)) = Val [a; b] /\
    namespaceId a = namespaceId b /\
    textRange_ a <> textRange_ b /\
    ~ (exists d,
         In d (diagnosticsOf (validateNamespaceStructAnnotation env c doc (node c)))
         /\ diag_code d = DUPLICATE_NAMESPACE_ID
         /\ diag_range d = slangToVSCodeRange doc (textRange_ a)).
Proof.
  cbv zeta. eexists. eexists.
  split; [vm_compute; reflexivity|].
  split; [reflexivity|].
  split; [discriminate|].
  vm_compute. intros [d [[<-|[]] [_ H]]]. discriminate.
Qed.

(** C3, as the code has it: when the annotations collected from the structs of
    a contract hold a duplicate id, the annotation validator returns nothing
    and reports the NamespaceIdMismatch of every annotation whose id is not the
    expected one, duplicates included, followed by one DuplicateNamespaceId for
    every occurrence of an id after its first; no MultipleNamespaces is
    reported. *)
Theorem C3_duplicates_suppress_multiple (env : Collaborators) (c : Cursor)
    (doc : TextDocument) (contractDef : Node) (st st1 : State)
    (found : list NamespaceIdAndRange) :
  collectNamespaceIds env c doc contractDef st = (Val found, st1) ->
  duplicateNamespaceIds found <> [] ->
  let reported :=
    namespaceIdMismatches env doc contractDef found
    ++ map (duplicateNamespace doc) (duplicateNamespaceIds found) in
  validateNamespaceStructAnnotation env c doc contractDef st
  = (Val None, {| diagnostics := diagnostics st ++ reported; console := console st1 |})
  /\ ~ In MULTIPLE_NAMESPACES (codes reported)
  /\ duplicateNamespaceIds found = laterOccurrences [] found.
Proof.
  intros Hloop Hdup reported. split; [|split; [|apply duplicateNamespaceIds_later]].
  - unfold validateNamespaceStructAnnotation, bind. rewrite Hloop.
    unfold reportNamespaceCount. rewrite (duplicates_need_two _ Hdup).
    pose proof (duplicates_need_two _ Hdup) as Htwo.
    destruct (duplicateNamespaceIds found) as [|x r] eqn:Hdups; [contradiction|].
    cbn [List.length Nat.ltb Nat.leb]. rewrite foldM_reportDuplicate.
    unfold ret, extend.
    rewrite (collectNamespaceIds_reports _ _ _ _ _ Hloop), <- app_assoc, app_nil_r.
    destruct found as [|a [|b rest]]; [discriminate | discriminate | reflexivity].
  - unfold reported, codes. rewrite map_app, in_app_iff. intros [H|H].
    + apply codes_namespaceIdMismatches in H. discriminate.
    + apply codes_duplicateNamespace in H. discriminate.
Qed.

Lemma C3_duplicates_suppress_multiple_witness :
  let env := Sample.twinsEnv "example.Wrong" in
  let doc := Sample.twinsDocument "example.Wrong" in
  let c := Sample.twinsCursor "example.Wrong" in
  exists found st1,
    collectNamespaceIds env c doc (node c) emptyState = (Val found, st1) /\
    duplicateNamespaceIds found <> [] /\
    codes (diagnosticsOf (validateNamespaceStructAnnotation env c doc (node c)))
    = [NAMESPACE_ID_MISMATCH; NAMESPACE_ID_MISMATCH; DUPLICATE_NAMESPACE_ID].
Proof.
  cbv zeta. eexists. eexists.
  match goal with
  | |- ?A /\ ?B /\ _ =>
      assert (HA : A) by (vm_compute; reflexivity);
      assert (HB : B) by (vm_compute; discriminate)
  end.
  repeat (split; [assumption|]).
  unfold diagnosticsOf.
  rewrite (proj1 (C3_duplicates_suppress_multiple _ _ _ _ _ HA HB)).
  vm_compute. reflexivity.
Defined.

(** C3 as the spec states it fails: on the sample contract with two structs
    annotated [erc7201:example.Wrong], where the expected id is
    [example.Vault], a NamespaceIdMismatch is reported at each of the two
    duplicated annotations. *)
Lemma C3_counterexample :
  let env := Sample.twinsEnv "example.Wrong" in
  let doc := Sample.twinsDocument "example.Wrong" in
  let c := Sample.twinsCursor "example.Wrong" in
  exists found,
    resultOf (collectNamespaceIds env c doc (node c)) = Val found /\
    duplicateNamespaceIds found <> [] /\
    forall f, In f found ->
      exists d,
        In d (diagnosticsOf (validateNamespaceStructAnnotation env c doc (node c)))
        /\ diag_code d = NAMESPACE_ID_MISMATCH
        /\ diag_range d = slangToVSCodeRange doc (textRange_ f).
Proof.
  cbv zeta. eexists.
  split; [vm_compute; reflexivity|].
  split; [vm_compute; discriminate|].
  intros f [<-|[<-|[]]]; eexists.
  - split; [vm_compute; left; reflexivity|]. split; reflexivity.
  - split; [vm_compute; right; left; reflexivity|]. split; reflexivity.
Qed.

(** ** The namespace checks return *)

Lemma foldM_returns {A B : Type} (f : A -> B -> M A) (l : list B) :
  (forall x, In x l -> forall a st, exists a' st', f a x st = (Val a', st')) ->
  forall a st, exists a' st', foldM f l a st = (Val a', st').
Proof.
  induction l as [|x r IH]; intros Hf a st.
  - exists a, st. reflexivity.
  - rewrite foldM_cons. destruct (Hf x (or_introl eq_refl) a st) as [a1 [st1 H1]].
    rewrite H1. apply IH. intros y Hy. apply Hf. right. exact Hy.
Qed.

Lemma checkStructAnnotation_returns (env : Collaborators) (doc : TextDocument)
    (contractDef : Node) (contractNameText : string) (c : Cursor)
    (found : list NamespaceIdAndRange) (st : State) :
  isNonterminalNode (node c) = true ->
  contractName contractDef = Val contractNameText ->
  exists r st', checkStructAnnotation env doc contractDef c found st = (Val r, st').
Proof.
  intros Hnode Hname. unfold checkStructAnnotation.
  unfold bind, assertM, liftR, assertR, ret. rewrite Hnode.
  destruct (@getLastPrecedingTriviaWithKinds_defined c
              [TerminalKind.MultiLineNatSpecComment; TerminalKind.SingleLineNatSpecComment]
              eq_refl) as [o [Ho Hkind]].
  unfold getNatSpec. rewrite Ho.
  destruct o as [natSpec|]; [|eauto].
  specialize (Hkind natSpec eq_refl). cbn [existsb] in Hkind.
  rewrite orb_false_r, orb_comm in Hkind. rewrite Hkind.
  destruct ((if TerminalKind.eqb (kind natSpec) TerminalKind.SingleLineNatSpecComment
             then Regex.matchSingleLineAnnotation
             else Regex.matchMultiLineAnnotation) (text natSpec)) as [id|]; [|eauto].
  unfold console_log, getExpectedNamespaceId, bindR. rewrite Hname.
  destruct (negb (String.eqb id _)); unfold addDiagnostic; eauto.
Qed.

Lemma checkStructAnnotation_stays (env : Collaborators) (doc : TextDocument)
    (contractDef : Node) (c : Cursor) (found : list NamespaceIdAndRange) (st : State)
    (r : Cursor * list NamespaceIdAndRange) (st' : State) :
  checkStructAnnotation env doc contractDef c found st = (Val r, st') -> fst r = c.
Proof.
  unfold checkStructAnnotation.
  unfold bind, assertM, liftR, assertR, ret, console_log, addDiagnostic.
  destruct (isNonterminalNode (node c)); [|discriminate].
  destruct (getNatSpec c) as [[natSpec|]|]; [| |discriminate].
  2:{ intros [= <- _]. reflexivity. }
  destruct (TerminalKind.eqb (kind natSpec) TerminalKind.SingleLineNatSpecComment
            || TerminalKind.eqb (kind natSpec) TerminalKind.MultiLineNatSpecComment);
    [|discriminate].
  destruct ((if TerminalKind.eqb (kind natSpec) TerminalKind.SingleLineNatSpecComment
             then Regex.matchSingleLineAnnotation
             else Regex.matchMultiLineAnnotation) (text natSpec)) as [id|].
  2:{ intros [= <- _]. reflexivity. }
  destruct (getExpectedNamespaceId env (getNamespacePrefix env doc) contractDef) as [e|];
    [|discriminate].
  destruct (negb (String.eqb id e)).
  - destruct (contractName contractDef); [|discriminate].
    intros [= <- _]. reflexivity.
  - intros [= <- _]. reflexivity.
Qed.

Lemma collectNamespaceIds_returns (env : Collaborators) (cursor : Cursor)
    (doc : TextDocument) (contractDef : Node) (contractNameText : string) (st : State) :
  contractName contractDef = Val contractNameText ->
  exists found st', collectNamespaceIds env cursor doc contractDef st = (Val found, st').
Proof.
  intro Hname. unfold collectNamespaceIds.
  rewrite whileNext_definitions.
  - apply foldM_returns. intros cur Hcur found st0. unfold round, bind.
    destruct (@checkStructAnnotation_returns env doc contractDef contractNameText cur
                found st0
                (hasNonterminalKind_nonterminal _ _ (nextMatches_node _ _ _ Hcur)) Hname)
      as [r [st1 Hr]].
    rewrite Hr. unfold ret. eauto.
  - intros. eapply checkStructAnnotation_stays; eassumption.
Qed.

Lemma validateNamespaceStructAnnotation_returns (env : Collaborators) (cursor : Cursor)
    (doc : TextDocument) (contractDef : Node) (contractNameText : string) (st : State) :
  contractName contractDef = Val contractNameText ->
  exists r st', validateNamespaceStructAnnotation env cursor doc contractDef st
                = (Val r, st').
Proof.
  intro Hname. unfold validateNamespaceStructAnnotation, bind.
  destruct (@collectNamespaceIds_returns env cursor doc contractDef contractNameText
              st Hname) as [found [st1 H1]].
  rewrite H1.
  pose proof (reportNamespaceCount_returns doc found st1) as Hret.
  destruct (reportNamespaceCount doc found st1) as [r st2]. cbn [fst] in Hret. subst r.
  unfold ret. eauto.
Qed.

Lemma indicesFrom_complete (p : Node -> bool) (l : list Node) (i j : nat) (n : Node) :
  i <= j -> nth_error l (j - i) = Some n -> p n = true -> In j (indicesFrom p l i).
Proof.
  revert i. induction l as [|a r IH]; intros i Hle Hnth Hp.
  - destruct (j - i); discriminate.
  - cbn [indicesFrom]. destruct (Nat.eq_dec i j) as [->|Hne].
    + rewrite Nat.sub_diag in Hnth. injection Hnth as ->. rewrite Hp. left. reflexivity.
    + replace (j - i) with (S (j - S i)) in Hnth by lia. cbn [nth_error] in Hnth.
      assert (Hin : In j (indicesFrom p r (S i))) by (apply IH; [lia | assumption..]).
      destruct (p a); [right|]; exact Hin.
Qed.

Lemma nextMatches_mem (p : Node -> bool) (c : Cursor) (j : nat) (n : Node) :
  cur_index c < j -> nth_error (nodes c) j = Some n -> p n = true ->
  In (moveTo c j) (nextMatches p c).
Proof.
  intros Hlt Hnth Hp. unfold nextMatches. apply in_map.
  apply (@indicesFrom_complete p _ _ _ n); [lia | | exact Hp].
  rewrite nth_error_skipn.
  replace (S (cur_index c) + (j - S (cur_index c))) with j by lia. exact Hnth.
Qed.

Lemma goToNextMatching_found (p : Node -> bool) (c c' : Cursor) :
  goToNextMatching p c = (true, c') ->
  cur_completed c = false /\
  exists j n, c' = moveTo c j /\ cur_index c < j
              /\ nth_error (nodes c) j = Some n /\ p n = true.
Proof.
  unfold goToNextMatching. destruct (cur_completed c); [discriminate|].
  destruct (findFrom p (skipn (S (cur_index c)) (nodes c)) (S (cur_index c)))
    as [j|] eqn:Hfind; [|discriminate].
  intros [= <-]. split; [reflexivity|].
  destruct (indicesFrom_step _ _ _ Hfind) as [d [Hj Hstep]].
  assert (Hin : In j (indicesFrom p (skipn (S (cur_index c)) (nodes c)) (S (cur_index c))))
    by (rewrite Hstep; left; reflexivity).
  apply indicesFrom_sound in Hin. destruct Hin as [Hle [n [Hn Hp]]].
  rewrite nth_error_skipn in Hn.
  replace (S (cur_index c) + (j - S (cur_index c))) with j in Hn by lia.
  exists j, n. repeat split; [lia | exact Hn | exact Hp].
Qed.

(** A loop with an advancing body returns when its body returns on every
    matching node after the place the loop starts from. *)
Lemma whileNext_returns {A : Type} (k : NonterminalKind.t)
    (body : Cursor -> A -> M (Cursor * A)) (c0 : Cursor) :
  Advancing body ->
  cur_completed c0 = false ->
  (forall cur, In cur (nextMatches (hasNonterminalKind k) c0) ->
     forall a st, exists r st', body cur a st = (Val r, st')) ->
  forall fuel c a st,
    cur_root c = cur_root c0 -> cur_offset c = cur_offset c0 ->
    (cur_completed c = true \/ cur_index c0 <= cur_index c) ->
    exists a' st', whileNext fuel k body c a st = (Val a', st').
Proof.
  intros Hadv Hc0 Hbody. induction fuel as [|fuel IH]; intros c a st Hroot Hoff Hpos.
  - exists a, st. reflexivity.
  - cbn [whileNext]. unfold goToNextNonterminalWithKind.
    destruct (goToNextMatching (hasNonterminalKind k) c) as [[|] c'] eqn:Hnext.
    2:{ exists a, st. reflexivity. }
    destruct (goToNextMatching_found _ _ Hnext) as [Hc [j [n [-> [Hlt [Hnth Hp]]]]]].
    destruct Hpos as [Hpos|Hpos]; [congruence|].
    assert (Hsame : moveTo c j = moveTo c0 j).
    { unfold moveTo. rewrite Hroot, Hoff, Hc, Hc0. reflexivity. }
    assert (Hin : In (moveTo c j) (nextMatches (hasNonterminalKind k) c0)).
    { rewrite Hsame. apply (@nextMatches_mem _ c0 j n); [lia | | exact Hp].
      unfold nodes in *. rewrite <- Hroot. exact Hnth. }
    destruct (Hbody _ Hin a st) as [r [st1 Hr]].
    unfold bind. rewrite Hr.
    destruct (Hadv _ _ _ _ _ Hr) as [Hr1 [Hr2 Hr3]]. cbn [moveTo cur_root cur_offset cur_index] in *.
    apply IH; [congruence | congruence |].
    destruct Hr3 as [Hr3|Hr3]; [left; exact Hr3 | right; lia].
Qed.

Lemma checkStorageLocationConstant_returns (env : Collaborators) (expected : string)
    (doc : TextDocument) (fromComment : option string) (flag : bool) (c : Cursor)
    (st : State) :
  exists st', checkStorageLocationConstant env expected doc fromComment flag c st
              = (Val tt, st').
Proof.
  unfold checkStorageLocationConstant.
  destruct (node c) as [k t|k cs] eqn:Hnode; [unfold ret; eauto|].
  assert (Hnt : isNonterminalNode (node c) = true) by (rewrite Hnode; reflexivity).
  destruct (getTrimmedRange_defined _ Hnt) as [trimmed Htrim].
  unfold bind, liftR, ret, addDiagnostic. rewrite Htrim.
  destruct fromComment as [h|];
    [destruct (negb (Js.includes (unparse (NonterminalNode k cs)) h))|];
    destruct (_ && _); eauto.
Qed.

Lemma checkCommentAndHash_returns (env : Collaborators) (expected : string)
    (doc : TextDocument) (c : Cursor) (sv : StateVariable) (u : unit) (st : State) :
  stateVariableDefinition (node c) = Val sv ->
  exists r st', checkCommentAndHash env expected doc c u st = (Val r, st').
Proof.
  intro Hsv.
  pose proof (hasNonterminalKind_nonterminal _ _
                (stateVariableDefinition_nonterminal _ Hsv)) as Hnode.
  destruct (@getLastPrecedingTriviaWithKinds_defined c
              [TerminalKind.SingleLineComment; TerminalKind.MultiLineComment] eq_refl)
    as [comment [Hcomment _]].
  destruct (writes_checkFormulaComment env expected doc comment) as [fc Hfc].
  unfold checkCommentAndHash.
  unfold bind at 1. unfold liftR at 1. rewrite Hcomment.
  unfold bind at 1. rewrite Hfc.
  unfold bind at 1. unfold assertM, liftR at 1, assertR. rewrite Hnode.
  unfold bind at 1. unfold liftR at 1. rewrite Hsv.
  destruct (Regex.isStorageLocationName (sv_name sv)); [|unfold ret; eauto].
  unfold bind.
  match goal with
  | |- context [checkStorageLocationConstant ?e ?x ?d ?f ?g ?cc ?s] =>
      destruct (checkStorageLocationConstant_returns e x d f g cc s) as [st1 H1];
      rewrite H1
  end.
  unfold ret. eauto.
Qed.

(** The hash validator returns for a contract whose state variable
    definitions can be read. *)
Lemma validateNamespaceCommentAndHash_returns (env : Collaborators) (expected : string)
    (cursor : Cursor) (doc : TextDocument) (st : State) :
  definitionsReadable cursor ->
  exists st', validateNamespaceCommentAndHash env expected cursor doc st = (Val tt, st').
Proof.
  intro Hread. unfold validateNamespaceCommentAndHash.
  destruct (@whileNext_returns unit NonterminalKind.StateVariableDefinition
              (checkCommentAndHash env expected doc) (spawn cursor)
              (checkCommentAndHash_advancing env expected doc) eq_refl) with
    (fuel := walkLength (spawn cursor)) (c := spawn cursor) (a := tt) (st := st)
    as [[] [st' H]].
  - intros cur Hcur a st0. destruct (Hread cur Hcur) as [sv Hsv].
    exact (@checkCommentAndHash_returns env expected doc cur sv a st0 Hsv).
  - reflexivity.
  - reflexivity.
  - right. lia.
  - exists st'. exact H.
Qed.

(** The namespace checks return for a contract whose name and state variable
    definitions can be read. *)
Lemma validateNamespace_returns (env : Collaborators) (cursor : Cursor)
    (doc : TextDocument) (contractDef : Node) (contractNameText : string) :
  contractName contractDef = Val contractNameText ->
  definitionsReadable cursor ->
  resultOf (validateNamespace env cursor doc contractDef) = Val tt.
Proof.
  intros Hname Hread. unfold resultOf, validateNamespace, bind.
  destruct (@validateNamespaceStructAnnotation_returns env cursor doc contractDef
              contractNameText emptyState Hname) as [r [st1 H1]].
  rewrite H1. destruct r as [found|]; [|reflexivity].
  destruct (@validateNamespaceCommentAndHash_returns env (namespaceId found) cursor doc
              st1 Hread)
    as [st2 H2].
  rewrite H2. reflexivity.
Qed.

(** ** The upgradeability classifier *)

Lemma goToNext_nextMatches (p : Node -> bool) (c : Cursor) :
  cur_completed c = false ->
  match goToNextMatching p c with
  | (true, c') => nextMatches p c = c' :: nextMatches p c' /\ cur_completed c' = false
  | (false, _) => nextMatches p c = []
  end.
Proof.
  intro Hc. unfold goToNextMatching, nextMatches. rewrite Hc.
  destruct (findFrom p (skipn (S (cur_index c)) (nodes c)) (S (cur_index c)))
    as [j|] eqn:Hfind.
  - destruct (indicesFrom_step _ _ _ Hfind) as [d [Hj Hstep]].
    rewrite Hstep. cbn [map]. rewrite skipn_skipn.
    replace (S d + S (cur_index c)) with (S j) by lia.
    split; [reflexivity | exact Hc].
  - rewrite findFrom_head in Hfind.
    destruct (indicesFrom p (skipn (S (cur_index c)) (nodes c)) (S (cur_index c)));
      [reflexivity | discriminate].
Qed.

Lemma isAuthorizeUpgrade_signature (f : Node) :
  hasNonterminalKind NonterminalKind.FunctionDefinition f = true ->
  (isAuthorizeUpgrade f = Val true <-> rawAddressSignature f).
Proof.
  intro Hkind. unfold isAuthorizeUpgrade, rawAddressSignature, authorizeUpgradeWith,
    Ast.assertKind, assertR, bindR.
  rewrite Hkind. split.
  - destruct (Ast.required EdgeLabel.Name f) as [fn|] eqn:E1; [|discriminate].
    destruct (Ast.required EdgeLabel.Variant fn) as [variant|] eqn:E2; [|discriminate].
    destruct (Ast.text variant) as [t|] eqn:E3; [|discriminate].
    destruct (String.eqb t "_authorizeUpgrade") eqn:Hname; [|discriminate].
    apply String.eqb_eq in Hname. subst t.
    destruct (Ast.required EdgeLabel.Parameters f) as [decl|] eqn:E4; [|discriminate].
    destruct (Ast.required EdgeLabel.Parameters decl) as [params|] eqn:E5; [|discriminate].
    destruct (Ast.items params) as [|p [|q r]] eqn:E6; [discriminate| |discriminate].
    destruct (Ast.required EdgeLabel.TypeName p) as [tn|] eqn:E7; [|discriminate].
    intros [= Htype]. apply String.eqb_eq in Htype.
    exists fn, variant, decl, params, p, tn. repeat split; assumption || reflexivity.
  - intros [fn [variant [decl [params [p [tn [H1 [H2 [H3 [H4 [H5 [H6 [H7 H8]]]]]]]]]]]]].
    rewrite H1, H2, H3.
    change (String.eqb "_authorizeUpgrade" "_authorizeUpgrade") with true. cbv iota.
    rewrite H4, H5, H6, H7, H8. reflexivity.
Qed.

(** The loop over the function definitions answers whether one of them passes
    the test, provided each of them can be read. *)
Lemma inferUpgradeable_functions_spec (fuel : nat) (c : Cursor) :
  cur_completed c = false ->
  List.length (nextMatches (hasNonterminalKind NonterminalKind.FunctionDefinition) c) < fuel ->
  (forall f, In f (nextMatches (hasNonterminalKind NonterminalKind.FunctionDefinition) c) ->
             exists hit, isAuthorizeUpgrade (node f) = Val hit) ->
  exists b,
    inferUpgradeable_functions fuel c = Val b /\
    (b = true <->
     exists f, In f (nextMatches (hasNonterminalKind NonterminalKind.FunctionDefinition) c)
               /\ isAuthorizeUpgrade (node f) = Val true).
Proof.
  revert c. induction fuel as [|fuel IH]; intros c Hc Hlen Hread; [lia|].
  cbn [inferUpgradeable_functions]. unfold goToNextNonterminalWithKind.
  pose proof (goToNext_nextMatches
                (hasNonterminalKind NonterminalKind.FunctionDefinition) c Hc) as Hnext.
  destruct (goToNextMatching (hasNonterminalKind NonterminalKind.FunctionDefinition) c)
    as [[|] c'].
  - destruct Hnext as [Hcons Hc']. rewrite Hcons in *.
    assert (Hnode : isNonterminalNode (node c') = true).
    { apply (hasNonterminalKind_nonterminal NonterminalKind.FunctionDefinition).
      apply (nextMatches_node (hasNonterminalKind NonterminalKind.FunctionDefinition) c).
      rewrite Hcons. left. reflexivity. }
    rewrite Hnode. cbn [assertR bindR].
    destruct (Hread c' (or_introl eq_refl)) as [hit Hhit]. rewrite Hhit. cbn [bindR].
    destruct hit.
    + exists true. split; [reflexivity|]. split; [|reflexivity].
      intros _. exists c'. split; [left; reflexivity | assumption].
    + destruct (IH c' Hc') as [b [Hb Hiff]].
      * cbn [List.length] in Hlen. lia.
      * intros f Hf. apply Hread. right. assumption.
      * exists b. split; [assumption|]. rewrite Hiff. split.
        -- intros [f [Hf Hsig]]. exists f. split; [right|]; assumption.
        -- intros [f [[<-|Hf] Hsig]]; [congruence|]. exists f. split; assumption.
  - rewrite Hnext. exists false. split; [reflexivity|]. split; [discriminate|].
    intros [f [[] _]].
Qed.

(** For a contract that meets neither the inheritance heuristic nor the
    documentation comment heuristic, and whose function definitions can be
    read, the upgradeability classifier returns true if and only if the
    contract holds a function definition named exactly [_authorizeUpgrade] with
    exactly one parameter whose type node unparses, trivia included, to
    exactly [address]. *)
Lemma rawSignature_decides (cursor : Cursor) (contractDef : Node) :
  onlySignatureCanDecide cursor contractDef ->
  functionsReadable cursor ->
  exists b,
    inferUpgradeable cursor contractDef = Val b /\
    (b = true <->
     exists f, In f (definitionsIn NonterminalKind.FunctionDefinition cursor)
               /\ rawAddressSignature (node f)).
Proof.
  intros [hi [hu [ns [H1 [H2 [H3 [H4 [H5 H6]]]]]]]] Hread.
  unfold inferUpgradeable. rewrite H1, H3. cbn [bindR]. rewrite H2, H4. cbn [orb].
  destruct (@inferUpgradeable_functions_spec (walkLength (spawn cursor))
              (spawn cursor) eq_refl (nextMatches_length _ _) Hread)
    as [b [Hb Hiff]].
  rewrite Hb. cbn [bindR].
  assert (Hsig : forall f,
             In f (definitionsIn NonterminalKind.FunctionDefinition cursor) ->
             (isAuthorizeUpgrade (node f) = Val true <-> rawAddressSignature (node f))).
  { intros f Hf. apply isAuthorizeUpgrade_signature.
    exact (nextMatches_node _ _ _ Hf). }
  assert (Hiff' : b = true <->
            exists f, In f (definitionsIn NonterminalKind.FunctionDefinition cursor)
                      /\ rawAddressSignature (node f)).
  { rewrite Hiff. split; intros [f [Hf Hs]]; exists f; (split; [assumption|]);
      apply (Hsig f Hf); assumption. }
  destruct b.
  - exists true. split; [reflexivity | assumption].
  - rewrite H5. cbn [bindR]. rewrite H6. exists false. split; [reflexivity | assumption].
Qed.

(** A signature the code accepts is one the specification describes: no white
    space surrounds the text [address]. *)
Lemma rawAddressSignature_normalized (f : Node) :
  rawAddressSignature f -> addressSignature f.
Proof.
  intros [fn [variant [decl [params [p [tn [H1 [H2 [H3 [H4 [H5 [H6 [H7 H8]]]]]]]]]]]]].
  exists fn, variant, decl, params, p, tn.
  repeat (split; [assumption|]). unfold normalizedText. rewrite H8. reflexivity.
Qed.

(** C7 fails on the code, which does not normalize the text of the type.  In
    the sample contract [Proxy], whose function [_authorizeUpgrade] has its
    one parameter [address next] on a line of its own, the line break and the
    indentation are trivia inside the node of the type.  The contract meets
    neither the inheritance heuristic nor the documentation comment heuristic,
    its one function definition has the signature the specification
    describes, with normalized type text [address], and the classifier
    answers false.  With the parameter on the line of the function name it
    answers true. *)
Theorem C7_address_on_its_own_line :
  let c := Sample.indentedProxyCursor in
  onlySignatureCanDecide c (node c)
  /\ (exists f,
        definitionsIn NonterminalKind.FunctionDefinition c = [f]
        /\ addressSignature (node f)
        /\ ~ rawAddressSignature (node f))
  /\ inferUpgradeable c (node c) = Val false
  /\ inferUpgradeable (Sample.proxyCursor false) (node (Sample.proxyCursor false)) = Val true.
Proof.
  cbv zeta. split; [|split; [|split; vm_compute; reflexivity]].
  - exists None, None, None. repeat split; vm_compute; reflexivity.
  - eexists. split; [vm_compute; reflexivity|]. split.
    + do 6 eexists. repeat split; vm_compute; reflexivity.
    + intro Hraw. apply isAuthorizeUpgrade_signature in Hraw; [|vm_compute; reflexivity].
      vm_compute in Hraw. discriminate.
Qed.

(** The sample contract with [_authorizeUpgrade(address next)] is classified
    upgradeable; with [address payable next] it is not. *)
Example authorizeUpgrade_address_payable :
  inferUpgradeable (Sample.proxyCursor false) (node (Sample.proxyCursor false)) = Val true
  /\ inferUpgradeable (Sample.proxyCursor true) (node (Sample.proxyCursor true)) = Val false.
Proof. split; vm_compute; reflexivity. Qed.

(** The text compared with [address] is the unparsed type node, trivia
    included: with the parameter on a line of its own, the type node starts
    with the line break and the indentation, and the contract is not
    classified upgradeable. *)
Example authorizeUpgrade_indented_parameter :
  inferUpgradeable Sample.indentedProxyCursor (node Sample.indentedProxyCursor) = Val false.
Proof. vm_compute. reflexivity. Qed.

(** ** The variable classifier *)

Lemma writes_log_ret {A : Type} (l : string) (a : A) :
  writes (console_log l ;;; ret a) (Val a) [] [l].
Proof.
  intro st. unfold bind, console_log, ret, extend. cbn [diagnostics console].
  rewrite app_nil_r. reflexivity.
Qed.

Lemma scanAttribute_fold (sv : StateVariable) (attributes : list Node) (acc : AttributeScan) :
  exists acc' ls,
    writes (foldM (scanAttribute sv) attributes acc) (Val acc') [] ls /\
    ignoreVariable acc' = ignoreVariable acc || existsb isImmutableOrConstant attributes.
Proof.
  revert acc. induction attributes as [|x r IH]; intro acc.
  - exists acc, []. split; [apply writes_ret|]. rewrite orb_false_r. reflexivity.
  - cbn [foldM existsb]. unfold scanAttribute at 1.
    destruct (isImmutableOrConstant x).
    + destruct (IH {| ignoreVariable := true; replacement := replacement acc;
                      getter := getter acc |}) as [acc' [ls [Hw Hi]]].
      exists acc', ls. split.
      * change (@nil Diagnostic) with (@nil Diagnostic ++ []).
        change ls with ([] ++ ls). eapply writes_bind; [apply writes_ret | exact Hw].
      * rewrite Hi. cbn [ignoreVariable]. rewrite orb_true_r. reflexivity.
    + match goal with
      | |- context [bind (bind (console_log ?l) (fun _ => ret ?a)) _] =>
          destruct (IH a) as [acc' [ls [Hw Hi]]]; exists acc', ([l] ++ ls)
      end.
      split.
      * change (@nil Diagnostic) with (@nil Diagnostic ++ []).
        eapply writes_bind; [apply writes_log_ret | exact Hw].
      * rewrite Hi. cbn [ignoreVariable orb]. reflexivity.
Qed.

(** What a round of the variable classifier does for a variable whose
    re-parse can be read. *)
Lemma classifyVariable_round (env : Collaborators) (doc : TextDocument) (skip : bool)
    (cur : Cursor) (nc : NamespaceableContract) (sv : StateVariable) :
  hasNonterminalKind NonterminalKind.StateVariableDefinition (node cur) = true ->
  stateVariableDefinition (tree (reparseVariable env doc cur)) = Val sv ->
  exists trimmed ls,
    getTrimmedRange cur = Val trimmed /\
    if isExcluded sv then
      writes (classifyVariable env doc skip cur nc) (Val (cur, nc)) [] ls
    else if hasInitializer sv then
      writes (classifyVariable env doc skip cur nc) (Val (cur, nc))
        (if skip then [] else [variableHasInitialValue doc trimmed]) ls
    else
      exists entry,
        var_name entry = sv_name sv /\
        var_range entry = slangToVSCodeRange doc trimmed /\
        writes (classifyVariable env doc skip cur nc)
          (Val (cur, {| name := name nc; variables := variables nc ++ [entry] |}))
          (if skip then [] else [variableCanBeNamespaced doc trimmed]) ls.
Proof.
  intros Hkind Hsv.
  pose proof (hasNonterminalKind_nonterminal _ _ Hkind) as Hnode.
  destruct (getTrimmedRange_defined _ Hnode) as [trimmed Htrim].
  destruct (scanAttribute_fold sv (sv_attributes sv)
              {| ignoreVariable := false;
                 replacement := Js.trim (unparse (node cur));
                 getter := None |}) as [scan [ls [Hscan Hignore]]].
  cbn [ignoreVariable orb] in Hignore. fold (isExcluded sv) in Hignore.
  unfold reparseVariable in Hsv.
  exists trimmed.
  assert (Hhead : forall st,
            classifyVariable env doc skip cur nc st
            = (if ignoreVariable scan then
                 console_log ("Ignoring immutable or constant variable: "
                              ++ Js.trim (unparse (node cur)))%string ;;;
                 ret (cur, nc)
               else
                 match sv_value sv with
                 | Some _ =>
                     (if negb skip then
                        addDiagnostic doc (slangToVSCodeRange doc trimmed)
                          "Variable has initial value"
                          "If this contract is an upgradeable contract, consider moving this variable to namespaced storage and setting it in an initializer."
                          DiagnosticSeverity.Warning VARIABLE_HAS_INITIAL_VALUE NoData
                      else ret tt) ;;;
                     ret (cur, nc)
                 | None =>
                     (if negb skip then
                        addDiagnostic doc (slangToVSCodeRange doc trimmed)
                          "Variable can be namespaced."
                          "If this contract is an upgradeable contract, consider moving this variable to namespaced storage."
                          DiagnosticSeverity.Information VARIABLE_CAN_BE_NAMESPACED NoData
                      else ret tt) ;;;
                     ret (cur,
                          {| name := name nc;
                             variables := variables nc ++
                               [{| var_content := replacement scan;
                                   var_name := sv_name sv;
                                   var_range := slangToVSCodeRange doc trimmed;
                                   var_publicGetter := getter scan |}] |})
                 end) (extend st [] ls)).
  { intro st. unfold classifyVariable. cbv zeta.
    unfold bind at 1. unfold assertM, liftR at 1, assertR. rewrite Hnode.
    unfold bind at 1. unfold liftR at 1. rewrite Htrim.
    unfold bind at 1. unfold liftR at 1. rewrite Hsv.
    unfold bind at 1. rewrite (Hscan st). reflexivity. }
  rewrite <- Hignore. destruct (ignoreVariable scan).
  - exists (ls ++ [("Ignoring immutable or constant variable: "
                    ++ Js.trim (unparse (node cur)))%string]).
    split; [exact Htrim|]. intro st. rewrite Hhead.
    unfold bind, console_log, ret, extend. cbn [diagnostics console].
    rewrite ?app_nil_r, <- ?app_assoc. reflexivity.
  - unfold hasInitializer. destruct (sv_value sv) as [value|].
    + exists ls. split; [exact Htrim|]. intro st. rewrite Hhead.
      destruct skip; cbn [negb]; unfold bind, addDiagnostic, ret, extend;
        cbn [diagnostics console]; rewrite ?app_nil_r; reflexivity.
    + exists ls. split; [exact Htrim|]. eexists.
      split; [|split]; [| |intro st; rewrite Hhead;
        destruct skip; cbn [negb]; unfold bind, addDiagnostic, ret, extend;
        cbn [diagnostics console]; rewrite ?app_nil_r; reflexivity];
        reflexivity.
Qed.

Ltac destruct_matches :=
  repeat match goal with
         | |- context [match ?x with _ => _ end] => destruct x
         end.

Lemma classifyVariable_stays (env : Collaborators) (doc : TextDocument) (skip : bool)
    (cur : Cursor) (nc : NamespaceableContract) (st : State)
    (r : Cursor * NamespaceableContract) (st' : State) :
  classifyVariable env doc skip cur nc st = (Val r, st') -> fst r = cur.
Proof.
  unfold classifyVariable. cbv zeta.
  unfold bind, assertM, liftR, assertR, ret, console_log, addDiagnostic.
  destruct (isNonterminalNode (node cur)); [|discriminate].
  destruct (getTrimmedRange cur); [|discriminate].
  destruct (stateVariableDefinition _) as [sv|]; [|discriminate].
  destruct (foldM _ _ _ _) as [[scan|] st1]; [|discriminate].
  destruct (ignoreVariable scan); [intros [= <- _]; reflexivity|].
  destruct (sv_value sv); destruct (negb skip); intros [= <- _]; reflexivity.
Qed.

Lemma validateNamespaceableVariables_rounds (env : Collaborators) (cursor : Cursor)
    (doc : TextDocument) (nc : NamespaceableContract) (skip : bool) (st : State) :
  validateNamespaceableVariables env cursor doc nc skip st
  = foldM (round (classifyVariable env doc skip))
      (definitionsIn NonterminalKind.StateVariableDefinition cursor) nc st.
Proof.
  unfold validateNamespaceableVariables. apply whileNext_definitions.
  intros. eapply classifyVariable_stays; eassumption.
Qed.

Lemma namespaceable_record (nc : NamespaceableContract) :
  {| name := name nc; variables := variables nc ++ [] |} = nc.
Proof. destruct nc. cbn. rewrite app_nil_r. reflexivity. Qed.

Lemma admittedVariable_more (env : Collaborators) (doc : TextDocument)
    (curs curs' : list Cursor) (range : Range) :
  (forall c, In c curs -> In c curs') ->
  admittedVariable env doc curs range -> admittedVariable env doc curs' range.
Proof.
  intros Hsub [cur [sv [trimmed [Hin Hrest]]]].
  exists cur, sv, trimmed. split; [apply Hsub; exact Hin | exact Hrest].
Qed.

(** The classifier, run over state variables whose re-parse can be read,
    returns the contract record with the namespaceable variables appended:
    those with no [immutable] or [constant] attribute and no initializer.
    Every variable it lists and every diagnostic it reports has the range of a
    variable without [immutable] and [constant]. *)
Lemma classifier_summary (env : Collaborators) (doc : TextDocument) (skip : bool)
    (curs : list Cursor) :
  (forall cur, In cur curs ->
     hasNonterminalKind NonterminalKind.StateVariableDefinition (node cur) = true /\
     exists sv, stateVariableDefinition (tree (reparseVariable env doc cur)) = Val sv) ->
  forall nc, exists added ds ls,
    writes (foldM (round (classifyVariable env doc skip)) curs nc)
      (Val {| name := name nc; variables := variables nc ++ added |}) ds ls
    /\ (added <> [] <->
        exists cur sv, In cur curs
          /\ stateVariableDefinition (tree (reparseVariable env doc cur)) = Val sv
          /\ isNamespaceable sv = true)
    /\ Forall (fun e => admittedVariable env doc curs (var_range e)) added
    /\ Forall (fun d => admittedVariable env doc curs (diag_range d)) ds.
Proof.
  induction curs as [|cur rest IH]; intros Hall nc.
  - exists [], [], []. split; [|split; [|split; constructor]].
    + rewrite namespaceable_record. apply writes_ret.
    + split; [intro H; exfalso; apply H; reflexivity | intros [c [sv [[] _]]]].
  - destruct (Hall cur (or_introl eq_refl)) as [Hkind [sv Hsv]].
    assert (Hrest : forall c, In c rest ->
              hasNonterminalKind NonterminalKind.StateVariableDefinition (node c) = true /\
              exists sv, stateVariableDefinition (tree (reparseVariable env doc c)) = Val sv).
    { intros c Hc. apply Hall. right. exact Hc. }
    destruct (@classifyVariable_round env doc skip cur nc sv Hkind Hsv)
      as [trimmed [ls [Htrim Hround]]].
    assert (Hcase :
      exists nc1 ds1 one,
        writes (round (classifyVariable env doc skip) nc cur) (Val nc1) ds1 ls
        /\ nc1 = {| name := name nc; variables := variables nc ++ one |}
        /\ (one <> [] <-> isNamespaceable sv = true)
        /\ Forall (fun e => admittedVariable env doc [cur] (var_range e)) one
        /\ Forall (fun d => admittedVariable env doc [cur] (diag_range d)) ds1).
    { unfold isNamespaceable.
      destruct (isExcluded sv) eqn:Hexcl; [|destruct (hasInitializer sv)].
      - exists nc, [], []. split; [eapply writes_round; exact Hround|].
        split; [symmetry; apply namespaceable_record|].
        cbn. split; [|split; constructor].
        split; [intro H; exfalso; apply H; reflexivity | discriminate].
      - eexists nc, _, []. split; [eapply writes_round; exact Hround|].
        split; [symmetry; apply namespaceable_record|].
        cbn. split; [|split; [constructor|]].
        + split; [intro H; exfalso; apply H; reflexivity | discriminate].
        + destruct skip; constructor; [|constructor].
          exists cur, sv, trimmed. cbn. auto 6.
      - destruct Hround as [entry [_ [Hrange Hround]]].
        eexists _, _, [entry]. split; [eapply writes_round; exact Hround|].
        split; [reflexivity|]. cbn. split; [|split].
        + split; [reflexivity | discriminate].
        + constructor; [|constructor]. exists cur, sv, trimmed. cbn. auto 6.
        + destruct skip; constructor; [|constructor].
          exists cur, sv, trimmed. cbn. auto 6. }
    destruct Hcase as [nc1 [ds1 [one [Hw1 [Hnc1 [Hone [Hone_adm Hds1_adm]]]]]]].
    destruct (IH Hrest nc1) as [added [ds2 [ls2 [Hw2 [Hadded [Hadd_adm Hds2_adm]]]]]].
    exists (one ++ added), (ds1 ++ ds2), (ls ++ ls2).
    split; [|split; [|split]].
    + cbn [foldM]. eapply writes_bind; [exact Hw1|].
      rewrite Hnc1 in Hw2. cbn [name variables] in Hw2.
      rewrite <- app_assoc in Hw2. rewrite Hnc1. exact Hw2.
    + split.
      * intro Hne. destruct one as [|e one'].
        -- cbn in Hne. apply Hadded in Hne. destruct Hne as [c [sv' [Hc Hrestc]]].
           exists c, sv'. split; [right; exact Hc | exact Hrestc].
        -- exists cur, sv. split; [left; reflexivity|]. split; [exact Hsv|].
           apply Hone. discriminate.
      * intros [c [sv' [[<-|Hc] [Hsv' Hns]]]].
        -- rewrite Hsv in Hsv'. injection Hsv' as <-.
           apply Hone in Hns. destruct one; [contradiction | discriminate].
        -- assert (Ha : added <> []) by (apply Hadded; exists c, sv'; auto).
           destruct one; [exact Ha | discriminate].
    + apply Forall_app. split.
      * eapply Forall_impl; [|exact Hone_adm]. intros e He.
        eapply admittedVariable_more; [|exact He]. intros c [<-|[]]. left. reflexivity.
      * eapply Forall_impl; [|exact Hadd_adm]. intros e He.
        eapply admittedVariable_more; [|exact He]. intros c Hc. right. exact Hc.
    + apply Forall_app. split.
      * eapply Forall_impl; [|exact Hds1_adm]. intros e He.
        eapply admittedVariable_more; [|exact He]. intros c [<-|[]]. left. reflexivity.
      * eapply Forall_impl; [|exact Hds2_adm]. intros e He.
        eapply admittedVariable_more; [|exact He]. intros c Hc. right. exact Hc.
Qed.

(** C8: for a contract whose state variables re-parse to readable trees, the
    round of the variable classifier for a state variable whose attribute list
    holds [immutable] or [constant], whatever its other attributes and whether
    or not it has an initializer, returns the contract record as it was, with
    no variable added, and reports no diagnostic; and the classifier as a
    whole returns the record with variables appended, where every variable it
    appends and every diagnostic it reports has the trimmed range of a state
    variable whose attribute list holds neither [immutable] nor [constant]. *)
Theorem C8_constant_immutable_excluded (env : Collaborators) (cursor : Cursor)
    (doc : TextDocument) (skip : bool) (cur : Cursor) (sv : StateVariable)
    (nc0 : NamespaceableContract) :
  variablesReadable env doc cursor ->
  In cur (definitionsIn NonterminalKind.StateVariableDefinition cursor) ->
  stateVariableDefinition (tree (reparseVariable env doc cur)) = Val sv ->
  isExcluded sv = true ->
  (forall nc, exists ls, writes (classifyVariable env doc skip cur nc) (Val (cur, nc)) [] ls)
  /\ exists added ds ls,
       writes (validateNamespaceableVariables env cursor doc nc0 skip)
         (Val {| name := name nc0; variables := variables nc0 ++ added |}) ds ls
       /\ Forall (fun e =>
                    admittedVariable env doc
                      (definitionsIn NonterminalKind.StateVariableDefinition cursor)
                      (var_range e)) added
       /\ Forall (fun d =>
                    admittedVariable env doc
                      (definitionsIn NonterminalKind.StateVariableDefinition cursor)
                      (diag_range d)) ds.
Proof.
  intros Hread Hin Hsv Hexcluded. split.
  - intro nc.
    destruct (@classifyVariable_round env doc skip cur nc sv
                (nextMatches_node _ _ _ Hin) Hsv) as [trimmed [ls [_ Hround]]].
    rewrite Hexcluded in Hround. exists ls. exact Hround.
  - destruct (@classifier_summary env doc skip
                (definitionsIn NonterminalKind.StateVariableDefinition cursor)
                (fun c Hc => conj (nextMatches_node _ _ _ Hc) (Hread c Hc)) nc0)
      as [added [ds [ls [Hw [_ [Hadded Hds]]]]]].
    exists added, ds, ls. split; [|split; assumption].
    intro st. rewrite validateNamespaceableVariables_rounds. apply Hw.
Qed.

Lemma C8_constant_immutable_excluded_witness :
  let env := Sample.vaultEnv Sample.foreignLocation in
  let doc := Sample.vaultDocument Sample.foreignLocation in
  let cursor := Sample.vaultCursor Sample.foreignLocation in
  let cur := Sample.firstInside NonterminalKind.StateVariableDefinition cursor in
  exists sv,
    variablesReadable env doc cursor /\
    In cur (definitionsIn NonterminalKind.StateVariableDefinition cursor) /\
    stateVariableDefinition (tree (reparseVariable env doc cur)) = Val sv /\
    isExcluded sv = true /\
    hasInitializer sv = true /\
    forall nc, exists ls, writes (classifyVariable env doc false cur nc) (Val (cur, nc)) [] ls.
Proof.
  cbv zeta. eexists.
  match goal with
  | |- ?R /\ ?A /\ ?B /\ ?C /\ ?D /\ _ =>
      assert (HR : R);
      [| assert (HA : A) by (vm_compute; left; reflexivity);
         assert (HB : B) by (vm_compute; reflexivity);
         assert (HC : C) by (vm_compute; reflexivity);
         assert (HD : D) by (vm_compute; reflexivity)]
  end.
  { intros c Hc. vm_compute in Hc. destruct Hc as [<-|[]].
    eexists. vm_compute. reflexivity. }
  repeat (split; [assumption|]).
  exact (proj1 (@C8_constant_immutable_excluded
                  (Sample.vaultEnv Sample.foreignLocation)
                  (Sample.vaultCursor Sample.foreignLocation)
                  (Sample.vaultDocument Sample.foreignLocation) false _ _
                  {| name := "Vault"; variables := [] |} HR HA HB HC)).
Defined.

(** ** One contract *)

Lemma Emits_validateNamespace (env : Collaborators) (c : Cursor) (doc : TextDocument)
    (contractDef : Node) :
  Emits (hasCodeIn namespaceCodes) (validateNamespace env c doc contractDef).
Proof.
  unfold validateNamespace. apply Emits_bind.
  - eapply Emits_weaken; [|apply Emits_validateNamespaceStructAnnotation].
    unfold hasCodeIn, namespaceCodes. cbn [In]. tauto.
  - intros [found|]; [|apply Emits_ret].
    eapply Emits_weaken; [|apply Emits_validateNamespaceCommentAndHash].
    unfold hasCodeIn, namespaceCodes. cbn [In]. tauto.
Qed.

Lemma writes_validateNamespaceableContract (c : Cursor) (doc : TextDocument)
    (nc : NamespaceableContract) :
  writes (validateNamespaceableContract c doc nc) (Val tt)
    (match variables nc with
     | [] => []
     | _ :: _ => [contractCanBeNamespaced doc c nc]
     end) [].
Proof.
  unfold validateNamespaceableContract.
  destruct (variables nc) eqn:Hv; cbn [List.length Nat.ltb Nat.leb].
  - apply writes_ret.
  - apply writes_addDiagnostic.
Qed.

Lemma codes_absent (cs : list string) (code : string) (ds : list Diagnostic) :
  Forall (hasCodeIn cs) ds -> ~ In code cs -> ~ In code (codes ds).
Proof.
  intros Hall Hnot Hin. unfold codes in Hin. apply in_map_iff in Hin.
  destruct Hin as [d [<- Hd]]. rewrite Forall_forall in Hall.
  apply Hnot. exact (Hall d Hd).
Qed.

(** For a contract that parses, whose name and upgradeability can be
    read, whose state variables re-parse to readable trees and, when it is
    inferred upgradeable, can be read as they stand in the document, the round
    of the engine returns normally, and among the diagnostics it reports there is
    exactly one ContractCanBeNamespaced, a hint carrying the contract record,
    when the record's variable list is not empty, and none when it is empty.
    The list is not empty exactly when some state variable of the contract has
    no [immutable] or [constant] attribute and no initializer.  For a contract
    not inferred upgradeable nothing else is reported. *)
Lemma validateContract_hint (env : Collaborators) (language : Version)
    (doc : TextDocument) (cursor : Cursor) (contractNameText : string) (upgradeable : bool) :
  hasNonterminalKind NonterminalKind.ContractDefinition (node cursor) = true ->
  isValid (language_parse env language NonterminalKind.ContractDefinition
             (unparse (node cursor))) = true ->
  contractName (node cursor) = Val contractNameText ->
  inferUpgradeable cursor (node cursor) = Val upgradeable ->
  (upgradeable = true -> definitionsReadable cursor) ->
  variablesReadable env doc cursor ->
  exists nc ds ls,
    writes (validateContract env language doc cursor tt) (Val (cursor, tt)) ds ls
    /\ resultOf (validateNamespaceableVariables env cursor doc
                   {| name := contractNameText; variables := [] |} (negb upgradeable))
       = Val nc
    /\ (variables nc <> [] <->
        exists cur sv,
          In cur (definitionsIn NonterminalKind.StateVariableDefinition cursor)
          /\ stateVariableDefinition (tree (reparseVariable env doc cur)) = Val sv
          /\ isNamespaceable sv = true)
    /\ withCode CONTRACT_CAN_BE_NAMESPACED ds
       = match variables nc with
         | [] => []
         | _ :: _ => [contractCanBeNamespaced doc cursor nc]
         end
    /\ diag_severity (contractCanBeNamespaced doc cursor nc) = DiagnosticSeverity.Hint
    /\ diag_data (contractCanBeNamespaced doc cursor nc) = ContractData nc
    /\ (upgradeable = false -> ds = withCode CONTRACT_CAN_BE_NAMESPACED ds).
Proof.
  intros Hkind Hvalid Hname Hinfer Hchecks Hread.
  pose proof (hasNonterminalKind_nonterminal _ _ Hkind) as Hnode.
  (* the namespace checks *)
  assert (HN : exists dsN lsN,
            writes (if upgradeable
                    then validateNamespace env cursor doc (node cursor)
                    else ret tt) (Val tt) dsN lsN
            /\ Forall (hasCodeIn namespaceCodes) dsN
            /\ (upgradeable = false -> dsN = [])).
  { destruct upgradeable.
    - destruct (Emits_run (Emits_validateNamespace env cursor doc (node cursor)))
        as [Hw Hall].
      rewrite (@validateNamespace_returns env cursor doc (node cursor) contractNameText
                 Hname (Hchecks eq_refl)) in Hw.
      eexists _, _. split; [exact Hw|].
      split; [exact Hall | discriminate].
    - exists [], []. split; [apply writes_ret|]. split; [constructor | reflexivity]. }
  destruct HN as [dsN [lsN [HwN [HallN HemptyN]]]].
  (* the variable classifier *)
  destruct (@classifier_summary env doc (negb upgradeable)
              (definitionsIn NonterminalKind.StateVariableDefinition cursor)
              (fun cur Hcur => conj (nextMatches_node _ _ _ Hcur) (Hread cur Hcur))
              {| name := contractNameText; variables := [] |})
    as [added [dsV [lsV [HwV [Hadded _]]]]].
  cbn [name variables app] in HwV.
  set (nc := {| name := contractNameText; variables := added |}) in *.
  assert (HwV' : writes (validateNamespaceableVariables env cursor doc
                           {| name := contractNameText; variables := [] |}
                           (negb upgradeable)) (Val nc) dsV lsV).
  { intro st. rewrite validateNamespaceableVariables_rounds. apply HwV. }
  assert (HallV : Forall (fun d => negb upgradeable = false /\
                    hasCodeIn [VARIABLE_HAS_INITIAL_VALUE; VARIABLE_CAN_BE_NAMESPACED] d) dsV).
  { destruct (Emits_validateNamespaceableVariables env cursor doc
                {| name := contractNameText; variables := [] |} (negb upgradeable))
      as [r' [ds' [ls' [Hw' Hall']]]].
    destruct (writes_unique HwV' Hw') as [_ [-> _]]. exact Hall'. }
  pose proof (writes_validateNamespaceableContract cursor doc nc) as HwC.
  exists nc, (dsN ++ dsV ++ match variables nc with
                            | [] => []
                            | _ :: _ => [contractCanBeNamespaced doc cursor nc]
                            end),
    ([("Parsing contract: " ++ contractNameText)%string] ++ lsN ++ lsV).
  split; [|split; [|split; [|split; [|split; [|split]]]]].
  - intro st. unfold validateContract. cbv zeta.
    unfold bind at 1. unfold assertM, liftR at 1, assertR. rewrite Hnode.
    unfold bind at 1. unfold liftR at 1, Ast.assertKind, assertR. rewrite Hkind.
    rewrite Hvalid. cbn [negb].
    unfold bind at 1. unfold liftR at 1. rewrite Hname.
    unfold bind at 1. unfold console_log at 1.
    unfold bind at 1. unfold liftR at 1. rewrite Hinfer.
    unfold bind at 1. rewrite HwN.
    unfold bind at 1. rewrite HwV'.
    unfold bind at 1. rewrite HwC.
    unfold ret, extend. cbn [diagnostics console].
    rewrite ?app_nil_r, <- ?app_assoc. reflexivity.
  - exact (proj1 (writes_observed HwV')).
  - exact Hadded.
  - rewrite !withCode_app.
    rewrite (@withCode_absent CONTRACT_CAN_BE_NAMESPACED dsN).
    2:{ apply (@codes_absent namespaceCodes CONTRACT_CAN_BE_NAMESPACED dsN HallN).
        unfold namespaceCodes. cbn [In].
        intros [H|[H|[H|[H|[H|[H|[]]]]]]]; discriminate. }
    rewrite (@withCode_absent CONTRACT_CAN_BE_NAMESPACED dsV).
    2:{ apply (@codes_absent [VARIABLE_HAS_INITIAL_VALUE; VARIABLE_CAN_BE_NAMESPACED]
                 CONTRACT_CAN_BE_NAMESPACED dsV).
        - eapply Forall_impl; [|exact HallV]. intros d [_ Hd]. exact Hd.
        - cbn [In]. intros [H|[H|[]]]; discriminate. }
    destruct (variables nc); reflexivity.
  - reflexivity.
  - reflexivity.
  - intros ->. rewrite (HemptyN eq_refl).
    assert (dsV = []) as ->.
    { destruct dsV as [|d r]; [reflexivity|]. inversion HallV as [|? ? [Habs _] _].
      discriminate. }
    destruct (variables nc); reflexivity.
Qed.

(** The sample contract with nothing that marks it as upgradeable: the struct
    annotation for another contract and the variables go unreported, and the
    hint for the contract is the only diagnostic. *)
Example plain_contract_hint_only :
  codes (diagnosticsOf
           (validateNamespaces Sample.plainEnv
              {| isValid := true; tree := Sample.sourceUnit [Sample.plain] |}
              (Sample.v 0 8 23) Sample.plainDocument))
  = [CONTRACT_CAN_BE_NAMESPACED].
Proof. vm_compute. reflexivity. Qed.

(** C4, as the code has it: for a contract that parses, the engine logs the
    contract, classifies upgradeability, and then
    - for a contract not classified upgradeable, goes straight on to the
      variable classifier and the hint for the contract: neither the
      annotation validator nor the hash validator runs;
    - for a contract classified upgradeable, runs the annotation validator
      (its loop over the structs, then its report on their number), and then
      the hash validator if and only if exactly one struct namespace
      annotation was found, with that annotation's id; then it goes on to the
      variable classifier and the hint. *)
Theorem C4_validators_gated_by_upgradeability (env : Collaborators) (language : Version)
    (doc : TextDocument) (cursor : Cursor) (contractNameText : string)
    (upgradeable : bool) (st : State) :
  hasNonterminalKind NonterminalKind.ContractDefinition (node cursor) = true ->
  isValid (language_parse env language NonterminalKind.ContractDefinition
             (unparse (node cursor))) = true ->
  contractName (node cursor) = Val contractNameText ->
  inferUpgradeable cursor (node cursor) = Val upgradeable ->
  (upgradeable = false ->
   validateContract env language doc cursor tt st
   = classifyAndHint env doc cursor contractNameText true
       (afterParsingLine contractNameText st))
  /\ (upgradeable = true ->
      forall found st1,
        collectNamespaceIds env cursor doc (node cursor)
          (afterParsingLine contractNameText st) = (Val found, st1) ->
        let st2 := snd (reportNamespaceCount doc found st1) in
        validateContract env language doc cursor tt st
        = match found with
          | [only] =>
              (validateNamespaceCommentAndHash env (namespaceId only) cursor doc ;;;
               classifyAndHint env doc cursor contractNameText false) st2
          | _ => classifyAndHint env doc cursor contractNameText false st2
          end).
Proof.
  intros Hkind Hvalid Hname Hinfer.
  pose proof (hasNonterminalKind_nonterminal _ _ Hkind) as Hnode.
  assert (Hhead : validateContract env language doc cursor tt st
            = ((if upgradeable
                then validateNamespace env cursor doc (node cursor)
                else ret tt) ;;;
               classifyAndHint env doc cursor contractNameText (negb upgradeable))
                (afterParsingLine contractNameText st)).
  { unfold validateContract. cbv zeta.
    unfold bind at 1. unfold assertM, liftR at 1, assertR. rewrite Hnode.
    unfold bind at 1. unfold liftR at 1, Ast.assertKind, assertR. rewrite Hkind.
    rewrite Hvalid. cbn [negb].
    unfold bind at 1. unfold liftR at 1. rewrite Hname.
    unfold bind at 1. unfold console_log at 1.
    unfold bind at 1. unfold liftR at 1. rewrite Hinfer.
    unfold afterParsingLine, extend. rewrite app_nil_r.
    unfold classifyAndHint, bind.
    destruct (if upgradeable then _ else _) as [[[]|] st1]; [|reflexivity].
    reflexivity. }
  rewrite Hhead. split.
  - intros ->. reflexivity.
  - intros -> found st1 Hcollect st2. cbn [negb].
    unfold bind at 1. unfold validateNamespace, validateNamespaceStructAnnotation.
    unfold bind at 1. unfold bind at 1. rewrite Hcollect.
    unfold bind at 1. subst st2.
    pose proof (reportNamespaceCount_returns doc found st1) as Hret.
    destruct (reportNamespaceCount doc found st1) as [r st2]. cbn [fst snd] in *.
    subst r. unfold ret.
    destruct found as [|only [|other rest]]; cbn [singleNamespace]; reflexivity.
Qed.

Lemma C4_validators_gated_by_upgradeability_witness :
  let env := Sample.vaultEnv Sample.commentedTotal in
  let doc := Sample.vaultDocument Sample.commentedTotal in
  let cursor := Sample.vaultCursor Sample.commentedTotal in
  let language := Sample.v 0 8 23 in
  hasNonterminalKind NonterminalKind.ContractDefinition (node cursor) = true /\
  isValid (language_parse env language NonterminalKind.ContractDefinition
             (unparse (node cursor))) = true /\
  contractName (node cursor) = Val "Vault" /\
  inferUpgradeable cursor (node cursor) = Val true /\
  exists only st1,
    collectNamespaceIds env cursor doc (node cursor) (afterParsingLine "Vault" emptyState)
    = (Val [only], st1)
    /\ validateContract env language doc cursor tt emptyState
       = (validateNamespaceCommentAndHash env (namespaceId only) cursor doc ;;;
          classifyAndHint env doc cursor "Vault" false)
           (snd (reportNamespaceCount doc [only] st1)).
Proof.
  cbv zeta.
  match goal with
  | |- ?A /\ ?B /\ ?C /\ ?D /\ _ =>
      assert (HA : A) by (vm_compute; reflexivity);
      assert (HB : B) by (vm_compute; reflexivity);
      assert (HC : C) by (vm_compute; reflexivity);
      assert (HD : D) by (vm_compute; reflexivity)
  end.
  repeat (split; [assumption|]).
  eexists. eexists.
  match goal with
  | |- ?E /\ _ => assert (HE : E) by (vm_compute; reflexivity)
  end.
  split; [exact HE|].
  exact (proj2 (@C4_validators_gated_by_upgradeability
                  (Sample.vaultEnv Sample.commentedTotal) (Sample.v 0 8 23)
                  (Sample.vaultDocument Sample.commentedTotal)
                  (Sample.vaultCursor Sample.commentedTotal) "Vault" true emptyState
                  HA HB HC HD) eq_refl _ _ HE).
Defined.

(** C4 as the spec states it fails: the sample contract [Plain] is not
    classified upgradeable, and the annotation validator does not run for it.
    Run on the contract, that validator logs the annotation of the struct and
    reports its NamespaceIdMismatch; the round of the engine has neither the
    line nor a diagnostic of that code. *)
Lemma C4_counterexample :
  let env := Sample.plainEnv in
  let doc := Sample.plainDocument in
  let cursor := Sample.plainCursor in
  let validator := validateNamespaceStructAnnotation env cursor doc (node cursor) in
  let engine := validateContract env (Sample.v 0 8 23) doc cursor tt in
  inferUpgradeable cursor (node cursor) = Val false /\
  resultOf engine = Val (cursor, tt) /\
  exists l d,
    In l (consoleOf validator) /\ In d (diagnosticsOf validator) /\
    diag_code d = NAMESPACE_ID_MISMATCH /\
    ~ In l (consoleOf engine) /\
    ~ In (diag_code d) (codes (diagnosticsOf engine)).
Proof.
  cbv zeta. split; [vm_compute; reflexivity|]. split; [vm_compute; reflexivity|].
  eexists. eexists.
  split; [vm_compute; left; reflexivity|].
  split; [vm_compute; left; reflexivity|].
  split; [reflexivity|].
  split.
  - vm_compute. intro H. repeat (destruct H as [H|H]; [discriminate|]). exact H.
  - vm_compute. intro H. repeat (destruct H as [H|H]; [discriminate|]). exact H.
Qed.

(** ** The engine's loop over the contracts *)

Lemma validateContract_stays (env : Collaborators) (language : Version)
    (doc : TextDocument) (cursor : Cursor) (u : unit) (st : State)
    (r : Cursor * unit) (st' : State) :
  validateContract env language doc cursor u st = (Val r, st') -> fst r = cursor.
Proof.
  unfold validateContract. cbv zeta.
  unfold bind, assertM, liftR, assertR, ret, console_log.
  destruct (isNonterminalNode (node cursor)); [|discriminate].
  destruct (Ast.assertKind _ _); [|discriminate].
  destruct (negb (isValid _)); [intros [= <- _]; reflexivity|].
  destruct (contractName (node cursor)); [|discriminate].
  destruct (inferUpgradeable cursor (node cursor)) as [upgradeable|]; [|discriminate].
  destruct upgradeable.
  - destruct (validateNamespace _ _ _ _ _) as [[?|] st1]; [|discriminate].
    destruct (validateNamespaceableVariables _ _ _ _ _ _) as [[nc|] st2]; [|discriminate].
    destruct (validateNamespaceableContract _ _ _ _) as [[?|] st3]; [|discriminate].
    intros [= <- _]. reflexivity.
  - destruct (validateNamespaceableVariables _ _ _ _ _ _) as [[nc|] st2]; [|discriminate].
    destruct (validateNamespaceableContract _ _ _ _) as [[?|] st3]; [|discriminate].
    intros [= <- _]. reflexivity.
Qed.

Lemma validateNamespaces_rounds (env : Collaborators) (parseOutput : ParseOutput)
    (language : Version) (doc : TextDocument) (st : State) :
  validateNamespaces env parseOutput language doc st
  = foldM (round (validateContract env language doc)) (contractCursors parseOutput) tt st.
Proof.
  unfold validateNamespaces, contractCursors. apply whileNext_stationary.
  - intros. eapply validateContract_stays; eassumption.
  - reflexivity.
  - apply nextMatches_length.
Qed.

(** C5, as far as the code goes: the engine runs one round for every contract
    definition of the document, in document order, going on to the next
    contract after every round that returns; and the round for a contract
    whose text does not parse in isolation returns normally, having logged
    that the contract has errors and reported no diagnostic. *)
Theorem C5_unparseable_contract_skipped (env : Collaborators) (parseOutput : ParseOutput)
    (language : Version) (doc : TextDocument) (cursor : Cursor) :
  In cursor (contractCursors parseOutput) ->
  isValid (language_parse env language NonterminalKind.ContractDefinition
             (unparse (node cursor))) = false ->
  (forall st,
     validateNamespaces env parseOutput language doc st
     = foldM (round (validateContract env language doc)) (contractCursors parseOutput) tt st)
  /\ writes (validateContract env language doc cursor tt) (Val (cursor, tt))
       [] ["Contract has errors"].
Proof.
  intros Hin Hinvalid. split.
  - intro st. apply validateNamespaces_rounds.
  - pose proof (nextMatches_node _ _ _ Hin) as Hkind.
    pose proof (hasNonterminalKind_nonterminal _ _ Hkind) as Hnode.
    intro st. unfold validateContract. cbv zeta.
    unfold bind at 1. unfold assertM, liftR at 1, assertR. rewrite Hnode.
    unfold bind at 1. unfold liftR at 1, Ast.assertKind, assertR. rewrite Hkind.
    rewrite Hinvalid. cbn [negb].
    unfold bind, console_log, ret, extend. cbn [diagnostics console].
    rewrite app_nil_r. reflexivity.
Qed.

Lemma C5_unparseable_contract_skipped_witness :
  let env := Sample.brokenEnv in
  let parseOutput := {| isValid := true; tree := Sample.brokenThenPlain |} in
  let doc := Sample.document (unparse Sample.brokenThenPlain) in
  let language := Sample.v 0 8 23 in
  In Sample.brokenCursor (contractCursors parseOutput) /\
  isValid (language_parse env language NonterminalKind.ContractDefinition
             (unparse (node Sample.brokenCursor))) = false /\
  writes (validateContract env language doc Sample.brokenCursor tt)
    (Val (Sample.brokenCursor, tt)) [] ["Contract has errors"] /\
  List.length (contractCursors parseOutput) = 2 /\
  codes (diagnosticsOf (validateNamespaces env parseOutput language doc))
  = [CONTRACT_CAN_BE_NAMESPACED].
Proof.
  cbv zeta.
  match goal with
  | |- ?A /\ ?B /\ _ =>
      assert (HA : A) by (vm_compute; left; reflexivity);
      assert (HB : B) by (vm_compute; reflexivity)
  end.
  repeat (split; [assumption|]).
  split; [|split; vm_compute; reflexivity].
  exact (proj2 (@C5_unparseable_contract_skipped Sample.brokenEnv
                  {| isValid := true; tree := Sample.brokenThenPlain |}
                  (Sample.v 0 8 23) (Sample.document (unparse Sample.brokenThenPlain))
                  Sample.brokenCursor HA HB)).
Defined.

(** C5 as the spec states it fails for state variables: the classifier does not
    look at the validity of the isolated parse of a variable.  On the sample
    contract [Ledger], whose variable [total] does not parse in isolation,
    - with a parser that returns the tree it recovered, [total] is not
      skipped: VariableCanBeNamespaced is reported for it and it is listed in
      the contract's hint;
    - with a parser that returns an empty tree, the engine throws, and the
      variable after [total] is never reached. *)
Lemma C5_counterexample :
  let doc := Sample.ledgerDocument in
  let parseOutput := {| isValid := true; tree := Sample.sourceUnit [Sample.ledger] |} in
  let language := Sample.v 0 8 23 in
  let total := Sample.firstInside NonterminalKind.StateVariableDefinition
                 Sample.ledgerCursor in
  isValid (reparseVariable Sample.recoveringEnv doc total) = false /\
  isValid (reparseVariable Sample.failingEnv doc total) = false /\
  (exists trimmed d,
     getTrimmedRange total = Val trimmed /\
     In d (diagnosticsOf (validateNamespaces Sample.recoveringEnv parseOutput language doc))
     /\ diag_code d = VARIABLE_CAN_BE_NAMESPACED
     /\ diag_range d = slangToVSCodeRange doc trimmed) /\
  resultOf (validateNamespaces Sample.failingEnv parseOutput language doc) = Throw /\
  consoleOf (validateNamespaces Sample.failingEnv parseOutput language doc)
  = ["Parsing contract: Ledger"].
Proof.
  cbv zeta. split; [vm_compute; reflexivity|]. split; [vm_compute; reflexivity|].
  split; [|split; vm_compute; reflexivity].
  eexists. eexists. split; [vm_compute; reflexivity|].
  split; [vm_compute; left; reflexivity|]. split; vm_compute; reflexivity.
Qed.

(** ** The version inference helper *)

Lemma compare_cases (a b : Version) :
  match semver.compare a b with
  | Lt => major a < major b
          \/ (major a = major b /\
              (minor a < minor b \/ (minor a = minor b /\ patch a < patch b)))
  | Eq => major a = major b /\ minor a = minor b /\ patch a = patch b
  | Gt => major b < major a
          \/ (major a = major b /\
              (minor b < minor a \/ (minor a = minor b /\ patch b < patch a)))
  end.
Proof.
  unfold semver.compare.
  destruct (Nat.compare_spec (major a) (major b));
    destruct (Nat.compare_spec (minor a) (minor b));
    destruct (Nat.compare_spec (patch a) (patch b)); lia.
Qed.

Lemma versionLe_refl (a : Version) : versionLe a a.
Proof.
  unfold versionLe. pose proof (compare_cases a a) as H.
  destruct (semver.compare a a); [discriminate | discriminate | lia].
Qed.

Lemma versionLe_trans (a b c : Version) : versionLe a b -> versionLe b c -> versionLe a c.
Proof.
  unfold versionLe. intros Hab Hbc.
  pose proof (compare_cases a b) as H1. pose proof (compare_cases b c) as H2.
  pose proof (compare_cases a c) as H3.
  destruct (semver.compare a b); [| |contradiction];
    destruct (semver.compare b c); try contradiction;
    destruct (semver.compare a c); try discriminate; lia.
Qed.

Lemma versionLe_of_Lt (a b : Version) : semver.compare a b = Lt -> versionLe a b.
Proof. unfold versionLe. intros ->. discriminate. Qed.

Lemma versionLe_of_not_Lt (a b : Version) : semver.compare a b <> Lt -> versionLe b a.
Proof.
  unfold versionLe. intros Hab.
  pose proof (compare_cases a b) as H1. pose proof (compare_cases b a) as H2.
  destruct (semver.compare a b); [| contradiction |];
    destruct (semver.compare b a); try discriminate; lia.
Qed.

Lemma maxSatisfying_fold (test : Version -> bool) (versions seen : list Version)
    (acc : option Version) :
  isMaximumOf seen acc ->
  isMaximumOf (seen ++ filter test versions)
    (fold_left (semver.maxSatisfying_step test) versions acc).
Proof.
  revert seen acc. induction versions as [|v r IH]; intros seen acc Hacc; cbn [fold_left filter].
  - rewrite app_nil_r. exact Hacc.
  - unfold semver.maxSatisfying_step at 2. destruct (test v) eqn:Htest.
    + replace (seen ++ v :: filter test r) with ((seen ++ [v]) ++ filter test r)
        by (rewrite <- app_assoc; reflexivity).
      apply IH. destruct acc as [m|].
      * destruct Hacc as [Hin Hmax].
        destruct (semver.compare m v) eqn:Hcmp.
        -- split; [apply in_or_app; left; exact Hin|].
           intros x Hx. apply in_app_or in Hx. destruct Hx as [Hx|[<-|[]]].
           ++ apply Hmax. exact Hx.
           ++ apply versionLe_of_not_Lt. rewrite Hcmp. discriminate.
        -- split; [apply in_or_app; right; left; reflexivity|].
           intros x Hx. apply in_app_or in Hx. destruct Hx as [Hx|[<-|[]]].
           ++ eapply versionLe_trans; [apply Hmax; exact Hx|].
              apply versionLe_of_Lt. exact Hcmp.
           ++ apply versionLe_refl.
        -- split; [apply in_or_app; left; exact Hin|].
           intros x Hx. apply in_app_or in Hx. destruct Hx as [Hx|[<-|[]]].
           ++ apply Hmax. exact Hx.
           ++ apply versionLe_of_not_Lt. rewrite Hcmp. discriminate.
      * cbn in Hacc. subst seen. split; [left; reflexivity|].
        intros x [<-|[]]. apply versionLe_refl.
    + apply IH. exact Hacc.
Qed.

(** [semver.maxSatisfying] returns the maximum of the versions that pass the
    range's test. *)
Lemma maxSatisfying_spec (env : Collaborators) (versions : list Version) (range : string) :
  isMaximumOf (filter (range_test env range) versions)
    (semver.maxSatisfying env versions range).
Proof.
  unfold semver.maxSatisfying.
  apply (@maxSatisfying_fold (range_test env range) versions [] None). reflexivity.
Qed.

Lemma maximaOf_app (env : Collaborators) (a b : list Node) :
  maximaOf env (a ++ b) = maximaOf env a ++ maximaOf env b.
Proof. unfold maximaOf. apply flat_map_app. Qed.

Lemma collectVersionExpression_writes (env : Collaborators) (acc : list Version) (e : Node) :
  isNonterminalNode e = true ->
  exists ls, writes (collectVersionExpression env acc e) (Val (acc ++ maximaOf env [e])) [] ls.
Proof.
  intro He. unfold collectVersionExpression, maximaOf, constraintText.
  cbn [flat_map]. rewrite app_nil_r.
  destruct (semver.maxSatisfying env (supportedVersions env) (Js.trim (unparse e))).
  - exists []. intro st. unfold bind, assertM, liftR, assertR, ret. rewrite He.
    rewrite extend_nil. reflexivity.
  - eexists [_]. intro st. unfold bind, assertM, liftR, assertR, console_log, ret.
    rewrite He. unfold extend. cbn [diagnostics console].
    rewrite !app_nil_r. reflexivity.
Qed.

Lemma collectVersionExpressions_writes (env : Collaborators) (es : list Node) :
  Forall (fun e => isNonterminalNode e = true) es ->
  forall acc, exists ls,
    writes (foldM (collectVersionExpression env) es acc) (Val (acc ++ maximaOf env es)) [] ls.
Proof.
  induction 1 as [|e r He Hr IH]; intro acc.
  - exists []. cbn [foldM maximaOf flat_map]. rewrite app_nil_r. apply writes_ret.
  - destruct (@collectVersionExpression_writes env acc e He) as [ls1 H1].
    destruct (IH (acc ++ maximaOf env [e])) as [ls2 H2].
    exists (ls1 ++ ls2). cbn [foldM].
    change (@nil Diagnostic) with (@nil Diagnostic ++ []).
    eapply writes_bind; [exact H1|].
    change (e :: r) with ([e] ++ r). rewrite maximaOf_app, app_assoc. exact H2.
Qed.

Lemma collectVersionExpressionSets_writes (env : Collaborators) (sets : list Node) :
  Forall (fun e => isNonterminalNode e = true) (flat_map children sets) ->
  forall acc, exists ls,
    writes (foldM (collectVersionExpressionSet env) sets acc)
      (Val (acc ++ maximaOf env (flat_map children sets))) [] ls.
Proof.
  induction sets as [|s r IH]; intros Hall acc.
  - exists []. cbn [foldM maximaOf flat_map]. rewrite app_nil_r. apply writes_ret.
  - cbn [flat_map] in Hall. apply Forall_app in Hall. destruct Hall as [Hs Hr].
    destruct (@collectVersionExpressions_writes env (children s) Hs acc) as [ls1 H1].
    destruct (IH Hr (acc ++ maximaOf env (children s))) as [ls2 H2].
    exists (ls1 ++ ls2). cbn [foldM flat_map].
    change (@nil Diagnostic) with (@nil Diagnostic ++ []).
    eapply writes_bind; [exact H1|].
    rewrite maximaOf_app, app_assoc. exact H2.
Qed.

Lemma maximaOf_empty (env : Collaborators) (es : list Node) :
  maximaOf env es = [] <->
  forall e, In e es ->
            semver.maxSatisfying env (supportedVersions env) (constraintText e) = None.
Proof.
  induction es as [|e r IH].
  - split; [intros _ x [] | reflexivity].
  - change (e :: r) with ([e] ++ r). rewrite maximaOf_app.
    unfold maximaOf at 1. cbn [flat_map]. rewrite app_nil_r. split.
    + intros H x [<-|Hx].
      * destruct (semver.maxSatisfying env (supportedVersions env) (constraintText _));
          [discriminate | reflexivity].
      * apply IH; [|exact Hx].
        destruct (semver.maxSatisfying env (supportedVersions env) (constraintText e));
          [discriminate | exact H].
    + intro H. rewrite (H e (or_introl eq_refl)). cbn [app].
      apply IH. intros x Hx. apply H. right. exact Hx.
Qed.

(** C9: with a non-empty catalogue of supported versions, a parse whose
    expression sets hold only version expression nodes, and the range [*]
    accepting every version, the version inference helper returns normally,
    reporting no diagnostic, the maximum in semver order of the per-expression
    maxima collected over all the version expressions of the document, each of
    them the maximum supported version that satisfies its expression.  It
    returns nothing exactly when no expression has such a maximum: when there
    is no expression, or none is satisfied by a supported version. *)
Theorem C9_highest_supported_pragma_version (env : Collaborators) (doc : TextDocument)
    (newest : Version) :
  hd_error (rev (supportedVersions env)) = Some newest ->
  (forall x, range_test env "*" x = true) ->
  Forall (fun e => isNonterminalNode e = true) (versionExpressionNodes env newest doc) ->
  exists result ls,
    writes (getHighestSupportedPragmaVersion env doc) (Val result) [] ls
    /\ isMaximumOf (maximaOf env (versionExpressionNodes env newest doc)) result
    /\ (forall e, In e (versionExpressionNodes env newest doc) ->
          isMaxSatisfying env (constraintText e)
            (semver.maxSatisfying env (supportedVersions env) (constraintText e)))
    /\ (result = None <->
        forall e, In e (versionExpressionNodes env newest doc) ->
          semver.maxSatisfying env (supportedVersions env) (constraintText e) = None).
Proof.
  intros Hnewest Hstar Hnodes.
  set (es := versionExpressionNodes env newest doc) in *.
  destruct (@collectVersionExpressionSets_writes env
              (queryVersionExpressionSets
                 (createTreeCursor
                    (tree (language_parse env newest NonterminalKind.SourceUnit
                             (getText doc))))) Hnodes []) as [ls Hw].
  cbn [app] in Hw. fold (versionExpressionNodes env newest doc) in Hw. fold es in Hw.
  assert (Hmax : isMaximumOf (maximaOf env es)
                   (semver.maxSatisfying env (maximaOf env es) "*")).
  { pose proof (maxSatisfying_spec env (maximaOf env es) "*") as H.
    rewrite forallb_filter_id in H; [exact H|].
    apply forallb_forall. intros x _. apply Hstar. }
  exists (semver.maxSatisfying env (maximaOf env es) "*"), ls.
  split; [|split; [exact Hmax | split]].
  - intro st. unfold getHighestSupportedPragmaVersion.
    destruct (rev (supportedVersions env)) as [|n r]; [discriminate|].
    injection Hnewest as ->. unfold bind. rewrite Hw. reflexivity.
  - intros e _. apply maxSatisfying_spec.
  - rewrite <- maximaOf_empty. split.
    + intro Hnone. rewrite Hnone in Hmax. exact Hmax.
    + intro Hempty. rewrite Hempty. reflexivity.
Qed.

Lemma C9_highest_supported_pragma_version_witness :
  let env := Sample.pragmaEnv in
  let doc := Sample.pragmaDocument in
  hd_error (rev (supportedVersions env)) = Some (Sample.v 0 8 23) /\
  (forall x, range_test env "*" x = true) /\
  Forall (fun e => isNonterminalNode e = true)
    (versionExpressionNodes env (Sample.v 0 8 23) doc) /\
  map constraintText (versionExpressionNodes env (Sample.v 0 8 23) doc)
  = [">=0.8.0"; "<0.8.22"; "^0.9.0"] /\
  maximaOf env (versionExpressionNodes env (Sample.v 0 8 23) doc)
  = [Sample.v 0 8 23; Sample.v 0 8 21] /\
  exists result,
    resultOf (getHighestSupportedPragmaVersion env doc) = Val result
    /\ isMaximumOf (maximaOf env (versionExpressionNodes env (Sample.v 0 8 23) doc)) result.
Proof.
  cbv zeta.
  match goal with
  | |- ?A /\ ?B /\ ?C /\ ?D /\ ?E /\ _ =>
      assert (HA : A) by (vm_compute; reflexivity);
      assert (HB : B) by (intro x; reflexivity);
      assert (HC : C) by (vm_compute; repeat constructor);
      assert (HD : D) by (vm_compute; reflexivity);
      assert (HE : E) by (vm_compute; reflexivity)
  end.
  repeat (split; [assumption|]).
  destruct (@C9_highest_supported_pragma_version Sample.pragmaEnv Sample.pragmaDocument
              (Sample.v 0 8 23) HA HB HC) as [result [ls [Hw [Hmax _]]]].
  exists result. split; [exact (proj1 (writes_observed Hw)) | exact Hmax].
Defined.

(** On the sample document the helper returns 0.8.23, the greatest of the two
    maxima 0.8.23 and 0.8.21; on a document without a pragma it returns
    nothing. *)
Example highest_supported_pragma_version_samples :
  resultOf (getHighestSupportedPragmaVersion Sample.pragmaEnv Sample.pragmaDocument)
  = Val (Some (Sample.v 0 8 23))
  /\ resultOf (getHighestSupportedPragmaVersion Sample.plainEnv Sample.plainDocument)
     = Val None.
Proof. split; vm_compute; reflexivity. Qed.

(** ** Places along a walk *)

Lemma findFrom_spec (p : Node -> bool) (l : list Node) (i : nat) :
  match findFrom p l i with
  | Some j =>
      i <= j /\ (exists n, nth_error l (j - i) = Some n /\ p n = true)
      /\ forall m n, m < j - i -> nth_error l m = Some n -> p n = false
  | None => forall m n, nth_error l m = Some n -> p n = false
  end.
Proof.
  revert i. induction l as [|a r IH]; intro i; cbn [findFrom].
  - intros [|m] n; discriminate.
  - destruct (p a) eqn:Hp.
    + split; [lia|]. rewrite Nat.sub_diag. split; [exists a; auto|]. intros m n Hm. lia.
    + specialize (IH (S i)). destruct (findFrom p r (S i)) as [j|].
      * destruct IH as [Hle [[n [Hn Hpn]] Hbefore]]. split; [lia|]. split.
        -- exists n. replace (j - i) with (S (j - S i)) by lia. auto.
        -- intros [|m] x Hm Hx; [injection Hx as <-; exact Hp|].
           apply (Hbefore m x); [lia | exact Hx].
      * intros [|m] x Hx; [injection Hx as <-; exact Hp | exact (IH m x Hx)].
Qed.

Lemma nextMatch_spec (p : Node -> bool) (l : list Node) (k : nat) :
  match nextMatch p l k with
  | Some j =>
      k < j /\ (exists n, nth_error l j = Some n /\ p n = true)
      /\ forall m n, k < m < j -> nth_error l m = Some n -> p n = false
  | None => forall m n, k < m -> nth_error l m = Some n -> p n = false
  end.
Proof.
  unfold nextMatch. pose proof (findFrom_spec p (skipn (S k) l) (S k)) as H.
  destruct (findFrom p (skipn (S k) l) (S k)) as [j|].
  - destruct H as [Hle [[n [Hn Hpn]] Hbefore]]. split; [lia|]. split.
    + exists n. rewrite nth_error_skipn in Hn.
      replace (S k + (j - S k)) with j in Hn by lia. auto.
    + intros m x Hm Hx. apply (Hbefore (m - S k) x); [lia|].
      rewrite nth_error_skipn. replace (S k + (m - S k)) with m by lia. exact Hx.
  - intros m x Hm Hx. apply (H (m - S k) x).
    rewrite nth_error_skipn. replace (S k + (m - S k)) with m by lia. exact Hx.
Qed.

Lemma nextMatch_Some (p : Node -> bool) (l : list Node) (k j : nat) (n : Node) :
  k < j -> nth_error l j = Some n -> p n = true ->
  (forall m x, k < m < j -> nth_error l m = Some x -> p x = false) ->
  nextMatch p l k = Some j.
Proof.
  intros Hlt Hn Hp Hbefore. pose proof (nextMatch_spec p l k) as H.
  destruct (nextMatch p l k) as [j'|].
  - destruct H as [Hlt' [[n' [Hn' Hp']] Hbefore']].
    destruct (Nat.lt_trichotomy j j') as [Hc|[->|Hc]]; [|reflexivity|].
    + rewrite (Hbefore' j n) in Hp; [discriminate | lia | exact Hn].
    + rewrite (Hbefore j' n') in Hp'; [discriminate | lia | exact Hn'].
  - rewrite (H j n Hlt Hn) in Hp. discriminate.
Qed.

Lemma nextMatch_None (p : Node -> bool) (l : list Node) (k : nat) :
  (forall m x, k < m -> nth_error l m = Some x -> p x = false) ->
  nextMatch p l k = None.
Proof.
  intro Hnone. pose proof (nextMatch_spec p l k) as H.
  destruct (nextMatch p l k) as [j|]; [|reflexivity].
  destruct H as [Hlt [[n [Hn Hp]] _]]. rewrite (Hnone j n Hlt Hn) in Hp. discriminate.
Qed.

Lemma lastBefore_spec (p : Node -> bool) (l : list Node) (k : nat) :
  match lastBefore p l k with
  | Some j =>
      j < k /\ (exists n, nth_error l j = Some n /\ p n = true)
      /\ forall m n, j < m < k -> nth_error l m = Some n -> p n = false
  | None => forall m n, m < k -> nth_error l m = Some n -> p n = false
  end.
Proof.
  induction k as [|k IH]; cbn [lastBefore].
  - intros m n Hm. lia.
  - destruct (nth_error l k) as [a|] eqn:Ha; [destruct (p a) eqn:Hp|].
    + split; [lia|]. split; [exists a; auto|]. intros m n Hm. lia.
    + destruct (lastBefore p l k) as [j|].
      * destruct IH as [Hlt [Hj Hbefore]]. split; [lia|]. split; [exact Hj|].
        intros m n Hm Hn. destruct (Nat.eq_dec m k) as [->|Hne].
        -- rewrite Ha in Hn. injection Hn as <-. exact Hp.
        -- apply (Hbefore m n); [lia | exact Hn].
      * intros m n Hm Hn. destruct (Nat.eq_dec m k) as [->|Hne].
        -- rewrite Ha in Hn. injection Hn as <-. exact Hp.
        -- apply (IH m n); [lia | exact Hn].
    + destruct (lastBefore p l k) as [j|].
      * destruct IH as [Hlt [Hj Hbefore]]. split; [lia|]. split; [exact Hj|].
        intros m n Hm Hn. destruct (Nat.eq_dec m k) as [->|Hne]; [congruence|].
        apply (Hbefore m n); [lia | exact Hn].
      * intros m n Hm Hn. destruct (Nat.eq_dec m k) as [->|Hne]; [congruence|].
        apply (IH m n); [lia | exact Hn].
Qed.

Lemma lastBefore_Some (p : Node -> bool) (l : list Node) (k j : nat) (n : Node) :
  j < k -> nth_error l j = Some n -> p n = true ->
  (forall m x, j < m < k -> nth_error l m = Some x -> p x = false) ->
  lastBefore p l k = Some j.
Proof.
  intros Hlt Hn Hp Hafter. pose proof (lastBefore_spec p l k) as H.
  destruct (lastBefore p l k) as [j'|].
  - destruct H as [Hlt' [[n' [Hn' Hp']] Hafter']].
    destruct (Nat.lt_trichotomy j j') as [Hc|[->|Hc]]; [|reflexivity|].
    + rewrite (Hafter j' n') in Hp'; [discriminate | lia | exact Hn'].
    + rewrite (Hafter' j n) in Hp; [discriminate | lia | exact Hn].
  - rewrite (H j n Hlt Hn) in Hp. discriminate.
Qed.

Lemma lastBefore_None (p : Node -> bool) (l : list Node) (k : nat) :
  (forall m x, m < k -> nth_error l m = Some x -> p x = false) ->
  lastBefore p l k = None.
Proof.
  intro Hnone. pose proof (lastBefore_spec p l k) as H.
  destruct (lastBefore p l k) as [j|]; [|reflexivity].
  destruct H as [Hlt [[n [Hn Hp]] _]]. rewrite (Hnone j n Hlt Hn) in Hp. discriminate.
Qed.

Lemma goToNextMatching_nextMatch (p : Node -> bool) (c : Cursor) :
  cur_completed c = false ->
  goToNextMatching p c
  = match nextMatch p (nodes c) (cur_index c) with
    | Some j => (true, moveTo c j)
    | None => (false, complete c)
    end.
Proof. intro Hc. unfold goToNextMatching, nextMatch. rewrite Hc. reflexivity. Qed.

Lemma goToNextMatching_completed (p : Node -> bool) (c : Cursor) :
  cur_completed c = true -> goToNextMatching p c = (false, c).
Proof. intro Hc. unfold goToNextMatching. rewrite Hc. reflexivity. Qed.

Lemma node_moveTo (c : Cursor) (j : nat) (n : Node) :
  nth_error (nodes c) j = Some n -> node (moveTo c j) = n.
Proof.
  intro Hn. unfold node. rewrite nodes_moveTo. cbn [moveTo cur_index cur_root].
  apply nth_error_nth. exact Hn.
Qed.

Lemma moveTo_here (c : Cursor) : moveTo c (cur_index c) = c.
Proof. destruct c. reflexivity. Qed.

Lemma isToken_terminal (n : Node) : isToken n = true -> isTerminalNode n = true.
Proof. unfold isToken. destruct (isTerminalNode n); [reflexivity | discriminate]. Qed.

(** ** The three loops of the range helpers *)

(** Skipping the leading trivia stops on the first token after the cursor, or
    completes the walk when there is none. *)
Lemma skipLeadingTrivia_spec (fuel : nat) (c : Cursor) :
  cur_completed c = false ->
  cur_index c < walkLength c ->
  walkLength c - cur_index c <= fuel ->
  skipLeadingTrivia_loop fuel c
  = match nextMatch isToken (nodes c) (cur_index c) with
    | Some i => moveTo c i
    | None => complete c
    end.
Proof.
  revert c. induction fuel as [|fuel IH]; intros c Hc Hin Hfuel; [lia|].
  cbn [skipLeadingTrivia_loop]. unfold goToNextTerminal.
  rewrite (goToNextMatching_nextMatch _ _ Hc).
  pose proof (nextMatch_spec isTerminalNode (nodes c) (cur_index c)) as Hterm.
  destruct (nextMatch isTerminalNode (nodes c) (cur_index c)) as [j|].
  - destruct Hterm as [Hlt [[n [Hn Hpn]] Hbefore]].
    rewrite (node_moveTo _ _ Hn). cbn [andb].
    assert (Hj : j < walkLength c).
    { unfold walkLength. apply nth_error_Some. rewrite Hn. discriminate. }
    destruct (isTrivia n) eqn:Htrivia.
    + rewrite IH; [| exact Hc | exact Hj |];
        [|unfold walkLength in *; rewrite nodes_moveTo; cbn [moveTo cur_index]; lia].
      rewrite nodes_moveTo. cbn [moveTo cur_index].
      pose proof (nextMatch_spec isToken (nodes c) j) as Hnext.
      destruct (nextMatch isToken (nodes c) j) as [i|].
      * destruct Hnext as [Hlt' [[x [Hx Hpx]] Hbefore']].
        rewrite (@nextMatch_Some isToken (nodes c) (cur_index c) i x); [reflexivity|lia|auto..].
        intros m y Hm Hy. destruct (Nat.lt_trichotomy m j) as [Hmj|[->|Hmj]].
        -- unfold isToken. rewrite (Hbefore m y); [reflexivity | lia | exact Hy].
        -- rewrite Hn in Hy. injection Hy as <-. unfold isToken. rewrite Htrivia, Hpn.
           reflexivity.
        -- apply (Hbefore' m y); [lia | exact Hy].
      * rewrite nextMatch_None; [reflexivity|].
        intros m y Hm Hy. destruct (Nat.lt_trichotomy m j) as [Hmj|[->|Hmj]].
        -- unfold isToken. rewrite (Hbefore m y); [reflexivity | lia | exact Hy].
        -- rewrite Hn in Hy. injection Hy as <-. unfold isToken. rewrite Htrivia, Hpn.
           reflexivity.
        -- apply (Hnext m y); [lia | exact Hy].
    + rewrite (@nextMatch_Some isToken (nodes c) (cur_index c) j n); [reflexivity|lia|auto| |].
      * unfold isToken. rewrite Hpn, Htrivia. reflexivity.
      * intros m y Hm Hy. unfold isToken. rewrite (Hbefore m y); [reflexivity|lia|exact Hy].
  - cbn [andb]. rewrite nextMatch_None; [reflexivity|].
    intros m y Hm Hy. unfold isToken. rewrite (Hterm m y Hm Hy). reflexivity.
Qed.

(** The search for the first token stops on it, and fails when there is none. *)
Lemma goToFirstNonTrivia_spec (fuel : nat) (c : Cursor) :
  cur_completed c = false ->
  cur_index c < walkLength c ->
  walkLength c - cur_index c <= fuel ->
  match nextMatch isToken (nodes c) (cur_index c) with
  | Some i => goToFirstNonTrivia_loop fuel c = (true, moveTo c i)
  | None => fst (goToFirstNonTrivia_loop fuel c) = false
  end.
Proof.
  revert c. induction fuel as [|fuel IH]; intros c Hc Hin Hfuel; [lia|].
  cbn [goToFirstNonTrivia_loop]. unfold clone, goToNextTerminal.
  rewrite (goToNextMatching_nextMatch _ _ Hc).
  pose proof (nextMatch_spec isTerminalNode (nodes c) (cur_index c)) as Hterm.
  destruct (nextMatch isTerminalNode (nodes c) (cur_index c)) as [j|].
  - destruct Hterm as [Hlt [[n [Hn Hpn]] Hbefore]]. cbn [fst negb andb].
    rewrite (node_moveTo _ _ Hn).
    assert (Hj : j < walkLength c).
    { unfold walkLength. apply nth_error_Some. rewrite Hn. discriminate. }
    destruct (isTrivia n) eqn:Htrivia.
    + specialize (IH (moveTo c j) Hc).
      unfold walkLength in IH. rewrite nodes_moveTo in IH. cbn [moveTo cur_index] in IH.
      specialize (IH Hj). unfold walkLength in Hfuel.
      assert (Hfuel' : List.length (nodes c) - j <= fuel) by lia.
      specialize (IH Hfuel').
      pose proof (nextMatch_spec isToken (nodes c) j) as Hnext.
      destruct (nextMatch isToken (nodes c) j) as [i|].
      * destruct Hnext as [Hlt' [[x [Hx Hpx]] Hbefore']].
        rewrite (@nextMatch_Some isToken (nodes c) (cur_index c) i x); [exact IH|lia|auto..].
        intros m y Hm Hy. destruct (Nat.lt_trichotomy m j) as [Hmj|[->|Hmj]].
        -- unfold isToken. rewrite (Hbefore m y); [reflexivity | lia | exact Hy].
        -- rewrite Hn in Hy. injection Hy as <-. unfold isToken. rewrite Htrivia, Hpn.
           reflexivity.
        -- apply (Hbefore' m y); [lia | exact Hy].
      * rewrite nextMatch_None; [exact IH|].
        intros m y Hm Hy. destruct (Nat.lt_trichotomy m j) as [Hmj|[->|Hmj]].
        -- unfold isToken. rewrite (Hbefore m y); [reflexivity | lia | exact Hy].
        -- rewrite Hn in Hy. injection Hy as <-. unfold isToken. rewrite Htrivia, Hpn.
           reflexivity.
        -- apply (Hnext m y); [lia | exact Hy].
    + rewrite (@nextMatch_Some isToken (nodes c) (cur_index c) j n); [reflexivity|lia|auto| |].
      * unfold isToken. rewrite Hpn, Htrivia. reflexivity.
      * intros m y Hm Hy. unfold isToken. rewrite (Hbefore m y); [reflexivity|lia|exact Hy].
  - cbn [fst negb]. rewrite nextMatch_None; [reflexivity|].
    intros m y Hm Hy. unfold isToken. rewrite (Hterm m y Hm Hy). reflexivity.
Qed.

(** [goToLastTerminal] leaves the cursor on the walk, at or after the place it
    started from, where no terminal follows. *)
Lemma goToLastTerminal_spec (fuel : nat) (c : Cursor) :
  cur_completed c = false ->
  cur_index c < walkLength c ->
  walkLength c - cur_index c <= fuel ->
  exists last,
    goToLastTerminal_loop fuel c = moveTo c last
    /\ cur_index c <= last < walkLength c
    /\ (forall m n, last < m -> nth_error (nodes c) m = Some n -> isTerminalNode n = false)
    /\ (last = cur_index c
        \/ exists n, nth_error (nodes c) last = Some n /\ isTerminalNode n = true).
Proof.
  revert c. induction fuel as [|fuel IH]; intros c Hc Hin Hfuel; [lia|].
  cbn [goToLastTerminal_loop]. unfold clone, goToNextTerminal.
  rewrite (goToNextMatching_nextMatch _ _ Hc).
  pose proof (nextMatch_spec isTerminalNode (nodes c) (cur_index c)) as Hterm.
  destruct (nextMatch isTerminalNode (nodes c) (cur_index c)) as [j|].
  - destruct Hterm as [Hlt [[n [Hn Hpn]] Hbefore]]. cbn [fst negb].
    assert (Hj : j < walkLength c).
    { unfold walkLength. apply nth_error_Some. rewrite Hn. discriminate. }
    destruct (IH (moveTo c j) Hc) as [last [Hlast [Hrange [Hafter Hon]]]].
    + unfold walkLength in *. rewrite nodes_moveTo. cbn [moveTo cur_index]. exact Hj.
    + unfold walkLength in *. rewrite nodes_moveTo. cbn [moveTo cur_index]. lia.
    + unfold walkLength in *. rewrite nodes_moveTo in *. cbn [moveTo cur_index] in *.
      exists last. rewrite Hlast. split; [reflexivity|]. split; [lia|].
      split; [exact Hafter|]. right. destruct Hon as [->|Hon]; [exists n; auto | exact Hon].
  - cbn [fst negb]. exists (cur_index c). rewrite moveTo_here.
    split; [reflexivity|]. split; [lia|]. split; [exact Hterm | left; reflexivity].
Qed.

(** The backward search of [getTrimmedRange] gives the end of the last token
    before the cursor, or the end it was given when there is none. *)
Lemma lastNonTriviaEnd_spec (fuel : nat) (c : Cursor) (end0 : nat) :
  cur_completed c = false ->
  cur_index c < walkLength c ->
  cur_index c < fuel ->
  lastNonTriviaEnd_loop fuel c end0
  = match lastBefore isToken (nodes c) (cur_index c) with
    | Some j => range_end (textRange (moveTo c j))
    | None => end0
    end.
Proof.
  revert c. induction fuel as [|fuel IH]; intros c Hc Hin Hfuel; [lia|].
  cbn [lastNonTriviaEnd_loop]. unfold goToPrevious. rewrite Hc.
  destruct (cur_index c) as [|i] eqn:Hi; [reflexivity|].
  cbn [lastBefore].
  assert (Hn : nth_error (nodes c) i = Some (nth i (nodes c) (cur_root c))).
  { apply nth_error_nth'. unfold walkLength in Hin. lia. }
  rewrite Hn. rewrite (node_moveTo _ _ Hn). fold (isToken (nth i (nodes c) (cur_root c))).
  destruct (isToken (nth i (nodes c) (cur_root c))); [reflexivity|].
  rewrite IH; [reflexivity | exact Hc | |]; cbn [moveTo cur_index];
    unfold walkLength in *; try rewrite nodes_moveTo; lia.
Qed.

(** The backward search of [getLastPrecedingTriviaWithKinds] stops on the last
    terminal of one of the kinds before the cursor. *)
Lemma goToPreviousTerminalWithKinds_spec (fuel : nat) (c : Cursor)
    (kinds : list TerminalKind.t) :
  cur_completed c = false ->
  cur_index c < walkLength c ->
  cur_index c < fuel ->
  match lastBefore (hasKindIn kinds) (nodes c) (cur_index c) with
  | Some j => goToPreviousTerminalWithKinds_loop fuel c kinds = (true, moveTo c j)
  | None => fst (goToPreviousTerminalWithKinds_loop fuel c kinds) = false
  end.
Proof.
  revert c. induction fuel as [|fuel IH]; intros c Hc Hin Hfuel; [lia|].
  cbn [goToPreviousTerminalWithKinds_loop]. unfold goToPrevious. rewrite Hc.
  destruct (cur_index c) as [|i] eqn:Hi; [reflexivity|].
  cbn [lastBefore].
  assert (Hn : nth_error (nodes c) i = Some (nth i (nodes c) (cur_root c))).
  { apply nth_error_nth'. unfold walkLength in Hin. lia. }
  rewrite Hn. rewrite (node_moveTo _ _ Hn).
  specialize (IH (moveTo c i) Hc). unfold walkLength in *.
  rewrite nodes_moveTo in IH. cbn [moveTo cur_index] in IH.
  assert (H1 : i < List.length (nodes c)) by lia. assert (H2 : i < fuel) by lia.
  specialize (IH H1 H2).
  destruct (nth i (nodes c) (cur_root c)) as [k t|k cs]; cbn [hasKindIn].
  - destruct (existsb (TerminalKind.eqb k) kinds); [reflexivity|].
    destruct (lastBefore (hasKindIn kinds) (nodes c) i); exact IH.
  - destruct (lastBefore (hasKindIn kinds) (nodes c) i); exact IH.
Qed.

(** ** Offsets along a walk *)

Lemma length_append (a b : string) :
  String.length (a ++ b) = String.length a + String.length b.
Proof. induction a as [|x a IH]; cbn; [reflexivity | rewrite IH; reflexivity]. Qed.

Lemma sumOwnLength_app (a b : list Node) :
  sumOwnLength (a ++ b) = sumOwnLength a + sumOwnLength b.
Proof. induction a as [|x a IH]; cbn; [reflexivity | rewrite IH; lia]. Qed.

(** The text of a node is the text of the terminals of its walk. *)
Lemma unparse_length (n : Node) : String.length (unparse n) = sumOwnLength (preorder n).
Proof.
  revert n. fix IH 1. intros [k t|k cs].
  - cbn. lia.
  - cbn [unparse preorder sumOwnLength ownLength]. cbn [Nat.add].
    induction cs as [|[l c] r IHr]; [reflexivity|].
    rewrite length_append, sumOwnLength_app, IH, IHr. reflexivity.
Qed.

Lemma sumOwnLength_firstn_le (l : list Node) (i j : nat) :
  i <= j -> sumOwnLength (firstn i l) <= sumOwnLength (firstn j l).
Proof.
  revert i j. induction l as [|a r IH]; intros i j Hle.
  - rewrite !firstn_nil. lia.
  - destruct i as [|i]; [cbn; lia|]. destruct j as [|j]; [lia|].
    cbn [firstn sumOwnLength]. specialize (IH i j). lia.
Qed.

Lemma sumOwnLength_firstn_all (l : list Node) (i : nat) :
  sumOwnLength (firstn i l) <= sumOwnLength l.
Proof.
  rewrite <- (firstn_all l) at 2.
  destruct (Nat.le_gt_cases i (List.length l)) as [H|H].
  - apply sumOwnLength_firstn_le. exact H.
  - rewrite (firstn_all2 l) by lia. rewrite firstn_all. lia.
Qed.

Lemma sumOwnLength_firstn_S (l : list Node) (j : nat) (n : Node) :
  nth_error l j = Some n ->
  sumOwnLength (firstn (S j) l) = sumOwnLength (firstn j l) + ownLength n.
Proof.
  revert j. induction l as [|a r IH]; intros [|j] Hn; try discriminate.
  - injection Hn as ->. cbn. lia.
  - rewrite !firstn_cons. cbn [sumOwnLength]. rewrite (IH j Hn). lia.
Qed.

(** Nodes that are not terminals add nothing to the text. *)
Lemma sumOwnLength_no_terminal (l : list Node) (j : nat) :
  (forall m n, j < m -> nth_error l m = Some n -> isTerminalNode n = false) ->
  sumOwnLength l = sumOwnLength (firstn (S j) l).
Proof.
  revert j. induction l as [|a r IH]; intros j Hnone; [reflexivity|].
  cbn [firstn sumOwnLength]. destruct j as [|j].
  - rewrite firstn_O. cbn [sumOwnLength].
    assert (H0 : sumOwnLength r = 0).
    { clear IH. induction r as [|b r IHr]; [reflexivity|]. cbn [sumOwnLength].
      rewrite IHr.
      - pose proof (Hnone 1 b ltac:(lia) eq_refl) as Hb. destruct b; [discriminate|].
        reflexivity.
      - intros [|m] n Hm Hn; [lia|]. destruct m as [|m].
        + apply (Hnone 2 n); [lia | exact Hn].
        + apply (Hnone (S (S (S m))) n); [lia | exact Hn]. }
    lia.
  - rewrite (IH j); [reflexivity|]. intros m n Hm Hn. apply (Hnone (S m) n); [lia | exact Hn].
Qed.

Lemma startOffset_spawn (c : Cursor) : startOffset (spawn c) = startOffset c.
Proof. unfold startOffset at 1. cbn [spawn cur_offset cur_index firstn sumOwnLength]. lia. Qed.

Lemma textRange_spawn (c : Cursor) : textRange (spawn c) = textRange c.
Proof. unfold textRange. rewrite startOffset_spawn, node_spawn. reflexivity. Qed.

Lemma startAt_sum (c : Cursor) (i : nat) :
  startAt c i = startOffset c + sumOwnLength (firstn i (inside c)).
Proof. reflexivity. Qed.

Lemma inside_preorder (c : Cursor) : inside c = preorder (node c).
Proof. reflexivity. Qed.

Lemma inside_root (c : Cursor) : nth_error (inside c) 0 = Some (node c).
Proof. rewrite inside_preorder. destruct (node c); reflexivity. Qed.

(** A node inside ends where it starts plus the length of its text; for a
    terminal, that is where the next place starts. *)
Lemma endAt_terminal (c : Cursor) (j : nat) (n : Node) :
  nth_error (inside c) j = Some n -> isTerminalNode n = true ->
  endAt c j = startOffset c + sumOwnLength (firstn (S j) (inside c)).
Proof.
  intros Hn Ht. unfold endAt, textRange. cbn [range_end].
  change (startOffset (moveTo (spawn c) j)) with (startAt c j).
  rewrite startAt_sum. unfold inside in Hn. rewrite (node_moveTo _ _ Hn).
  fold (inside c) in Hn. rewrite (sumOwnLength_firstn_S _ _ Hn).
  destruct n as [k t|k cs]; [cbn; lia | discriminate].
Qed.

Lemma textRange_end_sum (c : Cursor) :
  range_end (textRange c) = startOffset c + sumOwnLength (inside c).
Proof.
  unfold textRange. cbn [range_end]. rewrite unparse_length. reflexivity.
Qed.

Lemma goToLastTerminal_completed (fuel : nat) (c : Cursor) :
  cur_completed c = true -> goToLastTerminal_loop fuel c = c.
Proof.
  intro Hc. destruct fuel as [|fuel]; [reflexivity|]. cbn [goToLastTerminal_loop].
  unfold clone, goToNextTerminal. rewrite (goToNextMatching_completed _ _ Hc). reflexivity.
Qed.

Lemma lastNonTriviaEnd_completed (fuel : nat) (c : Cursor) (end0 : nat) :
  cur_completed c = true -> lastNonTriviaEnd_loop fuel c end0 = end0.
Proof.
  intro Hc. destruct fuel as [|fuel]; [reflexivity|]. cbn [lastNonTriviaEnd_loop].
  unfold goToPrevious. rewrite Hc. reflexivity.
Qed.

(** What [getTrimmedRange] computes, place by place: the whole range when the
    node holds no token; otherwise it starts at the first token and ends at the
    last token before the last terminal, or at the end of the node when no
    token comes before the last terminal. *)
Lemma getTrimmedRange_places (c : Cursor) :
  isNonterminalNode (node c) = true ->
  match nextMatch isToken (inside c) 0 with
  | None => getTrimmedRange c = Val (textRange c)
  | Some i =>
      exists last n,
        i <= last /\ nth_error (inside c) last = Some n /\ isTerminalNode n = true
        /\ (forall m x, last < m -> nth_error (inside c) m = Some x -> isTerminalNode x = false)
        /\ getTrimmedRange c
           = Val {| range_start := startAt c i;
                    range_end := match lastBefore isToken (inside c) last with
                                 | Some j => endAt c j
                                 | None => range_end (textRange c)
                                 end |}
  end.
Proof.
  intro Hnt. unfold getTrimmedRange. rewrite node_spawn, Hnt. cbn [assertR bindR].
  assert (Hlen : 0 < walkLength (spawn c)) by apply preorder_nonempty.
  rewrite (@skipLeadingTrivia_spec (walkLength (spawn c)) (spawn c) eq_refl Hlen)
    by (cbn [spawn cur_index]; lia).
  change (nodes (spawn c)) with (inside c). change (cur_index (spawn c)) with 0.
  pose proof (nextMatch_spec isToken (inside c) 0) as Hfirst.
  destruct (nextMatch isToken (inside c) 0) as [i|].
  - destruct Hfirst as [Hpos [[x [Hx Hpx]] Hbefore]].
    assert (Hi : i < walkLength (spawn c)).
    { unfold walkLength. apply nth_error_Some. unfold inside in Hx. rewrite Hx. discriminate. }
    destruct (@goToLastTerminal_spec (walkLength (moveTo (spawn c) i)) (moveTo (spawn c) i)
                eq_refl Hi) as [last [Hlast [Hrange [Hafter Hon]]]].
    { cbn [moveTo cur_index]. unfold walkLength. rewrite nodes_moveTo. lia. }
    unfold goToLastTerminal. rewrite Hlast. rewrite moveTo_moveTo.
    cbn [moveTo cur_index] in Hrange. rewrite nodes_moveTo in Hafter, Hon.
    unfold walkLength in Hrange. rewrite nodes_moveTo in Hrange.
    assert (Hterm : exists n, nth_error (inside c) last = Some n /\ isTerminalNode n = true).
    { destruct Hon as [->|Hon]; [|exact Hon]. cbn [moveTo cur_index].
      exists x. split; [exact Hx | exact (isToken_terminal _ Hpx)]. }
    destruct Hterm as [n [Hn Htn]].
    exists last, n. split; [lia|]. split; [exact Hn|]. split; [exact Htn|].
    split; [exact Hafter|].
    rewrite lastNonTriviaEnd_spec; [| reflexivity | |];
      [| unfold walkLength; rewrite nodes_moveTo; cbn [moveTo cur_index]; lia
       | cbn [moveTo cur_index]; lia].
    rewrite nodes_moveTo. cbn [moveTo cur_index]. change (nodes (spawn c)) with (inside c).
    rewrite textRange_spawn. unfold startAt, endAt.
    destruct (lastBefore isToken (inside c) last); reflexivity.
  - unfold goToLastTerminal. rewrite goToLastTerminal_completed by reflexivity.
    rewrite lastNonTriviaEnd_completed by reflexivity. rewrite textRange_spawn.
    unfold textRange. cbn [range_start range_end]. f_equal. f_equal.
    unfold startOffset at 1. cbn [complete spawn cur_offset cur_index firstn sumOwnLength].
    lia.
Qed.

(** The first token of a nonterminal is the one the search from the node
    itself finds. *)
Lemma firstAt_nextMatch (c : Cursor) (i : nat) :
  isNonterminalNode (node c) = true ->
  firstAt isToken c i -> nextMatch isToken (inside c) 0 = Some i.
Proof.
  intros Hnt [[n [Hn Hp]] Hnone].
  assert (Hpos : 0 < i).
  { destruct i as [|i]; [|lia]. rewrite inside_root in Hn. injection Hn as <-.
    destruct (node c); discriminate. }
  apply (@nextMatch_Some isToken (inside c) 0 i n Hpos Hn Hp).
  intros m x Hm Hx. apply (Hnone m x); [lia | exact Hx].
Qed.

(** ** The range helper *)

Lemma nextMatch_first (c : Cursor) (i : nat) :
  nextMatch isToken (inside c) 0 = Some i -> firstAt isToken c i.
Proof.
  intro Hi. pose proof (nextMatch_spec isToken (inside c) 0) as H. rewrite Hi in H.
  destruct H as [Hpos [[n [Hn Hp]] Hbefore]]. split; [exists n; auto|].
  intros m x Hm Hx. destruct m as [|m]; [|apply (Hbefore (S m) x); [lia | exact Hx]].
  rewrite inside_root in Hx. injection Hx as <-.
  destruct (node c) as [k t|k cs] eqn:Hnode; [|reflexivity].
  rewrite inside_preorder, Hnode in Hn. destruct i as [|[|i]]; [lia | discriminate..].
Qed.

Lemma lastBefore_last (p : Node -> bool) (c : Cursor) (j : nat) :
  lastBefore p (inside c) (List.length (inside c)) = Some j -> lastAt p c j.
Proof.
  intro Hj. pose proof (lastBefore_spec p (inside c) (List.length (inside c))) as H.
  rewrite Hj in H. destruct H as [Hlt [Hn Hafter]]. split; [exact Hn|].
  intros m x Hm Hx. apply (Hafter m x); [|exact Hx]. split; [exact Hm|].
  apply nth_error_Some. rewrite Hx. discriminate.
Qed.

Lemma lastBefore_preceding (p : Node -> bool) (c : Cursor) (j j' : nat) :
  lastBefore p (inside c) j = Some j' -> precedingAt p c j j'.
Proof.
  intro Hj. pose proof (lastBefore_spec p (inside c) j) as H. rewrite Hj in H. exact H.
Qed.

(** X1: [getTrimmedRange] asserts that the cursor is on a nonterminal.  For a
    nonterminal it returns a range that lies within the range of the node and
    does not end before it starts. *)
Theorem getTrimmedRange_within (c : Cursor) :
  match getTrimmedRange c with
  | Val r =>
      isNonterminalNode (node c) = true
      /\ range_start (textRange c) <= range_start r
      /\ range_start r <= range_end r
      /\ range_end r <= range_end (textRange c)
  | Throw => isTerminalNode (node c) = true
  end.
Proof.
  destruct (isNonterminalNode (node c)) eqn:Hnt.
  2:{ unfold getTrimmedRange. rewrite node_spawn, Hnt. cbn [assertR bindR].
      unfold isNonterminalNode in Hnt. destruct (isTerminalNode (node c)); [reflexivity|].
      discriminate. }
  pose proof (getTrimmedRange_places c Hnt) as Hplaces.
  pose proof (nextMatch_spec isToken (inside c) 0) as Hfirst.
  destruct (nextMatch isToken (inside c) 0) as [i|] eqn:Hi.
  - destruct Hplaces as [last [n [Hle [Hn [Htn [Hafter ->]]]]]].
    destruct Hfirst as [Hpos [[x [Hx Hpx]] Hbefore]].
    split; [reflexivity|]. cbn [range_start range_end].
    rewrite startAt_sum, textRange_end_sum. change (range_start (textRange c)) with (startOffset c).
    pose proof (sumOwnLength_firstn_all (inside c) i) as Hall.
    split; [lia|].
    pose proof (lastBefore_spec isToken (inside c) last) as Hlast.
    destruct (lastBefore isToken (inside c) last) as [j|].
    + destruct Hlast as [Hlt [[y [Hy Hpy]] Hbetween]].
      rewrite (endAt_terminal c _ Hy (isToken_terminal _ Hpy)).
      assert (Hij : i <= j).
      { destruct (Nat.le_gt_cases i j) as [H|H]; [exact H|]. exfalso.
        destruct j as [|j].
        - rewrite inside_root in Hy. injection Hy as <-. unfold isNonterminalNode in Hnt.
          rewrite (isToken_terminal _ Hpy) in Hnt. discriminate.
        - rewrite (Hbefore (S j) y) in Hpy; [discriminate | lia | exact Hy]. }
      pose proof (sumOwnLength_firstn_le (inside c) (i := i) (j := S j)) as H1.
      pose proof (sumOwnLength_firstn_all (inside c) (S j)) as H2.
      split; lia.
    + split; lia.
  - rewrite Hplaces. split; [reflexivity|]. unfold textRange. cbn [range_start range_end].
    split; lia.
Qed.

(** X2: For a nonterminal with a token, when its last token is followed by a
    terminal (trailing trivia) or is its only token, [getTrimmedRange] returns
    the range from the start of the first token to the end of the last token. *)
Theorem getTrimmedRange_token_span (c : Cursor) (i j : nat) :
  isNonterminalNode (node c) = true ->
  firstAt isToken c i ->
  lastAt isToken c j ->
  (i = j \/ exists m n, j < m /\ nth_error (inside c) m = Some n /\ isTerminalNode n = true) ->
  getTrimmedRange c = Val {| range_start := startAt c i; range_end := endAt c j |}.
Proof.
  intros Hnt Hfirst [[y [Hy Hpy]] Hlater] Hshape.
  pose proof (getTrimmedRange_places c Hnt) as Hplaces.
  rewrite (firstAt_nextMatch Hnt Hfirst) in Hplaces.
  destruct Hplaces as [last [n [Hle [Hn [Htn [Hafter ->]]]]]].
  assert (Hjl : j <= last).
  { destruct (Nat.le_gt_cases j last) as [H|H]; [exact H|].
    pose proof (isToken_terminal _ Hpy) as Ht. rewrite (Hafter j y H Hy) in Ht.
    discriminate. }
  destruct (Nat.eq_dec j last) as [->|Hne].
  - destruct Hshape as [->|[m [x [Hm [Hx Htx]]]]].
    2:{ rewrite (Hafter m x Hm Hx) in Htx. discriminate. }
    destruct Hfirst as [_ Hbefore].
    rewrite lastBefore_None by (intros m x Hm Hx; exact (Hbefore m x Hm Hx)).
    rewrite textRange_end_sum, (endAt_terminal c _ Hy (isToken_terminal _ Hpy)).
    rewrite <- (sumOwnLength_no_terminal (inside c) Hafter). reflexivity.
  - rewrite (@lastBefore_Some isToken (inside c) last j y); [reflexivity|lia|auto..].
    intros m x Hm Hx. apply (Hlater m x); [lia | exact Hx].
Qed.

Lemma getTrimmedRange_token_span_witness :
  let c := Sample.firstInside NonterminalKind.StateVariableDefinition Sample.plainCursor in
  isNonterminalNode (node c) = true
  /\ firstAt isToken c 4
  /\ lastAt isToken c 11
  /\ (exists m n, 11 < m /\ nth_error (inside c) m = Some n /\ isTerminalNode n = true)
  /\ getTrimmedRange c = Val {| range_start := startAt c 4; range_end := endAt c 11 |}
  /\ textRange c = {| range_start := 90; range_end := 113 |}
  /\ startAt c 4 = 91 /\ endAt c 11 = 112.
Proof.
  cbv zeta.
  match goal with
  | |- ?A /\ ?B /\ ?C /\ ?D /\ _ =>
      assert (HA : A) by (vm_compute; reflexivity);
      assert (HB : B) by (apply nextMatch_first; vm_compute; reflexivity);
      assert (HC : C) by (apply lastBefore_last; vm_compute; reflexivity);
      assert (HD : D)
        by (exists 12; eexists; split; [lia | split; vm_compute; reflexivity])
  end.
  repeat (split; [assumption|]).
  split; [exact (getTrimmedRange_token_span HA HB HC (or_intror HD))|].
  repeat split; vm_compute; reflexivity.
Defined.

(** X3: The backward search of [getTrimmedRange] starts before the terminal the
    cursor was left on.  So when the last terminal of the node is a token and
    another token comes before it, the range ends with that earlier token,
    before the last token starts. *)
Theorem getTrimmedRange_last_terminal_token (c : Cursor) (i j' j : nat) :
  isNonterminalNode (node c) = true ->
  firstAt isToken c i ->
  lastAt isTerminalNode c j ->
  (exists n, nth_error (inside c) j = Some n /\ isToken n = true) ->
  precedingAt isToken c j j' ->
  getTrimmedRange c = Val {| range_start := startAt c i; range_end := endAt c j' |}
  /\ endAt c j' <= startAt c j.
Proof.
  intros Hnt Hfirst [[y [Hy Hty]] Hlater] _ [Hlt [[z [Hz Hpz]] Hbetween]].
  pose proof (getTrimmedRange_places c Hnt) as Hplaces.
  rewrite (firstAt_nextMatch Hnt Hfirst) in Hplaces.
  destruct Hplaces as [last [n [Hle [Hn [Htn [Hafter ->]]]]]].
  assert (Hlast : last = j).
  { destruct (Nat.lt_trichotomy last j) as [H|[H|H]]; [|exact H|].
    - rewrite (Hafter j y H Hy) in Hty. discriminate.
    - rewrite (Hlater last n H Hn) in Htn. discriminate. }
  subst last. split.
  - rewrite (@lastBefore_Some isToken (inside c) j j' z Hlt Hz Hpz); [reflexivity|].
    intros m x Hm Hx. exact (Hbetween m x Hm Hx).
  - rewrite (endAt_terminal c _ Hz (isToken_terminal _ Hpz)), startAt_sum.
    pose proof (sumOwnLength_firstn_le (inside c) (i := S j') (j := j)). lia.
Qed.

Lemma getTrimmedRange_last_terminal_token_witness :
  let c :=
    Sample.firstInside NonterminalKind.StateVariableDefinitionValue
      (Sample.firstInside NonterminalKind.StateVariableDefinition
         (Sample.vaultCursor Sample.foreignLocation)) in
  isNonterminalNode (node c) = true
  /\ firstAt isToken c 2
  /\ lastAt isTerminalNode c 5
  /\ (exists n, nth_error (inside c) 5 = Some n /\ isToken n = true)
  /\ precedingAt isToken c 5 2
  /\ unparse (node c) = " = 0x00"
  /\ textRange c = {| range_start := 246; range_end := 253 |}
  /\ startAt c 2 = 247 /\ endAt c 2 = 248
  /\ getTrimmedRange c = Val {| range_start := startAt c 2; range_end := endAt c 2 |}.
Proof.
  cbv zeta.
  match goal with
  | |- ?A /\ ?B /\ ?C /\ ?D /\ ?E /\ _ =>
      assert (HA : A) by (vm_compute; reflexivity);
      assert (HB : B) by (apply nextMatch_first; vm_compute; reflexivity);
      assert (HC : C) by (apply lastBefore_last; vm_compute; reflexivity);
      assert (HD : D) by (eexists; split; vm_compute; reflexivity);
      assert (HE : E) by (apply lastBefore_preceding; vm_compute; reflexivity)
  end.
  repeat (split; [assumption|]).
  repeat (split; [vm_compute; reflexivity|]).
  exact (proj1 (getTrimmedRange_last_terminal_token HA HB HC HD HE)).
Defined.

(** ** The search for a preceding trivia *)

Lemma hasKindIn_terminal (kinds : list TerminalKind.t) (n : Node) :
  hasKindIn kinds n = true ->
  exists k t, n = TerminalNode k t /\ existsb (TerminalKind.eqb k) kinds = true.
Proof. destruct n as [k t|k cs]; [|discriminate]. intro H. exists k, t. auto. Qed.

(** X4: [getLastPrecedingTriviaWithKinds] asserts that every kind asked for is a
    trivia kind, and throws otherwise.  With trivia kinds it returns the last
    terminal of one of these kinds before the first token of the node under
    the cursor, with its kind, its text and its range, which ends before the
    token starts; it returns nothing when the node holds no token, or no
    terminal of these kinds before its first token. *)
Theorem getLastPrecedingTriviaWithKinds_last (c : Cursor) (kinds : list TerminalKind.t) :
  match getLastPrecedingTriviaWithKinds c kinds with
  | Throw => forallb isTriviaKind kinds = false
  | Val None =>
      forallb isTriviaKind kinds = true
      /\ (noneAt isToken c (fun m => 0 < m)
          \/ exists i, firstAt isToken c i /\ noneAt (hasKindIn kinds) c (fun m => m < i))
  | Val (Some found) =>
      forallb isTriviaKind kinds = true
      /\ exists i j,
           firstAt isToken c i
           /\ precedingAt (hasKindIn kinds) c i j
           /\ nth_error (inside c) j = Some (TerminalNode (kind found) (text found))
           /\ trivia_textRange found
              = {| range_start := startAt c j;
                   range_end := startAt c j + String.length (text found) |}
           /\ startAt c j + String.length (text found) <= startAt c i
  end.
Proof.
  unfold getLastPrecedingTriviaWithKinds.
  destruct (forallb isTriviaKind kinds) eqn:Hkinds; cbn [assertR bindR]; [|reflexivity].
  assert (Hlen : 0 < walkLength (spawn c)) by apply preorder_nonempty.
  pose proof (@goToFirstNonTrivia_spec (walkLength (spawn c)) (spawn c) eq_refl Hlen) as Hfirst.
  change (nodes (spawn c)) with (inside c) in Hfirst.
  change (cur_index (spawn c)) with 0 in Hfirst.
  specialize (Hfirst ltac:(lia)). unfold goToFirstNonTrivia.
  destruct (nextMatch isToken (inside c) 0) as [i|] eqn:Hi.
  2:{ destruct (goToFirstNonTrivia_loop (walkLength (spawn c)) (spawn c)) as [found c1].
      cbn [fst] in Hfirst. subst found. split; [reflexivity|]. left.
      pose proof (nextMatch_spec isToken (inside c) 0) as Hnone. rewrite Hi in Hnone.
      exact Hnone. }
  rewrite Hfirst. pose proof (nextMatch_first c Hi) as Htoken.
  assert (Hin : i < walkLength (spawn c)).
  { destruct Htoken as [[n [Hn _]] _]. unfold walkLength. apply nth_error_Some.
    unfold inside in Hn. rewrite Hn. discriminate. }
  unfold goToPreviousTerminalWithKinds. cbn [moveTo cur_index].
  pose proof (@goToPreviousTerminalWithKinds_spec (S i) (moveTo (spawn c) i) kinds eq_refl)
    as Hback.
  unfold walkLength in Hback. rewrite nodes_moveTo in Hback. cbn [moveTo cur_index] in Hback.
  change (nodes (spawn c)) with (inside c) in Hback.
  specialize (Hback Hin ltac:(lia)).
  pose proof (lastBefore_spec (hasKindIn kinds) (inside c) i) as Hlast.
  destruct (lastBefore (hasKindIn kinds) (inside c) i) as [j|] eqn:Hj.
  2:{ match type of Hback with
      | fst ?x = false => destruct x as [found c2]
      end.
      cbn [fst] in Hback. subst found. split; [reflexivity|]. right. exists i.
      split; [exact Htoken | exact Hlast]. }
  match type of Hback with ?x = _ => change x with
    (goToPreviousTerminalWithKinds_loop (S i) (moveTo (spawn c) i) kinds) end.
  rewrite Hback. rewrite moveTo_moveTo.
  destruct Hlast as [Hlt [[n [Hn Hp]] Hbetween]].
  destruct (hasKindIn_terminal _ _ Hp) as [k [t [-> Hk]]].
  unfold inside in Hn. rewrite (node_moveTo _ _ Hn). fold (inside c) in Hn.
  split; [reflexivity|]. exists i, j. cbn [kind text trivia_textRange].
  split; [exact Htoken|]. split; [exact (lastBefore_preceding _ _ _ Hj)|].
  split; [exact Hn|]. split.
  - unfold textRange. unfold inside in Hn. rewrite (node_moveTo _ _ Hn). reflexivity.
  - rewrite !startAt_sum.
    pose proof (sumOwnLength_firstn_S _ _ Hn) as HS. cbn [ownLength] in HS.
    pose proof (sumOwnLength_firstn_le (inside c) (i := S j) (j := i)). lia.
Qed.

(** ** The variable classifier, in full *)

Lemma immutableOrConstant_not_public (variant : Node) :
  isImmutableOrConstant variant = true ->
  hasTerminalKind TerminalKind.PublicKeyword variant = false.
Proof.
  destruct variant as [k t|k cs]; [|reflexivity]. destruct k; try discriminate; reflexivity.
Qed.

Lemma attributeScan_eta (acc : AttributeScan) :
  {| ignoreVariable := ignoreVariable acc; replacement := replacement acc;
     getter := getter acc |} = acc.
Proof. destruct acc. reflexivity. Qed.

(** The loop over the attributes, from any values of its three variables. *)
Lemma scanAttribute_fold_exact (sv : StateVariable) (attributes : list Node)
    (acc : AttributeScan) :
  writes (foldM (scanAttribute sv) attributes acc)
    (Val {| ignoreVariable := ignoreVariable acc || existsb isImmutableOrConstant attributes;
            replacement := if existsb isKeptAttribute attributes
                           then withoutAttributes sv else replacement acc;
            getter := if existsb (hasTerminalKind TerminalKind.PublicKeyword) attributes
                      then Some {| typeName := unparse (sv_typeName sv) |}
                      else getter acc |})
    []
    (map (fun _ => ("Replacing variable with: " ++ withoutAttributes sv)%string)
         (filter isKeptAttribute attributes)).
Proof.
  revert acc. induction attributes as [|x r IH]; intro acc.
  - cbn [foldM existsb filter map]. rewrite orb_false_r, attributeScan_eta. apply writes_ret.
  - cbn [foldM existsb filter]. unfold scanAttribute at 1. unfold isKeptAttribute at 1 3.
    destruct (isImmutableOrConstant x) eqn:Hx; cbn [negb orb].
    + rewrite (immutableOrConstant_not_public _ Hx). cbn [orb]. rewrite orb_true_r.
      change (@nil Diagnostic) with (@nil Diagnostic ++ []).
      match goal with
      | |- writes _ _ _ ?ls => change ls with ([] ++ ls)
      end.
      eapply writes_bind; [apply writes_ret|].
      specialize (IH {| ignoreVariable := true; replacement := replacement acc;
                        getter := getter acc |}).
      cbn [ignoreVariable replacement getter orb] in IH. exact IH.
    + cbn [map]. change (@nil Diagnostic) with (@nil Diagnostic ++ []).
      match goal with
      | |- writes _ _ _ (?l :: ?ls) => change (l :: ls) with ([l] ++ ls)
      end.
      eapply writes_bind; [apply writes_log_ret|].
      match goal with
      | |- writes (foldM _ _ ?a) _ _ _ => specialize (IH a)
      end.
      cbn [ignoreVariable replacement getter] in IH. unfold withoutAttributes in *.
      destruct (existsb isKeptAttribute r);
        destruct (hasTerminalKind TerminalKind.PublicKeyword x);
        destruct (existsb (hasTerminalKind TerminalKind.PublicKeyword) r);
        cbn [orb]; exact IH.
Qed.

(** X5: The loop over the attributes of a state variable never throws and
    reports nothing.  It logs one line for every attribute other than
    [immutable] and [constant], and leaves: [ignoreVariable] set exactly when
    some attribute is [immutable] or [constant]; as replacement the variable's
    own text when it has no other attribute, and [<type> <name>;] when it has
    one; a getter of the variable's type exactly when some attribute is
    [public]. *)
Theorem attribute_scan (sv : StateVariable) (variableText : string) :
  writes (foldM (scanAttribute sv) (sv_attributes sv)
            {| ignoreVariable := false; replacement := variableText; getter := None |})
    (Val {| ignoreVariable := isExcluded sv;
            replacement := listedContent variableText sv;
            getter := listedGetter sv |})
    []
    (map (fun _ => ("Replacing variable with: " ++ withoutAttributes sv)%string)
         (filter isKeptAttribute (sv_attributes sv))).
Proof.
  exact (scanAttribute_fold_exact sv (sv_attributes sv)
           {| ignoreVariable := false; replacement := variableText; getter := None |}).
Qed.

(** A round of the classifier on a variable whose re-parse can be read. *)
Lemma classifyVariable_exact (env : Collaborators) (doc : TextDocument) (skip : bool)
    (cur : Cursor) (nc : NamespaceableContract) (sv : StateVariable) :
  hasNonterminalKind NonterminalKind.StateVariableDefinition (node cur) = true ->
  stateVariableDefinition (tree (reparseVariable env doc cur)) = Val sv ->
  exists ls,
    writes (classifyVariable env doc skip cur nc)
      (Val (cur, {| name := name nc;
                    variables := variables nc ++ snd (classified env doc cur) |}))
      (if skip then [] else fst (classified env doc cur)) ls.
Proof.
  intros Hkind Hsv.
  pose proof (hasNonterminalKind_nonterminal _ _ Hkind) as Hnode.
  destruct (getTrimmedRange_defined _ Hnode) as [trimmed Htrim].
  pose proof (scanAttribute_fold_exact sv (sv_attributes sv)
                {| ignoreVariable := false; replacement := Js.trim (unparse (node cur));
                   getter := None |}) as Hscan.
  cbn [ignoreVariable replacement getter orb] in Hscan.
  unfold classified. rewrite Htrim, Hsv. cbn [fst snd].
  unfold variableReport, isNamespaceable.
  unfold reparseVariable in Hsv.
  match type of Hscan with
  | writes _ _ _ ?ls0 => set (ls := ls0) in *
  end.
  assert (Hhead : forall st,
            classifyVariable env doc skip cur nc st
            = (if isExcluded sv then
                 console_log ("Ignoring immutable or constant variable: "
                              ++ Js.trim (unparse (node cur)))%string ;;;
                 ret (cur, nc)
               else
                 match sv_value sv with
                 | Some _ =>
                     (if negb skip then
                        addDiagnostic doc (slangToVSCodeRange doc trimmed)
                          "Variable has initial value"
                          "If this contract is an upgradeable contract, consider moving this variable to namespaced storage and setting it in an initializer."
                          DiagnosticSeverity.Warning VARIABLE_HAS_INITIAL_VALUE NoData
                      else ret tt) ;;;
                     ret (cur, nc)
                 | None =>
                     (if negb skip then
                        addDiagnostic doc (slangToVSCodeRange doc trimmed)
                          "Variable can be namespaced."
                          "If this contract is an upgradeable contract, consider moving this variable to namespaced storage."
                          DiagnosticSeverity.Information VARIABLE_CAN_BE_NAMESPACED NoData
                      else ret tt) ;;;
                     ret (cur,
                          {| name := name nc;
                             variables := variables nc ++
                               [listedVariable doc cur trimmed sv] |})
                 end) (extend st [] ls)).
  { intro st. unfold classifyVariable. cbv zeta.
    unfold bind at 1. unfold assertM, liftR at 1, assertR. rewrite Hnode.
    unfold bind at 1. unfold liftR at 1. rewrite Htrim.
    unfold bind at 1. unfold liftR at 1. rewrite Hsv.
    unfold bind at 1. rewrite (Hscan st). reflexivity. }
  destruct (isExcluded sv); cbn [negb andb].
  - exists (ls ++ [("Ignoring immutable or constant variable: "
                    ++ Js.trim (unparse (node cur)))%string]).
    rewrite namespaceable_record. intro st. rewrite Hhead.
    unfold bind, console_log, ret, extend. cbn [diagnostics console].
    destruct skip; rewrite ?app_nil_r, <- ?app_assoc; reflexivity.
  - unfold hasInitializer. destruct (sv_value sv) as [value|]; cbn [negb].
    + exists ls. rewrite namespaceable_record. intro st. rewrite Hhead.
      destruct skip; cbn [negb]; unfold bind, addDiagnostic, ret, extend;
        cbn [diagnostics console]; rewrite ?app_nil_r; reflexivity.
    + exists ls. intro st. rewrite Hhead.
      destruct skip; cbn [negb]; unfold bind, addDiagnostic, ret, extend;
        cbn [diagnostics console]; rewrite ?app_nil_r; reflexivity.
Qed.

(** X6: For a contract whose state variables re-parse to readable trees, the
    variable classifier returns normally.  It reports, in document order and
    unless it is told to skip the diagnostics, the diagnostic of every state
    variable definition inside the contract: none for a variable with
    [immutable] or [constant], VariableHasInitialValue for one with an
    initializer, VariableCanBeNamespaced for any other.  It returns the
    contract record with the variables of the last sort appended, each with
    its name, its trimmed range, the text and the getter the attribute loop
    left. *)
Theorem validateNamespaceableVariables_exact (env : Collaborators) (cursor : Cursor)
    (doc : TextDocument) (nc : NamespaceableContract) (skip : bool) :
  variablesReadable env doc cursor ->
  exists ls,
    writes (validateNamespaceableVariables env cursor doc nc skip)
      (Val {| name := name nc;
              variables := variables nc ++
                flat_map (fun cur => snd (classified env doc cur))
                  (definitionsIn NonterminalKind.StateVariableDefinition cursor) |})
      (if skip then []
       else flat_map (fun cur => fst (classified env doc cur))
              (definitionsIn NonterminalKind.StateVariableDefinition cursor))
      ls.
Proof.
  intro Hread.
  assert (Hfold : forall curs nc0,
            (forall cur, In cur curs ->
               hasNonterminalKind NonterminalKind.StateVariableDefinition (node cur) = true /\
               exists sv, stateVariableDefinition (tree (reparseVariable env doc cur)) = Val sv) ->
            exists ls,
              writes (foldM (round (classifyVariable env doc skip)) curs nc0)
                (Val {| name := name nc0;
                        variables := variables nc0 ++
                          flat_map (fun cur => snd (classified env doc cur)) curs |})
                (if skip then []
                 else flat_map (fun cur => fst (classified env doc cur)) curs) ls).
  { induction curs as [|cur rest IH]; intros nc0 Hall.
    - exists []. cbn [foldM flat_map]. rewrite namespaceable_record.
      destruct skip; apply writes_ret.
    - destruct (Hall cur (or_introl eq_refl)) as [Hkind [sv Hsv]].
      destruct (@classifyVariable_exact env doc skip cur nc0 sv Hkind Hsv) as [ls1 H1].
      destruct (IH {| name := name nc0;
                      variables := variables nc0 ++ snd (classified env doc cur) |}
                   (fun c Hc => Hall c (or_intror Hc))) as [ls2 H2].
      cbn [name variables] in H2. rewrite <- app_assoc in H2.
      exists (ls1 ++ ls2). cbn [foldM flat_map].
      replace (if skip then []
               else fst (classified env doc cur)
                    ++ flat_map (fun cur0 => fst (classified env doc cur0)) rest)
        with ((if skip then [] else fst (classified env doc cur))
              ++ (if skip then []
                  else flat_map (fun cur0 => fst (classified env doc cur0)) rest))
        by (destruct skip; reflexivity).
      eapply writes_bind; [eapply writes_round; exact H1 | exact H2]. }
  destruct (Hfold (definitionsIn NonterminalKind.StateVariableDefinition cursor) nc
              (fun c Hc => conj (nextMatches_node _ _ _ Hc) (Hread c Hc))) as [ls Hw].
  exists ls. intro st. rewrite validateNamespaceableVariables_rounds. apply Hw.
Qed.

Lemma validateNamespaceableVariables_exact_witness :
  let env := Sample.plainEnv in
  let doc := Sample.plainDocument in
  let cursor := Sample.plainCursor in
  let variables_ := definitionsIn NonterminalKind.StateVariableDefinition cursor in
  variablesReadable env doc cursor
  /\ map var_name (flat_map (fun cur => snd (classified env doc cur)) variables_) = ["total"]
  /\ codes (flat_map (fun cur => fst (classified env doc cur)) variables_)
     = [VARIABLE_CAN_BE_NAMESPACED]
  /\ exists ls,
       writes (validateNamespaceableVariables env cursor doc
                 {| name := "Plain"; variables := [] |} false)
         (Val {| name := "Plain";
                 variables := flat_map (fun cur => snd (classified env doc cur)) variables_ |})
         (flat_map (fun cur => fst (classified env doc cur)) variables_) ls.
Proof.
  cbv zeta.
  assert (HR : variablesReadable Sample.plainEnv Sample.plainDocument Sample.plainCursor).
  { intros c Hc. vm_compute in Hc. destruct Hc as [<-|[<-|[]]]; eexists; vm_compute; reflexivity. }
  split; [exact HR|]. split; [vm_compute; reflexivity|]. split; [vm_compute; reflexivity|].
  exact (@validateNamespaceableVariables_exact Sample.plainEnv Sample.plainCursor
           Sample.plainDocument {| name := "Plain"; variables := [] |} false HR).
Defined.

(** A pair of loop bodies of which the second returns and logs what the
    first does, and reports nothing. *)
Lemma whileNext_quiet {A : Type} (k : NonterminalKind.t)
    (loud quiet : Cursor -> A -> M (Cursor * A)) :
  (forall c a, exists r ds ls, writes (loud c a) r ds ls /\ writes (quiet c a) r [] ls) ->
  forall fuel c a,
    exists r ds ls,
      writes (whileNext fuel k loud c a) r ds ls
      /\ writes (whileNext fuel k quiet c a) r [] ls.
Proof.
  intro Hbody. induction fuel as [|fuel IH]; intros c a; cbn [whileNext].
  - exists (Val a), [], []. split; apply writes_ret.
  - destruct (goToNextNonterminalWithKind k c) as [[|] c'].
    2:{ exists (Val a), [], []. split; apply writes_ret. }
    destruct (Hbody c' a) as [r1 [ds1 [ls1 [Hl1 Hq1]]]]. destruct r1 as [x|].
    + destruct (IH (fst x) (snd x)) as [r2 [ds2 [ls2 [Hl2 Hq2]]]].
      exists r2, (ds1 ++ ds2), (ls1 ++ ls2). split.
      * eapply writes_bind; [exact Hl1 | exact Hl2].
      * change (@nil Diagnostic) with (@nil Diagnostic ++ []).
        eapply writes_bind; [exact Hq1 | exact Hq2].
    + exists Throw, ds1, ls1. split; apply writes_bind_throw; assumption.
Qed.

Lemma classifyVariable_quiet (env : Collaborators) (doc : TextDocument) (c : Cursor)
    (nc : NamespaceableContract) :
  exists r ds ls,
    writes (classifyVariable env doc false c nc) r ds ls
    /\ writes (classifyVariable env doc true c nc) r [] ls.
Proof.
  unfold classifyVariable. cbv zeta.
  destruct (isNonterminalNode (node c)) eqn:Hnode.
  2:{ exists Throw, [], []. split; intro st;
        unfold bind, assertM, liftR, assertR; rewrite extend_nil; reflexivity. }
  destruct (getTrimmedRange c) as [trimmed|] eqn:Htrim.
  2:{ exists Throw, [], []. split; intro st;
        unfold bind, assertM, liftR, assertR; rewrite extend_nil; reflexivity. }
  destruct (stateVariableDefinition
              (tree (language_parse env (inferSolidityVersion env doc)
                       NonterminalKind.StateVariableDefinition
                       (Js.trim (unparse (node c)))))) as [sv|] eqn:Hsv.
  2:{ exists Throw, [], []. split; intro st;
        unfold bind, assertM, liftR, assertR; rewrite extend_nil; reflexivity. }
  pose proof (scanAttribute_fold_exact sv (sv_attributes sv)
                {| ignoreVariable := false; replacement := Js.trim (unparse (node c));
                   getter := None |}) as Hscan.
  assert (Hscan' : exists acc ls,
            writes (foldM (scanAttribute sv) (sv_attributes sv)
                      {| ignoreVariable := false;
                         replacement := Js.trim (unparse (node c));
                         getter := None |}) (Val acc) [] ls)
    by (eexists; eexists; exact Hscan).
  clear Hscan. destruct Hscan' as [acc [ls Hscan]].
  destruct (ignoreVariable acc) eqn:Hignore; [|destruct (sv_value sv) as [value|] eqn:Hvalue].
  - eexists (Val (c, nc)), [], (ls ++ [_]). split; intro st;
      unfold bind, assertM, liftR, assertR; rewrite (Hscan st), Hignore;
      unfold console_log, ret, extend; cbn [diagnostics console];
      rewrite ?app_nil_r, <- ?app_assoc; reflexivity.
  - eexists (Val (c, nc)), [_], ls. split; intro st;
      unfold bind, assertM, liftR, assertR; rewrite (Hscan st), Hignore, Hvalue;
      cbn [negb]; unfold addDiagnostic, ret, extend; cbn [diagnostics console];
      rewrite ?app_nil_r; reflexivity.
  - eexists (Val (c, _)), [_], ls. split; intro st;
      unfold bind, assertM, liftR, assertR; rewrite (Hscan st), Hignore, Hvalue;
      cbn [negb]; unfold addDiagnostic, ret, extend; cbn [diagnostics console];
      rewrite ?app_nil_r; reflexivity.
Qed.

(** X7: The flag [skipDiagnostic] only silences the classifier: with the flag set
    it reports nothing, and it returns the same contract record, or throws
    alike, and logs the same lines as without the flag. *)
Theorem skipDiagnostic_only_silences (env : Collaborators) (cursor : Cursor)
    (doc : TextDocument) (nc : NamespaceableContract) :
  exists r ds ls,
    writes (validateNamespaceableVariables env cursor doc nc false) r ds ls
    /\ writes (validateNamespaceableVariables env cursor doc nc true) r [] ls.
Proof.
  unfold validateNamespaceableVariables. apply whileNext_quiet.
  intros c a. apply classifyVariable_quiet.
Qed.

(** ** The annotation validator, in full *)

Lemma namespaceIdMismatches_app (env : Collaborators) (doc : TextDocument)
    (contractDef : Node) (a b : list NamespaceIdAndRange) :
  namespaceIdMismatches env doc contractDef (a ++ b)
  = namespaceIdMismatches env doc contractDef a ++ namespaceIdMismatches env doc contractDef b.
Proof.
  unfold namespaceIdMismatches. destruct (contractName contractDef); [|reflexivity].
  rewrite filter_app, map_app. reflexivity.
Qed.

(** A round of the annotation validator on a struct of a contract whose name
    can be read. *)
Lemma checkStructAnnotation_exact (env : Collaborators) (doc : TextDocument)
    (contractDef : Node) (contractNameText : string) (cur : Cursor)
    (found : list NamespaceIdAndRange) :
  isNonterminalNode (node cur) = true ->
  contractName contractDef = Val contractNameText ->
  writes (checkStructAnnotation env doc contractDef cur found)
    (Val (cur, found ++ structAnnotation cur))
    (namespaceIdMismatches env doc contractDef (structAnnotation cur))
    (map annotationLine (structAnnotation cur)).
Proof.
  intros Hnode Hname.
  destruct (@getLastPrecedingTriviaWithKinds_defined cur
              [TerminalKind.MultiLineNatSpecComment; TerminalKind.SingleLineNatSpecComment]
              eq_refl) as [o [Ho Hkind]].
  fold (getNatSpec cur) in Ho.
  unfold structAnnotation, checkStructAnnotation. rewrite Ho.
  intro st. unfold bind at 1. unfold assertM, liftR at 1, assertR. rewrite Hnode.
  unfold bind at 1. unfold liftR at 1.
  destruct o as [natSpec|].
  2:{ rewrite namespaceIdMismatches_nil, app_nil_r. unfold ret. cbn [map].
      rewrite extend_nil. reflexivity. }
  specialize (Hkind natSpec eq_refl). cbn [existsb] in Hkind.
  rewrite orb_false_r, orb_comm in Hkind.
  unfold bind at 1. unfold assertM, liftR at 1, assertR. rewrite Hkind.
  fold (annotationPattern natSpec).
  destruct (annotationPattern natSpec (text natSpec)) as [id|].
  2:{ rewrite namespaceIdMismatches_nil, app_nil_r. unfold ret. cbn [map].
      rewrite extend_nil. reflexivity. }
  unfold namespaceIdMismatches, getExpectedNamespaceId, bindR. rewrite Hname.
  cbn [filter namespaceId map annotationLine].
  unfold bind, console_log, liftR, ret, extend.
  destruct (String.eqb id (getNamespaceId env (getNamespacePrefix env doc) contractNameText));
    cbn [negb map diagnostics console]; unfold addDiagnostic;
    cbn [diagnostics console]; rewrite ?app_nil_r; reflexivity.
Qed.

(** The loop over the structs collects the annotation of every struct
    definition inside the contract, in document order, logging each and
    reporting those whose id is not the expected one. *)
Lemma collectNamespaceIds_writes (env : Collaborators) (cursor : Cursor)
    (doc : TextDocument) (contractDef : Node) (contractNameText : string) :
  contractName contractDef = Val contractNameText ->
  writes (collectNamespaceIds env cursor doc contractDef)
    (Val (structAnnotations cursor))
    (namespaceIdMismatches env doc contractDef (structAnnotations cursor))
    (map annotationLine (structAnnotations cursor)).
Proof.
  intro Hname.
  assert (Hfold : forall curs found,
            (forall cur, In cur curs -> isNonterminalNode (node cur) = true) ->
            writes (foldM (round (checkStructAnnotation env doc contractDef)) curs found)
              (Val (found ++ flat_map structAnnotation curs))
              (namespaceIdMismatches env doc contractDef (flat_map structAnnotation curs))
              (map annotationLine (flat_map structAnnotation curs))).
  { induction curs as [|cur rest IH]; intros found Hall.
    - cbn [foldM flat_map map]. rewrite app_nil_r, namespaceIdMismatches_nil.
      apply writes_ret.
    - cbn [foldM flat_map]. rewrite namespaceIdMismatches_app, map_app, app_assoc.
      eapply writes_bind.
      + eapply writes_round.
        exact (@checkStructAnnotation_exact env doc contractDef contractNameText cur found
                 (Hall cur (or_introl eq_refl)) Hname).
      + apply IH. intros c Hc. apply Hall. right. exact Hc. }
  intro st. unfold collectNamespaceIds. rewrite whileNext_definitions.
  - apply (Hfold (definitionsIn NonterminalKind.StructDefinition cursor) []).
    intros cur Hcur.
    exact (hasNonterminalKind_nonterminal _ _ (nextMatches_node _ _ _ Hcur)).
  - intros. eapply checkStructAnnotation_stays; eassumption.
Qed.

Lemma foldM_reportMultiple_writes (doc : TextDocument) (l : list NamespaceIdAndRange) :
  writes (foldM (reportMultiple doc) l tt) (Val tt) (map (multipleNamespaces doc) l) [].
Proof.
  induction l as [|x r IH]; [apply writes_ret|].
  cbn [foldM map]. change (@nil string) with (@nil string ++ []).
  change (multipleNamespaces doc x :: map (multipleNamespaces doc) r)
    with ([multipleNamespaces doc x] ++ map (multipleNamespaces doc) r).
  eapply writes_bind; [apply writes_addDiagnostic | exact IH].
Qed.

Lemma reportNamespaceCount_writes (doc : TextDocument) (found : list NamespaceIdAndRange) :
  writes (reportNamespaceCount doc found) (Val tt) (countReport doc found) [].
Proof.
  unfold reportNamespaceCount, countReport.
  destruct (Nat.ltb 1 (List.length found)); [|apply writes_ret].
  destruct (duplicateNamespaceIds found) as [|d r]; cbn [List.length Nat.ltb Nat.leb].
  - apply foldM_reportMultiple_writes.
  - intro st. apply foldM_reportDuplicate.
Qed.

Lemma validateNamespaceStructAnnotation_writes (env : Collaborators) (cursor : Cursor)
    (doc : TextDocument) (contractDef : Node) (contractNameText : string) :
  contractName contractDef = Val contractNameText ->
  writes (validateNamespaceStructAnnotation env cursor doc contractDef)
    (Val (singleNamespace (structAnnotations cursor)))
    (namespaceIdMismatches env doc contractDef (structAnnotations cursor)
     ++ countReport doc (structAnnotations cursor))
    (map annotationLine (structAnnotations cursor)).
Proof.
  intro Hname. unfold validateNamespaceStructAnnotation.
  rewrite <- (app_nil_r (map annotationLine (structAnnotations cursor))).
  eapply writes_bind; [exact (collectNamespaceIds_writes env cursor doc _ Hname)|].
  rewrite <- (app_nil_r (countReport doc (structAnnotations cursor))).
  change (@nil string) with (@nil string ++ []).
  eapply writes_bind; [apply reportNamespaceCount_writes | apply writes_ret].
Qed.

Lemma laterOccurrences_distinct (seen : list string) (l : list NamespaceIdAndRange) :
  (forall x, In x l -> ~ In (namespaceId x) seen) ->
  NoDup (map namespaceId l) ->
  laterOccurrences seen l = [].
Proof.
  revert seen. induction l as [|x r IH]; intros seen Hfresh Hnodup; [reflexivity|].
  cbn [laterOccurrences]. cbn [map] in Hnodup. inversion Hnodup as [|? ? Hnotin Hrest]; subst.
  destruct (existsb (fun s => String.eqb s (namespaceId x)) seen) eqn:Hseen.
  - apply existsb_exists in Hseen. destruct Hseen as [s [Hs Heq]].
    apply String.eqb_eq in Heq. subst s. exfalso.
    exact (Hfresh x (or_introl eq_refl) Hs).
  - cbn [app]. apply IH; [|exact Hrest].
    intros y Hy Hin. apply in_app_or in Hin. destruct Hin as [Hin|[Heq|[]]].
    + exact (Hfresh y (or_intror Hy) Hin).
    + apply Hnotin. rewrite Heq. apply in_map. exact Hy.
Qed.

Lemma codes_multipleNamespaces (doc : TextDocument) (l : list NamespaceIdAndRange)
    (code : string) :
  In code (codes (map (multipleNamespaces doc) l)) -> code = MULTIPLE_NAMESPACES.
Proof.
  unfold codes. rewrite map_map. cbn [multipleNamespaces diag_code].
  rewrite in_map_iff. intros [x [<- _]]. reflexivity.
Qed.

(** X8: For a contract whose name can be read, the annotation validator returns
    normally.  It collects the namespace annotation of every struct
    definition inside the contract, in document order, logs each, and reports
    a NamespaceIdMismatch for each whose id is not the expected one; it
    returns the annotation when it collected exactly one, and nothing
    otherwise.  What it reports after that is DuplicateNamespaceId or
    MultipleNamespaces, never both. *)
Theorem struct_annotations_collected (env : Collaborators) (cursor : Cursor)
    (doc : TextDocument) (contractDef : Node) (contractNameText : string) :
  contractName contractDef = Val contractNameText ->
  exists onCount,
    writes (validateNamespaceStructAnnotation env cursor doc contractDef)
      (Val (singleNamespace (structAnnotations cursor)))
      (namespaceIdMismatches env doc contractDef (structAnnotations cursor) ++ onCount)
      (map annotationLine (structAnnotations cursor))
    /\ Forall (hasCodeIn [DUPLICATE_NAMESPACE_ID; MULTIPLE_NAMESPACES]) onCount
    /\ ~ (In DUPLICATE_NAMESPACE_ID (codes onCount) /\ In MULTIPLE_NAMESPACES (codes onCount)).
Proof.
  intro Hname. exists (countReport doc (structAnnotations cursor)).
  split; [exact (validateNamespaceStructAnnotation_writes env cursor doc _ Hname)|].
  unfold countReport. destruct (Nat.ltb 1 (List.length (structAnnotations cursor))).
  2:{ split; [constructor | intros [[] _]]. }
  destruct (duplicateNamespaceIds (structAnnotations cursor)) as [|d r].
  - split.
    + apply Forall_forall. intros x Hx. apply in_map_iff in Hx. destruct Hx as [f [<- _]].
      right. left. reflexivity.
    + intros [H _]. apply codes_multipleNamespaces in H. discriminate.
  - split.
    + apply Forall_forall. intros x Hx. apply in_map_iff in Hx. destruct Hx as [f [<- _]].
      left. reflexivity.
    + intros [_ H]. apply codes_duplicateNamespace in H. discriminate.
Qed.

Lemma struct_annotations_collected_witness :
  let env := Sample.twinsEnv "example.Vault" in
  let doc := Sample.twinsDocument "example.Vault" in
  let cursor := Sample.twinsCursor "example.Vault" in
  contractName (node cursor) = Val "Vault"
  /\ map namespaceId (structAnnotations cursor) = ["example.Vault"; "example.Vault"]
  /\ exists onCount,
       writes (validateNamespaceStructAnnotation env cursor doc (node cursor))
         (Val (singleNamespace (structAnnotations cursor)))
         (namespaceIdMismatches env doc (node cursor) (structAnnotations cursor) ++ onCount)
         (map annotationLine (structAnnotations cursor))
       /\ Forall (hasCodeIn [DUPLICATE_NAMESPACE_ID; MULTIPLE_NAMESPACES]) onCount
       /\ ~ (In DUPLICATE_NAMESPACE_ID (codes onCount)
             /\ In MULTIPLE_NAMESPACES (codes onCount)).
Proof.
  cbv zeta.
  assert (HA : contractName (node (Sample.twinsCursor "example.Vault")) = Val "Vault")
    by (vm_compute; reflexivity).
  split; [exact HA|]. split; [vm_compute; reflexivity|].
  exact (@struct_annotations_collected (Sample.twinsEnv "example.Vault")
           (Sample.twinsCursor "example.Vault") (Sample.twinsDocument "example.Vault")
           (node (Sample.twinsCursor "example.Vault")) "Vault" HA).
Defined.

(** X9: When the structs of a contract carry two or more namespace annotations
    with pairwise distinct ids, the annotation validator reports, after the
    mismatches, one MultipleNamespaces warning for every annotation, the first
    included, each at its comment, and returns nothing. *)
Theorem distinct_namespaces_all_reported (env : Collaborators) (cursor : Cursor)
    (doc : TextDocument) (contractDef : Node) (contractNameText : string) :
  contractName contractDef = Val contractNameText ->
  1 < List.length (structAnnotations cursor) ->
  NoDup (map namespaceId (structAnnotations cursor)) ->
  writes (validateNamespaceStructAnnotation env cursor doc contractDef)
    (Val None)
    (namespaceIdMismatches env doc contractDef (structAnnotations cursor)
     ++ map (multipleNamespaces doc) (structAnnotations cursor))
    (map annotationLine (structAnnotations cursor)).
Proof.
  intros Hname Hmany Hnodup.
  pose proof (validateNamespaceStructAnnotation_writes env cursor doc _ Hname) as Hw.
  unfold countReport in Hw.
  rewrite duplicateNamespaceIds_later in Hw.
  rewrite (@laterOccurrences_distinct [] (structAnnotations cursor)) in Hw;
    [|intros x _ [] | exact Hnodup].
  apply Nat.ltb_lt in Hmany. rewrite Hmany in Hw.
  destruct (structAnnotations cursor) as [|a [|b r]];
    [discriminate Hmany | discriminate Hmany | exact Hw].
Qed.

Lemma distinct_namespaces_all_reported_witness :
  let env := Cases.siblingsEnv "example.Vault" "example.Other" in
  let doc := Cases.siblingsDocument "example.Vault" "example.Other" in
  let cursor := Cases.siblingsCursor "example.Vault" "example.Other" in
  contractName (node cursor) = Val "Vault"
  /\ 1 < List.length (structAnnotations cursor)
  /\ NoDup (map namespaceId (structAnnotations cursor))
  /\ codes (namespaceIdMismatches env doc (node cursor) (structAnnotations cursor)
            ++ map (multipleNamespaces doc) (structAnnotations cursor))
     = [NAMESPACE_ID_MISMATCH; MULTIPLE_NAMESPACES; MULTIPLE_NAMESPACES]
  /\ writes (validateNamespaceStructAnnotation env cursor doc (node cursor))
       (Val None)
       (namespaceIdMismatches env doc (node cursor) (structAnnotations cursor)
        ++ map (multipleNamespaces doc) (structAnnotations cursor))
       (map annotationLine (structAnnotations cursor)).
Proof.
  cbv zeta.
  match goal with
  | |- ?A /\ ?B /\ ?C /\ _ =>
      assert (HA : A) by (vm_compute; reflexivity);
      assert (HB : B) by (vm_compute; lia);
      assert (HC : C)
  end.
  { vm_compute. constructor; [intros [H|[]]; discriminate|].
    constructor; [intros []|]. constructor. }
  repeat (split; [assumption|]). split; [vm_compute; reflexivity|].
  exact (@distinct_namespaces_all_reported
           (Cases.siblingsEnv "example.Vault" "example.Other")
           (Cases.siblingsCursor "example.Vault" "example.Other")
           (Cases.siblingsDocument "example.Vault" "example.Other")
           (node (Cases.siblingsCursor "example.Vault" "example.Other")) "Vault" HA HB HC).
Defined.

(** X10: When the structs of a contract carry at most one namespace annotation,
    the annotation validator reports nothing on their number: its only
    diagnostic is the NamespaceIdMismatch of an annotation whose id is not the
    expected one, and it returns the annotation, if there is one. *)
Theorem single_namespace_returned (env : Collaborators) (cursor : Cursor)
    (doc : TextDocument) (contractDef : Node) (contractNameText : string) :
  contractName contractDef = Val contractNameText ->
  List.length (structAnnotations cursor) <= 1 ->
  writes (validateNamespaceStructAnnotation env cursor doc contractDef)
    (Val (hd_error (structAnnotations cursor)))
    (namespaceIdMismatches env doc contractDef (structAnnotations cursor))
    (map annotationLine (structAnnotations cursor)).
Proof.
  intros Hname Hfew.
  pose proof (validateNamespaceStructAnnotation_writes env cursor doc _ Hname) as Hw.
  unfold countReport in Hw.
  destruct (structAnnotations cursor) as [|a [|b r]]; cbn [List.length] in *; [| |lia].
  - cbn in Hw. rewrite app_nil_r in Hw. exact Hw.
  - cbn [Nat.ltb Nat.leb singleNamespace] in Hw. rewrite app_nil_r in Hw. exact Hw.
Qed.

Lemma single_namespace_returned_witness :
  let env := Sample.vaultEnv Sample.commentedTotal in
  let doc := Sample.vaultDocument Sample.commentedTotal in
  let cursor := Sample.vaultCursor Sample.commentedTotal in
  contractName (node cursor) = Val "Vault"
  /\ List.length (structAnnotations cursor) <= 1
  /\ map namespaceId (structAnnotations cursor) = ["example.Vault"]
  /\ namespaceIdMismatches env doc (node cursor) (structAnnotations cursor) = []
  /\ writes (validateNamespaceStructAnnotation env cursor doc (node cursor))
       (Val (hd_error (structAnnotations cursor)))
       (namespaceIdMismatches env doc (node cursor) (structAnnotations cursor))
       (map annotationLine (structAnnotations cursor)).
Proof.
  cbv zeta.
  match goal with
  | |- ?A /\ ?B /\ _ =>
      assert (HA : A) by (vm_compute; reflexivity);
      assert (HB : B) by (vm_compute; lia)
  end.
  repeat (split; [assumption|]).
  split; [vm_compute; reflexivity|]. split; [vm_compute; reflexivity|].
  exact (@single_namespace_returned (Sample.vaultEnv Sample.commentedTotal)
           (Sample.vaultCursor Sample.commentedTotal)
           (Sample.vaultDocument Sample.commentedTotal)
           (node (Sample.vaultCursor Sample.commentedTotal)) "Vault" HA HB).
Defined.

(** ** The ids the annotation validator collects *)

Lemma scan_found {A : Type} (f : string -> option A) (s : string) (r : A) :
  Regex.scan f s = Some r -> exists pre suffix, s = (pre ++ suffix)%string /\ f suffix = Some r.
Proof.
  induction s as [|a s IH]; cbn [Regex.scan].
  - destruct (f EmptyString) eqn:Hf; [|discriminate]. intros [= <-].
    exists EmptyString, EmptyString. auto.
  - destruct (f (String a s)) eqn:Hf.
    + intros [= <-]. exists EmptyString, (String a s). auto.
    + intro H. destruct (IH H) as [pre [suffix [-> Hs]]].
      exists (String a pre), suffix. auto.
Qed.

Lemma stripPrefix_Some (p s r : string) :
  Js.stripPrefix p s = Some r -> s = (p ++ r)%string.
Proof.
  revert s. induction p as [|a p IH]; intros s; cbn [Js.stripPrefix].
  - intros [= <-]. reflexivity.
  - destruct s as [|b s]; [discriminate|]. destruct (Ascii.eqb a b) eqn:Hab; [|discriminate].
    apply Ascii.eqb_eq in Hab. subst b. intro H. rewrite (IH _ H). reflexivity.
Qed.

Lemma spanNonWs_split (s : string) :
  s = (fst (Js.spanNonWs s) ++ snd (Js.spanNonWs s))%string
  /\ allChars (fun c => negb (Js.isWhitespace c)) (fst (Js.spanNonWs s)) = true.
Proof.
  induction s as [|c s [IH1 IH2]]; [split; reflexivity|]. cbn [Js.spanNonWs].
  destruct (Js.isWhitespace c) eqn:Hc; [split; reflexivity|].
  destruct (Js.spanNonWs s) as [a b]. cbn [fst snd] in *. split.
  - cbn [append]. rewrite <- IH1. reflexivity.
  - cbn [allChars]. rewrite Hc, IH2. reflexivity.
Qed.

Lemma captureBeforeLookahead_split (s p : string) :
  Regex.captureBeforeLookahead s = Some p ->
  (exists rest, s = (p ++ rest)%string)
  /\ allChars (fun c => negb (Js.isWhitespace c)) p = true.
Proof.
  revert p. induction s as [|c s IH]; intro p; cbn [Regex.captureBeforeLookahead];
    [discriminate|].
  destruct (Js.isWhitespace c) eqn:Hc.
  - intros [= <-]. split; [exists (String c s) |]; reflexivity.
  - destruct (Regex.captureBeforeLookahead s) as [q|].
    + intros [= <-]. destruct (IH q eq_refl) as [[rest ->] Hq]. split.
      * exists rest. reflexivity.
      * cbn [allChars]. rewrite Hc, Hq. reflexivity.
    + destruct (Js.startsWith "*/" (String c s)); [|discriminate].
      intros [= <-]. split; [exists (String c s) |]; reflexivity.
Qed.

Lemma annotation_at_word (multiLine : bool) (s id : string) :
  (if multiLine then Regex.multiLineAnnotation_at else Regex.singleLineAnnotation_at) s
  = Some id ->
  isWord id = true
  /\ exists rest, s = (Regex.annotationTag ++ id ++ rest)%string.
Proof.
  destruct multiLine.
  - unfold Regex.multiLineAnnotation_at.
    destruct (Js.stripPrefix Regex.annotationTag s) as [rest|] eqn:Hstrip; [|discriminate].
    apply stripPrefix_Some in Hstrip.
    destruct (Regex.captureBeforeLookahead rest) as [p|] eqn:Hcap; [|discriminate].
    destruct (captureBeforeLookahead_split _ Hcap) as [[rest' Hrest] Hword].
    destruct p as [|c p]; [discriminate|]. intros [= <-]. split.
    + unfold isWord. rewrite Hword. reflexivity.
    + exists rest'. rewrite Hstrip, Hrest. reflexivity.
  - unfold Regex.singleLineAnnotation_at.
    destruct (Js.stripPrefix Regex.annotationTag s) as [rest|] eqn:Hstrip; [|discriminate].
    apply stripPrefix_Some in Hstrip.
    destruct (spanNonWs_split rest) as [Hrest Hword].
    destruct (fst (Js.spanNonWs rest)) as [|c p]; [discriminate|]. intros [= <-]. split.
    + unfold isWord. rewrite Hword. reflexivity.
    + exists (snd (Js.spanNonWs rest)). rewrite Hstrip, Hrest at 1. reflexivity.
Qed.

(** X11: Every annotation the annotation validator collects was read off the
    NatSpec comment before a struct definition inside the contract: the
    comment holds [@custom:storage-location erc7201:] followed by the id, the
    id is a word, not empty and without white space, and the range kept with
    the id is the range of the comment. *)
Theorem collected_ids_are_words (cursor : Cursor) :
  Forall
    (fun found =>
       isWord (namespaceId found) = true
       /\ exists cur natSpec before after,
            In cur (definitionsIn NonterminalKind.StructDefinition cursor)
            /\ getNatSpec cur = Val (Some natSpec)
            /\ text natSpec
               = (before ++ "@custom:storage-location erc7201:" ++ namespaceId found
                  ++ after)%string
            /\ textRange_ found = trivia_textRange natSpec)
    (structAnnotations cursor).
Proof.
  apply Forall_forall. intros found Hfound. unfold structAnnotations in Hfound.
  apply in_flat_map in Hfound. destruct Hfound as [cur [Hcur Hfound]].
  unfold structAnnotation in Hfound.
  destruct (getNatSpec cur) as [[natSpec|]|] eqn:Hnat; try destruct Hfound.
  destruct (annotationPattern natSpec (text natSpec)) as [id|] eqn:Hid; [|destruct Hfound].
  destruct Hfound as [<-|[]]. cbn [namespaceId textRange_].
  assert (Hat : exists multiLine suffix before,
            text natSpec = (before ++ suffix)%string
            /\ (if multiLine : bool then Regex.multiLineAnnotation_at
                else Regex.singleLineAnnotation_at) suffix = Some id).
  { unfold annotationPattern in Hid.
    destruct (TerminalKind.eqb (kind natSpec) TerminalKind.SingleLineNatSpecComment).
    - destruct (scan_found _ _ Hid) as [pre [suffix [Htext Hs]]].
      exists false, suffix, pre. auto.
    - destruct (scan_found _ _ Hid) as [pre [suffix [Htext Hs]]].
      exists true, suffix, pre. auto. }
  destruct Hat as [multiLine [suffix [before [Htext Hat]]]].
  destruct (annotation_at_word multiLine _ Hat) as [Hword [rest Hsuffix]].
  split; [exact Hword|]. exists cur, natSpec, before, rest.
  split; [exact Hcur|]. split; [exact Hnat|]. split; [|reflexivity].
  rewrite Htext, Hsuffix. reflexivity.
Qed.

(** ** The hash validator at an initializer *)

(** X12: For a state variable named as a storage location whose initializer
    expression is found, a round of the hash validator returns with the cursor
    on that expression, having reported the warning of the comment, if any,
    and then at most one warning at the expression:
    - under a formula comment, for whatever id, NamespaceHashMismatch when the
      expression does not hold the hash of the comment's id, and never
      NamespaceStandaloneHashMismatch;
    - with no formula comment, NamespaceStandaloneHashMismatch when the
      expression does not hold the hash of the expected id. *)
Theorem hash_checked_against_comment (env : Collaborators) (expected : string)
    (doc : TextDocument) (c : Cursor) (literal : string) :
  storageLocationConstant c literal ->
  exists trimmed,
    getTrimmedRange (initializerCursor c) = Val trimmed
    /\ writes (checkCommentAndHash env expected doc c tt) (Val (initializerCursor c, tt))
         (formulaCommentWarnings expected doc (precedingComment c)
          ++ match commentFormulaId c with
             | Some id =>
                 if Js.includes literal (calculateERC7201StorageLocation env id) then []
                 else [hashMismatch doc trimmed (calculateERC7201StorageLocation env id)]
             | None =>
                 if Js.includes literal (calculateERC7201StorageLocation env expected)
                 then []
                 else [standaloneHashMismatch doc trimmed expected
                         (calculateERC7201StorageLocation env expected)]
             end)
         [].
Proof.
  intros [sv [Hsv [Hname [Hnt Hlit]]]].
  destruct (getTrimmedRange_defined _ Hnt) as [trimmed Htrim].
  exists trimmed. split; [assumption|].
  pose proof (hasNonterminalKind_nonterminal _ _
                (stateVariableDefinition_nonterminal _ Hsv)) as Hnode.
  intro st. unfold checkCommentAndHash.
  unfold bind at 1. unfold liftR at 1. rewrite precedingComment_defined.
  unfold commentFormulaId, formulaCommentWarnings, checkFormulaComment.
  unfold isNonterminalNode in Hnt.
  destruct (precedingComment c) as [comment|];
    [destruct (Regex.matchFormula (text comment)) as [id|];
       [destruct (String.eqb id expected) eqn:Hid|]|];
    cbn [negb];
    unfold bind, assertM, liftR, assertR, ret, addDiagnostic; cbn [fst snd];
    rewrite Hnode, Hsv, Hname; fold (initializerCursor c);
    unfold checkStorageLocationConstant;
    destruct (node (initializerCursor c)) as [|k cs] eqn:Hexpr; try discriminate;
    rewrite Hlit; unfold differsFrom;
    try (apply String.eqb_eq in Hid; subst id; rewrite String.eqb_refl);
    cbn [negb andb];
    unfold bind, liftR, ret, addDiagnostic; rewrite ?Htrim;
    repeat match goal with
           | |- context [Js.includes literal ?h] => destruct (Js.includes literal h)
           end;
    cbn [negb andb]; unfold extend, hashMismatch, standaloneHashMismatch;
    cbn [diagnostics console app];
    rewrite ?app_nil_r, <- ?app_assoc; destruct st; reflexivity.
Qed.

Lemma hash_checked_against_comment_witness :
  let env := Sample.vaultEnv Cases.bareLocation in
  let doc := Sample.vaultDocument Cases.bareLocation in
  let c := Sample.firstInside NonterminalKind.StateVariableDefinition
             (Sample.vaultCursor Cases.bareLocation) in
  storageLocationConstant c " 0x00"
  /\ commentFormulaId c = None
  /\ Js.includes " 0x00" (calculateERC7201StorageLocation env "example.Vault") = false
  /\ codes (diagnosticsOf (checkCommentAndHash env "example.Vault" doc c tt))
     = [NAMESPACE_STANDALONE_HASH_MISMATCH].
Proof.
  cbv zeta.
  assert (HA : storageLocationConstant
                 (Sample.firstInside NonterminalKind.StateVariableDefinition
                    (Sample.vaultCursor Cases.bareLocation)) " 0x00")
    by (eexists; repeat split; vm_compute; reflexivity).
  split; [exact HA|]. split; [vm_compute; reflexivity|]. split; [vm_compute; reflexivity|].
  destruct (@hash_checked_against_comment (Sample.vaultEnv Cases.bareLocation)
              "example.Vault" (Sample.vaultDocument Cases.bareLocation) _ _ HA)
    as [trimmed [_ Hw]].
  destruct (writes_observed Hw) as [_ [Hds _]]. rewrite Hds. vm_compute. reflexivity.
Defined.

(** ** The quick fixes pass the checks they answer *)

Lemma scan_skip {A : Type} (f : string -> option A) (a : ascii) (s : string) :
  f (String a s) = None -> Regex.scan f (String a s) = Regex.scan f s.
Proof. intro H. cbn [Regex.scan]. rewrite H. reflexivity. Qed.

Lemma scan_here {A : Type} (f : string -> option A) (s : string) (r : A) :
  f s = Some r -> Regex.scan f s = Some r.
Proof. intro H. destruct s; cbn [Regex.scan]; rewrite H; reflexivity. Qed.

Lemma stripPrefix_app (p s : string) : Js.stripPrefix p (p ++ s) = Some s.
Proof.
  induction p as [|a p IH]; [reflexivity|]. cbn. rewrite Ascii.eqb_refl. exact IH.
Qed.

Lemma captureFormulaId_line (id tail : string) :
  onOneLine id = true ->
  Regex.captureFormulaId tail = Some EmptyString ->
  Regex.captureFormulaId (id ++ tail) = Some id.
Proof.
  intros Hline Htail. induction id as [|c id IH]; [exact Htail|].
  unfold onOneLine in *. cbn [allChars] in Hline. apply andb_true_iff in Hline.
  destruct Hline as [Hc Hrest]. cbn [append Regex.captureFormulaId].
  apply negb_true_iff in Hc. rewrite Hc, (IH Hrest). reflexivity.
Qed.

(** X13: The comment the quick fix of NamespaceIdMismatchHashComment writes for a
    namespace id that stays on one line is a formula comment for that id: the
    check of the comment reads the id back, reports nothing, and hands on the
    hash of the id. *)
Theorem formula_comment_round_trip (env : Collaborators) (doc : TextDocument)
    (expected : string) (comment : TriviaTextWithRange) :
  onOneLine expected = true ->
  text comment = formulaComment expected ->
  Regex.matchFormula (text comment) = Some expected
  /\ writes (checkFormulaComment env expected doc (Some comment))
       (Val (Some (calculateERC7201StorageLocation env expected), false)) [] [].
Proof.
  intros Hline Htext.
  assert (Hmatch : Regex.matchFormula (text comment) = Some expected).
  { rewrite Htext. unfold Regex.matchFormula, formulaComment.
    cbn [append]. rewrite !scan_skip by reflexivity.
    apply scan_here. unfold Regex.formula_at, Regex.formulaHead.
    match goal with
    | |- Regex.optBind (Js.stripPrefix ?p ?s) _ = _ =>
        change s with (p ++ (expected ++ Regex.dquote
                             ++ ")) - 1)) & ~bytes32(uint256(0xff))"))%string
    end.
    rewrite stripPrefix_app. cbn [Regex.optBind].
    apply captureFormulaId_line; [exact Hline | vm_compute; reflexivity]. }
  split; [exact Hmatch|].
  unfold checkFormulaComment. rewrite Hmatch, String.eqb_refl. cbn [negb].
  intro st. unfold bind, ret. rewrite extend_nil. reflexivity.
Qed.

Lemma formula_comment_round_trip_witness :
  let env := Sample.vaultEnv Sample.foreignLocation in
  let doc := Sample.vaultDocument Sample.foreignLocation in
  let comment := {| text := formulaComment "example.Vault";
                    trivia_textRange := {| range_start := 0; range_end := 96 |};
                    kind := TerminalKind.SingleLineComment |} in
  onOneLine "example.Vault" = true
  /\ text comment = formulaComment "example.Vault"
  /\ Regex.matchFormula (text comment) = Some "example.Vault"
  /\ writes (checkFormulaComment env "example.Vault" doc (Some comment))
       (Val (Some (calculateERC7201StorageLocation env "example.Vault"), false)) [] [].
Proof.
  cbv zeta. split; [reflexivity|]. split; [reflexivity|].
  exact (@formula_comment_round_trip (Sample.vaultEnv Sample.foreignLocation)
           (Sample.vaultDocument Sample.foreignLocation) "example.Vault"
           {| text := formulaComment "example.Vault";
              trivia_textRange := {| range_start := 0; range_end := 96 |};
              kind := TerminalKind.SingleLineComment |} eq_refl eq_refl).
Defined.

Lemma spanNonWs_word (s : string) :
  allChars (fun c => negb (Js.isWhitespace c)) s = true ->
  Js.spanNonWs s = (s, EmptyString).
Proof.
  induction s as [|c s IH]; [reflexivity|]. cbn [allChars Js.spanNonWs].
  intro H. apply andb_true_iff in H. destruct H as [Hc Hs].
  apply negb_true_iff in Hc. rewrite Hc, (IH Hs). reflexivity.
Qed.

(** X14: The NatSpec line the quick fix of NamespaceIdMismatch writes for an
    expected id that is one word is an annotation for that id: the pattern
    for single-line NatSpec comments reads the id back from it. *)
Theorem annotation_round_trip (doc : TextDocument) (namespacePrefix contractNameText
    expected : string) (found : NamespaceIdAndRange) :
  isWord expected = true ->
  diag_data (namespaceIdMismatch doc namespacePrefix contractNameText expected found)
  = Replacement (annotationComment expected)
  /\ Regex.matchSingleLineAnnotation (annotationComment expected) = Some expected.
Proof.
  intro Hword. split; [reflexivity|].
  unfold isWord in Hword. apply andb_true_iff in Hword. destruct Hword as [Hne Hws].
  unfold Regex.matchSingleLineAnnotation, annotationComment.
  cbn [append]. rewrite !scan_skip by reflexivity.
  apply scan_here. unfold Regex.singleLineAnnotation_at, Regex.annotationTag.
  match goal with
  | |- match Js.stripPrefix ?p ?s with _ => _ end = _ =>
      change s with (p ++ expected)%string
  end.
  rewrite stripPrefix_app, (spanNonWs_word _ Hws). cbn [fst].
  destruct expected; [discriminate | reflexivity].
Qed.

Lemma annotation_round_trip_witness :
  let doc := Sample.vaultDocument Sample.commentedTotal in
  let found := {| namespaceId := "example.Wrong";
                  textRange_ := {| range_start := 0; range_end := 50 |} |} in
  isWord "example.Vault" = true
  /\ diag_data (namespaceIdMismatch doc "example" "Vault" "example.Vault" found)
     = Replacement (annotationComment "example.Vault")
  /\ Regex.matchSingleLineAnnotation (annotationComment "example.Vault")
     = Some "example.Vault".
Proof.
  cbv zeta. split; [reflexivity|].
  exact (@annotation_round_trip (Sample.vaultDocument Sample.commentedTotal)
           "example" "Vault" "example.Vault"
           {| namespaceId := "example.Wrong";
              textRange_ := {| range_start := 0; range_end := 50 |} |} eq_refl).
Defined.

(** ** Every diagnostic is of a known sort *)

Ltac catalogued :=
  unfold catalogued, catalogue; cbn [diag_code diag_severity diag_data dataShape In];
  repeat (first [left; reflexivity | right]).

Ltac emits_catalogued_step :=
  match goal with
  | |- Emits _ (bind _ _) => apply Emits_bind; [| intro]
  | |- Emits _ (ret _) => apply Emits_ret
  | |- Emits _ (liftR _) => apply Emits_liftR
  | |- Emits _ (assertM _) => apply Emits_liftR
  | |- Emits _ (console_log _) => apply Emits_log
  | |- Emits _ (addDiagnostic _ _ _ _ _ _ _) =>
      apply Emits_addDiagnostic; solve [catalogued]
  | |- Emits _ (foldM _ _ _) => apply Emits_foldM; intros
  | |- Emits _ (whileNext _ _ _ _ _) => apply Emits_whileNext; intros
  | |- Emits _ (match ?x with _ => _ end) => destruct x
  end.

(** Whatever the contract, a round of the engine only appends to the
    diagnostics, and what it appends is in the catalogue. *)
Lemma Emits_validateContract (env : Collaborators) (language : Version)
    (doc : TextDocument) (c : Cursor) (u : unit) :
  Emits catalogued (validateContract env language doc c u).
Proof.
  unfold validateContract, validateNamespace, validateNamespaceStructAnnotation,
    collectNamespaceIds, checkStructAnnotation, reportNamespaceCount, reportDuplicate,
    reportMultiple, validateNamespaceCommentAndHash, checkCommentAndHash,
    checkFormulaComment, checkStorageLocationConstant, validateNamespaceableVariables,
    classifyVariable, validateNamespaceableContract.
  repeat emits_catalogued_step; try apply Emits_scanAttribute;
    repeat emits_catalogued_step.
Qed.

(** X15: Whatever the document, a run of the engine only appends to the
    diagnostics, what it appends does not depend on what was there, and every
    diagnostic it appends carries one of the nine codes of the engine, with
    the severity and the sort of quick-fix payload that go with the code. *)
Theorem diagnostics_catalogued (env : Collaborators) (parseOutput : ParseOutput)
    (language : Version) (doc : TextDocument) :
  Emits catalogued (validateNamespaces env parseOutput language doc).
Proof.
  unfold validateNamespaces. apply Emits_whileNext. intros c u.
  apply Emits_validateContract.
Qed.

(** ** The upgradeability classifier, in full *)

(** [arr.some(f)] returns whether an element passes, when the test of every
    element it reaches returns. *)
Lemma some_hit {A : Type} (f : A -> Result bool) (P : A -> Prop) (l : list A) (r : bool) :
  Ast.some f l = Val r ->
  (forall x b, In x l -> f x = Val b -> (b = true <-> P x)) ->
  (r = true <-> exists x, In x l /\ P x).
Proof.
  revert r. induction l as [|a l IH]; intros r Hsome Htest.
  - injection Hsome as <-. split; [discriminate | intros [x [[] _]]].
  - cbn [Ast.some] in Hsome. destruct (f a) as [b|] eqn:Ha; [|discriminate].
    cbn [bindR] in Hsome. pose proof (Htest a b (or_introl eq_refl) Ha) as Hb.
    destruct b.
    + injection Hsome as <-. split; [|reflexivity]. intros _. exists a.
      split; [left; reflexivity | apply Hb; reflexivity].
    + rewrite (IH r Hsome (fun x b Hx => Htest x b (or_intror Hx))). split.
      * intros [x [Hx HP]]. exists x. split; [right; exact Hx | exact HP].
      * intros [x [[<-|Hx] HP]]; [apply Hb in HP; discriminate|].
        exists x. split; assumption.
Qed.

Lemma inheritsFrom_spec (base : string) (contractDef : Node) (r : option bool) :
  inheritsFrom base contractDef = Val r ->
  (truthy r = true <-> inheritanceNames base contractDef).
Proof.
  unfold inheritsFrom, inheritanceNames.
  destruct (Ast.field EdgeLabel.Inheritance contractDef) as [inheritance|] eqn:Hfield.
  2:{ intros [= <-]. split; [discriminate | intros [? [? [? [? [? [H _]]]]]]; discriminate]. }
  destruct (Ast.required EdgeLabel.Types inheritance) as [types|] eqn:Htypes; [|discriminate].
  cbn [bindR].
  destruct (Ast.some _ (Ast.items types)) as [b|] eqn:Hsome; [|discriminate].
  cbn [bindR]. intros [= <-]. cbn [truthy].
  rewrite (@some_hit _ _
             (fun type => exists typeName item,
                Ast.required EdgeLabel.TypeName type = Val typeName
                /\ In item (Ast.items typeName) /\ Ast.text item = Val base)
             _ _ Hsome).
  - split.
    + intros [type [Htype [typeName [item [H1 [H2 H3]]]]]].
      exists inheritance, types, type, typeName, item.
      repeat (split; [first [reflexivity | assumption]|]); assumption.
    + intros [inh [ty [type [typeName [item [H0 [H1 [H2 [H3 [H4 H5]]]]]]]]]].
      injection H0 as <-. rewrite Htypes in H1. injection H1 as <-.
      exists type. split; [exact H2|]. exists typeName, item. auto.
  - intros type b' _ Htype.
    destruct (Ast.required EdgeLabel.TypeName type) as [typeName|]; [|discriminate].
    cbn [bindR] in Htype.
    rewrite (@some_hit _ _ (fun item => Ast.text item = Val base) _ _ Htype).
    + split.
      * intros [item [Hitem Htext]]. exists typeName, item. auto.
      * intros [tn [item [[= <-] [Hitem Htext]]]]. exists item. auto.
    + intros item b'' _ Hitem. destruct (Ast.text item) as [t|]; [|discriminate].
      cbn [bindR] in Hitem. injection Hitem as <-. rewrite String.eqb_eq.
      split; [intros ->; reflexivity | intros [= ->]; reflexivity].
Qed.

Lemma arrayIncludes_In (arr : list string) (x : string) :
  Js.arrayIncludes arr x = true <-> In x arr.
Proof.
  unfold Js.arrayIncludes. rewrite existsb_exists. split.
  - intros [y [Hy Heq]]. apply String.eqb_eq in Heq. subst y. exact Hy.
  - intro Hx. exists x. split; [exact Hx | apply String.eqb_refl].
Qed.

(** X16: For a contract whose inheritance list and function definitions can be
    read, the upgradeability classifier returns normally, and it returns true
    exactly when one of its tests passes: some identifier in the path of a
    type of the inheritance list reads exactly [Initializable] or
    [UUPSUpgradeable], whether it is the last of the path or not; the contract
    holds a function definition named [_authorizeUpgrade] with exactly one
    parameter whose type node unparses, trivia included, to exactly
    [address]; the NatSpec comment of the contract, split at white space,
    holds the piece [@custom:oz-upgrades] or [@custom:oz-upgrades-from]. *)
Theorem inferUpgradeable_heuristics (cursor : Cursor) (contractDef : Node) :
  inheritanceReadable contractDef ->
  functionsReadable cursor ->
  exists b,
    inferUpgradeable cursor contractDef = Val b
    /\ (b = true <->
        inheritanceNames "Initializable" contractDef
        \/ inheritanceNames "UUPSUpgradeable" contractDef
        \/ (exists f, In f (definitionsIn NonterminalKind.FunctionDefinition cursor)
                      /\ rawAddressSignature (node f))
        \/ natSpecTag cursor "@custom:oz-upgrades"
        \/ natSpecTag cursor "@custom:oz-upgrades-from").
Proof.
  intros [hi [hu [Hi Hu]]] Hread.
  pose proof (inheritsFrom_spec _ _ Hi) as Hispec.
  pose proof (inheritsFrom_spec _ _ Hu) as Huspec.
  unfold inferUpgradeable. rewrite Hi, Hu. cbn [bindR].
  destruct (truthy hi) eqn:Hhi.
  { exists true. split; [reflexivity|]. split; [|reflexivity].
    intros _. left. apply Hispec. reflexivity. }
  destruct (truthy hu) eqn:Hhu.
  { exists true. split; [reflexivity|]. split; [|reflexivity].
    intros _. right. left. apply Huspec. reflexivity. }
  cbn [orb].
  destruct (@inferUpgradeable_functions_spec (walkLength (spawn cursor))
              (spawn cursor) eq_refl (nextMatches_length _ _) Hread)
    as [b [Hb Hiff]].
  rewrite Hb. cbn [bindR].
  assert (Hsig : b = true <->
            exists f, In f (definitionsIn NonterminalKind.FunctionDefinition cursor)
                      /\ rawAddressSignature (node f)).
  { rewrite Hiff. split; intros [f [Hf Hs]]; exists f; (split; [assumption|]);
      apply (@isAuthorizeUpgrade_signature (node f) (nextMatches_node _ _ _ Hf)); assumption. }
  destruct b.
  { exists true. split; [reflexivity|]. split; [|reflexivity].
    intros _. right. right. left. apply Hsig. reflexivity. }
  destruct (@getLastPrecedingTriviaWithKinds_defined cursor
              [TerminalKind.MultiLineNatSpecComment; TerminalKind.SingleLineNatSpecComment]
              eq_refl) as [o [Ho _]].
  fold (getNatSpec cursor) in Ho. rewrite Ho. cbn [bindR].
  assert (Htag : hasUpgradesAnnotation o = true <->
            natSpecTag cursor "@custom:oz-upgrades"
            \/ natSpecTag cursor "@custom:oz-upgrades-from").
  { unfold hasUpgradesAnnotation, natSpecTag. rewrite Ho. destruct o as [n|].
    - rewrite orb_true_iff, !arrayIncludes_In. split.
      + intros [H|H]; [left | right]; exists n; auto.
      + intros [[n' [[= <-] H]]|[n' [[= <-] H]]]; [left | right]; exact H.
    - split; [discriminate | intros [[n' [H _]]|[n' [H _]]]; discriminate]. }
  destruct (hasUpgradesAnnotation o).
  - exists true. split; [reflexivity|]. split; [|reflexivity].
    intros _. right. right. right. apply Htag. reflexivity.
  - exists false. split; [reflexivity|]. split; [discriminate|].
    intros [H|[H|[H|H]]].
    + apply Hispec in H. discriminate.
    + apply Huspec in H. discriminate.
    + apply Hsig in H. discriminate.
    + apply Htag in H. discriminate.
Qed.

Lemma inferUpgradeable_heuristics_witness :
  let cursor := Cases.documentedCursor "/// @custom:oz-upgrades-from Old" "Next" in
  inheritanceReadable (node cursor)
  /\ functionsReadable cursor
  /\ natSpecTag cursor "@custom:oz-upgrades-from"
  /\ exists b,
       inferUpgradeable cursor (node cursor) = Val b
       /\ (b = true <->
           inheritanceNames "Initializable" (node cursor)
           \/ inheritanceNames "UUPSUpgradeable" (node cursor)
           \/ (exists f, In f (definitionsIn NonterminalKind.FunctionDefinition cursor)
                         /\ rawAddressSignature (node f))
           \/ natSpecTag cursor "@custom:oz-upgrades"
           \/ natSpecTag cursor "@custom:oz-upgrades-from").
Proof.
  cbv zeta.
  assert (HA : inheritanceReadable
                 (node (Cases.documentedCursor "/// @custom:oz-upgrades-from Old" "Next")))
    by (exists None, None; split; vm_compute; reflexivity).
  assert (HB : functionsReadable
                 (Cases.documentedCursor "/// @custom:oz-upgrades-from Old" "Next"))
    by (intros f Hf; vm_compute in Hf; destruct Hf).
  split; [exact HA|]. split; [exact HB|]. split.
  - eexists. split; [vm_compute; reflexivity|]. vm_compute. right. left. reflexivity.
  - exact (@inferUpgradeable_heuristics _ _ HA HB).
Defined.

(** ** The engine, contract by contract *)

Lemma foldM_rounds_compose (body : Cursor -> unit -> M (Cursor * unit)) (curs : list Cursor) :
  (forall cur, In cur curs ->
     writes (body cur tt) (Val (cur, tt)) (diagnosticsOf (body cur tt)) (consoleOf (body cur tt))) ->
  writes (foldM (round body) curs tt) (Val tt)
    (flat_map (fun cur => diagnosticsOf (body cur tt)) curs)
    (flat_map (fun cur => consoleOf (body cur tt)) curs).
Proof.
  induction curs as [|cur rest IH]; intro Hall.
  - apply writes_ret.
  - cbn [foldM flat_map]. eapply writes_bind.
    + eapply writes_round. apply Hall. left. reflexivity.
    + apply IH. intros c Hc. apply Hall. right. exact Hc.
Qed.

(** X17: The engine treats the contracts of a document one by one, each
    independently of the others and of what was reported before: when the
    round of every contract definition returns, a run of the engine returns
    having appended, in document order, the diagnostics and the console lines
    that the round of each contract gives when run alone. *)
Theorem contracts_validated_independently (env : Collaborators)
    (parseOutput : ParseOutput) (language : Version) (doc : TextDocument) :
  (forall cur, In cur (contractCursors parseOutput) ->
     resultOf (validateContract env language doc cur tt) = Val (cur, tt)) ->
  writes (validateNamespaces env parseOutput language doc) (Val tt)
    (flat_map (fun cur => diagnosticsOf (validateContract env language doc cur tt))
       (contractCursors parseOutput))
    (flat_map (fun cur => consoleOf (validateContract env language doc cur tt))
       (contractCursors parseOutput)).
Proof.
  intro Hreturns. intro st. rewrite validateNamespaces_rounds.
  apply (@foldM_rounds_compose (validateContract env language doc)).
  intros cur Hcur.
  destruct (Emits_run (Emits_validateContract env language doc cur tt)) as [Hw _].
  rewrite (Hreturns cur Hcur) in Hw. exact Hw.
Qed.

Lemma contracts_validated_independently_witness :
  let env := Sample.brokenEnv in
  let parseOutput := {| isValid := true; tree := Sample.brokenThenPlain |} in
  let doc := Sample.document (unparse Sample.brokenThenPlain) in
  let language := Sample.v 0 8 23 in
  (forall cur, In cur (contractCursors parseOutput) ->
     resultOf (validateContract env language doc cur tt) = Val (cur, tt))
  /\ List.length (contractCursors parseOutput) = 2
  /\ writes (validateNamespaces env parseOutput language doc) (Val tt)
       (flat_map (fun cur => diagnosticsOf (validateContract env language doc cur tt))
          (contractCursors parseOutput))
       (flat_map (fun cur => consoleOf (validateContract env language doc cur tt))
          (contractCursors parseOutput)).
Proof.
  cbv zeta.
  match goal with
  | |- ?A /\ _ => assert (HA : A)
  end.
  { intros cur Hcur. vm_compute in Hcur.
    destruct Hcur as [<-|[<-|[]]]; vm_compute; reflexivity. }
  split; [exact HA|]. split; [vm_compute; reflexivity|].
  exact (@contracts_validated_independently Sample.brokenEnv
           {| isValid := true; tree := Sample.brokenThenPlain |} (Sample.v 0 8 23)
           (Sample.document (unparse Sample.brokenThenPlain)) HA).
Defined.

(** ** The version inference helper never invents a version *)

Lemma maximaOf_In (env : Collaborators) (es : list Node) (x : Version) :
  In x (maximaOf env es) ->
  exists e, In e es
            /\ semver.maxSatisfying env (supportedVersions env) (constraintText e) = Some x.
Proof.
  unfold maximaOf. rewrite in_flat_map. intros [e [He Hx]]. exists e. split; [exact He|].
  destruct (semver.maxSatisfying env (supportedVersions env) (constraintText e)) as [m|];
    [|destruct Hx].
  destruct Hx as [<-|[]]. reflexivity.
Qed.

(** X18: With a catalogue of supported versions that is not empty and a parse
    whose expression sets hold only version expression nodes, the version
    inference helper returns normally, and a version it returns is one of the
    supported versions and satisfies at least one version expression of the
    document. *)
Theorem pragma_version_is_supported (env : Collaborators) (doc : TextDocument)
    (newest : Version) :
  hd_error (rev (supportedVersions env)) = Some newest ->
  Forall (fun e => isNonterminalNode e = true) (versionExpressionNodes env newest doc) ->
  exists result ls,
    writes (getHighestSupportedPragmaVersion env doc) (Val result) [] ls
    /\ forall x, result = Some x ->
         In x (supportedVersions env)
         /\ exists e, In e (versionExpressionNodes env newest doc)
                      /\ range_test env (constraintText e) x = true.
Proof.
  intros Hnewest Hnodes.
  set (es := versionExpressionNodes env newest doc) in *.
  destruct (@collectVersionExpressionSets_writes env
              (queryVersionExpressionSets
                 (createTreeCursor
                    (tree (language_parse env newest NonterminalKind.SourceUnit
                             (getText doc))))) Hnodes []) as [ls Hw].
  cbn [app] in Hw. fold (versionExpressionNodes env newest doc) in Hw. fold es in Hw.
  exists (semver.maxSatisfying env (maximaOf env es) "*"), ls. split.
  - intro st. unfold getHighestSupportedPragmaVersion.
    destruct (rev (supportedVersions env)) as [|n r]; [discriminate|].
    injection Hnewest as ->. unfold bind. rewrite Hw. reflexivity.
  - intros x Hx. pose proof (maxSatisfying_spec env (maximaOf env es) "*") as Hmax.
    rewrite Hx in Hmax. destruct Hmax as [Hin _]. apply filter_In in Hin.
    destruct Hin as [Hin _]. apply maximaOf_In in Hin. destruct Hin as [e [He Hsat]].
    pose proof (maxSatisfying_spec env (supportedVersions env) (constraintText e)) as Hbest.
    rewrite Hsat in Hbest. destruct Hbest as [Hbest _]. apply filter_In in Hbest.
    destruct Hbest as [Hsup Htest]. split; [exact Hsup|]. exists e. split; assumption.
Qed.

Lemma pragma_version_is_supported_witness :
  let env := Sample.pragmaEnv in
  let doc := Sample.pragmaDocument in
  hd_error (rev (supportedVersions env)) = Some (Sample.v 0 8 23)
  /\ Forall (fun e => isNonterminalNode e = true)
       (versionExpressionNodes env (Sample.v 0 8 23) doc)
  /\ exists result ls,
       writes (getHighestSupportedPragmaVersion env doc) (Val result) [] ls
       /\ forall x, result = Some x ->
            In x (supportedVersions env)
            /\ exists e, In e (versionExpressionNodes env (Sample.v 0 8 23) doc)
                         /\ range_test env (constraintText e) x = true.
Proof.
  cbv zeta.
  match goal with
  | |- ?A /\ ?B /\ _ =>
      assert (HA : A) by (vm_compute; reflexivity);
      assert (HB : B) by (vm_compute; repeat constructor)
  end.
  repeat (split; [assumption|]).
  exact (@pragma_version_is_supported Sample.pragmaEnv Sample.pragmaDocument
           (Sample.v 0 8 23) HA HB).
Defined.

(** The inheritance test looks at every identifier of the path of an
    inherited type: [contract A is Initializable.Inner { }] is classified
    upgradeable, though its base is [Inner]. *)
Example inferUpgradeable_dotted_path :
  let c := Layouts.dottedBaseCursor in
  unparse (node c) = ("contract A is Initializable.Inner {" ++ Sample.newline
                      ++ "}" ++ Sample.newline)%string
  /\ inheritanceNames "Initializable" (node c)
  /\ inferUpgradeable c (node c) = Val true.
Proof.
  cbv zeta. split; [vm_compute; reflexivity|]. split; [|vm_compute; reflexivity].
  do 5 eexists. split; [vm_compute; reflexivity|]. split; [vm_compute; reflexivity|].
  split; [vm_compute; left; reflexivity|]. split; [vm_compute; reflexivity|].
  split; [vm_compute; left; reflexivity | reflexivity].
Qed.

(** ** The hint for a contract *)

(** X19: [validateNamespaceableContract] reports nothing for a contract record
    without variables.  For a record with variables it reports one hint, with
    the record as its payload, over a range that lies within the contract
    definition: it ends where the contract definition ends, and it starts at
    the first identifier inside the contract definition, its name, or where
    the contract definition starts when there is no identifier. *)
Theorem contract_hint_range (cursor : Cursor) (doc : TextDocument)
    (nc : NamespaceableContract) :
  exists identifierStart,
    writes (validateNamespaceableContract cursor doc nc) (Val tt)
      (match variables nc with
       | [] => []
       | _ :: _ =>
           [{| diag_range :=
                 slangToVSCodeRange doc
                   {| range_start := identifierStart;
                      range_end := range_end (textRange cursor) |};
               diag_message := "Contract can be namespaced.";
               diag_details := "If this contract is an upgradeable contract, consider moving its variables to namespaced storage.";
               diag_severity := DiagnosticSeverity.Hint;
               diag_code := CONTRACT_CAN_BE_NAMESPACED;
               diag_data := ContractData nc |}]
       end) []
    /\ range_start (textRange cursor) <= identifierStart <= range_end (textRange cursor)
    /\ (forall i, firstAt (hasTerminalKind TerminalKind.Identifier) cursor i ->
                  identifierStart = startAt cursor i)
    /\ (noneAt (hasTerminalKind TerminalKind.Identifier) cursor (fun _ => True) ->
        identifierStart = range_start (textRange cursor)).
Proof.
  exists (range_start
            (textRange (snd (goToNextTerminalWithKind TerminalKind.Identifier
                               (spawn cursor))))).
  split; [exact (writes_validateNamespaceableContract cursor doc nc)|].
  unfold goToNextTerminalWithKind.
  rewrite (@goToNextMatching_nextMatch (hasTerminalKind TerminalKind.Identifier)
             (spawn cursor) eq_refl).
  change (nodes (spawn cursor)) with (inside cursor).
  change (cur_index (spawn cursor)) with 0.
  pose proof (nextMatch_spec (hasTerminalKind TerminalKind.Identifier) (inside cursor) 0)
    as Hnext.
  assert (Hroot : startOffset (complete (spawn cursor)) = startOffset cursor).
  { unfold startOffset at 1.
    cbn [complete spawn cur_offset cur_index firstn sumOwnLength]. lia. }
  destruct (nextMatch (hasTerminalKind TerminalKind.Identifier) (inside cursor) 0) as [j|].
  - destruct Hnext as [Hpos [[n [Hn Hp]] Hbefore]]. cbn [snd].
    change (range_start (textRange (moveTo (spawn cursor) j))) with (startAt cursor j).
    split; [|split].
    + rewrite startAt_sum, textRange_end_sum.
      change (range_start (textRange cursor)) with (startOffset cursor).
      pose proof (sumOwnLength_firstn_all (inside cursor) j). lia.
    + intros i [[x [Hx Hpx]] Hnone].
      destruct (Nat.lt_trichotomy i j) as [Hij|[->|Hij]]; [|reflexivity|].
      * destruct i as [|i].
        -- rewrite inside_root in Hx. injection Hx as Hx.
           rewrite inside_preorder, Hx in Hn.
           destruct x as [k t|k cs]; [|discriminate].
           destruct j as [|[|j]]; [lia | discriminate..].
        -- rewrite (Hbefore (S i) x) in Hpx; [discriminate | lia | exact Hx].
      * rewrite (Hnone j n Hij Hn) in Hp. discriminate.
    + intro Hnone. rewrite (Hnone j n I Hn) in Hp. discriminate.
  - cbn [snd]. change (range_start (textRange (complete (spawn cursor))))
      with (startOffset (complete (spawn cursor))).
    rewrite Hroot. change (range_start (textRange cursor)) with (startOffset cursor).
    split; [|split].
    + rewrite textRange_end_sum. lia.
    + intros i [[x [Hx Hpx]] Hnone]. destruct i as [|i].
      * rewrite startAt_sum. cbn [firstn sumOwnLength]. lia.
      * rewrite (Hnext (S i) x) in Hpx; [discriminate | lia | exact Hx].
    + intros _. reflexivity.
Qed.

(** ** The hash validator, round by round *)

Lemma whileNext_visited {A : Type} (k : NonterminalKind.t)
    (body : Cursor -> A -> M (Cursor * A)) (next : Cursor -> Cursor) :
  (forall cur a st r st', body cur a st = (Val r, st') -> fst r = next cur) ->
  forall fuel c a st,
    whileNext fuel k body c a st = foldM (round body) (visited k next fuel c) a st.
Proof.
  intro Hnext. induction fuel as [|fuel IH]; intros c a st; [reflexivity|].
  cbn [whileNext visited].
  destruct (goToNextNonterminalWithKind k c) as [[|] c']; [|reflexivity].
  rewrite foldM_cons. unfold round at 1, bind.
  destruct (body c' a st) as [[r|] st'] eqn:Hbody; [|reflexivity].
  cbn [ret fst snd]. rewrite (Hnext _ _ _ _ _ Hbody). apply IH.
Qed.

Lemma checkCommentAndHash_leaves (env : Collaborators) (expected : string)
    (doc : TextDocument) (c : Cursor) (u : unit) (st : State) (r : Cursor * unit)
    (st' : State) :
  checkCommentAndHash env expected doc c u st = (Val r, st') -> fst r = afterHashRound c.
Proof.
  unfold checkCommentAndHash, afterHashRound, initializerCursor.
  unfold bind, assertM, liftR, assertR, ret.
  destruct (getLastPrecedingTriviaWithKinds c _) as [comment|]; [|discriminate].
  destruct (checkFormulaComment env expected doc comment st) as [[fromComment|] st1];
    [|discriminate].
  destruct (isNonterminalNode (node c)); [|discriminate].
  destruct (stateVariableDefinition (node c)) as [sv|]; [|discriminate].
  destruct (Regex.isStorageLocationName (sv_name sv)).
  - destruct (checkStorageLocationConstant _ _ _ _ _ _ _) as [[?|] st2]; [|discriminate].
    intros [= <- _]. reflexivity.
  - intros [= <- _]. reflexivity.
Qed.

(** The hash validator runs one round on every variable of its scan, in
    order, and stops at the first round that throws. *)
Lemma validateNamespaceCommentAndHash_rounds (env : Collaborators) (expected : string)
    (cursor : Cursor) (doc : TextDocument) (st : State) :
  validateNamespaceCommentAndHash env expected cursor doc st
  = foldM (round (checkCommentAndHash env expected doc)) (hashScan cursor) tt st.
Proof.
  unfold validateNamespaceCommentAndHash, hashScan. apply whileNext_visited.
  intros cur a st0 r st1. apply checkCommentAndHash_leaves.
Qed.

Lemma checkStorageLocationConstant_writes (env : Collaborators) (expected : string)
    (doc : TextDocument) (fromComment : option string) (flag : bool) (c : Cursor) :
  exists ds, writes (checkStorageLocationConstant env expected doc fromComment flag c)
               (Val tt) ds [].
Proof.
  unfold checkStorageLocationConstant.
  destruct (node c) as [k t|k cs] eqn:Hnode; [eexists; apply writes_ret|].
  assert (Hnt : isNonterminalNode (node c) = true) by (rewrite Hnode; reflexivity).
  destruct (getTrimmedRange_defined _ Hnt) as [trimmed Htrim]. rewrite Htrim.
  assert (Hreport : forall message details code data,
            writes (trimmed0 <- liftR (Val trimmed) ;;
                    addDiagnostic doc (slangToVSCodeRange doc trimmed0) message details
                      DiagnosticSeverity.Warning code data) (Val tt)
              [{| diag_range := slangToVSCodeRange doc trimmed; diag_message := message;
                  diag_details := details; diag_severity := DiagnosticSeverity.Warning;
                  diag_code := code; diag_data := data |}] []).
  { intros. change (@nil string) with (@nil string ++ []).
    rewrite <- (app_nil_l [_]). eapply writes_bind; [apply writes_liftR|].
    apply writes_addDiagnostic. }
  assert (Hfirst : exists ds1,
            writes (match fromComment with
                    | Some hashFromComment =>
                        if negb (Js.includes (unparse (NonterminalNode k cs)) hashFromComment)
                        then
                          trimmed0 <- liftR (Val trimmed) ;;
                          addDiagnostic doc (slangToVSCodeRange doc trimmed0)
                            "ERC7201 storage location hash does not match comment"
                            "Hash does not match formula in comment"
                            DiagnosticSeverity.Warning NAMESPACE_HASH_MISMATCH
                            (Replacement hashFromComment)
                        else ret tt
                    | None => ret tt
                    end) (Val tt) ds1 []).
  { destruct fromComment as [h|]; [|eexists; apply writes_ret].
    destruct (negb _); eexists; [apply Hreport | apply writes_ret]. }
  destruct Hfirst as [ds1 Hfirst].
  destruct (negb flag && _ && _).
  - eexists. change (@nil string) with (@nil string ++ []).
    eapply writes_bind; [exact Hfirst | apply Hreport].
  - eexists. change (@nil string) with (@nil string ++ []).
    eapply writes_bind; [exact Hfirst | apply writes_ret].
Qed.

(** A round of the hash validator on a state variable that can be read
    returns, leaving the cursor where [afterHashRound] says, and logs
    nothing. *)
Lemma checkCommentAndHash_writes (env : Collaborators) (expected : string)
    (doc : TextDocument) (c : Cursor) (sv : StateVariable) :
  stateVariableDefinition (node c) = Val sv ->
  writes (checkCommentAndHash env expected doc c tt) (Val (afterHashRound c, tt))
    (hashRoundWarnings env expected doc c) [].
Proof.
  intro Hsv.
  assert (H : exists ds, writes (checkCommentAndHash env expected doc c tt)
                           (Val (afterHashRound c, tt)) ds []).
  { pose proof (hasNonterminalKind_nonterminal _ _
                  (stateVariableDefinition_nonterminal _ Hsv)) as Hnode.
    destruct (writes_checkFormulaComment env expected doc (precedingComment c))
      as [fc Hfc].
    unfold afterHashRound. rewrite Hsv.
    destruct (Regex.isStorageLocationName (sv_name sv)) eqn:Hname.
    - destruct (checkStorageLocationConstant_writes env expected doc (fst fc) (snd fc)
                  (initializerCursor c)) as [ds2 Hconst].
      exists (formulaCommentWarnings expected doc (precedingComment c) ++ ds2).
      intro st. unfold checkCommentAndHash.
      unfold bind at 1. unfold liftR at 1. rewrite precedingComment_defined.
      unfold bind at 1. rewrite Hfc.
      unfold bind at 1. unfold assertM, liftR at 1, assertR. rewrite Hnode.
      unfold bind at 1. unfold liftR at 1. rewrite Hsv, Hname.
      fold (initializerCursor c). unfold bind. rewrite Hconst. unfold ret.
      rewrite extend_extend. reflexivity.
    - exists (formulaCommentWarnings expected doc (precedingComment c)).
      exact (@checkCommentAndHash_other_name env expected doc c sv Hsv Hname). }
  destruct H as [ds H]. unfold hashRoundWarnings.
  destruct (writes_observed H) as [_ [-> _]]. exact H.
Qed.

Lemma hashRounds_write (env : Collaborators) (expected : string) (doc : TextDocument)
    (curs : list Cursor) :
  (forall cur, In cur curs -> exists sv, stateVariableDefinition (node cur) = Val sv) ->
  writes (foldM (round (checkCommentAndHash env expected doc)) curs tt) (Val tt)
    (flat_map (hashRoundWarnings env expected doc) curs) [].
Proof.
  induction curs as [|cur rest IH]; intro Hall.
  - apply writes_ret.
  - cbn [foldM flat_map]. change (@nil string) with (@nil string ++ []).
    destruct (Hall cur (or_introl eq_refl)) as [sv Hsv].
    eapply writes_bind.
    + eapply writes_round. exact (checkCommentAndHash_writes env expected doc _ Hsv).
    + apply IH. intros c Hc. apply Hall. right. exact Hc.
Qed.

Lemma flat_map_nth_error {A B : Type} (f : A -> list B) (l : list A) (k : nat) (x : A) :
  nth_error l k = Some x ->
  flat_map f l = flat_map f (firstn k l) ++ f x ++ flat_map f (skipn (S k) l).
Proof.
  revert k. induction l as [|a r IH]; intros [|k] Hk; try discriminate.
  - injection Hk as ->. reflexivity.
  - cbn [flat_map firstn skipn]. rewrite (IH k Hk), <- app_assoc. reflexivity.
Qed.

Lemma afterHashRound_advances (c : Cursor) :
  cur_root (afterHashRound c) = cur_root c /\
  cur_offset (afterHashRound c) = cur_offset c /\
  (cur_completed (afterHashRound c) = true \/ cur_index c <= cur_index (afterHashRound c)).
Proof.
  assert (Hstay : cur_root c = cur_root c /\ cur_offset c = cur_offset c /\
                  (cur_completed c = true \/ cur_index c <= cur_index c))
    by (split; [reflexivity | split; [reflexivity | right; lia]]).
  unfold afterHashRound. destruct (stateVariableDefinition (node c)) as [sv|]; [|exact Hstay].
  destruct (Regex.isStorageLocationName (sv_name sv)); [|exact Hstay].
  unfold initializerCursor, goToNextNonterminalWithKind.
  set (c1 := snd (goToNextMatching
                    (hasNonterminalKind NonterminalKind.StateVariableDefinitionValue) c)).
  destruct (goToNextMatching_advances
              (hasNonterminalKind NonterminalKind.StateVariableDefinitionValue) c)
    as [Hr1 [Ho1 Hp1]].
  destruct (goToNextMatching_advances
              (hasNonterminalKind NonterminalKind.Expression) c1) as [Hr2 [Ho2 Hp2]].
  fold c1 in Hr1, Ho1, Hp1. split; [congruence|]. split; [congruence|].
  destruct Hp2 as [Hp2|Hp2]; [left; exact Hp2|].
  destruct Hp1 as [Hp1|Hp1]; [|right; lia].
  left. unfold goToNextMatching. rewrite Hp1. exact Hp1.
Qed.

(** The scan visits state variable definitions of the contract only. *)
Lemma visited_nextMatches (k : NonterminalKind.t) (next : Cursor -> Cursor) (c0 : Cursor) :
  cur_completed c0 = false ->
  (forall c, cur_root (next c) = cur_root c /\ cur_offset (next c) = cur_offset c /\
             (cur_completed (next c) = true \/ cur_index c <= cur_index (next c))) ->
  forall fuel c x,
    cur_root c = cur_root c0 -> cur_offset c = cur_offset c0 ->
    (cur_completed c = true \/ cur_index c0 <= cur_index c) ->
    In x (visited k next fuel c) -> In x (nextMatches (hasNonterminalKind k) c0).
Proof.
  intros Hc0 Hnext. induction fuel as [|fuel IH]; intros c x Hroot Hoff Hpos Hx; [destruct Hx|].
  cbn [visited] in Hx. unfold goToNextNonterminalWithKind in Hx.
  destruct (goToNextMatching (hasNonterminalKind k) c) as [[|] c'] eqn:Hgo; [|destruct Hx].
  destruct (goToNextMatching_found _ _ Hgo) as [Hc [j [n [-> [Hlt [Hnth Hp]]]]]].
  destruct Hpos as [Hpos|Hpos]; [congruence|].
  assert (Hsame : moveTo c j = moveTo c0 j).
  { unfold moveTo. rewrite Hroot, Hoff, Hc, Hc0. reflexivity. }
  destruct Hx as [<-|Hx].
  - rewrite Hsame. apply (@nextMatches_mem _ c0 j n); [lia | | exact Hp].
    unfold nodes in *. rewrite <- Hroot. exact Hnth.
  - destruct (Hnext (moveTo c j)) as [Hr1 [Hr2 Hr3]].
    cbn [moveTo cur_root cur_offset cur_index] in *.
    apply (IH (next (moveTo c j)) x); [congruence | congruence | | exact Hx].
    destruct Hr3 as [Hr3|Hr3]; [left; exact Hr3 | right; lia].
Qed.

Lemma hashScan_definitions (cursor c : Cursor) :
  In c (hashScan cursor) ->
  In c (definitionsIn NonterminalKind.StateVariableDefinition cursor).
Proof.
  unfold hashScan, definitionsIn.
  apply (@visited_nextMatches NonterminalKind.StateVariableDefinition afterHashRound
           (spawn cursor) eq_refl afterHashRound_advances);
    [reflexivity | reflexivity | right; lia].
Qed.

(** The round of the hash validator on a state variable named as a storage
    location, under a formula comment whose id differs from the expected id,
    and whose initializer text does not contain the hash of the comment's id. *)
Lemma checkCommentAndHash_foreign_formula (env : Collaborators) (expected : string)
    (doc : TextDocument) (c : Cursor) (comment : TriviaTextWithRange)
    (id literal : string) :
  formulaCommentFor c comment id ->
  id <> expected ->
  storageLocationConstant c literal ->
  Js.includes literal (calculateERC7201StorageLocation env id) = false ->
  exists trimmed,
    getTrimmedRange (initializerCursor c) = Val trimmed /\
    writes (checkCommentAndHash env expected doc c tt) (Val (initializerCursor c, tt))
      [{| diag_range := slangToVSCodeRange doc (trivia_textRange comment);
          diag_message := "Comment does not match namespace id";
          diag_details := ("Expected namespace id `" ++ expected ++ "`")%string;
          diag_severity := DiagnosticSeverity.Warning;
          diag_code := NAMESPACE_ID_MISMATCH_HASH_COMMENT;
          diag_data := Replacement (formulaComment expected) |};
       {| diag_range := slangToVSCodeRange doc trimmed;
          diag_message := "ERC7201 storage location hash does not match comment";
          diag_details := "Hash does not match formula in comment";
          diag_severity := DiagnosticSeverity.Warning;
          diag_code := NAMESPACE_HASH_MISMATCH;
          diag_data := Replacement (calculateERC7201StorageLocation env id) |}]
      [].
Proof.
  intros [Hcomment Hmatch] Hne [sv [Hsv [Hname [Hnt Hlit]]]] Hinc.
  destruct (getTrimmedRange_defined _ Hnt) as [trimmed Htrim].
  exists trimmed. split; [assumption|].
  pose proof (hasNonterminalKind_nonterminal _ _
                (stateVariableDefinition_nonterminal _ Hsv)) as Hnode.
  apply String.eqb_neq in Hne.
  intro st. unfold checkCommentAndHash, checkFormulaComment.
  unfold bind at 1. unfold liftR at 1. rewrite Hcomment, Hmatch, Hne. cbn [negb].
  unfold bind, assertM, liftR, assertR, ret, addDiagnostic. cbn [fst snd].
  rewrite Hnode, Hsv, Hname.
  fold (initializerCursor c). unfold checkStorageLocationConstant.
  unfold isNonterminalNode in Hnt.
  destruct (node (initializerCursor c)) as [|k cs] eqn:Hexpr; [discriminate|].
  rewrite Hlit, Hinc. cbn [negb andb].
  unfold bind, liftR, ret, addDiagnostic. rewrite Htrim.
  unfold extend. cbn [diagnostics console]. rewrite <- app_assoc, app_nil_r.
  reflexivity.
Qed.

(** C1, as the code has it.  The hash validator runs its rounds on the state
    variables of its scan, and for a contract whose state variable definitions
    can be read it returns having reported what the rounds report, in the
    order of the scan.  For a variable of the scan that is named as a storage
    location, under a formula comment whose id differs from the expected id,
    and whose initializer text does not contain the hash of the comment's id,
    the round reports exactly two warnings: NamespaceIdMismatchHashComment at
    the comment and NamespaceHashMismatch at the initializer.  The comment's
    mismatch switches the check against the expected id's hash off, so the
    round reports no NamespaceStandaloneHashMismatch, whatever the initializer
    holds. *)
Theorem C1_foreign_formula_reports (env : Collaborators) (expected : string)
    (doc : TextDocument) (cursor c : Cursor) (k : nat) (comment : TriviaTextWithRange)
    (id literal : string) :
  definitionsReadable cursor ->
  nth_error (hashScan cursor) k = Some c ->
  formulaCommentFor c comment id ->
  id <> expected ->
  storageLocationConstant c literal ->
  Js.includes literal (calculateERC7201StorageLocation env id) = false ->
  exists trimmed,
    getTrimmedRange (initializerCursor c) = Val trimmed /\
    hashRoundWarnings env expected doc c
    = [{| diag_range := slangToVSCodeRange doc (trivia_textRange comment);
          diag_message := "Comment does not match namespace id";
          diag_details := ("Expected namespace id `" ++ expected ++ "`")%string;
          diag_severity := DiagnosticSeverity.Warning;
          diag_code := NAMESPACE_ID_MISMATCH_HASH_COMMENT;
          diag_data := Replacement (formulaComment expected) |};
       {| diag_range := slangToVSCodeRange doc trimmed;
          diag_message := "ERC7201 storage location hash does not match comment";
          diag_details := "Hash does not match formula in comment";
          diag_severity := DiagnosticSeverity.Warning;
          diag_code := NAMESPACE_HASH_MISMATCH;
          diag_data := Replacement (calculateERC7201StorageLocation env id) |}] /\
    writes (validateNamespaceCommentAndHash env expected cursor doc) (Val tt)
      (flat_map (hashRoundWarnings env expected doc) (firstn k (hashScan cursor))
       ++ hashRoundWarnings env expected doc c
       ++ flat_map (hashRoundWarnings env expected doc) (skipn (S k) (hashScan cursor)))
      [].
Proof.
  intros Hread Hk Hcomment Hne Hconst Hinc.
  destruct (checkCommentAndHash_foreign_formula env doc Hcomment Hne Hconst Hinc)
    as [trimmed [Htrim Hround]].
  exists trimmed. split; [exact Htrim|]. split.
  - unfold hashRoundWarnings. exact (proj1 (proj2 (writes_observed Hround))).
  - rewrite <- (flat_map_nth_error _ _ _ Hk).
    intro st. rewrite validateNamespaceCommentAndHash_rounds.
    apply hashRounds_write. intros cur Hcur.
    apply Hread. apply hashScan_definitions. exact Hcur.
Qed.

Lemma C1_foreign_formula_reports_witness :
  let members := [Sample.commentedTotal; Sample.foreignLocation] in
  let env := Layouts.vaultOfEnv members in
  let doc := Layouts.vaultOfDocument members in
  let cursor := Layouts.vaultOfCursor members in
  exists c comment literal,
    definitionsReadable cursor /\
    nth_error (hashScan cursor) 1 = Some c /\
    formulaCommentFor c comment "example.other" /\
    "example.other" <> "example.Vault" /\
    storageLocationConstant c literal /\
    Js.includes literal (calculateERC7201StorageLocation env "example.other") = false /\
    codes (hashRoundWarnings env "example.Vault" doc c)
    = [NAMESPACE_ID_MISMATCH_HASH_COMMENT; NAMESPACE_HASH_MISMATCH] /\
    codes (diagnosticsOf (validateNamespaceCommentAndHash env "example.Vault" cursor doc))
    = [NAMESPACE_ID_MISMATCH_HASH_COMMENT;
       NAMESPACE_ID_MISMATCH_HASH_COMMENT; NAMESPACE_HASH_MISMATCH].
Proof.
  cbv zeta. eexists. eexists. eexists.
  match goal with
  | |- ?R /\ ?K /\ ?A /\ ?B /\ ?C /\ ?D /\ _ =>
      assert (HR : R);
      [| assert (HK : K) by (vm_compute; reflexivity);
         assert (HA : A) by (split; vm_compute; reflexivity);
         assert (HB : B) by discriminate;
         assert (HC : C) by (eexists; repeat split; vm_compute; reflexivity);
         assert (HD : D) by (vm_compute; reflexivity)]
  end.
  { intros cur Hcur. vm_compute in Hcur.
    destruct Hcur as [<-|[<-|[]]]; eexists; vm_compute; reflexivity. }
  repeat (split; [assumption|]).
  destruct (@C1_foreign_formula_reports
              (Layouts.vaultOfEnv [Sample.commentedTotal; Sample.foreignLocation])
              "example.Vault"
              (Layouts.vaultOfDocument [Sample.commentedTotal; Sample.foreignLocation])
              _ _ 1 _ _ _ HR HK HA HB HC HD)
    as [trimmed [Htrim [Hround Hw]]].
  split.
  - rewrite Hround. reflexivity.
  - destruct (writes_observed Hw) as [_ [Hds _]]. rewrite Hds. vm_compute. reflexivity.
Defined.

(** C1 as the spec states it fails: on the sample constant, under a formula
    comment for another id and with a literal that holds neither hash, the
    hash validator does not report NamespaceStandaloneHashMismatch. *)
Lemma C1_counterexample :
  let env := Sample.vaultEnv Sample.foreignLocation in
  let doc := Sample.vaultDocument Sample.foreignLocation in
  let contract := Sample.vaultCursor Sample.foreignLocation in
  let reported :=
    codes (diagnosticsOf (validateNamespaceCommentAndHash env "example.Vault" contract doc)) in
  foreignFormulaScenario env "example.Vault"
    (Sample.firstInside NonterminalKind.StateVariableDefinition contract) /\
  ~ (In NAMESPACE_HASH_MISMATCH reported /\
     In NAMESPACE_STANDALONE_HASH_MISMATCH reported).
Proof.
  cbv zeta. split.
  - eexists. exists "example.other". eexists.
    split; [split; vm_compute; reflexivity|].
    split; [discriminate|].
    split; [eexists; repeat split; vm_compute; reflexivity|].
    split; vm_compute; reflexivity.
  - vm_compute. intros [_ [H|[H|[]]]]; discriminate.
Qed.

(** A variable the scan passes over gets no round.  After
    [bytes32 private OLD_STORAGE_LOCATION;], which has no initializer, the
    round on that variable goes to the next initializer of the contract, the
    one of [MAIN_STORAGE_LOCATION], and the search for the next variable
    starts from there: the scan ends without a round on
    [MAIN_STORAGE_LOCATION], though it is a storage location constant under a
    formula comment for another id.  Its expression is checked in the round
    on [OLD_STORAGE_LOCATION], which has no comment. *)
Example hashScan_passes_over :
  let members := [Layouts.oldLocation; Sample.foreignLocation] in
  let env := Layouts.vaultOfEnv members in
  let doc := Layouts.vaultOfDocument members in
  let cursor := Layouts.vaultOfCursor members in
  exists old main,
    definitionsIn NonterminalKind.StateVariableDefinition cursor = [old; main]
    /\ foreignFormulaScenario env "example.Vault" main
    /\ hashScan cursor = [old]
    /\ afterHashRound old = initializerCursor main
    /\ codes (diagnosticsOf (validateNamespaceCommentAndHash env "example.Vault" cursor doc))
       = [NAMESPACE_STANDALONE_HASH_MISMATCH].
Proof.
  cbv zeta. eexists. eexists. split; [vm_compute; reflexivity|]. split.
  - eexists. exists "example.other". eexists.
    split; [split; vm_compute; reflexivity|].
    split; [discriminate|].
    split; [eexists; repeat split; vm_compute; reflexivity|].
    split; vm_compute; reflexivity.
  - repeat split; vm_compute; reflexivity.
Qed.

(** ** Which variables the scan of the hash validator visits *)

Lemma nextMatches_moveTo (p : Node -> bool) (c0 x : Cursor) :
  In x (nextMatches p c0) ->
  x = moveTo c0 (cur_index x) /\ cur_index c0 < cur_index x
  /\ exists n, nth_error (nodes c0) (cur_index x) = Some n /\ p n = true.
Proof.
  unfold nextMatches. rewrite in_map_iff. intros [j [<- Hj]].
  apply indicesFrom_sound in Hj. destruct Hj as [Hle [n [Hn Hp]]].
  rewrite nth_error_skipn in Hn.
  replace (S (cur_index c0) + (j - S (cur_index c0))) with j in Hn by lia.
  cbn [moveTo cur_index]. split; [reflexivity|]. split; [lia|]. exists n. auto.
Qed.

Lemma visited_reaches (k : NonterminalKind.t) (next : Cursor -> Cursor) (c0 x : Cursor) :
  cur_completed c0 = false ->
  (forall c, cur_root (next c) = cur_root c /\ cur_offset (next c) = cur_offset c /\
             (cur_completed (next c) = true \/ cur_index c <= cur_index (next c))) ->
  In x (nextMatches (hasNonterminalKind k) c0) ->
  (forall cur, In cur (nextMatches (hasNonterminalKind k) c0) ->
     cur_index cur < cur_index x ->
     cur_completed (next cur) = false /\ cur_index (next cur) < cur_index x) ->
  forall fuel c,
    cur_root c = cur_root c0 -> cur_offset c = cur_offset c0 -> cur_completed c = false ->
    cur_index c0 <= cur_index c < cur_index x ->
    cur_index x - cur_index c <= fuel ->
    In x (visited k next fuel c).
Proof.
  intros Hc0 Hnext Hx Hbefore.
  destruct (nextMatches_moveTo _ _ _ Hx) as [Hxeq [Hxlt [nx [Hnx Hpx]]]].
  induction fuel as [|fuel IH]; intros c Hroot Hoff Hc Hpos Hfuel; [lia|].
  cbn [visited]. unfold goToNextNonterminalWithKind.
  rewrite (goToNextMatching_nextMatch _ _ Hc).
  assert (Hnodes : nodes c = nodes c0) by (unfold nodes; rewrite Hroot; reflexivity).
  pose proof (nextMatch_spec (hasNonterminalKind k) (nodes c) (cur_index c)) as Hspec.
  destruct (nextMatch (hasNonterminalKind k) (nodes c) (cur_index c)) as [j|].
  2:{ rewrite Hnodes in Hspec. rewrite (Hspec (cur_index x) nx) in Hpx;
        [discriminate | lia | exact Hnx]. }
  destruct Hspec as [Hlt [[n [Hn Hp]] Hbetween]]. rewrite Hnodes in Hn, Hbetween.
  assert (Hsame : moveTo c j = moveTo c0 j).
  { unfold moveTo. rewrite Hroot, Hoff, Hc, Hc0. reflexivity. }
  assert (Hle : j <= cur_index x).
  { destruct (Nat.le_gt_cases j (cur_index x)) as [H|H]; [exact H|].
    rewrite (Hbetween (cur_index x) nx) in Hpx; [discriminate | lia | exact Hnx]. }
  destruct (Nat.eq_dec j (cur_index x)) as [->|Hne].
  - left. rewrite Hsame. symmetry. exact Hxeq.
  - right.
    assert (Hin : In (moveTo c j) (nextMatches (hasNonterminalKind k) c0)).
    { rewrite Hsame. apply (@nextMatches_mem _ c0 j n); [lia | exact Hn | exact Hp]. }
    destruct (Hbefore _ Hin) as [Hnc Hnlt]; [cbn [moveTo cur_index]; lia|].
    destruct (Hnext (moveTo c j)) as [Hr1 [Hr2 Hr3]].
    cbn [moveTo cur_root cur_offset cur_index] in *.
    destruct Hr3 as [Hr3|Hr3]; [congruence|].
    apply IH; [congruence | congruence | exact Hnc | lia | lia].
Qed.

(** A state variable definition of the contract is visited when no round on
    a variable before it moves the cursor to it or beyond: the rounds on
    variables not named as a storage location never do, and the round on a
    variable so named does not when its own initializer follows it. *)
Lemma reachedByScan_visited (cursor c : Cursor) :
  In c (definitionsIn NonterminalKind.StateVariableDefinition cursor) ->
  reachedByScan cursor c ->
  In c (hashScan cursor).
Proof.
  intros Hc Hreached. unfold hashScan.
  destruct (nextMatches_moveTo _ _ _ Hc) as [_ [Hlt [n [Hn _]]]].
  apply (@visited_reaches NonterminalKind.StateVariableDefinition afterHashRound
           (spawn cursor) c eq_refl afterHashRound_advances Hc Hreached);
    try reflexivity.
  - cbn [spawn cur_index] in *. lia.
  - cbn [spawn cur_index]. unfold walkLength.
    assert (cur_index c < List.length (nodes (spawn cursor)))
      by (apply nth_error_Some; rewrite Hn; discriminate).
    lia.
Qed.

(** ** The hint for a contract, in a run of the engine *)

Lemma Emits_contractRounds (env : Collaborators) (language : Version) (doc : TextDocument)
    (curs : list Cursor) :
  Emits catalogued (contractRounds env language doc curs).
Proof.
  unfold contractRounds. apply Emits_foldM. intros a x. unfold round.
  apply Emits_bind; [apply Emits_validateContract | intro r; apply Emits_ret].
Qed.

Lemma foldM_app {A B : Type} (f : A -> B -> M A) (l1 l2 : list B) (a : A) (st : State) :
  foldM f (l1 ++ l2) a st = bind (foldM f l1 a) (foldM f l2) st.
Proof.
  revert a st. induction l1 as [|x l1 IH]; intros a st; [reflexivity|].
  cbn [app]. rewrite foldM_cons. unfold bind at 1. cbn [foldM]. unfold bind at 1.
  destruct (f a x st) as [[a'|] st']; [|reflexivity].
  rewrite IH. reflexivity.
Qed.

(** The rounds on the contracts up to one and the rounds on the contracts
    after it, put together. *)
Lemma contractRounds_split (env : Collaborators) (language : Version) (doc : TextDocument)
    (before after : list Cursor) (cursor : Cursor) (ds : list Diagnostic) (ls : list string) :
  roundsReturn env language doc before ->
  writes (validateContract env language doc cursor tt) (Val (cursor, tt)) ds ls ->
  writes (contractRounds env language doc (before ++ cursor :: after))
    (resultOf (contractRounds env language doc after))
    (flat_map (contractReport env language doc) before ++ ds
     ++ diagnosticsOf (contractRounds env language doc after))
    (flat_map (contractLog env language doc) before ++ ls
     ++ consoleOf (contractRounds env language doc after)).
Proof.
  intros Hbefore Hround.
  destruct (Emits_run (Emits_contractRounds env language doc after)) as [Hafter _].
  assert (Hfirst : writes (contractRounds env language doc before) (Val tt)
                     (flat_map (contractReport env language doc) before)
                     (flat_map (contractLog env language doc) before)).
  { apply (@foldM_rounds_compose (validateContract env language doc)).
    intros cur Hcur.
    destruct (Emits_run (Emits_validateContract env language doc cur tt)) as [Hw _].
    rewrite (Hbefore cur Hcur) in Hw. exact Hw. }
  intro st. unfold contractRounds. rewrite foldM_app.
  refine (writes_bind _ Hfirst _ st).
  cbn [foldM]. eapply writes_bind; [eapply writes_round; exact Hround | exact Hafter].
Qed.

(** C10, as the code has it.  The engine treats the contracts of the document
    in order.  When the rounds on the contracts before a contract return, the
    contract parses in isolation, its name and upgradeability can be read, its
    state variables re-parse to trees the typed classes can read and, when it
    is inferred upgradeable, can be read as they stand in the document, then a
    run of the engine reports what the rounds on the contracts before it
    report, then what the round on this contract reports, then what the
    rounds on the contracts after it report.  Among the diagnostics of the
    round on this contract there is exactly one ContractCanBeNamespaced, a
    hint carrying the contract record, when the record's variable list is not
    empty, and none when it is empty.  The list is not empty exactly when some
    state variable of the contract re-parses to a variable with no [immutable]
    or [constant] attribute and no initializer.  For a contract not inferred
    upgradeable the round reports nothing else. *)
Theorem C10_contract_hint (env : Collaborators) (parseOutput : ParseOutput)
    (language : Version) (doc : TextDocument) (before after : list Cursor)
    (cursor : Cursor) (contractNameText : string) (upgradeable : bool) :
  contractCursors parseOutput = before ++ cursor :: after ->
  roundsReturn env language doc before ->
  isValid (language_parse env language NonterminalKind.ContractDefinition
             (unparse (node cursor))) = true ->
  contractName (node cursor) = Val contractNameText ->
  inferUpgradeable cursor (node cursor) = Val upgradeable ->
  (upgradeable = true -> definitionsReadable cursor) ->
  variablesReadable env doc cursor ->
  exists nc,
    writes (validateNamespaces env parseOutput language doc)
      (resultOf (contractRounds env language doc after))
      (flat_map (contractReport env language doc) before
       ++ contractReport env language doc cursor
       ++ diagnosticsOf (contractRounds env language doc after))
      (flat_map (contractLog env language doc) before
       ++ contractLog env language doc cursor
       ++ consoleOf (contractRounds env language doc after))
    /\ resultOf (validateNamespaceableVariables env cursor doc
                   {| name := contractNameText; variables := [] |} (negb upgradeable))
       = Val nc
    /\ (variables nc <> [] <->
        exists cur sv,
          In cur (definitionsIn NonterminalKind.StateVariableDefinition cursor)
          /\ stateVariableDefinition (tree (reparseVariable env doc cur)) = Val sv
          /\ isNamespaceable sv = true)
    /\ withCode CONTRACT_CAN_BE_NAMESPACED (contractReport env language doc cursor)
       = match variables nc with
         | [] => []
         | _ :: _ => [contractCanBeNamespaced doc cursor nc]
         end
    /\ diag_severity (contractCanBeNamespaced doc cursor nc) = DiagnosticSeverity.Hint
    /\ diag_data (contractCanBeNamespaced doc cursor nc) = ContractData nc
    /\ (upgradeable = false ->
        contractReport env language doc cursor
        = withCode CONTRACT_CAN_BE_NAMESPACED (contractReport env language doc cursor)).
Proof.
  intros Hsplit Hbefore Hvalid Hname Hinfer Hchecks Hread.
  assert (Hkind : hasNonterminalKind NonterminalKind.ContractDefinition (node cursor) = true).
  { apply (nextMatches_node _ (createTreeCursor (tree parseOutput))).
    fold (contractCursors parseOutput). rewrite Hsplit. apply in_or_app.
    right. left. reflexivity. }
  destruct (@validateContract_hint env language doc cursor contractNameText upgradeable
              Hkind Hvalid Hname Hinfer Hchecks Hread)
    as [nc [ds [ls [Hround [Hnc [Hiff [Hhint [Hsev [Hdata Honly]]]]]]]]].
  destruct (writes_observed Hround) as [_ [Hds Hls]].
  unfold contractReport, contractLog. rewrite Hds, Hls.
  exists nc. split; [|auto 8].
  intro st. rewrite validateNamespaces_rounds, Hsplit.
  exact (@contractRounds_split env language doc before after cursor _ _ Hbefore Hround st).
Qed.

Lemma C10_contract_hint_witness :
  let env := Sample.vaultEnv Sample.commentedTotal in
  let parseOutput := {| isValid := true; tree := Layouts.brokenThenVault |} in
  let doc := Sample.document (unparse Layouts.brokenThenVault) in
  let language := Sample.v 0 8 23 in
  exists broken cursor,
    contractCursors parseOutput = [broken] ++ cursor :: [] /\
    roundsReturn env language doc [broken] /\
    isValid (language_parse env language NonterminalKind.ContractDefinition
               (unparse (node cursor))) = true /\
    contractName (node cursor) = Val "Vault" /\
    inferUpgradeable cursor (node cursor) = Val true /\
    (true = true -> definitionsReadable cursor) /\
    variablesReadable env doc cursor /\
    exists nc,
      codes (diagnosticsOf (validateNamespaces env parseOutput language doc))
      = [NAMESPACE_ID_MISMATCH_HASH_COMMENT; VARIABLE_CAN_BE_NAMESPACED;
         CONTRACT_CAN_BE_NAMESPACED]
      /\ withCode CONTRACT_CAN_BE_NAMESPACED (contractReport env language doc cursor)
         = [contractCanBeNamespaced doc cursor nc]
      /\ List.length (variables nc) = 1.
Proof.
  cbv zeta. eexists. eexists.
  match goal with
  | |- ?S /\ ?R /\ ?A /\ ?B /\ ?C /\ ?D /\ ?E /\ _ =>
      assert (HS : S) by (vm_compute; reflexivity);
      assert (HR : R);
      [| assert (HA : A) by (vm_compute; reflexivity);
         assert (HB : B) by (vm_compute; reflexivity);
         assert (HC : C) by (vm_compute; reflexivity);
         assert (HD : D);
         [| assert (HE : E)]]
  end.
  { intros cur [<-|[]]. vm_compute. reflexivity. }
  { intros _ cur Hcur. vm_compute in Hcur. destruct Hcur as [<-|[]].
    eexists. vm_compute. reflexivity. }
  { intros cur Hcur. vm_compute in Hcur. destruct Hcur as [<-|[]].
    eexists. vm_compute. reflexivity. }
  repeat (split; [assumption|]).
  destruct (@C10_contract_hint (Sample.vaultEnv Sample.commentedTotal)
              {| isValid := true; tree := Layouts.brokenThenVault |} (Sample.v 0 8 23)
              (Sample.document (unparse Layouts.brokenThenVault))
              _ [] _ "Vault" true HS HR HA HB HC HD HE)
    as [nc [Hw [Hnc [_ [Hhint _]]]]].
  exists nc.
  assert (Hone : List.length (variables nc) = 1).
  { vm_compute in Hnc. injection Hnc as <-. reflexivity. }
  split; [|split; [|exact Hone]].
  - destruct (writes_observed Hw) as [_ [Hds _]]. rewrite Hds. vm_compute. reflexivity.
  - rewrite Hhint. destruct (variables nc); [discriminate | reflexivity].
Defined.

(** C10 as it is stated fails: the sample contract [Ledger] parses in
    isolation and its state variable [total] has no [immutable] or [constant]
    attribute and no initializer, but with a parser that returns an empty tree
    for the text of [total] the engine throws in the variable classifier and
    reports no ContractCanBeNamespaced. *)
Lemma C10_counterexample :
  let env := Sample.failingEnv in
  let doc := Sample.ledgerDocument in
  let parseOutput := {| isValid := true; tree := Sample.sourceUnit [Sample.ledger] |} in
  let language := Sample.v 0 8 23 in
  let total := Sample.firstInside NonterminalKind.StateVariableDefinition
                 Sample.ledgerCursor in
  contractCursors parseOutput = [Sample.ledgerCursor]
  /\ isValid (language_parse env language NonterminalKind.ContractDefinition
                (unparse (node Sample.ledgerCursor))) = true
  /\ In total (definitionsIn NonterminalKind.StateVariableDefinition Sample.ledgerCursor)
  /\ (exists sv, stateVariableDefinition (node total) = Val sv
                 /\ isNamespaceable sv = true)
  /\ resultOf (validateNamespaces env parseOutput language doc) = Throw
  /\ ~ In CONTRACT_CAN_BE_NAMESPACED
         (codes (diagnosticsOf (validateNamespaces env parseOutput language doc))).
Proof.
  cbv zeta. split; [vm_compute; reflexivity|]. split; [vm_compute; reflexivity|].
  split; [vm_compute; left; reflexivity|].
  split; [eexists; split; vm_compute; reflexivity|].
  split; [vm_compute; reflexivity|].
  vm_compute. intro H. repeat (destruct H as [H|H]; [discriminate|]). exact H.
Qed.

(** ** Where a run of the engine stops *)

(** A round that throws ends the run: the contracts after it are not looked
    at.  [Tally] parses but the text of its variable [count] re-parses to an
    empty tree, so the round on [Tally] throws in the variable classifier,
    and the hint that the engine reports for [Plain] alone is not reported. *)
Example engine_stops_at_throwing_round :
  let doc := Sample.document (unparse Layouts.tallyThenPlain) in
  let language := Sample.v 0 8 23 in
  let run := validateNamespaces Layouts.tallyEnv
               {| isValid := true; tree := Layouts.tallyThenPlain |} language doc in
  List.length (contractCursors {| isValid := true; tree := Layouts.tallyThenPlain |}) = 2
  /\ resultOf run = Throw
  /\ diagnosticsOf run = []
  /\ consoleOf run = ["Parsing contract: Tally"]
  /\ codes (diagnosticsOf
              (validateNamespaces Layouts.tallyEnv
                 {| isValid := true; tree := Sample.sourceUnit [Sample.plain] |}
                 language Sample.plainDocument))
     = [CONTRACT_CAN_BE_NAMESPACED].
Proof. cbv zeta. repeat split; vm_compute; reflexivity. Qed.
